(* ===== verification/_CoqProject ===== *)
-Q . S2P
Prelude.v
GoStrings.v
GoTime.v
GoUtf8.v
GoCodec.v
GoCrypto.v
GoJson.v
GoJsonSpec.v
GoDuration.v
GoHttp.v
Web.v
Sql.v
Store.v
StoreSpec.v
Auth.v
AuthSpec.v
Waf.v
WafSpec.v
RateLimit.v
RateLimitSpec.v
GoUrl.v
ReverseProxy.v
ReverseProxySpec.v
EventSink.v
Proxy.v
ProxySpec.v
Config.v
Shutdown.v
Api.v
ApiSpec.v
WebSpec.v
Wafportal.v
WafportalSpec.v
Concurrent.v
Runtime.v
Instances.v
Examples.v
