(* ===== verification/Prelude.v ===== *)
(** * wafportal: a verification library (root file)

    wafportal is an L7 web application firewall in one Go binary: a proxy data
    plane built on the Coraza engine and a control plane with a REST API and a
    single-page app, over a SQLite database. This library is a shallow
    embedding of its Go code - every handler, statement and background loop is
    a function or a step relation on an explicit state - with the theorems that
    make it correct.

    ** The program and its model

    Requests from the Internet go through [Proxy.ServeHTTP]: rate limiter,
    routing by Host header, firewall middleware, reverse proxy. The middleware
    hands events to a buffered sink whose worker stores them. Administrators
    change sites and rules through the API, which after every change calls
    [reload] to recompile the engines and rebuild the routing table from the
    store. The files and what they model:

    - [Prelude]: results, the state monad and its notations, tactics, bytes.
    - [GoStrings], [GoTime], [GoUtf8], [GoCodec], [GoCrypto], [GoJson],
      [GoDuration], [GoUrl], [GoHttp]: what the source uses of Go's standard
      library, as executable functions: strings and strconv; the calendar, the
      text forms of times and the parser of RFC 3339; UTF-8; hexadecimal and
      base64; SHA-256 and HMAC; JSON scanning, parsing (with the messages of
      syntax errors) and printing; durations, with float64 and wrapping uint64;
      [url.Parse] and path escaping; requests, and handlers' effects on a response
      writer.
      [GoJsonSpec]: the JSON parser never runs out of fuel, and printed values
      read back.
    - [Sql], [Store] (src/internal/store/store.go, models.go): tables with
      AUTOINCREMENT keys, every statement, the failures a statement can have.
      [StoreSpec]: well-formedness, refinement of an abstract repository, the
      listings, the dashboard statistics.
    - [Auth] (src/internal/auth/auth.go), [AuthSpec]: account, sessions.
    - [Waf] (src/internal/waf/manager.go, middleware.go), [WafSpec]: engines,
      request phases, events, status recorder.
    - [RateLimit] (src/internal/ratelimit/ratelimit.go), [RateLimitSpec]: token
      buckets behind pointers, eviction, interleavings.
    - [EventSink] (src/cmd/wafportal/main.go, eventSink): queue and worker.
    - [ReverseProxy] (net/http/httputil as newReverseProxy of
      src/internal/proxy/proxy.go uses it), [ReverseProxySpec]: the request to
      the upstream, the copy of its answer, protocol upgrades.
    - [Proxy] (src/internal/proxy/proxy.go), [ProxySpec]: the program state
      [System], the routing table, certificates, the request path.
    - [Config] (src/internal/config/config.go and the listeners of main.go).
    - [Shutdown] (src/cmd/wafportal/main.go, waitForShutdown): the servers'
      connections after the signal.
    - [Web] (src/web/embed.go): the embedded tree and [http.FileServer].
    - [Api] (src/internal/api/api.go), [ApiSpec], [WebSpec]: every handler, the
      route table with its authenticated group, decoding and encoding, the
      single-page app.
    - [Wafportal] (src/cmd/wafportal/main.go), [WafportalSpec]: the [reload]
      closure, start-up, the admin server, and what the whole promises.
    - [Concurrent]: [reload] split at its interleaving points, with any number
      of calls under way at once.
    - [Runtime]: the steps of the running program: the store operations and
      reload steps of admin requests, admission, routing and serving of proxied
      ones, the worker, the limiter's clean-up; the handlers are runs of them.
    - [Instances], [Examples]: sample instances of every interface, with their
      laws proved, and each theorem with hypotheses at concrete inputs.

    Definitions keep the source's names; a method has its type's name in front
    where two would clash ([ManagerReload], [ProxyReload], [ApiServe]). A record
    field carries a short prefix for its struct. An operation that can fail
    returns [res] or an [option error]; an operation on state is a function
    [M S A := S -> A * S], and [on_store] lifts the store's operations to any
    state that contains the store ([HasStore]).

    ** What is proved

    - Safety of changes: no request to the control plane leaves the proxy
      without engines ([admin_keeps_running]); [reload] is exact or keeps the
      old table ([reload_spec]); a rule that does not compile is rolled back on
      creation ([create_rule_rollback]) but not on update
      ([update_rule_sticks]); under all interleavings only engines of rulesets
      that were read are used ([only_configured_engines]), though an outdated
      one can win ([overlapping_reloads_stale]).
    - The whole: every handler is a run of the interleaved steps
      ([requests_are_runs]), and every state such steps reach is sound
      ([every_state_sound]); stored sites and rules stay within their types, so
      that only a site in off mode is served without the firewall
      ([admin_keeps_types]); the events table is only appended to
      ([audit_trail]); shutting down takes at most ten seconds
      ([wait_for_shutdown_terminates]).
    - Serving: a created site takes the hosts of its domain, in every letter
      case and with any port, and no others ([create_site_served]) - none if it
      is disabled, has no usable upstream or a domain with a colon; attacks are blocked and their event is stored ([attack_blocked],
      [attack_recorded]); clean requests pass unchanged, body included; what
      the upstream is asked and what the client gets of its answer
      ([request_forwarded], [exchange_relayed]), but no protocol upgrade behind
      the firewall ([firewall_breaks_upgrades]); limits, redirects and
      certificates follow the configuration; the web application's files
      ([spa_serves]).
    - Access: protected routes need a session, sessions are what the server
      signed, last seven days and survive restarts, except that a user name
      with a vertical bar never gets one ([login_opens_session]); the account
      operations on every branch.
    - Storage: refinement of an abstract repository, invariants, independence
      of SQLite's free choices, the page and dashboard queries; a site fetched
      and put back changes nothing but its update time.
    - Rate limiting: eviction is invisible, clients are isolated, memory is
      bounded by recent clients, buckets are never shared.
    - Events: the sink never reorders, duplicates or invents, its worker
      finishes ([worker_drains]); what an event says of the matched rules.

    ** Parameters

    Code that is not part of the repository is a type class whose laws state
    documented behaviour: [Bcrypt], [Coraza] (its body buffer), [TokenBucket]
    (x/time/rate), [SqlEngine] (order of ties, bare columns, strftime), [Yaml],
    [Chi], [Autocert]; [KeyPairs] and [Transport] stand for files and the
    network behind crypto/tls and [http.DefaultTransport]; [FileAnswers] for the
    system's media types, the answers to conditional and range requests and the
    page that lists a directory; [UnicodeTables] is
    the case mapping of letters outside ASCII, [UrlRelease] a check of
    [url.Parse] that depends on the Go release, [TimeMessages] the wording of
    time parse errors. The environment is explicit: the clock (which never goes
    back), the random source and a schedule of failing statements are part of
    [StoreState].

    ** Fuel and bounds

    Recursion is structural except in number formatting (fuel [digit_fuel],
    enough by [digit_fuel_enough]), the JSON parser (two units per character
    and two, [json_parse_complete]), JSON quoting and unquoting and the check of
    UTF-8 (one unit per byte, each round consumes one), duration parts (one unit
    per character, [parse_parts_fuel]) and the polling of a server that shuts
    down (one unit per millisecond that is left, [shutdown_total]). Integers that can overflow are wrapped or clamped as
    Go does: keys and [int64] fields, [strconv], the uint64 of a duration. The
    order of stored time texts is proved for the years 0 to 9999
    ([in_calendar]), where it is the order of the instants.

    ** Not modelled

    Log output, flag parsing, sockets and signals; the connection pool and
    closing the database; trailers and tunnelled bytes of a proxied request, and
    when a streamed answer is flushed without being written to; the time zone
    of a time a client sends, which the server stores as an instant; the wording
    of a few library errors; the web front end and deployment files. A failing
    read of a request body is not distinguished from its end. Timers fire on
    time. One operation of the store or of the session code is one step of
    [Runtime]: its statements, where it has several, are not taken apart, nor is
    serving, which shares only the clock and the sink with others. *)

From stdpp Require Export base gmap strings list list_numbers sorting.
From Stdlib Require Export Lia.
From Stdlib Require Import Ascii.

#[export] Set Warnings "-clear-no-such-hyp".

(** ** Results and the state monad *)

Declare Scope go_scope.
Delimit Scope go_scope with go.

(** An [error] value is its message: the code only ever prints it or tests it
    against [nil]. *)
Abbreviation error := string (only parsing).

(** A Go pair [(T, error)] of which exactly one half is meaningful. *)
Inductive res (A : Type) : Type :=
| Ok (a : A)
| Err (e : error).
Arguments Ok {A} a.
Arguments Err {A} e.

Definition is_ok {A} (r : res A) : bool :=
  match r with Ok _ => true | Err _ => false end.

(** State passing: every operation takes the state and returns its result with
    the new state. *)
Definition M (S A : Type) : Type := S -> A * S.

Definition ret {S A} (a : A) : M S A := fun s => (a, s).

Definition bind {S A B} (m : M S A) (k : A -> M S B) : M S B :=
  fun s => let p := m s in k p.1 p.2.

(** Sequencing of an operation that returns [(T, error)]: the early return
    [if err != nil { return ..., err }]. *)
Definition bind_ok {S A B} (m : M S (res A)) (k : A -> M S (res B)) : M S (res B) :=
  bind m (fun r => match r with Ok a => k a | Err e => ret (Err e) end).

Notation "'let!' x ':=' m 'in' k" := (bind m (fun x => k))
  (at level 10, x name, m at level 100, k at level 200) : go_scope.
Notation "'let?' x ':=' m 'in' k" := (bind_ok m (fun x => k))
  (at level 10, x name, m at level 100, k at level 200) : go_scope.
Notation "'do!' m ';;' k" := (bind m (fun _ => k))
  (at level 10, m at level 99, k at level 200) : go_scope.
Notation "'do?' m ';;' k" := (bind_ok m (fun _ => k))
  (at level 10, m at level 99, k at level 200) : go_scope.

Definition gets {S A} (f : S -> A) : M S A := fun s => (f s, s).
Definition modify {S} (f : S -> S) : M S unit := fun s => (tt, f s).

(** ** Tactics *)

(** Unfold the monad in the goal and reduce the projections it leaves. *)
Ltac run_monad :=
  cbv beta iota zeta delta [bind bind_ok ret gets modify fst snd] in *.

(** Case analysis on every boolean test and option match of the goal. *)
Ltac go_cases :=
  repeat (case_match || case_decide); simplify_eq/=; try done.

(** Turn boolean comparisons on [Z] in hypotheses and goal into propositions. *)
Ltac zbool :=
  repeat match goal with
  | H : (_ <? _)%Z = true |- _ => apply Z.ltb_lt in H
  | H : (_ <? _)%Z = false |- _ => apply Z.ltb_ge in H
  | H : (_ <=? _)%Z = true |- _ => apply Z.leb_le in H
  | H : (_ <=? _)%Z = false |- _ => apply Z.leb_gt in H
  | H : (_ =? _)%Z = true |- _ => apply Z.eqb_eq in H
  | H : (_ =? _)%Z = false |- _ => apply Z.eqb_neq in H
  | H : (_ && _) = true |- _ => apply andb_true_iff in H; destruct H
  | H : (_ || _) = false |- _ => apply orb_false_iff in H; destruct H
  | H : negb _ = true |- _ => apply negb_true_iff in H
  | H : negb _ = false |- _ => apply negb_false_iff in H
  end.

(** Linear arithmetic with division and remainder by constants. *)
Ltac zdiv := Z.div_mod_to_equations; lia.

(** ** Machine integers: Go's [int] and [int64] on a 64-bit target *)

Definition int64_max : Z := 2 ^ 63 - 1.
Definition int64_min : Z := - 2 ^ 63.
Definition in_int64 (z : Z) : Prop := (int64_min <= z <= int64_max)%Z.

#[export] Instance in_int64_dec z : Decision (in_int64 z).
Proof. unfold in_int64. apply _. Defined.

(** ** Bytes and strings

    A Go [string] and a Go byte slice are both sequences of bytes; both are
    modelled by [string], whose characters are 8-bit. *)

Definition byte_of (c : ascii) : Z := Z.of_N (N_of_ascii c).
Definition of_byte (z : Z) : ascii := ascii_of_N (Z.to_N z).
Definition is_byte (z : Z) : Prop := (0 <= z < 256)%Z.

Lemma byte_of_range c : is_byte (byte_of c).
Proof.
  unfold is_byte, byte_of. pose proof (N_ascii_bounded c). lia.
Qed.

Lemma of_byte_of c : of_byte (byte_of c) = c.
Proof. unfold of_byte, byte_of. by rewrite N2Z.id, ascii_N_embedding. Qed.

Lemma byte_of_of z : is_byte z -> byte_of (of_byte z) = z.
Proof.
  unfold is_byte, of_byte, byte_of. intros Hz.
  rewrite N_ascii_embedding; lia.
Qed.

#[export] Instance byte_of_inj : Inj (=) (=) byte_of.
Proof. intros c d H. by rewrite <- (of_byte_of c), H, of_byte_of. Qed.

Fixpoint bytes_of (s : string) : list Z :=
  match s with
  | EmptyString => []
  | String c s => byte_of c :: bytes_of s
  end.

Fixpoint of_bytes (l : list Z) : string :=
  match l with
  | [] => EmptyString
  | z :: l => String (of_byte z) (of_bytes l)
  end.

Lemma of_bytes_of s : of_bytes (bytes_of s) = s.
Proof. induction s; simpl; [done|]. by rewrite of_byte_of, IHs. Qed.

Lemma bytes_of_of l : Forall is_byte l -> bytes_of (of_bytes l) = l.
Proof. induction 1; simpl; [done|]. by rewrite byte_of_of, IHForall. Qed.

Lemma bytes_of_range s : Forall is_byte (bytes_of s).
Proof. induction s; simpl; constructor; auto using byte_of_range. Qed.

Lemma string_app_nil_l (a : string) : "" +:+ a = a.
Proof. reflexivity. Qed.

Lemma string_app_cons c (a b : string) : String c a +:+ b = String c (a +:+ b).
Proof. reflexivity. Qed.

Lemma bytes_of_app s t : bytes_of (s +:+ t) = bytes_of s ++ bytes_of t.
Proof. induction s; [done|]. rewrite string_app_cons. simpl. by rewrite IHs. Qed.

Lemma of_bytes_app l k : of_bytes (l ++ k) = of_bytes l +:+ of_bytes k.
Proof. induction l; simpl; [done|]. by rewrite IHl, string_app_cons. Qed.

Lemma length_bytes_of s : length (bytes_of s) = String.length s.
Proof. induction s; simpl; auto. Qed.

Lemma string_app_assoc (a b c : string) : a +:+ (b +:+ c) = (a +:+ b) +:+ c.
Proof. induction a; [done|]. by rewrite ?string_app_cons, ?IHa. Qed.

Lemma string_app_nil_r (a : string) : a +:+ "" = a.
Proof. induction a; [done|]. by rewrite ?string_app_cons, ?IHa. Qed.

Lemma string_length_app (a b : string) :
  String.length (a +:+ b) = String.length a + String.length b.
Proof. induction a; [done|]. rewrite string_app_cons. simpl. auto. Qed.

(** [char_in c s]: the byte [c] occurs in [s]. *)
Fixpoint char_in (c : ascii) (s : string) : bool :=
  match s with
  | EmptyString => false
  | String d s => if decide (c = d) then true else char_in c s
  end.

Lemma char_in_app c s t : char_in c (s +:+ t) = char_in c s || char_in c t.
Proof. induction s; [done|]. rewrite string_app_cons. simpl. by case_decide. Qed.

Create HintDb go.
Create Rewrite HintDb go_str.
#[export] Hint Resolve byte_of_range bytes_of_range : go.
#[export] Hint Rewrite of_bytes_of string_app_nil_l string_app_cons string_app_nil_r bytes_of_app of_bytes_app : go_str.
