(* ===== verification/GoStrings.v ===== *)
(** * The parts of Go's [strings], [strconv] and [net] the program uses

    [strings.ToLower], [strings.TrimSpace], [strings.IndexByte],
    [strings.LastIndexByte], [strings.Cut], [strings.Join],
    [strconv.ParseInt], [strconv.Atoi], [strconv.FormatInt] and
    [net.SplitHostPort], with the lemmas the components need. *)

From S2P Require Export Prelude.
From Stdlib Require Import Ascii.

(** ** Slices of strings *)

Fixpoint str_take (n : nat) (s : string) : string :=
  match n, s with
  | S n, String c s => String c (str_take n s)
  | _, _ => ""
  end.

Fixpoint str_drop (n : nat) (s : string) : string :=
  match n, s with
  | S n, String _ s => str_drop n s
  | _, _ => s
  end.

(** [strings.IndexByte] and [strings.LastIndexByte]; [None] is Go's [-1]. *)
Fixpoint index_byte (c : ascii) (s : string) : option nat :=
  match s with
  | EmptyString => None
  | String d s => if decide (c = d) then Some 0 else S <$> index_byte c s
  end.

Fixpoint last_index_byte (c : ascii) (s : string) : option nat :=
  match s with
  | EmptyString => None
  | String d s =>
      match last_index_byte c s with
      | Some i => Some (S i)
      | None => if decide (c = d) then Some 0 else None
      end
  end.

(** [strings.Cut] on a one-byte separator; [None] is [found = false]. *)
Fixpoint cut (c : ascii) (s : string) : option (string * string) :=
  match s with
  | EmptyString => None
  | String d s =>
      if decide (c = d) then Some ("", s)
      else (fun '(a, b) => (String d a, b)) <$> cut c s
  end.

(** [strings.Join]. *)
Fixpoint join (sep : string) (l : list string) : string :=
  match l with
  | [] => ""
  | [s] => s
  | s :: l => s +:+ sep +:+ join sep l
  end.

(** [strings.HasPrefix], [CutPrefix] and [HasSuffix]. *)
Definition has_prefix (p s : string) : bool := String.prefix p s.

Fixpoint cut_prefix (p s : string) : option string :=
  match p, s with
  | EmptyString, _ => Some s
  | String a p, String b s => if decide (a = b) then cut_prefix p s else None
  | String _ _, EmptyString => None
  end.

Definition has_suffix (p s : string) : bool :=
  (String.length p <=? String.length s)%nat &&
  bool_decide (str_drop (String.length s - String.length p) s = p).

(** [strings.Split] at one byte: never empty. *)
Fixpoint split_on (c : ascii) (s : string) : list string :=
  match s with
  | EmptyString => [""]
  | String d s =>
      if decide (c = d) then "" :: split_on c s
      else match split_on c s with
           | x :: l => String d x :: l
           | [] => [String d ""]
           end
  end.

(** ** [strings.ToLower]

    Go maps a pure ASCII string byte by byte and any other string through the
    Unicode tables ([strings.Map(unicode.ToLower, s)]). The tables are data of
    the standard library and stay abstract; every theorem holds for all of
    them. *)
Class UnicodeTables := { map_to_lower : string -> string }.

Definition lower_byte (c : ascii) : ascii :=
  let b := byte_of c in
  if ((65 <=? b) && (b <=? 90))%Z then of_byte (b + 32) else c.

Fixpoint is_ascii (s : string) : bool :=
  match s with
  | EmptyString => true
  | String c s => (byte_of c <? 128)%Z && is_ascii s
  end.

Fixpoint ascii_lower (s : string) : string :=
  match s with
  | EmptyString => ""
  | String c s => String (lower_byte c) (ascii_lower s)
  end.

Definition to_lower `{UnicodeTables} (s : string) : string :=
  if is_ascii s then ascii_lower s else map_to_lower s.

(** ** [strings.TrimSpace]

    White space is [unicode.IsSpace], by its UTF-8 encodings: one-byte ASCII
    spaces, U+0085 and U+00A0 on two bytes, and U+1680, U+2000 to U+200A,
    U+2028, U+2029, U+202F, U+205F and U+3000 on three. *)
Definition space1 (b : Z) : bool := ((9 <=? b) && (b <=? 13))%Z || (b =? 32)%Z.
Definition space2 (b0 b1 : Z) : bool :=
  (b0 =? 0xC2)%Z && ((b1 =? 0x85)%Z || (b1 =? 0xA0)%Z).
Definition space3 (b0 b1 b2 : Z) : bool :=
  ((b0 =? 0xE1) && (b1 =? 0x9A) && (b2 =? 0x80))%Z
  || ((b0 =? 0xE2) && (b1 =? 0x80)
      && (((0x80 <=? b2) && (b2 <=? 0x8A)) || (b2 =? 0xA8) || (b2 =? 0xA9) || (b2 =? 0xAF)))%Z
  || ((b0 =? 0xE2) && (b1 =? 0x81) && (b2 =? 0x9F))%Z
  || ((b0 =? 0xE3) && (b1 =? 0x80) && (b2 =? 0x80))%Z.

(** Strip a prefix of white space; [p2] and [p3] recognise the multi-byte
    spaces in reading order. *)
Fixpoint trim_front (p2 : Z -> Z -> bool) (p3 : Z -> Z -> Z -> bool) (l : list Z) : list Z :=
  match l with
  | [] => []
  | b0 :: l0 =>
      if space1 b0 then trim_front p2 p3 l0 else
      match l0 with
      | [] => l
      | b1 :: l1 =>
          if p2 b0 b1 then trim_front p2 p3 l1 else
          match l1 with
          | [] => l
          | b2 :: l2 => if p3 b0 b1 b2 then trim_front p2 p3 l2 else l
          end
      end
  end.

Definition trim_left (l : list Z) : list Z := trim_front space2 space3 l.
Definition trim_right (l : list Z) : list Z :=
  reverse (trim_front (fun b1 b0 => space2 b0 b1) (fun b2 b1 b0 => space3 b0 b1 b2) (reverse l)).

Definition trim_space (s : string) : string :=
  of_bytes (trim_right (trim_left (bytes_of s))).

(** ** [strconv] *)

Inductive num_error := ErrSyntax | ErrRange.

#[export] Instance num_error_eq_dec : EqDecision num_error.
Proof. solve_decision. Defined.

Definition digit_char (d : Z) : ascii := of_byte (48 + d).
Definition digit_val (c : ascii) : option Z :=
  let d := (byte_of c - 48)%Z in
  if ((0 <=? d) && (d <? 10))%Z then Some d else None.

Definition is_digit (c : ascii) : bool := ((48 <=? byte_of c) && (byte_of c <=? 57))%Z.

Definition max_uint64 : Z := 2 ^ 64 - 1.

(** The digit loop of [ParseUint(s, 10, 64)]: the overflow test comes before
    the rest of the string is looked at. *)
Fixpoint parse_uint_loop (s : string) (n : Z) : Z * option num_error :=
  match s with
  | EmptyString => (n, None)
  | String c s =>
      match digit_val c with
      | None => (0%Z, Some ErrSyntax)
      | Some d =>
          if (max_uint64 / 10 + 1 <=? n)%Z then (max_uint64, Some ErrRange)
          else if (max_uint64 <? n * 10 + d)%Z then (max_uint64, Some ErrRange)
          else parse_uint_loop s (n * 10 + d)
      end
  end.

Definition parse_uint (s : string) : Z * option num_error :=
  match s with
  | EmptyString => (0%Z, Some ErrSyntax)
  | _ => parse_uint_loop s 0
  end.

(** Sign and digits of [ParseInt]. *)
Definition split_sign (s : string) : bool * string :=
  match s with
  | String c r =>
      if decide (c = "-"%char) then (true, r)
      else if decide (c = "+"%char) then (false, r) else (false, s)
  | EmptyString => (false, s)
  end.

(** [strconv.ParseInt(s, 10, 64)]: the value returned with the error is kept,
    because callers that drop the error use it. *)
Definition parse_int (s : string) : Z * option num_error :=
  match s with
  | EmptyString => (0%Z, Some ErrSyntax)
  | _ =>
      let '(neg, r) := split_sign s in
      match parse_uint r with
      | (_, Some ErrSyntax) => (0%Z, Some ErrSyntax)
      | (un, _) =>
          if negb neg && (2 ^ 63 <=? un)%Z then (int64_max, Some ErrRange)
          else if neg && (2 ^ 63 <? un)%Z then (int64_min, Some ErrRange)
          else ((if neg then - un else un)%Z, None)
      end
  end.

(** [strconv.Atoi] is [ParseInt(s, 10, 0)]; its fast path for short strings
    computes the same function. *)
Definition atoi (s : string) : Z * option num_error := parse_int s.

(** [strconv.FormatInt(z, 10)]. *)
Fixpoint fmt_digits (fuel : nat) (n : Z) (acc : string) : string :=
  match fuel with
  | O => acc
  | S f =>
      let acc := String (digit_char (n mod 10)) acc in
      if (n <? 10)%Z then acc else fmt_digits f (n / 10) acc
  end.

Definition digit_fuel (n : Z) : nat := S (Z.to_nat (Z.log2 n)).
Definition format_uint (n : Z) : string := fmt_digits (digit_fuel n) n "".
Definition format_int (z : Z) : string :=
  if (z <? 0)%Z then String "-"%char (format_uint (- z)) else format_uint z.

(** ** [net.SplitHostPort] *)

Inductive addr_error := MissingPort | TooManyColons | MissingBracket | UnexpectedBracket.

Definition char_at (s : string) (i : nat) : option ascii := String.get i s.

Definition split_host_port (hostport : string) : (string * string) + addr_error :=
  match last_index_byte ":"%char hostport with
  | None => inr MissingPort
  | Some i =>
      let finish host j k :=
        if char_in "["%char (str_drop j hostport) then inr UnexpectedBracket
        else if char_in "]"%char (str_drop k hostport) then inr UnexpectedBracket
        else inl (host, str_drop (S i) hostport) in
      if decide (char_at hostport 0 = Some "["%char) then
        match index_byte "]"%char hostport with
        | None => inr MissingBracket
        | Some e =>
            if decide (S e = String.length hostport) then inr MissingPort
            else if decide (S e = i) then finish (str_drop 1 (str_take e hostport)) 1 (S e)
            else if decide (char_at hostport (S e) = Some ":"%char) then inr TooManyColons
            else inr MissingPort
        end
      else
        let host := str_take i hostport in
        if char_in ":"%char host then inr TooManyColons else finish host 0 0
  end.

(** ** Lemmas: [Cut] and slices *)

Lemma cut_app c a b : char_in c a = false -> cut c (a +:+ String c b) = Some (a, b).
Proof.
  induction a as [|d a IH]; intros Ha; rewrite ?string_app_nil_l, ?string_app_cons; simpl in *.
  - by rewrite decide_True.
  - case_decide; [done|]. by rewrite IH.
Qed.

Lemma cut_Some c s a b :
  cut c s = Some (a, b) -> s = a +:+ String c b /\ char_in c a = false.
Proof.
  revert a b. induction s as [|d s IH]; intros a b; simpl; [done|].
  case_decide as Hc; [by intros [= <- <-]; subst|].
  destruct (cut c s) as [[a' b']|] eqn:E; simpl; [|done].
  intros [= <- <-]. destruct (IH _ _ eq_refl) as [-> Ha].
  rewrite string_app_cons. simpl. by rewrite decide_False.
Qed.

Lemma cut_None c s : cut c s = None <-> char_in c s = false.
Proof.
  induction s as [|d s IH]; simpl; [done|]. case_decide; [done|].
  rewrite <- IH. by destruct (cut c s) as [[]|].
Qed.

Lemma str_take_app a b : str_take (String.length a) (a +:+ b) = a.
Proof.
  induction a as [|c a IH]; [by destruct b|].
  rewrite string_app_cons. simpl. by rewrite IH.
Qed.

Lemma str_drop_app a b : str_drop (String.length a) (a +:+ b) = b.
Proof. induction a as [|c a IH]; [by destruct b|]. by rewrite string_app_cons. Qed.

Lemma str_take_drop n s : str_take n s +:+ str_drop n s = s.
Proof.
  revert s. induction n as [|n IH]; intros [|c s]; try done.
  simpl. rewrite string_app_cons. by rewrite IH.
Qed.

Lemma index_byte_Some c s i :
  index_byte c s = Some i ->
  s = str_take i s +:+ String c (str_drop (S i) s) /\ char_in c (str_take i s) = false.
Proof.
  revert i. induction s as [|d s IH]; intros i; simpl; [done|].
  case_decide as Hc; [intros [= <-]; by subst|].
  destruct (index_byte c s) as [j|] eqn:E; simpl; [|done].
  intros [= <-]. destruct (IH j eq_refl) as [Hs Hn].
  simpl. rewrite string_app_cons, decide_False by done. split; [|done].
  f_equal. rewrite Hs at 1. by destruct s.
Qed.

Lemma last_index_byte_app c a b :
  char_in c b = false -> last_index_byte c (a +:+ String c b) = Some (String.length a).
Proof.
  intros Hb. assert (last_index_byte c b = None) as Hn.
  { induction b as [|d b IH]; simpl in *; [done|].
    case_decide; [done|]. by rewrite IH. }
  induction a as [|d a IH]; simpl.
  - rewrite Hn. by rewrite decide_True.
  - by rewrite IH.
Qed.

Lemma last_index_byte_None c s : last_index_byte c s = None <-> char_in c s = false.
Proof.
  induction s as [|d s IH]; simpl; [done|].
  destruct (last_index_byte c s); case_decide; try done; rewrite <- IH; done.
Qed.

(** ** Lemmas: case folding *)

Lemma byte_of_lower c :
  byte_of (lower_byte c) =
  if ((65 <=? byte_of c) && (byte_of c <=? 90))%Z then (byte_of c + 32)%Z else byte_of c.
Proof.
  unfold lower_byte. case_match eqn:E; [|done].
  rewrite byte_of_of; [done|]. zbool. pose proof (byte_of_range c). unfold is_byte. lia.
Qed.

Lemma lower_byte_idem c : lower_byte (lower_byte c) = lower_byte c.
Proof.
  apply (inj byte_of). rewrite !byte_of_lower. repeat case_match; zbool; lia.
Qed.

Lemma is_ascii_lower s : is_ascii s = true -> is_ascii (ascii_lower s) = true.
Proof.
  induction s as [|c s IH]; simpl; [done|]. intros [Hc Hs]%andb_true_iff.
  rewrite IH by done. zbool. rewrite byte_of_lower.
  apply andb_true_iff; split; [|done]. case_match; zbool; lia.
Qed.

Lemma ascii_lower_idem s : ascii_lower (ascii_lower s) = ascii_lower s.
Proof. induction s; simpl; by rewrite ?lower_byte_idem, ?IHs. Qed.

Lemma to_lower_idem `{UnicodeTables} s :
  is_ascii s = true -> to_lower (to_lower s) = to_lower s.
Proof.
  intros Hs. unfold to_lower. rewrite Hs, is_ascii_lower by done. apply ascii_lower_idem.
Qed.

Lemma char_in_lower c s :
  (byte_of c < 65 \/ 122 < byte_of c)%Z -> char_in c (ascii_lower s) = char_in c s.
Proof.
  intros Hc. induction s as [|d s IH]; simpl; [done|]. rewrite IH.
  assert (c = lower_byte d <-> c = d) as Heq; [|by do 2 case_decide; try tauto].
  split; intros ->; apply (inj byte_of); rewrite byte_of_lower in *; case_match; zbool; lia.
Qed.

(** ** Lemmas: [strconv] *)

Lemma digit_val_char d : (0 <= d < 10)%Z -> digit_val (digit_char d) = Some d.
Proof.
  intros Hd. unfold digit_val, digit_char. rewrite byte_of_of by (unfold is_byte; lia).
  replace (48 + d - 48)%Z with d by lia.
  by rewrite (proj2 (Z.leb_le _ _)), (proj2 (Z.ltb_lt _ _)) by lia.
Qed.

Lemma is_digit_char d : (0 <= d < 10)%Z -> is_digit (digit_char d) = true.
Proof.
  intros Hd. unfold is_digit, digit_char. rewrite byte_of_of by (unfold is_byte; lia).
  apply andb_true_iff. split; apply Z.leb_le; lia.
Qed.

Lemma parse_uint_loop_digit d s n :
  (0 <= d < 10)%Z -> (0 <= n)%Z -> (n * 10 + d <= max_uint64)%Z ->
  parse_uint_loop (String (digit_char d) s) n = parse_uint_loop s (n * 10 + d).
Proof.
  intros Hd Hn Hm. cbn [parse_uint_loop]. rewrite digit_val_char by done.
  unfold max_uint64 in *.
  change ((2 ^ 64 - 1) / 10 + 1)%Z with 1844674407370955162%Z.
  change (2 ^ 64 - 1)%Z with 18446744073709551615%Z in *.
  rewrite (proj2 (Z.leb_gt _ _)), (proj2 (Z.ltb_ge _ _)) by lia. done.
Qed.

Lemma parse_fmt_digits fuel n acc :
  (0 <= n <= max_uint64)%Z -> (n < 2 ^ Z.of_nat fuel)%Z -> (0 < fuel)%nat ->
  parse_uint_loop (fmt_digits fuel n acc) 0 = parse_uint_loop acc n.
Proof.
  revert n acc. induction fuel as [|f IH]; intros n acc Hn Hf Hpos; [lia|]. cbn [fmt_digits].
  pose proof (Z.mod_pos_bound n 10 ltac:(lia)). pose proof (Z.div_mod n 10 ltac:(lia)).
  case_match eqn:E; zbool.
  - rewrite Z.mod_small by lia. rewrite parse_uint_loop_digit by lia. done.
  - rewrite Nat2Z.inj_succ, Z.pow_succ_r in Hf by lia.
    assert (0 < f)%nat by (destruct f; [change (2 ^ Z.of_nat 0)%Z with 1%Z in Hf; lia|lia]).
    rewrite IH; [|lia|apply Z.div_lt_upper_bound; lia|done].
    rewrite parse_uint_loop_digit by lia. f_equal. lia.
Qed.

Lemma digit_fuel_enough n : (0 <= n)%Z -> (n < 2 ^ Z.of_nat (digit_fuel n))%Z.
Proof.
  intros Hn. unfold digit_fuel. rewrite Nat2Z.inj_succ, Z2Nat.id by apply Z.log2_nonneg.
  destruct (decide (n = 0)%Z) as [->|]; [done|]. apply Z.log2_spec. lia.
Qed.

Lemma fmt_digits_head fuel n acc :
  (0 <= n)%Z -> (0 < fuel)%nat ->
  exists d s, fmt_digits fuel n acc = String (digit_char d) s /\ (0 <= d < 10)%Z.
Proof.
  revert n acc. induction fuel as [|f IH]; intros n acc Hn Hpos; [lia|]. cbn [fmt_digits].
  pose proof (Z.mod_pos_bound n 10 ltac:(lia)).
  case_match; [by eauto|]. destruct f as [|f]; [by eexists _, _|].
  apply IH; [apply Z.div_pos; lia|lia].
Qed.

(** No leading zero. *)
Lemma fmt_digits_lead fuel n acc :
  (0 < n < 2 ^ Z.of_nat fuel)%Z ->
  exists d s, fmt_digits fuel n acc = String (digit_char d) s /\ (0 < d < 10)%Z.
Proof.
  revert n acc. induction fuel as [|f IH]; intros n acc Hn; [change (2 ^ Z.of_nat 0)%Z with 1%Z in Hn; lia|].
  cbn [fmt_digits]. cbv zeta. destruct (n <? 10)%Z eqn:E; zbool.
  - rewrite Z.mod_small by lia. eauto with lia.
  - apply IH. rewrite Nat2Z.inj_succ, Z.pow_succ_r in Hn by lia. zdiv.
Qed.

Lemma fmt_digits_app fuel n acc s : fmt_digits fuel n acc +:+ s = fmt_digits fuel n (acc +:+ s).
Proof.
  revert n acc. induction fuel as [|f IH]; intros n acc; [done|]. cbn [fmt_digits]. cbv zeta.
  destruct (n <? 10)%Z; [done|]. by rewrite IH.
Qed.

Lemma digit_char_no_sign d :
  (0 <= d < 10)%Z -> digit_char d <> "-"%char /\ digit_char d <> "+"%char.
Proof.
  intros Hd. split; intros E; apply (f_equal byte_of) in E; unfold digit_char in E;
    rewrite byte_of_of in E by (unfold is_byte; lia);
    change (byte_of "-") with 45%Z in E || change (byte_of "+") with 43%Z in E; lia.
Qed.

Lemma parse_uint_format n :
  (0 <= n <= max_uint64)%Z -> parse_uint (format_uint n) = (n, None).
Proof.
  intros Hn. unfold parse_uint, format_uint.
  destruct (fmt_digits_head (digit_fuel n) n "") as (d & s & E & _); [lia|unfold digit_fuel; lia|].
  rewrite E, <- E. rewrite parse_fmt_digits;
    [done|done|by apply digit_fuel_enough; lia|unfold digit_fuel; lia].
Qed.

(** Printing then parsing an [int64] gives it back. *)
Lemma parse_format_int z : in_int64 z -> parse_int (format_int z) = (z, None).
Proof.
  unfold in_int64, int64_min, int64_max. intros Hz. unfold format_int.
  case_match eqn:E; zbool.
  - unfold parse_int, split_sign. rewrite decide_True by done.
    rewrite parse_uint_format by (unfold max_uint64; lia). cbn.
    rewrite (proj2 (Z.ltb_ge _ _)) by lia. f_equal. lia.
  - unfold parse_int, format_uint.
    destruct (fmt_digits_head (digit_fuel z) z "") as (d & s & Ed & Hd); [lia|unfold digit_fuel; lia|].
    rewrite Ed. cbn [split_sign]. destruct (digit_char_no_sign d Hd) as [Hm Hp].
    rewrite !decide_False by done. rewrite <- Ed. fold (format_uint z).
    rewrite parse_uint_format by (unfold max_uint64; lia). cbn.
    rewrite (proj2 (Z.leb_gt _ _)) by lia. done.
Qed.

(** A byte that is neither a digit nor a sign makes the parse fail. *)
Lemma parse_uint_loop_bad c s n :
  digit_val c = None -> char_in c s = true -> is_Some (parse_uint_loop s n).2.
Proof.
  intros Hc. revert n. induction s as [|d s IH]; intros n; simpl; [done|].
  case_decide as Hd; [subst; by rewrite Hc; eauto|]. intros Hs.
  destruct (digit_val d); [|by eauto]. repeat case_match; simpl; eauto.
Qed.

Lemma parse_uint_loop_clamp s n un :
  parse_uint_loop s n = (un, Some ErrRange) -> un = max_uint64.
Proof.
  revert n. induction s as [|c s IH]; simpl; intros n; [done|].
  destruct (digit_val c); repeat case_match; naive_solver.
Qed.

Lemma parse_int_bad c s :
  digit_val c = None -> c <> "-"%char -> c <> "+"%char ->
  char_in c s = true -> is_Some (parse_int s).2.
Proof.
  intros Hc Hm Hp Hs. unfold parse_int. destruct s as [|d s]; [done|].
  destruct (split_sign (String d s)) as [neg r] eqn:E.
  assert (char_in c r = true) as Hr.
  { unfold split_sign in E. destruct (decide (d = "-"%char)) as [->|]; [|destruct (decide (d = "+"%char)) as [->|]];
      simplify_eq; simpl in Hs; [by rewrite decide_False in Hs by done..|done]. }
  destruct r as [|e r]; [done|]. cbn [parse_uint].
  destruct (parse_uint_loop_bad c (String e r) 0 Hc Hr) as [x Hx].
  destruct (parse_uint_loop (String e r) 0) as [un [[]|]] eqn:Ep; [by eexists| |done].
  apply parse_uint_loop_clamp in Ep as ->. destruct neg; vm_compute; eauto.
Qed.

(** The value returned is always an [int64], error or not. *)
Lemma parse_int_range s : in_int64 (parse_int s).1.
Proof.
  assert (forall t n, 0 <= n -> 0 <= (parse_uint_loop t n).1)%Z as Hnn.
  { induction t as [|c t IH]; simpl; intros n Hn; [done|].
    unfold digit_val. repeat case_match; simplify_eq/=; zbool; try (by unfold max_uint64; lia).
    apply IH. lia. }
  unfold in_int64, int64_min, int64_max, parse_int. destruct s as [|d s]; [simpl; lia|].
  destruct (split_sign (String d s)) as [neg r].
  assert (0 <= (parse_uint r).1)%Z by (destruct r; [done|]; apply Hnn; lia).
  destruct (parse_uint r) as [un err]. simpl in *.
  destruct err as [[]|], neg; simpl; repeat case_match; simpl; zbool; unfold int64_min, int64_max; lia.
Qed.

(** ** Lemmas: ASCII strings and positions *)

Lemma is_ascii_app a b : is_ascii (a +:+ b) = is_ascii a && is_ascii b.
Proof. induction a as [|c a IH]; [done|]. rewrite string_app_cons. simpl. by rewrite IH, andb_assoc. Qed.

Lemma ascii_lower_app a b : ascii_lower (a +:+ b) = ascii_lower a +:+ ascii_lower b.
Proof. induction a as [|c a IH]; [done|]. rewrite !string_app_cons. simpl. by rewrite IH, string_app_cons. Qed.

Lemma index_byte_app c a b : char_in c a = false -> index_byte c (a +:+ String c b) = Some (String.length a).
Proof.
  induction a as [|d a IH]; intros Ha; rewrite ?string_app_nil_l, ?string_app_cons; simpl in *.
  - by rewrite decide_True.
  - case_decide; [done|]. by rewrite IH.
Qed.

Lemma index_byte_None c a : char_in c a = false -> index_byte c a = None.
Proof. induction a as [|d a IH]; intros Ha; simpl in *; [done|]. case_decide; [done|]. by rewrite IH. Qed.

(** Splitting and joining. *)
Lemma split_on_join c s : join (String c "") (split_on c s) = s.
Proof.
  induction s as [|d s IH]; [done|]. cbn [split_on]. case_decide as Hd.
  - subst d. destruct (split_on c s) as [|x l] eqn:E; cbn [join] in *; [by subst s|].
    rewrite string_app_nil_l, string_app_cons, string_app_nil_l. by f_equal.
  - destruct (split_on c s) as [|x [|y l]] eqn:E; cbn [join] in *; subst s; [done..|].
    by rewrite !string_app_cons.
Qed.

Lemma split_on_parts c s : Forall (fun x => char_in c x = false) (split_on c s).
Proof.
  induction s as [|d s IH]; [by repeat constructor|]. cbn [split_on]. case_decide as Hd.
  - by constructor.
  - destruct IH as [|x l Hx Hl]; (constructor; [|done]); cbn [char_in]; by rewrite decide_False.
Qed.

Lemma split_on_single c x : char_in c x = false -> split_on c x = [x].
Proof.
  induction x as [|d x IH]; [done|]. cbn [char_in split_on]. case_decide; [done|]. intros Hx. by rewrite IH.
Qed.

Lemma split_on_cons c s : exists x l, split_on c s = x :: l.
Proof. destruct s as [|d s]; cbn [split_on]; [eauto|]. case_decide; [eauto|]. destruct (split_on c s); eauto. Qed.

Lemma split_on_app c a b : split_on c (a +:+ String c b) = split_on c a ++ split_on c b.
Proof.
  induction a as [|d a IH].
  - rewrite string_app_nil_l. cbn [split_on]. by rewrite decide_True.
  - rewrite string_app_cons. cbn [split_on]. rewrite IH. case_decide; [done|].
    by destruct (split_on_cons c a) as (x & l & ->).
Qed.

Lemma join_split_on c l :
  l <> [] -> Forall (fun x => char_in c x = false) l -> split_on c (join (String c "") l) = l.
Proof.
  intros Hl Hc. induction Hc as [|x l Hx Hc IH]; [done|]. destruct l as [|y l]; [by apply split_on_single|].
  change (join (String c "") (x :: y :: l)) with (x +:+ String c "" +:+ join (String c "") (y :: l)).
  rewrite string_app_cons, string_app_nil_l, split_on_app, split_on_single by done. by rewrite IH.
Qed.
