(* ===== verification/GoTime.v ===== *)
(** * Go's [time.Time] in UTC

    An instant is its number of nanoseconds since the Unix epoch. The file
    models the proleptic Gregorian calendar of [time.Time], the layout of
    [Time.String] (the text form the SQLite driver stores, see the comment at
    store.go:326), the hour bucket of the dashboard, the RFC 3339 layout and
    what [time.Parse] accepts for it. Main results: the byte order of the stored text is
    the order of the instants in the years 0 to 9999, and a bucket text parses
    to the instant truncated to its hour. *)

From S2P Require Export GoStrings.
From Stdlib Require Import Ascii.

Local Open Scope Z_scope.

Definition time : Type := Z.

Definition ns_per_sec : Z := 1000000000.
Definition time_second : Z := ns_per_sec.
Definition time_minute : Z := 60 * time_second.
Definition time_hour : Z := 60 * time_minute.

(** The zero [time.Time]: January 1, year 1, 00:00:00 UTC. *)
Definition zero_time : time := -62135596800 * ns_per_sec.

(** [Time.Unix]. *)
Definition unix (t : time) : Z := t / ns_per_sec.

(** ** The calendar *)

(** Days from 0000-01-01 to January 1 of year [y]. *)
Definition days_before_year (y : Z) : Z :=
  365 * y + (y + 3) / 4 - (y + 99) / 100 + (y + 399) / 400.

Definition leap_year (y : Z) : bool :=
  (y mod 4 =? 0) && (negb (y mod 100 =? 0) || (y mod 400 =? 0)).

Definition year_of (d : Z) : Z :=
  let e := (400 * d) / 146097 in
  if d <? days_before_year e then e - 1
  else if days_before_year (e + 1) <=? d then e + 1 else e.

Definition month_lengths (y : Z) : list Z :=
  [31; if leap_year y then 29 else 28; 31; 30; 31; 30; 31; 31; 30; 31; 30; 31].

(** Month (counted from [m]) and day of month of the [yd]-th day, from 0. *)
Fixpoint month_walk (ls : list Z) (m yd : Z) : Z * Z :=
  match ls with
  | [] => (m, yd + 1)
  | l :: ls => if yd <? l then (m, yd + 1) else month_walk ls (m + 1) (yd - l)
  end.

Definition epoch_days : Z := 719528.

Record civil := Civil {
  c_year : Z; c_month : Z; c_day : Z;
  c_hour : Z; c_min : Z; c_sec : Z; c_nsec : Z }.

Definition civil_of (t : time) : civil :=
  let s := t / ns_per_sec in
  let d := s / 86400 + epoch_days in
  let sod := s mod 86400 in
  let y := year_of d in
  let md := month_walk (month_lengths y) 1 (d - days_before_year y) in
  Civil y md.1 md.2 (sod / 3600) (sod / 60 mod 60) (sod mod 60) (t mod ns_per_sec).

Definition days_from_civil (y m d : Z) : Z :=
  days_before_year y + foldr Z.add 0 (take (Z.to_nat (m - 1)) (month_lengths y)) + d - 1.

(** ** Text forms *)

(** [pad w n]: the last [w] decimal digits of [n]. *)
Fixpoint pad (w : nat) (n : Z) : string :=
  match w with
  | O => ""
  | S w => pad w (n / 10) +:+ String (digit_char (n mod 10)) ""
  end.

(** [appendInt(y, 4)]. *)
Definition pad_year (y : Z) : string :=
  let a := Z.abs y in
  (if y <? 0 then "-" else "") +:+ (if a <? 10000 then pad 4 a else format_uint a).

Fixpoint trim_zeros (s : string) : string :=
  match s with
  | EmptyString => ""
  | String c s =>
      match trim_zeros s with
      | EmptyString => if decide (c = "0"%char) then "" else String c ""
      | r => String c r
      end
  end.

(** The fraction layout [.999999999]: nothing, or a dot and the nanoseconds
    without trailing zeros. *)
Definition frac (ns : Z) : string :=
  match trim_zeros (pad 9 ns) with
  | EmptyString => ""
  | s => String "."%char s
  end.

Definition date_text (c : civil) : string :=
  pad_year (c_year c) +:+ "-" +:+ pad 2 (c_month c) +:+ "-" +:+ pad 2 (c_day c).

Definition clock_text (c : civil) : string :=
  pad 2 (c_hour c) +:+ ":" +:+ pad 2 (c_min c) +:+ ":" +:+ pad 2 (c_sec c).

(** [Time.String] of a UTC time without monotonic reading. *)
Definition time_string (t : time) : string :=
  let c := civil_of t in
  date_text c +:+ " " +:+ clock_text c +:+ frac (c_nsec c) +:+ " +0000 UTC".

(** The text of the hour an instant falls in, in RFC 3339. *)
Definition bucket_text (t : time) : string :=
  let c := civil_of t in
  date_text c +:+ "T" +:+ pad 2 (c_hour c) +:+ ":00:00Z".

(** The layout [time.RFC3339Nano] of a UTC time. *)
Definition rfc3339_nano (t : time) : string :=
  let c := civil_of t in
  date_text c +:+ "T" +:+ clock_text c +:+ frac (c_nsec c) +:+ "Z".

(** ** [time.Parse(time.RFC3339, s)]

    The general parser of package [time] on this layout. It is laxer than RFC
    3339: the hour may have one digit, a comma may start the fraction, zone
    offsets go up to 24:60. [None] is an error. *)

(** A number of exactly [w] digits. *)
Fixpoint digits_val (w : nat) (acc : Z) (s : string) : option (Z * string) :=
  match w with
  | O => Some (acc, s)
  | S w =>
      match s with
      | String c s => d ← digit_val c; digits_val w (acc * 10 + d) s
      | EmptyString => None
      end
  end.

Definition expect (c : ascii) (s : string) : option string :=
  match s with
  | String d s => if decide (c = d) then Some s else None
  | EmptyString => None
  end.

(** [getnum(s, false)]: one digit or two. *)
Definition getnum (s : string) : option (Z * string) :=
  match s with
  | String c r =>
      a ← digit_val c;
      match r with
      | String c' r' => Some (match digit_val c' with Some b => (a * 10 + b, r') | None => (a, r) end)
      | EmptyString => Some (a, r)
      end
  | EmptyString => None
  end.

(** The digits of a fraction as nanoseconds: [k] more digits count. *)
Fixpoint frac_digits (k : nat) (acc : Z) (s : string) : Z * string :=
  match s with
  | String c s' =>
      match digit_val c, k with
      | Some d, S k => frac_digits k (acc * 10 + d) s'
      | Some _, O => frac_digits O acc s'
      | None, _ => (acc * 10 ^ Z.of_nat k, s)
      end
  | EmptyString => (acc * 10 ^ Z.of_nat k, s)
  end.

Definition parse_frac (s : string) : Z * string :=
  match s with
  | String c (String d _ as r) =>
      if decide ((c = "."%char \/ c = ","%char) /\ is_Some (digit_val d)) then frac_digits 9 0 r else (0, s)
  | _ => (0, s)
  end.

(** The zone offset in seconds; nothing may follow it. *)
Definition parse_zone (s : string) : option Z :=
  match s with
  | String c s =>
      if decide (c = "Z"%char) then (if decide (s = "") then Some 0 else None)
      else
        '(h, s) ← digits_val 2 0 s; s ← expect ":"%char s;
        '(m, s) ← digits_val 2 0 s;
        if decide (s = "" /\ h <= 24 /\ m <= 60) then
          if decide (c = "+"%char) then Some ((h * 60 + m) * 60)
          else if decide (c = "-"%char) then Some (- ((h * 60 + m) * 60)) else None
        else None
  | EmptyString => None
  end.

Definition parse_rfc3339 (s : string) : option time :=
  '(y, s) ← digits_val 4 0 s; s ← expect "-"%char s;
  '(m, s) ← digits_val 2 0 s; s ← expect "-"%char s;
  '(d, s) ← digits_val 2 0 s; s ← expect "T"%char s;
  '(h, s) ← getnum s; s ← expect ":"%char s;
  '(mi, s) ← digits_val 2 0 s; s ← expect ":"%char s;
  '(sec, s) ← digits_val 2 0 s;
  let '(ns, s) := parse_frac s in
  off ← parse_zone s;
  if decide (1 <= m <= 12 /\ 1 <= d <= default 0 (month_lengths y !! Z.to_nat (m - 1))
             /\ h < 24 /\ mi < 60 /\ sec < 60)
  then Some (((days_from_civil y m d - epoch_days) * 86400 + h * 3600 + mi * 60 + sec - off) * ns_per_sec + ns)
  else None.

(** Instants of the years 0 to 9999. *)
Definition in_calendar (t : time) : Prop := 0 <= c_year (civil_of t) <= 9999.

#[export] Instance in_calendar_dec t : Decision (in_calendar t).
Proof. unfold in_calendar. apply _. Defined.

Example time_string_ex :
  time_string 1700000000120000000 = "2023-11-14 22:13:20.12 +0000 UTC".
Proof. reflexivity. Qed.

Example bucket_text_ex : bucket_text 1700000000120000000 = "2023-11-14T22:00:00Z".
Proof. reflexivity. Qed.

Example zero_time_ex : time_string zero_time = "0001-01-01 00:00:00 +0000 UTC".
Proof. reflexivity. Qed.

Example parse_rfc3339_ex : parse_rfc3339 "2023-11-14T23:13:20.12+01:00" = Some 1700000000120000000.
Proof. reflexivity. Qed.

(** ** Lemmas: the calendar *)

Lemma days_before_year_step y :
  days_before_year (y + 1) = days_before_year y + if leap_year y then 366 else 365.
Proof.
  unfold days_before_year, leap_year.
  assert ((y + 1 + 3) / 4 = (y + 3) / 4 + if y mod 4 =? 0 then 1 else 0) as ->
    by (case_match; zbool; zdiv).
  assert ((y + 1 + 99) / 100 = (y + 99) / 100 + if y mod 100 =? 0 then 1 else 0) as ->
    by (case_match; zbool; zdiv).
  assert ((y + 1 + 399) / 400 = (y + 399) / 400 + if y mod 400 =? 0 then 1 else 0) as ->
    by (case_match; zbool; zdiv).
  destruct (y mod 4 =? 0) eqn:E4, (y mod 100 =? 0) eqn:E1, (y mod 400 =? 0) eqn:E400;
    simpl; zbool; zdiv.
Qed.

Lemma year_of_spec d :
  days_before_year (year_of d) <= d < days_before_year (year_of d + 1).
Proof.
  unfold year_of. set (e := 400 * d / 146097).
  assert (146097 * e <= 400 * d < 146097 * e + 146097) as He.
  { subst e. zdiv. }
  clearbody e.
  assert (days_before_year (e - 1) <= d /\ d < days_before_year (e + 2)) as [Hlo Hhi]
    by (unfold days_before_year; zdiv).
  repeat case_match; zbool; repeat split; try lia.
  - by replace (e - 1 + 1) with e by lia.
  - by replace (e + 1 + 1) with (e + 2) by lia.
Qed.

Lemma days_before_year_mono y1 y2 : y1 < y2 -> days_before_year (y1 + 1) <= days_before_year y2.
Proof. unfold days_before_year. zdiv. Qed.

Lemma year_of_unique d y :
  days_before_year y <= d < days_before_year (y + 1) -> year_of d = y.
Proof.
  intros Hy. pose proof (year_of_spec d).
  destruct (Z.lt_trichotomy (year_of d) y) as [H1|[H1|H1]]; [|done|];
    apply days_before_year_mono in H1; lia.
Qed.

Lemma month_walk_spec ls m yd :
  Forall (fun l => 0 < l <= 31) ls -> 0 <= yd < foldr Z.add 0 ls ->
  let '(m', d) := month_walk ls m yd in
  m <= m' < m + Z.of_nat (length ls) /\
  yd = foldr Z.add 0 (take (Z.to_nat (m' - m)) ls) + d - 1 /\
  1 <= d <= default 0 (ls !! Z.to_nat (m' - m)) /\ d <= 31.
Proof.
  intros Hl. revert m yd. induction Hl as [|l ls Hl Hls IH]; intros m yd Hyd; simpl in *; [lia|].
  destruct (Z.ltb_spec yd l).
  - rewrite Z.sub_diag. simpl. lia.
  - specialize (IH (m + 1) (yd - l) ltac:(lia)).
    destruct (month_walk ls (m + 1) (yd - l)) as [m' d]. destruct IH as (Hm & Hyd' & Hd & Hd').
    replace (Z.to_nat (m' - m)) with (S (Z.to_nat (m' - (m + 1)))) by lia. simpl. lia.
Qed.

(** Lexicographic combination of comparisons. *)
Definition lexc (c1 c2 : comparison) : comparison :=
  match c1 with Eq => c2 | c => c end.

Lemma month_walk_compare ls m a b :
  (a ?= b) = lexc ((month_walk ls m a).1 ?= (month_walk ls m b).1)
                  ((month_walk ls m a).2 ?= (month_walk ls m b).2).
Proof.
  assert (forall ls m a, m <= (month_walk ls m a).1) as Hge.
  { clear. induction ls as [|l ls IH]; intros m a; simpl; [lia|].
    case_match; simpl; [lia|]. specialize (IH (m + 1) (a - l)). lia. }
  revert m a b. induction ls as [|l ls IH]; intros m a b; simpl.
  - rewrite Z.compare_refl. simpl. destruct (Z.compare_spec a b), (Z.compare_spec (a + 1) (b + 1)); first [done | exfalso; lia].
  - destruct (a <? l) eqn:Ea, (b <? l) eqn:Eb; zbool; simpl.
    + rewrite Z.compare_refl. simpl.
      destruct (Z.compare_spec a b), (Z.compare_spec (a + 1) (b + 1)); first [done | exfalso; lia].
    + pose proof (Hge ls (m + 1) (b - l)).
      rewrite (proj2 (Z.compare_lt_iff m _)) by lia. simpl. apply Z.compare_lt_iff. lia.
    + pose proof (Hge ls (m + 1) (a - l)).
      rewrite (proj2 (Z.compare_gt_iff _ m)) by lia. simpl. apply Z.compare_gt_iff. lia.
    + rewrite <- IH. destruct (Z.compare_spec a b), (Z.compare_spec (a - l) (b - l)); first [done | exfalso; lia].
Qed.

Lemma month_lengths_ok y : Forall (fun l => 0 < l <= 31) (month_lengths y).
Proof. unfold month_lengths. destruct (leap_year y); repeat constructor; lia. Qed.

Lemma month_lengths_sum y :
  foldr Z.add 0 (month_lengths y) = if leap_year y then 366 else 365.
Proof. unfold month_lengths. by destruct (leap_year y). Qed.

Lemma yday_range d :
  0 <= d - days_before_year (year_of d) < foldr Z.add 0 (month_lengths (year_of d)).
Proof.
  rewrite month_lengths_sum. pose proof (year_of_spec d) as H.
  rewrite days_before_year_step in H. lia.
Qed.

(** Counting the days of a broken-down date gives the day back, and its month
    and day are in range. *)
Lemma days_from_civil_of d :
  let y := year_of d in
  let md := month_walk (month_lengths y) 1 (d - days_before_year y) in
  days_from_civil y md.1 md.2 = d /\ 1 <= md.1 <= 12 /\
  1 <= md.2 <= default 0 (month_lengths y !! Z.to_nat (md.1 - 1)) /\ md.2 <= 31.
Proof.
  cbv zeta. pose proof (month_walk_spec (month_lengths (year_of d)) 1 (d - days_before_year (year_of d))
    (month_lengths_ok _) (yday_range d)) as Hw.
  destruct (month_walk _ _ _) as [m dd]. cbn [fst snd].
  change (Z.of_nat (length (month_lengths _))) with 12 in Hw.
  destruct Hw as (Hm & Hyd & Hd & Hd'). unfold days_from_civil.
  repeat split; try tauto; lia.
Qed.

(** Every field of a broken-down time is in its range. *)
Lemma civil_of_range t :
  let c := civil_of t in
  (1 <= c_month c <= 12 /\ 1 <= c_day c <= 31) /\ 0 <= c_hour c < 24 /\
  0 <= c_min c < 60 /\ 0 <= c_sec c < 60 /\ 0 <= c_nsec c < ns_per_sec.
Proof.
  unfold civil_of, ns_per_sec. cbn [c_month c_day c_hour c_min c_sec c_nsec].
  split.
  - pose proof (days_from_civil_of (t / 1000000000 / 86400 + epoch_days)) as H. cbv zeta in H. tauto.
  - generalize (t / 1000000000). intros s. repeat split; zdiv.
Qed.

(** ** Lemmas: comparisons *)

Lemma lexc_assoc a b c : lexc (lexc a b) c = lexc a (lexc b c).
Proof. by destruct a. Qed.

Lemma compare_divmod k a b : 0 < k -> (a ?= b) = lexc (a / k ?= b / k) (a mod k ?= b mod k).
Proof.
  intros Hk. pose proof (Z.div_mod a k ltac:(lia)) as Ea. pose proof (Z.div_mod b k ltac:(lia)) as Eb.
  pose proof (Z.mod_pos_bound a k Hk). pose proof (Z.mod_pos_bound b k Hk).
  destruct (Z.compare_spec (a / k) (b / k)) as [E|E|E]; simpl.
  - rewrite E in Ea. destruct (Z.compare_spec (a mod k) (b mod k)), (Z.compare_spec a b); first [done | exfalso; nia].
  - apply Z.compare_lt_iff. nia.
  - apply Z.compare_gt_iff. nia.
Qed.

Lemma compare_shift k a b : (a + k ?= b + k) = (a ?= b).
Proof. destruct (Z.compare_spec a b), (Z.compare_spec (a + k) (b + k)); first [done | exfalso; lia]. Qed.

Lemma civil_date_compare d1 d2 :
  let y d := year_of d in
  let md d := month_walk (month_lengths (y d)) 1 (d - days_before_year (y d)) in
  (d1 ?= d2) = lexc (y d1 ?= y d2) (lexc ((md d1).1 ?= (md d2).1) ((md d1).2 ?= (md d2).2)).
Proof.
  cbv beta zeta. pose proof (year_of_spec d1). pose proof (year_of_spec d2).
  destruct (Z.compare_spec (year_of d1) (year_of d2)) as [E|E|E]; cbn [lexc].
  - rewrite <- E. rewrite <- month_walk_compare.
    set (k := days_before_year (year_of d1)).
    rewrite <- (compare_shift k (d1 - k)). by rewrite !Z.sub_add.
  - apply days_before_year_mono in E. apply Z.compare_lt_iff. lia.
  - apply days_before_year_mono in E. apply Z.compare_gt_iff. lia.
Qed.

(** The order of instants is the lexicographic order of their fields. *)
Lemma civil_compare t1 t2 :
  let a := civil_of t1 in let b := civil_of t2 in
  (t1 ?= t2) =
  lexc (c_year a ?= c_year b) (lexc (c_month a ?= c_month b) (lexc (c_day a ?= c_day b)
  (lexc (c_hour a ?= c_hour b) (lexc (c_min a ?= c_min b) (lexc (c_sec a ?= c_sec b)
  (c_nsec a ?= c_nsec b)))))).
Proof.
  cbv zeta. unfold civil_of. cbn [c_year c_month c_day c_hour c_min c_sec c_nsec].
  rewrite (compare_divmod ns_per_sec t1 t2) by done.
  generalize (t1 / ns_per_sec), (t2 / ns_per_sec). intros s1 s2.
  rewrite (compare_divmod 86400 s1 s2) by done.
  rewrite <- (compare_shift epoch_days (s1 / 86400)), civil_date_compare.
  rewrite (compare_divmod 60 (s1 mod 86400)) by done.
  rewrite (compare_divmod 60 (s1 mod 86400 / 60)) by done.
  rewrite !Z.div_div by done. change (60 * 60) with 3600. by rewrite !lexc_assoc.
Qed.

Lemma scompare_cons c d s t :
  String.compare (String c s) (String d t) = lexc (Ascii.compare c d) (String.compare s t).
Proof. simpl. by destruct (Ascii.compare c d). Qed.

Lemma scompare_refl s : String.compare s s = Eq.
Proof.
  induction s as [|c s IH]; [done|]. rewrite scompare_cons, IH.
  unfold Ascii.compare. by rewrite N.compare_refl.
Qed.

Lemma scompare_app a b x y :
  String.length a = String.length b ->
  String.compare (a +:+ x) (b +:+ y) = lexc (String.compare a b) (String.compare x y).
Proof.
  revert b. induction a as [|c a IH]; intros [|d b] Hl; [done..|]. injection Hl as Hl.
  rewrite !string_app_cons, !scompare_cons, IH by done. simpl. by destruct (Ascii.compare c d).
Qed.

Lemma scompare_prefix a x y : String.compare (a +:+ x) (a +:+ y) = String.compare x y.
Proof. by rewrite scompare_app, scompare_refl. Qed.

Lemma acompare_byte c d : Ascii.compare c d = (byte_of c ?= byte_of d).
Proof. unfold Ascii.compare, byte_of. by rewrite N2Z.inj_compare. Qed.

Lemma acompare_digit a b :
  0 <= a < 10 -> 0 <= b < 10 -> Ascii.compare (digit_char a) (digit_char b) = (a ?= b).
Proof.
  intros Ha Hb. rewrite acompare_byte. unfold digit_char. rewrite !byte_of_of by (unfold is_byte; lia).
  rewrite (Z.add_comm 48 a), (Z.add_comm 48 b). apply compare_shift.
Qed.

Lemma pad_length w n : String.length (pad w n) = w.
Proof.
  revert n. induction w as [|w IH]; intros n; simpl; [done|].
  rewrite string_length_app, IH. simpl. lia.
Qed.

(** Fixed-width decimals compare as the numbers they print. *)
Lemma pad_compare w m n :
  0 <= m < 10 ^ Z.of_nat w -> 0 <= n < 10 ^ Z.of_nat w ->
  String.compare (pad w m) (pad w n) = (m ?= n).
Proof.
  revert m n. induction w as [|w IH]; intros m n Hm Hn.
  - change (10 ^ Z.of_nat 0) with 1 in *. simpl. destruct (Z.compare_spec m n); first [done | exfalso; lia].
  - rewrite Nat2Z.inj_succ, Z.pow_succ_r in Hm, Hn by lia. cbn [pad].
    rewrite scompare_app by (by rewrite !pad_length).
    rewrite IH by (split; [apply Z.div_pos|apply Z.div_lt_upper_bound]; lia).
    rewrite scompare_cons, acompare_digit by (apply Z.mod_pos_bound; lia).
    rewrite (compare_divmod 10 m n) by done. by destruct (m mod 10 ?= n mod 10).
Qed.

(** ** Lemmas: the fraction *)

(** Every byte is at least the digit zero. *)
Definition ge_zero (s : string) : Prop := Forall (fun b => 48 <= b) (bytes_of s).

Lemma ge_zero_pad w n : 0 <= n -> ge_zero (pad w n).
Proof.
  unfold ge_zero. revert n. induction w as [|w IH]; intros n Hn; cbn [pad]; [constructor|].
  rewrite bytes_of_app. apply Forall_app. split; [apply IH, Z.div_pos; lia|].
  pose proof (Z.mod_pos_bound n 10). repeat constructor. unfold digit_char.
  rewrite byte_of_of by (unfold is_byte; lia). lia.
Qed.

Lemma trim_zeros_cons c s :
  trim_zeros (String c s) =
  if decide (trim_zeros s = "" /\ c = "0"%char) then "" else String c (trim_zeros s).
Proof.
  cbn [trim_zeros]. destruct (trim_zeros s); repeat case_decide; tauto || congruence || naive_solver.
Qed.

Lemma ge_zero_trim s : ge_zero s -> ge_zero (trim_zeros s).
Proof.
  induction s as [|c s IH]; [done|]. intros [Hc Hs]%Forall_cons.
  rewrite trim_zeros_cons. case_decide; [constructor|]. constructor; [done|by apply IH].
Qed.

Section frac_order.
(** [rest] stands for what follows the fraction; it starts with a byte below
    the dot and the digits, as a space does. *)
Context (d0 : ascii) (rest : string) (Hd0 : byte_of d0 < 46).
Let tail := String d0 rest.

Lemma tail_below s : s <> "" -> ge_zero s -> String.compare tail (s +:+ tail) = Lt.
Proof.
  destruct s as [|c s]; [done|]. intros _ [Hc _]%Forall_cons.
  unfold tail. rewrite string_app_cons, scompare_cons, acompare_byte.
  by rewrite (proj2 (Z.compare_lt_iff _ _)) by lia.
Qed.

Lemma trim_zeros_compare a b :
  String.length a = String.length b -> ge_zero a -> ge_zero b ->
  String.compare (trim_zeros a +:+ tail) (trim_zeros b +:+ tail) = String.compare a b.
Proof.
  revert b. induction a as [|c a IH]; intros [|d b] Hl Ha Hb; [apply scompare_refl|done..|].
  injection Hl as Hl. apply Forall_cons in Ha as [Hc Ha]. apply Forall_cons in Hb as [Hd Hb].
  specialize (IH b Hl Ha Hb). apply ge_zero_trim in Ha, Hb.
  rewrite !trim_zeros_cons, scompare_cons, acompare_byte.
  assert (byte_of "0"%char = 48) as H0 by done.
  destruct (decide (trim_zeros a = "" /\ c = "0"%char)) as [[Ea ->]|Na],
    (decide (trim_zeros b = "" /\ d = "0"%char)) as [[Eb ->]|Nb].
  - rewrite Ea, Eb in IH. by rewrite <- IH, Z.compare_refl.
  - rewrite string_app_nil_l, string_app_cons. unfold tail at 1.
    rewrite scompare_cons, acompare_byte, (proj2 (Z.compare_lt_iff (byte_of d0) _)) by lia.
    destruct (Z.compare_spec (byte_of "0"%char) (byte_of d)) as [E|E|E]; [|done|lia].
    apply (inj byte_of) in E as <-. rewrite <- IH, Ea. symmetry. apply tail_below; [|done]. tauto.
  - rewrite string_app_nil_l, string_app_cons. unfold tail at 2.
    rewrite scompare_cons, acompare_byte, (proj2 (Z.compare_gt_iff _ (byte_of d0))) by lia.
    destruct (Z.compare_spec (byte_of c) (byte_of "0"%char)) as [E|E|E]; [|lia|done].
    apply (inj byte_of) in E as ->. rewrite <- IH, Eb. rewrite string_app_nil_l.
    cbn [lexc]. rewrite String.compare_antisym, tail_below; [done|tauto|done].
  - by rewrite !string_app_cons, scompare_cons, acompare_byte, IH.
Qed.

Lemma frac_compare m n :
  0 <= m < ns_per_sec -> 0 <= n < ns_per_sec ->
  String.compare (frac m +:+ tail) (frac n +:+ tail) = (m ?= n).
Proof.
  unfold ns_per_sec. intros Hm Hn. rewrite <- (pad_compare 9 m n) by done.
  pose proof (ge_zero_pad 9 m ltac:(lia)) as Gm. pose proof (ge_zero_pad 9 n ltac:(lia)) as Gn.
  rewrite <- (trim_zeros_compare (pad 9 m)) by (by rewrite ?pad_length).
  unfold frac. apply ge_zero_trim in Gm, Gn.
  destruct (trim_zeros (pad 9 m)) as [|c s], (trim_zeros (pad 9 n)) as [|d t]; cbv beta iota;
    rewrite ?string_app_nil_l, ?(string_app_cons "."); [done| | |].
  - rewrite tail_below by done. unfold tail. by rewrite scompare_cons, acompare_byte,
      (proj2 (Z.compare_lt_iff _ _)).
  - rewrite (String.compare_antisym (String c s +:+ tail)), tail_below by done. unfold tail.
    rewrite scompare_cons, acompare_byte.
    rewrite (proj2 (Z.compare_gt_iff _ _)); [done|]. change (byte_of ".") with 46. lia.
  - by rewrite scompare_cons, acompare_byte, Z.compare_refl.
Qed.
End frac_order.

(** ** The order of the stored text *)

Lemma pad_year_calendar y : 0 <= y <= 9999 -> pad_year y = pad 4 y.
Proof.
  intros Hy. unfold pad_year. rewrite (proj2 (Z.ltb_ge _ _)) by lia.
  rewrite Z.abs_eq by lia. by rewrite (proj2 (Z.ltb_lt _ _)) by lia.
Qed.

(** A fixed-width field followed by a one-byte separator. *)
Lemma pad_field_compare w sep m n x y :
  0 <= m < 10 ^ Z.of_nat w -> 0 <= n < 10 ^ Z.of_nat w ->
  String.compare (pad w m +:+ sep +:+ x) (pad w n +:+ sep +:+ y) =
  lexc (m ?= n) (String.compare x y).
Proof.
  intros Hm Hn. rewrite scompare_app by (by rewrite !pad_length).
  by rewrite pad_compare, scompare_prefix.
Qed.

Lemma time_string_compare t1 t2 :
  in_calendar t1 -> in_calendar t2 ->
  String.compare (time_string t1) (time_string t2) = (t1 ?= t2).
Proof.
  unfold in_calendar. intros H1 H2. rewrite civil_compare. cbv zeta.
  unfold time_string. cbv zeta.
  pose proof (civil_of_range t1) as R1. pose proof (civil_of_range t2) as R2. cbv zeta in R1, R2.
  generalize dependent (civil_of t1). generalize dependent (civil_of t2). intros b ? ? a ? ?.
  unfold date_text, clock_text. rewrite !pad_year_calendar by done.
  rewrite <- !string_app_assoc.
  rewrite !pad_field_compare by (cbn; lia).
  rewrite scompare_app by (by rewrite !pad_length).
  rewrite pad_compare by (cbn; lia). rewrite frac_compare by (done || lia). done.
Qed.

(** In the years 0 to 9999, comparing the stored texts is comparing the
    instants. *)
Lemma time_string_le t1 t2 :
  in_calendar t1 -> in_calendar t2 ->
  String.leb (time_string t1) (time_string t2) = (t1 <=? t2).
Proof.
  intros H1 H2. unfold String.leb. rewrite time_string_compare by done.
  unfold Z.leb. by destruct (t1 ?= t2).
Qed.

(** ** Parsing RFC 3339 back *)

Lemma digits_val_app w1 w2 acc s :
  digits_val (w1 + w2) acc s = '(v, r) ← digits_val w1 acc s; digits_val w2 v r.
Proof.
  revert acc s. induction w1 as [|w1 IH]; intros acc s; [done|]. simpl.
  destruct s as [|c s]; [done|]. destruct (digit_val c); [|done]. simpl. apply IH.
Qed.

Lemma digits_val_pad w n acc rest :
  0 <= n < 10 ^ Z.of_nat w ->
  digits_val w acc (pad w n +:+ rest) = Some (acc * 10 ^ Z.of_nat w + n, rest).
Proof.
  revert n acc rest. induction w as [|w IH]; intros n acc rest Hn.
  - change (10 ^ Z.of_nat 0) with 1 in *. simpl. f_equal. f_equal. lia.
  - rewrite Nat2Z.inj_succ, Z.pow_succ_r in * by lia.
    replace (S w) with (w + 1)%nat at 1 by lia. rewrite digits_val_app. cbn [pad].
    rewrite <- string_app_assoc, IH by (split; [apply Z.div_pos|apply Z.div_lt_upper_bound]; lia).
    simpl. rewrite digit_val_char by (apply Z.mod_pos_bound; lia). simpl.
    f_equal. f_equal. pose proof (Z.div_mod n 10 ltac:(done)) as Hd.
    rewrite Hd at 3. ring.
Qed.

Definition hour_floor (t : time) : time := t / time_hour * time_hour.

(** One field of the layout and the separator after it. *)
Lemma parse_field {A} w n c rest (k : Z -> string -> option A) :
  0 <= n < 10 ^ Z.of_nat w ->
  ('(v, s) ← digits_val w 0 (pad w n +:+ String c rest); s ← expect c s; k v s) = k n rest.
Proof. intros Hn. rewrite digits_val_pad by done. simpl. by rewrite decide_True. Qed.

(** The hour, read by [getnum]. *)
Lemma getnum_pad n rest : 0 <= n < 100 -> getnum (pad 2 n +:+ rest) = Some (n, rest).
Proof.
  intros Hn. unfold getnum. cbn [pad]. rewrite string_app_nil_l, string_app_cons, string_app_nil_l, !string_app_cons, string_app_nil_l.
  rewrite !digit_val_char by zdiv. simpl. f_equal. f_equal. zdiv.
Qed.

Lemma parse_hour {A} n c rest (k : Z -> string -> option A) :
  0 <= n < 100 ->
  ('(v, s) ← getnum (pad 2 n +:+ String c rest); s ← expect c s; k v s) = k n rest.
Proof. intros Hn. rewrite getnum_pad by done. simpl. by rewrite decide_True. Qed.

(** The trimmed digits of a fraction give the number back. *)
Lemma frac_digits_trim k acc s v :
  digits_val k acc s = Some (v, "") -> frac_digits k acc (trim_zeros s +:+ "Z") = (v, "Z").
Proof.
  revert acc s. induction k as [|k IH]; intros acc s; simpl.
  - intros [= -> ->]. simpl. by rewrite Z.mul_1_r.
  - destruct s as [|c s]; [done|]. destruct (digit_val c) as [d|] eqn:Hd; [|done]. intros Hv.
    cbn [mbind option_bind] in Hv. apply IH in Hv. rewrite trim_zeros_cons. case_decide as Hz.
    + destruct Hz as [Hz ->]. assert (d = 0) as -> by (by injection Hd). rewrite Hz in Hv.
      assert (forall j a, frac_digits j a "Z" = (a * 10 ^ Z.of_nat j, "Z")) as Hdone by done.
      change ("" +:+ "Z") with "Z" in *. rewrite Hdone in *. injection Hv as <-. f_equal.
      rewrite Nat2Z.inj_succ, Z.pow_succ_r by lia. ring.
    + rewrite string_app_cons. simpl. by rewrite Hd.
Qed.

Lemma parse_frac_text ns : 0 <= ns < ns_per_sec -> parse_frac (frac ns +:+ "Z") = (ns, "Z").
Proof.
  intros Hn. pose proof (digits_val_pad 9 ns 0 "" Hn) as Hv. rewrite string_app_nil_r in Hv.
  pose proof (frac_digits_trim _ _ _ _ Hv) as Hf. unfold frac.
  destruct (trim_zeros (pad 9 ns)) as [|c r] eqn:Ht.
  - simpl in Hf. simpl. injection Hf as ?. f_equal. lia.
  - assert (is_Some (digit_val c)) as Hc.
    { destruct (pad 9 ns) as [|c' s'] eqn:Hp; [done|]. rewrite trim_zeros_cons in Ht.
      case_decide; [done|]. injection Ht as -> _. simpl in Hv. by destruct (digit_val c). }
    rewrite !string_app_cons in *. cbn [parse_frac]. rewrite decide_True by (split; [by left|done]).
    by rewrite Hf.
Qed.

Ltac civil_fields t :=
  pose proof (days_from_civil_of (t / ns_per_sec / 86400 + epoch_days)) as D; cbv zeta in D;
  unfold civil_of in *; cbn [c_year c_month c_day c_hour c_min c_sec c_nsec] in *.

(** The RFC 3339 text of an instant reads back. *)
Lemma parse_rfc3339_nano t : in_calendar t -> parse_rfc3339 (rfc3339_nano t) = Some t.
Proof.
  unfold in_calendar. intros Hy. pose proof (civil_of_range t) as R. cbv zeta in R.
  unfold rfc3339_nano, date_text, clock_text, parse_rfc3339. cbv zeta. rewrite pad_year_calendar by done.
  rewrite <- !string_app_assoc. rewrite !(string_app_cons _ ""), !string_app_nil_l.
  rewrite !parse_field by lia. rewrite parse_hour by lia. rewrite parse_field by lia.
  rewrite digits_val_pad by lia. cbn [mbind option_bind]. rewrite parse_frac_text by tauto.
  change (parse_zone "Z") with (Some 0). cbn [mbind option_bind].
  civil_fields t. rewrite decide_True by (repeat split; try tauto; lia).
  f_equal. destruct D as [-> _]. unfold ns_per_sec. clear. Z.div_mod_to_equations. lia.
Qed.

(** A bucket text reads back as the hour its instants share. *)
Lemma parse_bucket_text t :
  in_calendar t -> parse_rfc3339 (bucket_text t) = Some (hour_floor t).
Proof.
  unfold in_calendar. intros Hy. pose proof (civil_of_range t) as R. cbv zeta in R.
  unfold bucket_text, date_text, parse_rfc3339. cbv zeta. rewrite pad_year_calendar by done.
  rewrite <- !string_app_assoc. rewrite !(string_app_cons _ ""), !string_app_nil_l.
  change "00:00Z" with (pad 2 0 +:+ String ":"%char (pad 2 0 +:+ "Z")).
  rewrite !parse_field by lia. rewrite parse_hour by lia. rewrite parse_field by lia.
  rewrite digits_val_pad by lia. cbn [mbind option_bind].
  change (parse_frac "Z") with (0, "Z"). cbv iota beta. change (parse_zone "Z") with (Some 0). cbn [mbind option_bind].
  civil_fields t. rewrite decide_True by (repeat split; try tauto; lia).
  f_equal. destruct D as [-> _]. unfold hour_floor, time_hour, time_minute, time_second, ns_per_sec.
  clear. Z.div_mod_to_equations. lia.
Qed.

(** ** Hours *)

(** Truncating to the hour keeps the date and the hour and clears the rest. *)
Lemma civil_hour_floor t :
  civil_of (hour_floor t) =
  let c := civil_of t in Civil (c_year c) (c_month c) (c_day c) (c_hour c) 0 0 0.
Proof.
  unfold civil_of. cbn [c_year c_month c_day c_hour].
  assert (hour_floor t / ns_per_sec = t / ns_per_sec / 3600 * 3600) as ->
    by (unfold hour_floor, time_hour, time_minute, time_second, ns_per_sec; zdiv).
  assert (hour_floor t mod ns_per_sec = 0) as ->
    by (unfold hour_floor, time_hour, time_minute, time_second, ns_per_sec; zdiv).
  generalize (t / ns_per_sec). intros s.
  replace (s / 3600 * 3600 / 86400) with (s / 86400) by zdiv.
  replace ((s / 3600 * 3600) mod 86400) with (s mod 86400 / 3600 * 3600) by zdiv.
  generalize (s mod 86400). intros r.
  by replace (r / 3600 * 3600 / 3600) with (r / 3600) by zdiv;
    replace (r / 3600 * 3600 / 60 mod 60) with 0 by zdiv;
    replace ((r / 3600 * 3600) mod 60) with 0 by zdiv.
Qed.

Lemma bucket_text_floor t : bucket_text (hour_floor t) = bucket_text t.
Proof. unfold bucket_text. by rewrite civil_hour_floor. Qed.

(** Bucket texts compare as the hours they name. *)
Lemma bucket_text_compare t1 t2 :
  in_calendar t1 -> in_calendar t2 ->
  String.compare (bucket_text t1) (bucket_text t2) = (hour_floor t1 ?= hour_floor t2).
Proof.
  unfold in_calendar. intros H1 H2. rewrite civil_compare. cbv zeta.
  rewrite !civil_hour_floor. cbv zeta. cbn [c_year c_month c_day c_hour c_min c_sec c_nsec].
  unfold bucket_text. cbv zeta.
  pose proof (civil_of_range t1) as R1. pose proof (civil_of_range t2) as R2. cbv zeta in R1, R2.
  generalize dependent (civil_of t1). generalize dependent (civil_of t2). intros b ? ? a ? ?.
  unfold date_text. rewrite !pad_year_calendar by done. rewrite <- !string_app_assoc.
  rewrite !pad_field_compare by (cbn; lia).
  rewrite scompare_app by (by rewrite !pad_length).
  rewrite pad_compare by (cbn; lia). by rewrite scompare_refl.
Qed.

Lemma bucket_text_inj t1 t2 :
  in_calendar t1 -> in_calendar t2 ->
  bucket_text t1 = bucket_text t2 <-> hour_floor t1 = hour_floor t2.
Proof.
  intros H1 H2. split.
  - intros E. apply Z.compare_eq_iff. rewrite <- bucket_text_compare by done.
    by rewrite E, scompare_refl.
  - intros E. by rewrite <- bucket_text_floor, E, bucket_text_floor.
Qed.
