(* ===== verification/GoUtf8.v ===== *)
(** * UTF-8 ([unicode/utf8])

    [DecodeRune] and [AppendRune] as Go implements them, and strings given as
    lists of Unicode scalar values. Main result: decoding an encoded scalar
    value gives it back with the size of its encoding. *)

From S2P Require Export GoStrings.
From Stdlib Require Import Ascii.

Local Open Scope Z_scope.

Definition rune_error : Z := 0xFFFD.

(** The bounds of the second byte after the first one, with the size of the
    sequence (the tables [first] and [acceptRanges]). *)
Definition utf8_first (b0 : Z) : option (nat * Z * Z) :=
  if (0xC2 <=? b0) && (b0 <=? 0xDF) then Some (2%nat, 0x80, 0xBF)
  else if b0 =? 0xE0 then Some (3%nat, 0xA0, 0xBF)
  else if b0 =? 0xED then Some (3%nat, 0x80, 0x9F)
  else if (0xE1 <=? b0) && (b0 <=? 0xEF) then Some (3%nat, 0x80, 0xBF)
  else if b0 =? 0xF0 then Some (4%nat, 0x90, 0xBF)
  else if (0xF1 <=? b0) && (b0 <=? 0xF3) then Some (4%nat, 0x80, 0xBF)
  else if b0 =? 0xF4 then Some (4%nat, 0x80, 0x8F)
  else None.

Definition inside (lo b hi : Z) : bool := (lo <=? b) && (b <=? hi).
Definition continues (b : Z) : bool := inside 0x80 b 0xBF.

(** [DecodeRune] on a non-empty slice: the rune and the number of bytes. *)
Definition decode_rune (l : list Z) : Z * nat :=
  match l with
  | [] => (rune_error, 0%nat)
  | b0 :: l =>
      if b0 <? 0x80 then (b0, 1%nat)
      else
        match utf8_first b0, l with
        | Some (2%nat, lo, hi), b1 :: _ =>
            if inside lo b1 hi then (Z.land b0 0x1F * 64 + Z.land b1 0x3F, 2%nat) else (rune_error, 1%nat)
        | Some (3%nat, lo, hi), b1 :: b2 :: _ =>
            if inside lo b1 hi && continues b2
            then (Z.land b0 0x0F * 4096 + Z.land b1 0x3F * 64 + Z.land b2 0x3F, 3%nat)
            else (rune_error, 1%nat)
        | Some (4%nat, lo, hi), b1 :: b2 :: b3 :: _ =>
            if inside lo b1 hi && continues b2 && continues b3
            then (Z.land b0 0x07 * 262144 + Z.land b1 0x3F * 4096 + Z.land b2 0x3F * 64 + Z.land b3 0x3F, 4%nat)
            else (rune_error, 1%nat)
        | _, _ => (rune_error, 1%nat)
        end
  end.

(** [ValidString]: every rune decodes; each round consumes at least one byte. *)
Fixpoint valid_utf8_bytes (fuel : nat) (l : list Z) : bool :=
  match fuel, l with
  | S fuel, _ :: _ =>
      let '(r, n) := decode_rune l in
      negb ((r =? rune_error) && (n =? 1)%nat) && valid_utf8_bytes fuel (drop n l)
  | _, _ => true
  end.

Definition valid_utf8 (s : string) : bool := valid_utf8_bytes (String.length s) (bytes_of s).

Definition is_surrogate (r : Z) : bool := inside 0xD800 r 0xDFFF.

(** Unicode scalar values. *)
Definition scalar (r : Z) : Prop := 0 <= r <= 0x10FFFF /\ is_surrogate r = false.

#[export] Instance scalar_dec r : Decision (scalar r).
Proof. unfold scalar. apply _. Defined.

(** [AppendRune] for a scalar value; anything else is written as U+FFFD. *)
Definition encode_scalar (r : Z) : list Z :=
  if r <? 0x80 then [r]
  else if r <? 0x800 then [0xC0 + r / 64; 0x80 + r mod 64]
  else if r <? 0x10000 then [0xE0 + r / 4096; 0x80 + r / 64 mod 64; 0x80 + r mod 64]
  else [0xF0 + r / 262144; 0x80 + r / 4096 mod 64; 0x80 + r / 64 mod 64; 0x80 + r mod 64].

Definition encode_rune (r : Z) : list Z :=
  encode_scalar (if decide (scalar r) then r else rune_error).

(** A string of scalar values. *)
Definition utf8 (rs : list Z) : list Z := rs ≫= encode_scalar.

Example decode_rune_euro : decode_rune [0xE2; 0x82; 0xAC; 0x20] = (0x20AC, 3%nat).
Proof. reflexivity. Qed.

Example decode_rune_overlong : decode_rune [0xC0; 0x80] = (rune_error, 1%nat).
Proof. reflexivity. Qed.

(** ** Lemmas *)

Lemma land_low (k a b : Z) : 0 <= k -> 0 <= b < 2 ^ k -> Z.land (a * 2 ^ k + b) (Z.ones k) = b.
Proof.
  intros Hk Hb. rewrite Z.land_ones by lia. rewrite Z.add_comm, Z_mod_plus_full. by apply Z.mod_small.
Qed.

Lemma cont_low b : 0 <= b < 64 -> Z.land (0x80 + b) 0x3F = b.
Proof. intros Hb. exact (land_low 6 2 b ltac:(lia) Hb). Qed.

Lemma lead2_low b : 0 <= b < 32 -> Z.land (0xC0 + b) 0x1F = b.
Proof. intros Hb. exact (land_low 5 6 b ltac:(lia) Hb). Qed.
Lemma lead3_low b : 0 <= b < 16 -> Z.land (0xE0 + b) 0x0F = b.
Proof. intros Hb. exact (land_low 4 14 b ltac:(lia) Hb). Qed.
Lemma lead4_low b : 0 <= b < 8 -> Z.land (0xF0 + b) 0x07 = b.
Proof. intros Hb. exact (land_low 3 30 b ltac:(lia) Hb). Qed.

Lemma encode_scalar_bytes r : scalar r -> Forall is_byte (encode_scalar r).
Proof.
  intros [Hr _]. unfold encode_scalar, is_byte. repeat case_match; zbool; repeat constructor; zdiv.
Qed.

Lemma encode_scalar_length r : (1 <= length (encode_scalar r) <= 4)%nat.
Proof. unfold encode_scalar. repeat case_match; simpl; lia. Qed.

(** Comparisons of a byte with constants, decided from its bounds. *)
Ltac byte_tests :=
  repeat match goal with
  | |- context [?a <=? ?b] => first [rewrite (proj2 (Z.leb_le a b)) by zdiv | rewrite (proj2 (Z.leb_gt a b)) by zdiv]
  | |- context [?a <? ?b] => first [rewrite (proj2 (Z.ltb_lt a b)) by zdiv | rewrite (proj2 (Z.ltb_ge a b)) by zdiv]
  | |- context [?a =? ?b] => rewrite (proj2 (Z.eqb_neq a b)) by zdiv
  end; cbn [andb].

Lemma first_two a : 2 <= a < 32 -> utf8_first (0xC0 + a) = Some (2%nat, 0x80, 0xBF).
Proof. intros Ha. unfold utf8_first. by byte_tests. Qed.

Lemma first_three a : 0 <= a < 16 ->
  utf8_first (0xE0 + a) =
  Some (3%nat, if a =? 0 then 0xA0 else 0x80, if a =? 13 then 0x9F else 0xBF).
Proof.
  intros Ha. unfold utf8_first. destruct (a =? 0) eqn:E0; [zbool; by subst|].
  destruct (a =? 13) eqn:E1; zbool; [by subst|]. by byte_tests.
Qed.

Lemma first_four a : 0 <= a < 5 ->
  utf8_first (0xF0 + a) =
  Some (4%nat, if a =? 0 then 0x90 else 0x80, if a =? 4 then 0x8F else 0xBF).
Proof.
  intros Ha. unfold utf8_first. destruct (a =? 0) eqn:E0; [zbool; by subst|].
  destruct (a =? 4) eqn:E1; zbool; [by subst|]. by byte_tests.
Qed.

Lemma continues_low b : 0 <= b < 64 -> continues (0x80 + b) = true.
Proof. intros Hb. unfold continues, inside. by byte_tests. Qed.

(** Decoding the first rune of an encoded string. *)
Lemma decode_rune_encode r l : scalar r -> decode_rune (encode_scalar r ++ l) = (r, length (encode_scalar r)).
Proof.
  intros [Hr Hs]. unfold is_surrogate, inside in Hs. unfold encode_scalar.
  destruct (r <? 0x80) eqn:E1; zbool; [simpl; by rewrite (proj2 (Z.ltb_lt _ _))|].
  destruct (r <? 0x800) eqn:E2; zbool; [|destruct (r <? 0x10000) eqn:E3; zbool];
    cbn [app decode_rune length]; rewrite (proj2 (Z.ltb_ge _ 0x80)) by zdiv.
  - rewrite first_two by zdiv. unfold inside. byte_tests.
    rewrite cont_low by zdiv. rewrite lead2_low by zdiv. f_equal. zdiv.
  - rewrite first_three by zdiv. rewrite continues_low, andb_true_r by zdiv.
    assert (inside (if r / 4096 =? 0 then 0xA0 else 0x80) (0x80 + r / 64 mod 64)
              (if r / 4096 =? 13 then 0x9F else 0xBF) = true) as ->.
    { unfold inside. apply andb_true_iff.
      destruct (r / 4096 =? 0) eqn:F0, (r / 4096 =? 13) eqn:F1; zbool;
        (destruct (0xD800 <=? r) eqn:G; [destruct (r <=? 0xDFFF) eqn:G'; [done|]|]); zbool; split; apply Z.leb_le; zdiv. }
    rewrite !cont_low by zdiv. rewrite lead3_low by zdiv. f_equal. zdiv.
  - rewrite first_four by zdiv. rewrite !continues_low, !andb_true_r by zdiv.
    assert (inside (if r / 262144 =? 0 then 0x90 else 0x80) (0x80 + r / 4096 mod 64)
              (if r / 262144 =? 4 then 0x8F else 0xBF) = true) as ->.
    { unfold inside. apply andb_true_iff.
      destruct (r / 262144 =? 0) eqn:F0, (r / 262144 =? 4) eqn:F1; zbool; split; apply Z.leb_le; zdiv. }
    rewrite !cont_low by zdiv. rewrite lead4_low by zdiv. f_equal. zdiv.
Qed.

(** The first byte tells ASCII from the rest. *)
Lemma encode_scalar_ascii r : 0 <= r < 0x80 -> encode_scalar r = [r].
Proof. intros Hr. unfold encode_scalar. by rewrite (proj2 (Z.ltb_lt _ _)) by lia. Qed.

Lemma encode_scalar_high r : scalar r -> 0x80 <= r -> Forall (fun b => 0x80 <= b < 256) (encode_scalar r).
Proof.
  intros [Hr _] Hh. unfold encode_scalar. repeat case_match; zbool; repeat constructor; zdiv.
Qed.

Lemma utf8_bytes rs : Forall scalar rs -> Forall is_byte (utf8 rs).
Proof.
  unfold utf8. induction 1 as [|r rs Hr _ IH]; simpl; [constructor|].
  apply Forall_app. split; [by apply encode_scalar_bytes|done].
Qed.

Lemma encode_rune_scalar r : scalar r -> encode_rune r = encode_scalar r.
Proof. intros Hr. unfold encode_rune. by rewrite decide_True. Qed.
