(* ===== verification/GoCodec.v ===== *)
(** * [encoding/hex] and [base64.RawURLEncoding]

    Encoders and decoders of the two text encodings the session code uses,
    with their round trips. The base64 decoder is Go's non-strict one: it skips
    carriage returns and line feeds and ignores the unused low bits of a final
    partial quantum. *)

From S2P Require Export GoStrings.
From Stdlib Require Import Ascii.

Local Open Scope Z_scope.

(** ** Hexadecimal *)

Definition hex_alphabet : string := "0123456789abcdef".

Definition alpha_char (alphabet : string) (i : Z) : ascii :=
  default "?"%char (String.get (Z.to_nat i) alphabet).

Definition hex_val (c : ascii) : option Z :=
  Z.of_nat <$> index_byte (lower_byte c) hex_alphabet.

(** [hex.EncodeToString]. *)
Fixpoint hex_encode_bytes (l : list Z) : string :=
  match l with
  | [] => ""
  | b :: l => String (alpha_char hex_alphabet (b / 16))
                (String (alpha_char hex_alphabet (b mod 16)) (hex_encode_bytes l))
  end.
Definition hex_encode (s : string) : string := hex_encode_bytes (bytes_of s).

(** [hex.DecodeString]: upper case is accepted; an odd length or another byte
    is an error. *)
Fixpoint hex_decode_bytes (s : string) : option (list Z) :=
  match s with
  | EmptyString => Some []
  | String c (String d s) =>
      h ← hex_val c; l ← hex_val d; r ← hex_decode_bytes s; Some (h * 16 + l :: r)
  | String _ EmptyString => None
  end.
Definition hex_decode (s : string) : res string :=
  match hex_decode_bytes s with
  | Some l => Ok (of_bytes l)
  | None => Err "encoding/hex: invalid byte or odd length"
  end.

(** ** Base64 *)

Definition b64_alphabet : string :=
  "ABCDEFGHIJKLMNOPQRSTUVWXYZabcdefghijklmnopqrstuvwxyz0123456789-_".

Definition b64_char (i : Z) : ascii := alpha_char b64_alphabet i.
Definition b64_val (c : ascii) : option Z := Z.of_nat <$> index_byte c b64_alphabet.

Definition quantum (a b c : Z) : Z := a * 65536 + b * 256 + c.
Definition sextet (v k : Z) : Z := v / 64 ^ k mod 64.

Fixpoint b64_encode_bytes (l : list Z) : list Z :=
  match l with
  | [] => []
  | [a] => let v := quantum a 0 0 in [sextet v 3; sextet v 2]
  | [a; b] => let v := quantum a b 0 in [sextet v 3; sextet v 2; sextet v 1]
  | a :: b :: c :: l =>
      let v := quantum a b c in
      sextet v 3 :: sextet v 2 :: sextet v 1 :: sextet v 0 :: b64_encode_bytes l
  end.

Fixpoint b64_text (l : list Z) : string :=
  match l with [] => "" | i :: l => String (b64_char i) (b64_text l) end.

(** [base64.RawURLEncoding.EncodeToString]. *)
Definition b64_encode (s : string) : string := b64_text (b64_encode_bytes (bytes_of s)).

Definition group (a b c d : Z) : Z := ((a * 64 + b) * 64 + c) * 64 + d.

Fixpoint b64_decode_vals (l : list Z) : option (list Z) :=
  match l with
  | [] => Some []
  | [_] => None
  | [a; b] => Some [group a b 0 0 / 65536]
  | [a; b; c] => let v := group a b c 0 in Some [v / 65536; v / 256 mod 256]
  | a :: b :: c :: d :: l =>
      let v := group a b c d in
      r ← b64_decode_vals l; Some (v / 65536 :: v / 256 mod 256 :: v mod 256 :: r)
  end.

Definition is_newline (c : ascii) : bool := (byte_of c =? 10) || (byte_of c =? 13).

Fixpoint b64_vals (s : string) : option (list Z) :=
  match s with
  | EmptyString => Some []
  | String c s =>
      if is_newline c then b64_vals s
      else v ← b64_val c; r ← b64_vals s; Some (v :: r)
  end.

(** [base64.RawURLEncoding.DecodeString]. *)
Definition b64_decode (s : string) : option string :=
  l ← b64_vals s; r ← b64_decode_vals l; Some (of_bytes r).

Example b64_ex : b64_encode "admin|1700000000" = "YWRtaW58MTcwMDAwMDAwMA".
Proof. reflexivity. Qed.

Example hex_ex : hex_encode "Az9" = "417a39".
Proof. reflexivity. Qed.

(** ** Lemmas *)

(** A property of the naturals below a bound, by enumeration. *)
Lemma enumerate_below (n : nat) (P : Z -> bool) :
  forallb (fun i => P (Z.of_nat i)) (seq 0 n) = true ->
  forall i, 0 <= i < Z.of_nat n -> P i = true.
Proof.
  intros H i Hi. rewrite forallb_forall in H.
  rewrite <- (Z2Nat.id i) by lia. apply H, in_seq. lia.
Qed.

Lemma hex_val_char i : 0 <= i < 16 -> hex_val (alpha_char hex_alphabet i) = Some i.
Proof.
  intros Hi.
  pose proof (enumerate_below 16 (fun i => bool_decide (hex_val (alpha_char hex_alphabet i) = Some i))
    eq_refl i Hi) as H. by apply bool_decide_eq_true in H.
Qed.

Definition b64_char_ok (i : Z) : bool :=
  bool_decide (b64_val (b64_char i) = Some i /\ is_newline (b64_char i) = false
               /\ b64_char i <> "."%char).

Lemma b64_char_spec i :
  0 <= i < 64 ->
  b64_val (b64_char i) = Some i /\ is_newline (b64_char i) = false /\ b64_char i <> "."%char.
Proof.
  intros Hi. pose proof (enumerate_below 64 b64_char_ok eq_refl i Hi) as H.
  by apply bool_decide_eq_true in H.
Qed.

Lemma hex_decode_encode s : hex_decode (hex_encode s) = Ok s.
Proof.
  unfold hex_decode, hex_encode.
  assert (forall l, Forall is_byte l -> hex_decode_bytes (hex_encode_bytes l) = Some l) as H.
  { unfold is_byte. induction 1 as [|b l Hb _ IH]; [done|]. cbn [hex_encode_bytes hex_decode_bytes].
    rewrite !hex_val_char by zdiv. simpl. rewrite IH. simpl. f_equal. f_equal. zdiv. }
  rewrite H by auto with go. by rewrite of_bytes_of.
Qed.

Lemma hex_encode_length s : String.length (hex_encode s) = (2 * String.length s)%nat.
Proof.
  unfold hex_encode. rewrite <- (length_bytes_of s). induction (bytes_of s); simpl; lia.
Qed.

(** Induction on a list three elements at a time. *)
Lemma list_ind3 {A} (P : list A -> Prop) :
  P [] -> (forall a, P [a]) -> (forall a b, P [a; b]) ->
  (forall a b c l, P l -> P (a :: b :: c :: l)) -> forall l, P l.
Proof.
  intros H0 H1 H2 H3.
  assert (forall l, P l /\ (forall a, P (a :: l)) /\ (forall a b, P (a :: b :: l))) as H.
  { induction l as [|x l (IH0 & IH1 & IH2)]; repeat split; auto. }
  intros l. apply H.
Qed.

Lemma b64_encode_range l : Forall (fun i => 0 <= i < 64) (b64_encode_bytes l).
Proof.
  induction l using list_ind3; cbn [b64_encode_bytes]; cbv zeta;
    repeat (constructor; [apply Z.mod_pos_bound; done|]); done.
Qed.

Lemma b64_vals_text l : Forall (fun i => 0 <= i < 64) l -> b64_vals (b64_text l) = Some l.
Proof.
  induction 1 as [|i l Hi _ IH]; [done|]. destruct (b64_char_spec i Hi) as (Hv & Hn & _).
  cbn [b64_text b64_vals]. by rewrite Hn, Hv, IH.
Qed.

Lemma b64_decode_vals_encode l :
  Forall is_byte l -> b64_decode_vals (b64_encode_bytes l) = Some l.
Proof.
  unfold is_byte. induction l using list_ind3; intros Hl; [done|..];
    rewrite ?Forall_cons in Hl; cbn [b64_encode_bytes b64_decode_vals]; cbv zeta.
  - f_equal. f_equal. unfold group, quantum, sextet. zdiv.
  - f_equal. f_equal; [|f_equal]; unfold group, quantum, sextet; zdiv.
  - rewrite IHl by tauto. simpl. f_equal.
    assert (group (sextet (quantum a b c) 3) (sextet (quantum a b c) 2)
      (sextet (quantum a b c) 1) (sextet (quantum a b c) 0) = quantum a b c) as ->.
    { assert (0 <= quantum a b c < 16777216) by (unfold quantum; lia).
      generalize dependent (quantum a b c). intros v Hv.
      unfold group, sextet. change (64 ^ 3) with 262144. change (64 ^ 2) with 4096.
      change (64 ^ 1) with 64. change (64 ^ 0) with 1. zdiv. }
    unfold quantum. repeat f_equal; zdiv.
Qed.

(** Decoding what the encoder wrote gives the bytes back. *)
Lemma b64_decode_encode s : b64_decode (b64_encode s) = Some s.
Proof.
  unfold b64_decode, b64_encode. rewrite b64_vals_text by apply b64_encode_range. simpl.
  rewrite b64_decode_vals_encode by auto with go. simpl. by rewrite of_bytes_of.
Qed.

(** The encoding never contains the dot that separates it from the signature. *)
Lemma b64_encode_no_dot s : char_in "."%char (b64_encode s) = false.
Proof.
  unfold b64_encode. pose proof (b64_encode_range (bytes_of s)) as H.
  induction H as [|i l Hi _ IH]; [done|]. cbn [b64_text char_in].
  destruct (b64_char_spec i Hi) as (_ & _ & Hd). by rewrite decide_False by congruence.
Qed.
