(* ===== verification/GoCrypto.v ===== *)
(** * [crypto/sha256] and [crypto/hmac]

    SHA-256 and HMAC-SHA256 on byte lists, as executable functions, so that the
    signature of a session cookie is a concrete value. Words are 32-bit values
    kept in [Z] with the wrap-around written out. *)

From S2P Require Export GoStrings GoCodec.

Local Open Scope Z_scope.

(** ** 32-bit words *)

Definition w32 (x : Z) : Z := x mod 2 ^ 32.
Definition add32 (l : list Z) : Z := w32 (foldr Z.add 0 l).
Definition not32 (x : Z) : Z := Z.lxor x (2 ^ 32 - 1).
Definition rotr (n x : Z) : Z := Z.lor (Z.shiftr x n) (w32 (Z.shiftl x (32 - n))).
Definition xor3 (a b c : Z) : Z := Z.lxor a (Z.lxor b c).

(** ** Constants

    The initial state and the round constants are the first 32 bits of the
    fractional parts of the square roots of the first 8 primes and of the cube
    roots of the first 64 primes; they are computed from that definition. *)

Definition primes : list Z :=
  filter (fun p => forallb (fun d => negb (p mod d =? 0)) (seqZ 2 (Z.max 0 (Z.sqrt p - 1))))
    (seqZ 2 310).

(** Integer cube root, one bit at a time from bit [n - 1]. *)
Fixpoint cbrt_bits (n : nat) (r x : Z) : Z :=
  match n with
  | O => r
  | S n =>
      let r' := r + 2 ^ Z.of_nat n in
      cbrt_bits n (if r' * r' * r' <=? x then r' else r) x
  end.

Definition init_state : list Z :=
  Eval vm_compute in (fun p => w32 (Z.sqrt (p * 2 ^ 64))) <$> take 8 primes.
Definition round_constants : list Z :=
  Eval vm_compute in (fun p => w32 (cbrt_bits 36 0 (p * 2 ^ 96))) <$> take 64 primes.

(** ** The compression function *)

Definition get (l : list Z) (i : nat) : Z := nth i l 0.

Definition small_sigma0 (x : Z) : Z := xor3 (rotr 7 x) (rotr 18 x) (Z.shiftr x 3).
Definition small_sigma1 (x : Z) : Z := xor3 (rotr 17 x) (rotr 19 x) (Z.shiftr x 10).
Definition big_sigma0 (x : Z) : Z := xor3 (rotr 2 x) (rotr 13 x) (rotr 22 x).
Definition big_sigma1 (x : Z) : Z := xor3 (rotr 6 x) (rotr 11 x) (rotr 25 x).

(** The message schedule from a window of its last sixteen words. *)
Fixpoint schedule (n : nat) (win : list Z) : list Z :=
  match n with
  | O => []
  | S n =>
      let next := add32 [small_sigma1 (get win 14); get win 9; small_sigma0 (get win 1); get win 0] in
      get win 0 :: schedule n (drop 1 win ++ [next])
  end.

Definition sha_round (st : list Z) (kw : Z * Z) : list Z :=
  match st with
  | [a; b; c; d; e; f; g; h] =>
      let choice := Z.lxor (Z.land e f) (Z.land (not32 e) g) in
      let majority := xor3 (Z.land a b) (Z.land a c) (Z.land b c) in
      let t1 := add32 [h; big_sigma1 e; choice; kw.1; kw.2] in
      [add32 [t1; big_sigma0 a; majority]; a; b; c; add32 [d; t1]; e; f; g]
  | _ => st
  end.

Definition compress (st block : list Z) : list Z :=
  let st' := foldl sha_round st (zip round_constants (schedule 64 block)) in
  zip_with (fun x y => w32 (x + y)) st st'.

(** ** Padding, blocks and digest *)

Definition be_bytes (n : nat) (x : Z) : list Z :=
  (fun i => x / 256 ^ Z.of_nat (n - 1 - i) mod 256) <$> seq 0 n.

Definition sha_pad (msg : list Z) : list Z :=
  let len := Z.of_nat (length msg) in
  msg ++ [128] ++ repeat 0 (Z.to_nat ((55 - len) mod 64)) ++ be_bytes 8 (8 * len).

Fixpoint be_words (l : list Z) : list Z :=
  match l with
  | a :: b :: c :: d :: l => (((a * 256 + b) * 256 + c) * 256 + d) :: be_words l
  | _ => []
  end.

Fixpoint sha_blocks (fuel : nat) (st ws : list Z) : list Z :=
  match fuel with
  | O => st
  | S fuel =>
      match ws with
      | [] => st
      | _ => sha_blocks fuel (compress st (take 16 ws)) (drop 16 ws)
      end
  end.

Definition sha256 (msg : list Z) : list Z :=
  let ws := be_words (sha_pad msg) in
  mjoin (be_bytes 4 <$> sha_blocks (length ws) init_state ws).

(** ** HMAC *)

Definition hmac_key (key : list Z) : list Z :=
  let k := if (64 <? length key)%nat then sha256 key else key in
  k ++ repeat 0 (64 - length k)%nat.

Definition hmac_sha256 (key msg : list Z) : list Z :=
  let k := hmac_key key in
  sha256 ((Z.lxor 0x5c <$> k) ++ sha256 ((Z.lxor 0x36 <$> k) ++ msg)).

(** Published test vectors. *)
Example sha256_abc :
  hex_encode_bytes (sha256 (bytes_of "abc"))
  = "ba7816bf8f01cfea414140de5dae2223b00361a396177a9cb410ff61f20015ad".
Proof. vm_compute. reflexivity. Qed.

Example hmac_fox :
  hex_encode_bytes (hmac_sha256 (bytes_of "key") (bytes_of "The quick brown fox jumps over the lazy dog"))
  = "f7bc83f430538424b13298e6aa6fb143ef4d59a14946175997479dbc2d1a3cd8".
Proof. vm_compute. reflexivity. Qed.

(** ** Lemmas *)

Lemma sha_round_length st kw : length st = 8%nat -> length (sha_round st kw) = 8%nat.
Proof. by destruct st as [|? [|? [|? [|? [|? [|? [|? [|? [|]]]]]]]]]. Qed.

Lemma compress_length st block : length st = 8%nat -> length (compress st block) = 8%nat.
Proof.
  intros Hst. unfold compress. rewrite length_zip_with.
  assert (forall l s, length s = 8%nat -> length (foldl sha_round s l) = 8%nat) as H.
  { induction l as [|kw l IH]; intros s Hs; simpl; [done|]. apply IH, sha_round_length, Hs. }
  rewrite H by done. lia.
Qed.

Lemma sha_blocks_length fuel st ws : length st = 8%nat -> length (sha_blocks fuel st ws) = 8%nat.
Proof.
  revert st ws. induction fuel as [|fuel IH]; intros st ws Hst; simpl; [done|].
  destruct ws; [done|]. by apply IH, compress_length.
Qed.

Lemma be_bytes_length n x : length (be_bytes n x) = n.
Proof. unfold be_bytes. by rewrite length_fmap, length_seq. Qed.

Lemma be_bytes_range n x : Forall is_byte (be_bytes n x).
Proof.
  unfold be_bytes. apply Forall_fmap, Forall_true. intros i. simpl.
  unfold is_byte. by apply Z.mod_pos_bound.
Qed.

(** A digest is 32 bytes. *)
Lemma sha256_length msg : length (sha256 msg) = 32%nat.
Proof.
  unfold sha256. pose proof (sha_blocks_length (length (be_words (sha_pad msg))) init_state
    (be_words (sha_pad msg)) eq_refl) as H.
  revert H. generalize (sha_blocks (length (be_words (sha_pad msg))) init_state (be_words (sha_pad msg))).
  intros l Hl. change 32%nat with (4 * 8)%nat. rewrite <- Hl. clear.
  induction l as [|x l IH]; [done|].
  change (length (be_bytes 4 x ++ mjoin (be_bytes 4 <$> l)) = (4 * S (length l))%nat).
  rewrite length_app, IH, be_bytes_length. lia.
Qed.

Lemma sha256_range msg : Forall is_byte (sha256 msg).
Proof.
  unfold sha256. apply Forall_join, Forall_fmap, Forall_true. intros; apply be_bytes_range.
Qed.

#[export] Hint Resolve sha256_range sha256_length : go.
