(* ===== verification/GoJsonSpec.v ===== *)
(** * What the JSON text layer promises

    The parser never runs out of fuel, and an encoded value reads back as
    itself: strings of Unicode scalar values, integers, times of the years 0 to
    9999, arrays and objects, up to the depth the decoder allows. *)

From S2P Require Export GoJson.
From Stdlib Require Import Ascii.

Local Open Scope Z_scope.

(** ** Fuel *)

Definition shorter {A} (bound : nat) (r : scanned A) : Prop :=
  match r with
  | inl (_, s) => (String.length s < bound)%nat
  | inr FuelOut => False
  | inr _ => True
  end.

Definition not_longer {A} (s : string) (r : scanned A) : Prop := shorter (S (String.length s)) r.

Lemma skip_space_length s : (String.length (skip_space s) <= String.length s)%nat.
Proof. induction s as [|c s IH]; [done|]. simpl. case_match; simpl; lia. Qed.

Lemma shorter_map {A B} (f : A -> B) k r : shorter k r -> shorter k (scan_map f r).
Proof. by destruct r as [[a s]|[]]. Qed.

Lemma shorter_weaken {A} k k' (r : scanned A) : shorter k r -> (k <= k')%nat -> shorter k' r.
Proof. destruct r as [[a s]|[]]; simpl; lia || done. Qed.

Lemma shorter_bind {A B} k k' (r : scanned A) (f : A -> string -> scanned B) :
  shorter k r -> (forall a s, (String.length s < k)%nat -> shorter k' (f a s)) -> shorter k' (scan_bind r f).
Proof. destruct r as [[a s]|[]]; simpl; naive_solver. Qed.

Lemma scan_word_shorter name rest s : not_longer s (scan_word name rest s).
Proof.
  unfold not_longer. revert s. induction rest as [|e rest IH]; intros s; simpl; [lia|].
  destruct s as [|c s]; [done|]. case_decide; [|done]. eapply shorter_weaken; [apply IH|]. simpl. lia.
Qed.

Lemma span_digits_length s : (String.length (span_digits s).2 <= String.length s)%nat.
Proof. induction s as [|c s IH]; [done|]. simpl. case_match; simpl; lia. Qed.

Lemma scan_digits1_shorter ctx s : not_longer s (scan_digits1 ctx s).
Proof.
  unfold scan_digits1, not_longer. destruct s as [|c s]; [done|]. case_match; [|done]. unfold shorter.
  destruct (span_digits (String c s)) as [d r] eqn:E. pose proof (span_digits_length (String c s)) as Hl.
  rewrite E in Hl. simpl in *. lia.
Qed.

Lemma scan_int_shorter s : shorter (S (String.length s)) (scan_int s).
Proof.
  unfold scan_int. destruct s as [|c s]; [done|]. case_decide; [simpl; lia|]. apply scan_digits1_shorter.
Qed.

Lemma scan_frac_shorter s : not_longer s (scan_frac s).
Proof.
  unfold scan_frac, not_longer. destruct s as [|c s]; [simpl; lia|]. case_decide; [|simpl; lia].
  apply shorter_map. eapply shorter_weaken; [apply scan_digits1_shorter|]. simpl. lia.
Qed.

Lemma scan_exp_shorter s : not_longer s (scan_exp s).
Proof.
  unfold scan_exp, not_longer. destruct s as [|c s]; [simpl; lia|]. case_decide; [|simpl; lia].
  cbv zeta. destruct s as [|g s]; [done|].
  case_decide; apply shorter_map; (eapply shorter_weaken; [apply scan_digits1_shorter|]); simpl; lia.
Qed.

Lemma scan_number_shorter s : not_longer s (scan_number s).
Proof.
  unfold not_longer, scan_number. 
  assert (forall (neg : bool) s', (String.length s' <= String.length s)%nat ->
    shorter (S (String.length s)) (scan_bind (scan_int s') (fun i s => scan_bind (scan_frac s) (fun f s =>
      scan_bind (scan_exp s) (fun e s => inl (if decide (f +:+ e = "") then JNum (if neg then - digits_value 0 i else digits_value 0 i)
         else JFrac ((if neg then "-" else "") +:+ i +:+ f +:+ e), s)))))) as Hgen.
  { intros neg s' Hs'. eapply shorter_bind; [apply scan_int_shorter|]. intros i s1 H1. simpl in H1.
    eapply shorter_bind; [apply scan_frac_shorter|]. intros f s2 H2. simpl in H2.
    eapply shorter_bind; [apply scan_exp_shorter|]. intros e s3 H3. simpl in *. lia. }
  destruct s as [|c s]; [by apply (Hgen false)|].
  destruct (decide (c = "-"%char)); [apply (Hgen true); simpl; lia|by apply (Hgen false)].
Qed.

Lemma scan_string_shorter st s : not_longer s (scan_string st s).
Proof.
  unfold not_longer. revert st. induction s as [|c s IH]; intros st; [by destruct st|].
  assert (forall st, shorter (S (String.length (String c s))) (scan_map (String c) (scan_string st s))) as Hstep.
  { intros st'. apply shorter_map. eapply shorter_weaken; [apply IH|]. simpl. lia. }
  cbn [scan_string]. destruct st; repeat (case_decide || case_match); try done; try apply Hstep. simpl. lia.
Qed.

(** A step that reads one more character of what is left. *)
Lemma skip_shorter {A} (k : ascii -> string -> scanned A) n s :
  (String.length s < n)%nat ->
  (forall c s', (S (String.length s') < n)%nat -> shorter n (k c s')) ->
  shorter n (match skip_space s with EmptyString => inr UnexpectedEOF | String c s => k c s end).
Proof.
  intros Hs Hk. pose proof (skip_space_length s) as Hl. destruct (skip_space s) as [|c s']; [done|].
  apply Hk. simpl in Hl. lia.
Qed.

(** With two units of fuel per character, plus what the entry point needs, the
    parser stops and leaves no more than it was given. *)
Definition fuel_suffices (n : nat) : Prop :=
  (forall d s, (2 * String.length s + 1 <= n)%nat -> not_longer s (parse_value n d s)) /\
  (forall d s, (2 * String.length s + 2 <= n)%nat -> not_longer s (parse_elems n d s)) /\
  (forall d s, (2 * String.length s + 2 <= n)%nat -> not_longer s (parse_members n d s)).

Lemma parse_value_fuel n : fuel_suffices n ->
  forall d s, (2 * String.length s + 1 <= S n)%nat -> not_longer s (parse_value (S n) d s).
Proof.
  intros (_ & He & Hm) d s Hn. unfold not_longer. cbn [parse_value]. apply skip_shorter; [lia|]. intros c s' Hs'.
  assert (forall A close (v : json) (f : A -> json) (r : scanned A),
    shorter (S (String.length s)) r ->
    shorter (S (String.length s)) (match skip_space s' with
      | EmptyString => inr UnexpectedEOF
      | String c' s'' => if decide (c' = close) then inl (v, s'') else scan_map f r
      end)) as Hopen.
  { intros A close v f r Hr. apply skip_shorter; [lia|]. intros c1 s1 Hs1. case_decide; [simpl; lia|by apply shorter_map]. }
  case_decide; [|case_decide; [|case_decide; [|destruct (bool_decide _ || _); [|repeat case_decide; try done]]]].
  - destruct (max_depth <=? d); [done|]. apply Hopen. eapply shorter_weaken; [apply Hm|]; lia.
  - destruct (max_depth <=? d); [done|]. apply Hopen. eapply shorter_weaken; [apply He|]; lia.
  - apply shorter_map. eapply shorter_weaken; [apply scan_string_shorter|]. lia.
  - eapply shorter_weaken; [apply scan_number_shorter|]. simpl. lia.
  - apply shorter_map. eapply shorter_weaken; [apply scan_word_shorter|]. lia.
  - apply shorter_map. eapply shorter_weaken; [apply scan_word_shorter|]. lia.
  - apply shorter_map. eapply shorter_weaken; [apply scan_word_shorter|]. lia.
Qed.

Lemma parse_elems_fuel n : fuel_suffices n ->
  forall d s, (2 * String.length s + 2 <= S n)%nat -> not_longer s (parse_elems (S n) d s).
Proof.
  intros (Hv & He & _) d s Hn. unfold not_longer. cbn [parse_elems].
  eapply shorter_bind; [apply Hv; lia|]. intros v s1 H1. apply skip_shorter; [lia|]. intros c s2 H2.
  repeat case_decide; [|simpl; lia|done]. apply shorter_map. eapply shorter_weaken; [apply He|]; lia.
Qed.

Lemma parse_members_fuel n : fuel_suffices n ->
  forall d s, (2 * String.length s + 2 <= S n)%nat -> not_longer s (parse_members (S n) d s).
Proof.
  intros (Hv & _ & Hm) d s Hn. unfold not_longer. cbn [parse_members]. apply skip_shorter; [lia|]. intros c s1 H1.
  case_decide; [|done]. eapply shorter_bind; [apply scan_string_shorter|]. intros raw s2 H2.
  apply skip_shorter; [lia|]. intros c3 s3 H3. case_decide; [|done].
  eapply shorter_bind; [apply Hv; lia|]. intros v s4 H4. apply skip_shorter; [lia|]. intros c5 s5 H5.
  repeat case_decide; [|simpl; lia|done]. apply shorter_map. eapply shorter_weaken; [apply Hm|]; lia.
Qed.

Lemma fuel_enough n : fuel_suffices n.
Proof.
  induction n as [|n IH]; [split; [|split]; intros; lia|].
  split; [by apply parse_value_fuel|]. split; [by apply parse_elems_fuel|by apply parse_members_fuel].
Qed.

(** More fuel than needed is never used up. *)
Lemma json_parse_complete s : parse_value (json_fuel s) 0 s <> inr FuelOut.
Proof.
  destruct (fuel_enough (json_fuel s)) as [Hv _]. specialize (Hv 0 s ltac:(unfold json_fuel; lia)).
  intros E. unfold not_longer in Hv. by rewrite E in Hv.
Qed.

(** ** Strings *)

(** What the quoted form [p] of a rune does in the scanner and in [unquote]:
    it is copied, and one round reads it as [r]. *)
Definition copied (p : list Z) : Prop :=
  forall s, scan_string InString (of_bytes p +:+ s) = scan_map (fun raw => of_bytes p +:+ raw) (scan_string InString s).

Definition reads_as (p : list Z) (r : Z) : Prop :=
  forall fuel l, unquote_loop (S fuel) (p ++ l) = encode_scalar r ++ unquote_loop fuel l.

(** A byte that is neither a quote, a backslash nor a control character. *)
Definition plain_byte (b : Z) : Prop := 32 <= b < 256 /\ b <> 34 /\ b <> 92.

Lemma of_byte_neq b k : is_byte b -> is_byte k -> b <> k -> of_byte b <> of_byte k.
Proof. intros Hb Hk Hn E. apply Hn. by rewrite <- (byte_of_of b), E, byte_of_of. Qed.

Lemma copied_plain p : Forall plain_byte p -> copied p.
Proof.
  intros Hp s. induction Hp as [|b p (Hb & Hq & Hs) _ IH].
  { change (of_bytes [] +:+ s) with s. by destruct (scan_string InString s) as [[]|]. }
  cbn [of_bytes]. rewrite string_app_cons. cbn [scan_string].
  rewrite decide_False by (apply (of_byte_neq b 34); unfold is_byte; lia).
  rewrite decide_False by (apply (of_byte_neq b 92); unfold is_byte; lia).
  rewrite byte_of_of by (unfold is_byte; lia). rewrite (proj2 (Z.ltb_ge b 32)) by lia.
  rewrite IH. by destruct (scan_string InString s) as [[]|].
Qed.

(** A backslash and a letter. *)
Lemma copied_escape e s :
  escapable (of_byte e) = true ->
  scan_string InString (of_bytes [92; e] +:+ s) = scan_map (fun raw => of_bytes [92; e] +:+ raw) (scan_string InString s).
Proof.
  intros He. cbn [of_bytes]. rewrite !string_app_cons, string_app_nil_l. cbn [scan_string].
  rewrite decide_False by done. rewrite decide_True by done. rewrite He.
  by destruct (scan_string InString s) as [[]|].
Qed.

Lemma reads_escape e r :
  e <> 117 -> unescape e = r -> 0 <= r < 128 -> reads_as [92; e] r.
Proof.
  intros He <- Hr fuel l. rewrite encode_scalar_ascii by done. cbn [app unquote_loop].
  change (92 =? 92) with true. cbv iota. cbn [getu4]. change (92 =? 92) with true.
  by rewrite (proj2 (Z.eqb_neq e 117)).
Qed.

(** A hexadecimal escape. *)
Lemma hex_byte_val d : 0 <= d < 16 -> hex_val (of_byte (hex_byte d)) = Some d.
Proof. intros Hd. unfold hex_byte. rewrite of_byte_of. by apply hex_val_char. Qed.

Lemma copied_hex a b c d :
  0 <= a < 16 -> 0 <= b < 16 -> 0 <= c < 16 -> 0 <= d < 16 ->
  copied [92; 117; hex_byte a; hex_byte b; hex_byte c; hex_byte d].
Proof.
  intros Ha Hb Hc Hd s. cbn [of_bytes]. rewrite !string_app_cons, string_app_nil_l. cbn [scan_string].
  rewrite decide_False by done. rewrite decide_True by done.
  change (escapable (of_byte 117)) with false. cbv iota. rewrite decide_True by done.
  rewrite !hex_byte_val by done. by destruct (scan_string InString s) as [[]|].
Qed.

Lemma reads_hex a b c d r :
  0 <= a < 16 -> 0 <= b < 16 -> 0 <= c < 16 -> 0 <= d < 16 ->
  r = a * 4096 + b * 256 + c * 16 + d -> scalar r ->
  reads_as [92; 117; hex_byte a; hex_byte b; hex_byte c; hex_byte d] r.
Proof.
  intros Ha Hb Hc Hd -> Hr fuel l. cbn [app unquote_loop].
  change (92 =? 92) with true. cbv iota. cbn [getu4 hex4]. change ((92 =? 92) && (117 =? 117)) with true. cbv iota.
  rewrite !hex_byte_val by done. cbn [mbind option_bind]. rewrite (proj2 Hr). cbn [drop].
  by rewrite encode_rune_scalar.
Qed.

(** A rune written as itself. *)
Lemma reads_plain r : scalar r -> r <> 92 -> reads_as (encode_scalar r) r.
Proof.
  intros Hr Hn fuel l. pose proof (decode_rune_encode r l Hr) as Hd.
  assert (exists b l', encode_scalar r ++ l = b :: l' /\ b <> 92) as (b & l' & E & Hb).
  { destruct (decide (r < 0x80)) as [Hlt|Hge].
    - rewrite encode_scalar_ascii by (split; [apply Hr|done]). eauto.
    - pose proof (encode_scalar_high r Hr ltac:(lia)) as Hh. pose proof (encode_scalar_length r) as Hl.
      destruct (encode_scalar r) as [|b l']; [simpl in Hl; lia|]. apply Forall_cons in Hh as [Hb _].
      exists b, (l' ++ l). split; [done|lia]. }
  rewrite E in *. cbn [unquote_loop]. rewrite (proj2 (Z.eqb_neq b 92)) by done. rewrite Hd.
  rewrite encode_rune_scalar, <- E, drop_app_length by done. done.
Qed.

(** The quoted form of every rune is copied by the scanner and read back. *)
Lemma quote_ascii_ok r : 0 <= r < 128 -> copied (quote_ascii r) /\ reads_as (quote_ascii r) r.
Proof.
  intros Hr. assert (scalar r) as Hs by (split; [lia|unfold is_surrogate, inside; by rewrite (proj2 (Z.leb_gt _ _)) by lia]).
  unfold quote_ascii. destruct (html_safe r) eqn:Hh.
  { unfold html_safe in Hh. zbool. rewrite <- (encode_scalar_ascii r) by done. split; [|apply reads_plain; [done|lia]].
    rewrite encode_scalar_ascii by done. apply copied_plain. repeat constructor; lia. }
  destruct ((r =? 92) || (r =? 34)) eqn:H1.
  { apply orb_true_iff in H1 as [->%Z.eqb_eq| ->%Z.eqb_eq]; (split; [intros s; by apply copied_escape|apply reads_escape; (done || lia)]). }
  assert (forall e k p, r = k -> escapable (of_byte e) = true -> e <> 117 -> unescape e = k ->
    p = [92; e] -> copied p /\ reads_as p r) as Hesc.
  { intros e k p -> He Hu Hk ->. split; [intros s; by apply copied_escape|by apply reads_escape]. }
  destruct (r =? 8) eqn:E1; [zbool; by apply (Hesc 98 8)|].
  destruct (r =? 12) eqn:E2; [zbool; by apply (Hesc 102 12)|].
  destruct (r =? 10) eqn:E3; [zbool; by apply (Hesc 110 10)|].
  destruct (r =? 13) eqn:E4; [zbool; by apply (Hesc 114 13)|].
  destruct (r =? 9) eqn:E5; [zbool; by apply (Hesc 116 9)|].
  split; [apply (copied_hex 0 0)|apply (reads_hex 0 0); [..|done]]; zdiv.
Qed.

Lemma quote_rune_ok r l :
  scalar r ->
  let p := quote_rune r (length (encode_scalar r)) (encode_scalar r ++ l) in copied p /\ reads_as p r.
Proof.
  intros Hr. cbv zeta. unfold quote_rune. destruct (r <? 128) eqn:E; zbool.
  { apply quote_ascii_ok. split; [apply Hr|done]. }
  assert ((r =? rune_error) && (length (encode_scalar r) =? 1)%nat = false) as ->.
  { apply andb_false_iff. destruct (r =? rune_error) eqn:E1; [right|by left]. zbool. by subst. }
  destruct ((r =? 0x2028) || (r =? 0x2029)) eqn:E2.
  { apply orb_true_iff in E2 as [->%Z.eqb_eq| ->%Z.eqb_eq].
    - split; [by apply (copied_hex 2 0 2 8)|by apply (reads_hex 2 0 2 8)].
    - split; [by apply (copied_hex 2 0 2 9)|by apply (reads_hex 2 0 2 9)]. }
  rewrite take_app_length. split; [|apply reads_plain; [done|lia]].
  apply copied_plain. eapply Forall_impl; [by apply encode_scalar_high|]. unfold plain_byte. simpl. lia.
Qed.

Definition quoted_runes (rs : list Z) : list Z := rs ≫= fun r => quote_rune r (length (encode_scalar r)) (encode_scalar r).

Lemma quote_rune_prefix r l :
  quote_rune r (length (encode_scalar r)) (encode_scalar r ++ l) = quote_rune r (length (encode_scalar r)) (encode_scalar r).
Proof. unfold quote_rune. rewrite take_app_length. by rewrite take_ge by done. Qed.

Lemma quote_loop_step fuel l :
  l <> [] ->
  quote_loop (S fuel) l = let '(r, size) := decode_rune l in quote_rune r size l ++ quote_loop fuel (drop size l).
Proof. by destruct l. Qed.

Lemma quote_loop_runes rs fuel :
  Forall scalar rs -> (length rs <= fuel)%nat -> quote_loop fuel (utf8 rs) = quoted_runes rs.
Proof.
  intros Hrs. revert fuel. induction Hrs as [|r rs Hr Hrs IH]; intros fuel Hf.
  { by destruct fuel. }
  destruct fuel as [|fuel]; [simpl in Hf; lia|].
  assert (utf8 (r :: rs) = encode_scalar r ++ utf8 rs) as -> by done.
  rewrite quote_loop_step by (pose proof (encode_scalar_length r); by destruct (encode_scalar r); [simpl in *; lia|]).
  rewrite decode_rune_encode by done. rewrite drop_app_length, quote_rune_prefix, IH by (simpl in Hf; lia). done.
Qed.

Lemma scan_quoted_runes rs s :
  Forall scalar rs ->
  scan_string InString (of_bytes (quoted_runes rs) +:+ String dq s) = inl (of_bytes (quoted_runes rs), s).
Proof.
  induction 1 as [|r rs Hr _ IH].
  - cbn [quoted_runes mbind list_bind of_bytes]. rewrite string_app_nil_l. cbn [scan_string]. by rewrite decide_True.
  - assert (quoted_runes (r :: rs) = quote_rune r (length (encode_scalar r)) (encode_scalar r) ++ quoted_runes rs) as -> by done.
    rewrite of_bytes_app, <- string_app_assoc. pose proof (quote_rune_ok r [] Hr) as [Hc _]. rewrite app_nil_r in Hc.
    rewrite Hc, IH. done.
Qed.

Lemma unquote_quoted_runes rs fuel :
  Forall scalar rs -> (length rs <= fuel)%nat -> unquote_loop fuel (quoted_runes rs) = utf8 rs.
Proof.
  intros Hrs. revert fuel. induction Hrs as [|r rs Hr Hrs IH]; intros fuel Hf; [by destruct fuel|].
  destruct fuel as [|fuel]; [simpl in Hf; lia|].
  assert (quoted_runes (r :: rs) = quote_rune r (length (encode_scalar r)) (encode_scalar r) ++ quoted_runes rs) as -> by done.
  pose proof (quote_rune_ok r [] Hr) as [_ Hu]. rewrite app_nil_r in Hu.
  rewrite Hu, IH by (simpl in Hf; lia). done.
Qed.

(** Text made of Unicode scalar values. *)
Definition utf8_text (s : string) : Prop := exists rs, Forall scalar rs /\ bytes_of s = utf8 rs.

Lemma utf8_length rs : (length rs <= length (utf8 rs))%nat.
Proof.
  induction rs as [|r rs IH]; [done|]. assert (utf8 (r :: rs) = encode_scalar r ++ utf8 rs) as -> by done.
  rewrite length_app. cbn [length]. pose proof (encode_scalar_length r). lia.
Qed.

Lemma hex_byte_byte d : 0 <= d < 16 -> is_byte (hex_byte d).
Proof. intros _. apply byte_of_range. Qed.

Lemma quote_rune_bytes r : scalar r ->
  let p := quote_rune r (length (encode_scalar r)) (encode_scalar r) in (1 <= length p)%nat /\ Forall is_byte p.
Proof.
  intros Hr. cbv zeta. unfold quote_rune, quote_ascii. pose proof (encode_scalar_bytes r Hr) as Hb.
  pose proof (encode_scalar_length r) as Hl. rewrite take_ge by done.
  pose proof (proj1 Hr). assert (forall d, is_byte (hex_byte d)) by (intros; apply byte_of_range).
  destruct (r <? 128) eqn:E; zbool; repeat case_match; (split; [first [exact (proj1 Hl)|simpl; lia]|]); try done;
    repeat (apply Forall_cons_2; [done || (unfold is_byte; lia)|]); apply Forall_nil_2.
Qed.

Lemma quoted_runes_bytes rs : Forall scalar rs ->
  (length rs <= length (quoted_runes rs))%nat /\ Forall is_byte (quoted_runes rs).
Proof.
  induction 1 as [|r rs Hr _ [IH1 IH2]]; [done|].
  assert (quoted_runes (r :: rs) = quote_rune r (length (encode_scalar r)) (encode_scalar r) ++ quoted_runes rs) as -> by done.
  destruct (quote_rune_bytes r Hr) as [Hl Hb]. rewrite length_app. split; [simpl; lia|]. by apply Forall_app.
Qed.

Lemma quote_text_runes s rs : Forall scalar rs -> bytes_of s = utf8 rs -> quote_text s = of_bytes (quoted_runes rs).
Proof.
  intros Hrs Hs. unfold quote_text. rewrite Hs, quote_loop_runes; [done|done|].
  rewrite <- length_bytes_of, Hs. apply utf8_length.
Qed.

(** The scanner reads a quoted text up to its closing quote... *)
Lemma scan_quote_text s rest :
  utf8_text s -> scan_string InString (quote_text s +:+ String dq rest) = inl (quote_text s, rest).
Proof.
  intros (rs & Hrs & Hs). rewrite (quote_text_runes s rs) by done. by apply scan_quoted_runes.
Qed.

(** ... and unquoting gives the text back. *)
Lemma unquote_quote_text s : utf8_text s -> unquote (quote_text s) = s.
Proof.
  intros (rs & Hrs & Hs). rewrite (quote_text_runes s rs) by done.
  destruct (quoted_runes_bytes rs Hrs) as [Hl Hb]. unfold unquote. rewrite <- length_bytes_of.
  rewrite bytes_of_of by done. rewrite unquote_quoted_runes by done. by rewrite <- Hs, of_bytes_of.
Qed.

(** ** Numbers *)

(** A text that cannot continue a number. *)
Definition stops (s : string) : Prop :=
  match s with
  | EmptyString => True
  | String c _ => is_digit c = false /\ c <> "."%char /\ c <> "e"%char /\ c <> "E"%char
  end.

Lemma stops_frac s : stops s -> scan_frac s = inl ("", s).
Proof. destruct s as [|c s]; [done|]. intros (_ & H & _). unfold scan_frac. by rewrite decide_False. Qed.

Lemma stops_exp s : stops s -> scan_exp s = inl ("", s).
Proof. destruct s as [|c s]; [done|]. intros (_ & _ & ? & ?). unfold scan_exp. rewrite decide_False; naive_solver. Qed.

Lemma span_fmt_digits fuel n acc :
  0 <= n -> span_digits (fmt_digits fuel n acc) = let p := span_digits acc in (fmt_digits fuel n p.1, p.2).
Proof.
  revert n acc. induction fuel as [|f IH]; intros n acc Hn; [apply surjective_pairing|]. cbn [fmt_digits].
  assert (forall a, span_digits (String (digit_char (n mod 10)) a) =
    let p := span_digits a in (String (digit_char (n mod 10)) p.1, p.2)) as Hd.
  { intros a. cbn [span_digits]. by rewrite is_digit_char by zdiv. }
  cbv zeta. destruct (n <? 10); [apply Hd|]. rewrite IH by (apply Z.div_pos; lia). by rewrite Hd.
Qed.

Lemma digits_value_fmt fuel n acc :
  0 <= n < 2 ^ Z.of_nat fuel -> digits_value 0 (fmt_digits fuel n acc) = digits_value n acc.
Proof.
  revert n acc. induction fuel as [|f IH]; intros n acc Hn.
  { change (2 ^ Z.of_nat 0) with 1 in Hn. cbn [fmt_digits]. f_equal. lia. }
  cbn [fmt_digits]. cbv zeta.
  assert (forall m k a, digits_value m (String (digit_char (k mod 10)) a) = digits_value (m * 10 + k mod 10) a) as Hd.
  { intros m k a. cbn [digits_value]. unfold digit_char. rewrite byte_of_of by (unfold is_byte; zdiv). f_equal. lia. }
  destruct (n <? 10) eqn:E; zbool.
  - rewrite Hd. f_equal. rewrite Z.mod_small by lia. lia.
  - rewrite Nat2Z.inj_succ, Z.pow_succ_r in Hn by lia.
    rewrite IH by zdiv. rewrite Hd. f_equal. zdiv.
Qed.

Lemma scan_int_format n rest :
  0 <= n -> stops rest -> scan_int (format_uint n +:+ rest) = inl (format_uint n, rest).
Proof.
  intros Hn Hr. unfold format_uint. rewrite fmt_digits_app.
  assert (span_digits rest = ("", rest)) as Hs.
  { destruct rest as [|c rest]; [done|]. destruct Hr as [Hc _]. cbn [span_digits]. by rewrite Hc. }
  assert (span_digits (fmt_digits (digit_fuel n) n ("" +:+ rest)) = (fmt_digits (digit_fuel n) n "", rest)) as Hspan.
  { rewrite span_fmt_digits by done. by rewrite string_app_nil_l, Hs. }
  destruct (decide (n = 0)) as [->|Hpos]; [done|].
  destruct (fmt_digits_lead (digit_fuel n) n ("" +:+ rest)) as (d & s & Hd & Hrange);
    [split; [lia|by apply digit_fuel_enough]|].
  rewrite Hd in *. unfold scan_int, scan_digits1.
  rewrite decide_False; [by rewrite is_digit_char, Hspan by lia|].
  apply (of_byte_neq (48 + d) 48); unfold is_byte; lia.
Qed.

Lemma digits_value_format n : 0 <= n -> digits_value 0 (format_uint n) = n.
Proof. intros Hn. unfold format_uint. rewrite digits_value_fmt; [done|]. split; [done|by apply digit_fuel_enough]. Qed.

Lemma scan_format_int z rest : stops rest -> scan_number (format_int z +:+ rest) = inl (JNum z, rest).
Proof.
  intros Hr. unfold scan_number, format_int. destruct (z <? 0) eqn:E; zbool.
  - rewrite string_app_cons. rewrite decide_True by done. cbv iota zeta beta.
    rewrite scan_int_format by (done || lia). cbn [scan_bind]. rewrite stops_frac by done. cbn [scan_bind].
    rewrite stops_exp by done. cbn [scan_bind]. rewrite decide_True by done. rewrite digits_value_format by lia.
    by rewrite Z.opp_involutive.
  - assert (exists d s, format_uint z +:+ rest = String (digit_char d) s /\ 0 <= d < 10) as (d & s & Hd & Hrange).
    { unfold format_uint. rewrite fmt_digits_app. apply fmt_digits_head; [done|unfold digit_fuel; lia]. }
    rewrite Hd, decide_False by (by apply digit_char_no_sign). rewrite <- Hd.
    rewrite scan_int_format by done. cbn [scan_bind]. rewrite stops_frac by done. cbn [scan_bind].
    rewrite stops_exp by done. cbn [scan_bind]. rewrite decide_True by done. by rewrite digits_value_format.
Qed.

(** The first character of a number. *)
Lemma format_int_head z :
  exists c s, format_int z = String c s /\ (c = "-"%char \/ exists d, 0 <= d < 10 /\ c = digit_char d).
Proof.
  unfold format_int. destruct (z <? 0) eqn:E; zbool; [by eauto|].
  destruct (fmt_digits_head (digit_fuel z) z "") as (d & s & Hd & Hr); [done|unfold digit_fuel; lia|].
  exists (digit_char d), s. eauto.
Qed.

(** ** Times *)

(** ASCII text without characters that need an escape. *)
Definition safe_byte (b : Z) : Prop := 0 <= b < 128 /\ html_safe b = true.
Definition safe_text (s : string) : Prop := Forall safe_byte (bytes_of s).

Lemma safe_text_quote s : safe_text s -> utf8_text s /\ quote_text s = s.
Proof.
  intros Hs. assert (Forall scalar (bytes_of s)) as Hsc.
  { eapply Forall_impl; [exact Hs|]. intros b [Hb _]. split; [lia|]. unfold is_surrogate, inside.
    by rewrite (proj2 (Z.leb_gt _ _)) by lia. }
  assert (utf8 (bytes_of s) = bytes_of s) as Hu.
  { induction Hs as [|b l [Hb _] _ IH]; [done|]. apply Forall_cons in Hsc as [_ Hsc].
    assert (utf8 (b :: l) = encode_scalar b ++ utf8 l) as -> by done. by rewrite encode_scalar_ascii, IH. }
  split; [by exists (bytes_of s)|]. rewrite (quote_text_runes s (bytes_of s)) by done.
  rewrite <- (of_bytes_of s) at 2. f_equal. clear Hsc Hu. induction Hs as [|b l [Hb Hh] _ IH]; [done|].
  assert (quoted_runes (b :: l) = quote_rune b (length (encode_scalar b)) (encode_scalar b) ++ quoted_runes l) as -> by done.
  rewrite IH. unfold quote_rune, quote_ascii. rewrite (proj2 (Z.ltb_lt b 128)) by lia. by rewrite Hh.
Qed.

Lemma safe_no_backslash s : safe_text s -> char_in backslash s = false.
Proof.
  induction s as [|c s IH]; [done|]. intros [Hc Hs]%Forall_cons. cbn [char_in]. rewrite decide_False; [by apply IH|].
  intros <-. destruct Hc as [_ Hc]. by vm_compute in Hc.
Qed.

Lemma safe_pad w n : safe_text (pad w n).
Proof.
  unfold safe_text. revert n. induction w as [|w IH]; intros n; [constructor|]. cbn [pad]. rewrite bytes_of_app. apply Forall_app.
  split; [done|]. apply Forall_cons_2; [|constructor]. unfold digit_char.
  rewrite byte_of_of by (unfold is_byte; zdiv).
  assert (0 <= n mod 10 < 10) as Hd by zdiv. revert Hd. generalize (n mod 10). intros d Hd.
  split; [lia|]. unfold html_safe. by byte_tests.
Qed.

Lemma safe_trim s : safe_text s -> safe_text (trim_zeros s).
Proof.
  unfold safe_text. induction s as [|c s IH]; [done|]. intros [Hc Hs]%Forall_cons. rewrite trim_zeros_cons.
  case_decide; [constructor|]. apply Forall_cons_2; [done|by apply IH].
Qed.

Lemma safe_app a b : safe_text (a +:+ b) <-> safe_text a /\ safe_text b.
Proof. unfold safe_text. rewrite bytes_of_app. apply Forall_app. Qed.

Lemma safe_rfc3339 t : in_calendar t -> safe_text (rfc3339_nano t).
Proof.
  unfold in_calendar, rfc3339_nano, date_text, clock_text. cbv zeta. intros Hy. rewrite pad_year_calendar by done.
  assert (safe_text (frac (c_nsec (civil_of t)))) as Hf.
  { unfold frac. pose proof (safe_trim _ (safe_pad 9 (c_nsec (civil_of t)))) as Hp.
    destruct (trim_zeros _); [constructor|]. apply Forall_cons_2; [by vm_compute|done]. }
  assert (forall c, safe_byte (byte_of c) -> safe_text (String c "")) as Hc by (intros c Hc; apply Forall_cons_2; [done|apply Forall_nil_2]).
  rewrite !safe_app. repeat split; try apply safe_pad; try done; apply Hc; by vm_compute.
Qed.

(** ** Values *)

Section json_induction.
Variable P : json -> Prop.
Hypothesis Hflat : forall v, (forall l, v <> JArr l) -> (forall l, v <> JObj l) -> P v.
Hypothesis Harr : forall l, Forall P l -> P (JArr l).
Hypothesis Hobj : forall l, Forall (fun kv => P kv.2) l -> P (JObj l).

Fixpoint json_ind' (v : json) : P v :=
  match v with
  | JArr l => Harr l ((fix go l := match l return Forall P l with
                                   | [] => Forall_nil_2 P
                                   | v :: l => Forall_cons_2 P v l (json_ind' v) (go l)
                                   end) l)
  | JObj l => Hobj l ((fix go l := match l return Forall (fun kv => P kv.2) l with
                                   | [] => Forall_nil_2 _
                                   | kv :: l => Forall_cons_2 _ kv l (json_ind' kv.2) (go l)
                                   end) l)
  | v => Hflat v ltac:(done) ltac:(done)
  end.
End json_induction.

(** The value the decoder makes of an encoded one. *)
Fixpoint read_back (v : json) : json :=
  match v with
  | JStr s | JEscStr s => if char_in backslash (quote_text s) then JEscStr s else JStr s
  | JTime t => JStr (rfc3339_nano t)
  | JArr l => JArr (map read_back l)
  | JObj l => JObj (map (fun kv => (kv.1, read_back kv.2)) l)
  | v => v
  end.

(** Values the decoder can give back: no fractions, texts of scalar values,
    times with a four-digit year. *)
#[warnings="-register-all"]
Inductive encodable : json -> Prop :=
| enc_null : encodable JNull
| enc_bool b : encodable (JBool b)
| enc_num z : encodable (JNum z)
| enc_str s : utf8_text s -> encodable (JStr s)
| enc_esc s : utf8_text s -> encodable (JEscStr s)
| enc_time t : in_calendar t -> encodable (JTime t)
| enc_arr l : Forall encodable l -> encodable (JArr l)
| enc_obj l : Forall (fun kv => utf8_text kv.1 /\ encodable kv.2) l -> encodable (JObj l).

Fixpoint json_depth (v : json) : Z :=
  match v with
  | JArr l => 1 + foldr Z.max 0 (map json_depth l)
  | JObj l => 1 + foldr Z.max 0 (map (fun kv => json_depth kv.2) l)
  | _ => 0
  end.

Definition member_text (kv : string * json) : option string :=
  t ← json_text kv.2; Some (in_quotes (quote_text kv.1) +:+ ":" +:+ t).

Lemma json_text_arr l : json_text (JArr l) = (fun ts => "[" +:+ join "," ts +:+ "]") <$> mapM json_text l.
Proof.
  reflexivity.
Qed.

Lemma json_text_obj l : json_text (JObj l) = (fun ts => "{" +:+ join "," ts +:+ "}") <$> mapM member_text l.
Proof.
  cbn [json_text]. f_equal. induction l as [|[k v] l IH]; [done|]. cbn [mapM]. rewrite IH.
  generalize (mapM member_text l). intros r. unfold member_text. cbn [fst snd]. by destruct (json_text v).
Qed.

(** How a parsed piece is skipped to. *)
Definition opens (s : string) : Prop :=
  exists c s', s = String c s' /\ is_space c = false /\ c <> "]"%char /\ c <> "}"%char.

Lemma opens_skip s : opens s -> skip_space s = s.
Proof. intros (c & s' & -> & Hc & _). simpl. by rewrite Hc. Qed.

Lemma opens_app s t : opens s -> opens (s +:+ t).
Proof. intros (c & s' & -> & Hc). rewrite string_app_cons. by exists c, (s' +:+ t). Qed.

Lemma digit_opens d : 0 <= d < 10 -> forall s, opens (String (digit_char d) s).
Proof.
  intros Hd s. exists (digit_char d), s. split; [done|]. unfold is_space, digit_char.
  rewrite byte_of_of by (unfold is_byte; lia). byte_tests. cbn [orb]. split; [done|].
  split; [apply (of_byte_neq (48 + d) 93)|apply (of_byte_neq (48 + d) 125)]; unfold is_byte; lia.
Qed.

Lemma text_opens v t : encodable v -> json_text v = Some t -> opens t.
Proof.
  intros Hv Ht. destruct Hv as [|b|z|s|s|t'|l|l].
  7: { rewrite json_text_arr in Ht. destruct (mapM json_text l); [|done]. injection Ht as <-. by eexists _, _. }
  7: { rewrite json_text_obj in Ht. destruct (mapM member_text l); [|done]. injection Ht as <-. by eexists _, _. }
  all: cbn [json_text] in Ht; try (rewrite decide_True in Ht by done); injection Ht as <-; try (by eexists _, _).
  - destruct b; by eexists _, _.
  - destruct (format_int_head z) as (c & s & -> & [->|(d & Hd & ->)]); [by eexists _, _|by apply digit_opens].
Qed.

(** Text read by a value, an array tail or the members of an object. *)
Definition value_reads (v : json) : Prop := forall t n d rest,
  encodable v -> json_text v = Some t -> json_depth v + d <= max_depth ->
  (2 * String.length t + 1 <= n)%nat -> stops rest ->
  parse_value n d (t +:+ rest) = inl (read_back v, rest).

Lemma stops_close c rest : c = ","%char \/ c = "]"%char \/ c = "}"%char -> stops (String c rest).
Proof. intros [->|[->| ->]]; done. Qed.

Lemma join_cons2 sep a b l : join sep (a :: b :: l) = a +:+ sep +:+ join sep (b :: l).
Proof. done. Qed.

Lemma read_elems l ts n d rest :
  l <> [] -> Forall value_reads l -> Forall encodable l -> mapM json_text l = Some ts ->
  foldr Z.max 0 (map json_depth l) + d <= max_depth ->
  (2 * String.length (join "," ts) + 2 <= n)%nat ->
  parse_elems n d (join "," ts +:+ String "]"%char rest) = inl (map read_back l, rest).
Proof.
  intros Hl Hr He. revert ts n. induction l as [|v l IH]; [done|]. clear Hl. intros ts n Ht Hd Hn.
  apply Forall_cons in Hr as [Hv Hr]. apply Forall_cons in He as [Hev He]. cbn [mapM] in Ht.
  destruct (json_text v) as [t|] eqn:Htv; [|done]. cbn [mbind option_bind] in Ht.
  destruct (mapM json_text l) as [ts'|] eqn:Htl; [|done]. injection Ht as <-. cbn [map foldr] in Hd.
  destruct n as [|n]; [lia|]. destruct l as [|v' l].
  - injection Htl as <-. cbn [join] in *. cbn [parse_elems].
    rewrite (Hv t n d) by (done || lia || by apply stops_close; auto). done.
  - destruct ts' as [|t' ts']; [cbn [mapM] in Htl; destruct (json_text v'), (mapM json_text l); done|].
    rewrite join_cons2 in *. rewrite !string_length_app in Hn. change (String.length ",") with 1%nat in Hn.
    rewrite <- !string_app_assoc. cbn [parse_elems].
    rewrite (Hv t n d) by (done || lia || by apply stops_close; auto).
    cbn [scan_bind]. rewrite (string_app_cons ","), string_app_nil_l. cbn [skip_space].
    change (is_space ",") with false. cbv iota. rewrite decide_True by done.
    rewrite IH by (done || lia). done.
Qed.

(** One member up to its value. *)
Lemma in_quotes_app s x : in_quotes s +:+ x = String dq (s +:+ String dq x).
Proof. unfold in_quotes. by rewrite !string_app_cons, <- string_app_assoc, string_app_cons, string_app_nil_l. Qed.

Lemma skip_to c s : is_space c = false -> skip_space (String c s) = String c s.
Proof. intros Hc. simpl. by rewrite Hc. Qed.

(** The members, after one of them has been read up to its value. *)
Lemma read_member k v t n d tail :
  value_reads v -> utf8_text k -> encodable v -> json_text v = Some t -> json_depth v + d <= max_depth ->
  (2 * String.length t + 1 <= n)%nat -> stops tail ->
  parse_members (S n) d ((in_quotes (quote_text k) +:+ ":" +:+ t) +:+ tail) =
  match skip_space tail with
  | EmptyString => inr UnexpectedEOF
  | String c s =>
      if decide (c = ","%char) then scan_map (cons (k, read_back v)) (parse_members n d s)
      else if decide (c = "}"%char) then inl ([(k, read_back v)], s)
      else inr (BadChar c "after object key:value pair")
  end.
Proof.
  intros Hv Hk He Ht Hd Hn Hs. rewrite <- !string_app_assoc, in_quotes_app, string_app_cons, string_app_nil_l.
  cbn [parse_members]. rewrite skip_to by done. rewrite decide_True by done.
  rewrite scan_quote_text by done. cbn [scan_bind]. rewrite skip_to by done. rewrite decide_True by done.
  rewrite (Hv t n d) by done. cbn [scan_bind]. by rewrite unquote_quote_text.
Qed.

Lemma read_members l ts n d rest :
  l <> [] -> Forall (fun kv => value_reads kv.2) l -> Forall (fun kv => utf8_text kv.1 /\ encodable kv.2) l ->
  mapM member_text l = Some ts ->
  foldr Z.max 0 (map (fun kv => json_depth kv.2) l) + d <= max_depth ->
  (2 * String.length (join "," ts) + 2 <= n)%nat ->
  parse_members n d (join "," ts +:+ String "}"%char rest) =
  inl (map (fun kv => (kv.1, read_back kv.2)) l, rest).
Proof.
  intros Hl Hr He. revert ts n. induction l as [|[k v] l IH]; [done|]. clear Hl. intros ts n Ht Hd Hn.
  apply Forall_cons in Hr as [Hv Hr]. apply Forall_cons in He as [[Hk Hev] He]. cbn [mapM fst snd] in *.
  destruct (member_text (k, v)) as [m|] eqn:Hm; [|done]. cbn [mbind option_bind] in Ht.
  unfold member_text in Hm. cbn [fst snd] in Hm. destruct (json_text v) as [t|] eqn:Htv; [|done].
  cbn [mbind option_bind] in Hm. injection Hm as <-.
  destruct (mapM member_text l) as [ts'|] eqn:Htl; [|done]. injection Ht as <-. cbn [map foldr fst snd] in *.
  assert (forall s, (String.length t + 1 <= String.length ((in_quotes (quote_text k) +:+ ":" +:+ t) +:+ s))%nat) as Hlen.
  { intros s. rewrite !string_length_app. simpl. lia. }
  destruct n as [|n]; [lia|]. destruct l as [|[k' v'] l].
  - injection Htl as <-. cbn [join] in *. specialize (Hlen ""). rewrite string_app_nil_r in Hlen.
    rewrite (read_member k v t n d) by (done || lia || by apply stops_close; auto). done.
  - destruct ts' as [|t' ts']; [cbn [mapM] in Htl; destruct (member_text (k', v')), (mapM member_text l); done|].
    rewrite join_cons2 in *. rewrite (string_length_app (_ +:+ _)), (string_length_app ",") in Hn.
    change (String.length ",") with 1%nat in Hn. specialize (Hlen ""). rewrite string_app_nil_r in Hlen.
    rewrite <- (string_app_assoc _ ("," +:+ _)). rewrite (read_member k v t n d) by (done || lia || by apply stops_close; auto).
    rewrite <- string_app_assoc, (string_app_cons ","), string_app_nil_l. rewrite skip_to by done. rewrite decide_True by done.
    rewrite IH by (done || lia). done.
Qed.

(** Brackets around what an array or an object contains. *)
Lemma brackets_opens ts (l : list string) : Forall opens (ts :: l) -> forall rest, opens (join "," (ts :: l) +:+ rest).
Proof.
  intros [Ho _]%Forall_cons rest. destruct l as [|t l]; [by apply opens_app|].
  rewrite join_cons2. by apply opens_app, opens_app.
Qed.

Lemma texts_open l ts : Forall encodable l -> mapM json_text l = Some ts -> Forall opens ts.
Proof.
  intros He. revert ts. induction He as [|v l Hv _ IH]; intros ts; cbn [mapM]; [by intros [= <-]|].
  destruct (json_text v) as [t|] eqn:Ht, (mapM json_text l); try done. intros [= <-].
  apply Forall_cons_2; [by eapply text_opens|by apply IH].
Qed.

Lemma members_open l ts : mapM member_text l = Some ts -> Forall opens ts.
Proof.
  revert ts. induction l as [|[k v] l IH]; intros ts; cbn [mapM]; [by intros [= <-]|].
  destruct (member_text (k, v)) as [t|] eqn:Hm, (mapM member_text l); try done. intros [= <-].
  apply Forall_cons_2; [|by apply IH]. unfold member_text in Hm. cbn [fst snd] in Hm.
  destruct (json_text v); [|done]. injection Hm as <-. by eexists _, _.
Qed.

Lemma open_array s n d :
  opens s -> d < max_depth ->
  parse_value (S n) d (String "["%char s) = scan_map JArr (parse_elems n (d + 1) s).
Proof.
  intros Ho Hd. cbn [parse_value]. rewrite skip_to by done. rewrite decide_False by done. rewrite decide_True by done.
  rewrite (proj2 (Z.leb_gt max_depth d)) by done. rewrite opens_skip by done.
  destruct Ho as (c & s' & -> & _ & Hc & _). by rewrite decide_False.
Qed.

Lemma open_object s n d :
  opens s -> d < max_depth ->
  parse_value (S n) d (String "{"%char s) = scan_map JObj (parse_members n (d + 1) s).
Proof.
  intros Ho Hd. cbn [parse_value]. rewrite skip_to by done. rewrite decide_True by done.
  rewrite (proj2 (Z.leb_gt max_depth d)) by done. rewrite opens_skip by done.
  destruct Ho as (c & s' & -> & _ & _ & Hc). by rewrite decide_False.
Qed.

Lemma max_nonneg l : 0 <= foldr Z.max 0 l.
Proof. induction l; simpl; lia. Qed.

Lemma open_empty n d rest :
  d < max_depth ->
  parse_value (S n) d (String "["%char (String "]"%char rest)) = inl (JArr [], rest) /\
  parse_value (S n) d (String "{"%char (String "}"%char rest)) = inl (JObj [], rest).
Proof.
  intros Hd. cbn [parse_value]. rewrite !skip_to by done. rewrite (proj2 (Z.leb_gt max_depth d)) by done.
  done.
Qed.

Lemma open_string s n d rest :
  utf8_text s -> parse_value (S n) d (in_quotes (quote_text s) +:+ rest) = inl (read_back (JStr s), rest).
Proof.
  intros Hs. rewrite in_quotes_app. cbn [parse_value]. rewrite skip_to by done. rewrite !decide_False by done.
  rewrite decide_True by done. rewrite scan_quote_text by done. cbn [scan_map read_back]. unfold string_value.
  by rewrite unquote_quote_text.
Qed.

Lemma open_number z n d rest : stops rest -> parse_value (S n) d (format_int z +:+ rest) = inl (JNum z, rest).
Proof.
  intros Hr. pose proof (scan_format_int z rest Hr) as Hscan.
  destruct (format_int_head z) as (c & s & E & Hc). rewrite E, string_app_cons in *.
  assert (is_space c = false /\ c <> "{"%char /\ c <> "["%char /\ c <> dq /\ bool_decide (c = "-"%char) || is_digit c = true)
    as (Hsp & H1 & H2 & H3 & H4).
  { destruct Hc as [->|(k & Hk & ->)]; [done|]. destruct (digit_opens k Hk "") as (c' & s' & [= <- _] & Hsp & _).
    split; [done|]. split; [apply (of_byte_neq (48 + k) 123); unfold is_byte; lia|].
    split; [apply (of_byte_neq (48 + k) 91); unfold is_byte; lia|].
    split; [apply (of_byte_neq (48 + k) 34); unfold is_byte; lia|]. rewrite is_digit_char by done. apply orb_true_r. }
  cbn [parse_value]. rewrite skip_to by done. rewrite !decide_False by done. by rewrite H4.
Qed.

Lemma read_value v : value_reads v.
Proof.
  induction v as [v Ha Ho|l IH|l IH] using json_ind'; intros t [|n] d rest He Ht Hd Hn Hs; try lia.
  - destruct v; try by edestruct Ha + edestruct Ho. all: cbn [json_text] in Ht; inversion He; subst.
    + injection Ht as <-. done.
    + injection Ht as <-. by destruct b.
    + injection Ht as <-. by apply open_number.
    + injection Ht as <-. by apply open_string.
    + injection Ht as <-. by apply open_string.
    + rewrite decide_True in Ht by done. injection Ht as <-.
      destruct (safe_text_quote (rfc3339_nano t0)) as [Hu Hq]; [by apply safe_rfc3339|].
      pose proof (open_string (rfc3339_nano t0) n d rest Hu) as Hread. cbn [read_back] in Hread. rewrite Hq in Hread.
      by rewrite safe_no_backslash in Hread by (by apply safe_rfc3339).
  - rewrite json_text_arr in Ht. destruct (mapM json_text l) as [ts|] eqn:Hts; [|done]. injection Ht as <-.
    rewrite !string_app_cons, !string_app_nil_l, <- string_app_assoc, string_app_cons, string_app_nil_l. inversion He as [| | | | | |l' Hl|]; subst.
    cbn [json_depth] in Hd. pose proof (texts_open l ts Hl Hts) as Hop. rewrite !string_length_app in Hn.
    change (String.length "[") with 1%nat in Hn. change (String.length "]") with 1%nat in Hn.
    destruct l as [|v l]; [injection Hts as <-; apply open_empty; cbn [map foldr] in Hd; lia|].
    destruct ts as [|t ts]; [cbn [mapM] in Hts; destruct (json_text v), (mapM json_text l); done|].
    rewrite open_array; [|by apply brackets_opens|pose proof (max_nonneg (map json_depth (v :: l))); lia].
    rewrite (read_elems (v :: l) (t :: ts)) by (done || lia). done.
  - rewrite json_text_obj in Ht. destruct (mapM member_text l) as [ts|] eqn:Hts; [|done]. injection Ht as <-.
    rewrite !string_app_cons, !string_app_nil_l, <- string_app_assoc, string_app_cons, string_app_nil_l. inversion He as [| | | | | | |l' Hl]; subst.
    cbn [json_depth] in Hd. pose proof (members_open l ts Hts) as Hop. rewrite !string_length_app in Hn.
    change (String.length "{") with 1%nat in Hn. change (String.length "}") with 1%nat in Hn.
    destruct l as [|v l]; [injection Hts as <-; apply open_empty; cbn [map foldr] in Hd; lia|].
    destruct ts as [|t ts]; [cbn [mapM] in Hts; destruct (member_text v), (mapM member_text l); done|].
    rewrite open_object; [|by apply brackets_opens|pose proof (max_nonneg (map (fun kv => json_depth kv.2) (v :: l))); lia].
    rewrite (read_members (v :: l) (t :: ts)) by (done || lia). done.
Qed.

(** An encoded value is decoded to what it stands for. *)
Lemma json_round_trip v :
  encodable v -> json_depth v <= max_depth -> is_Some (json_text v) ->
  json_parse (json_encode v) = Ok (read_back v).
Proof.
  intros He Hd [t Ht]. unfold json_encode. rewrite Ht. unfold json_parse, json_fuel.
  rewrite (read_value v t _ 0 nl) by (done || lia || (rewrite string_length_app; lia)). done.
Qed.

Lemma encodable_text v : encodable v -> is_Some (json_text v).
Proof.
  induction v as [v Ha Ho|l IH|l IH] using json_ind'; intros He.
  - destruct v; try by edestruct Ha + edestruct Ho. all: inversion He; subst; cbn [json_text]; try by eexists.
    by rewrite decide_True.
  - inversion He as [| | | | | |l' Hl|]; subst. rewrite json_text_arr. apply fmap_is_Some.
    induction IH as [|v l Hv _ IHl]; [by eexists|]. apply Forall_cons in Hl as [Hvl Hl]. cbn [mapM].
    destruct (Hv Hvl) as [t ->]. destruct IHl as [ts ->]; [by constructor|done|]. by eexists.
  - inversion He as [| | | | | | |l' Hl]; subst. rewrite json_text_obj. apply fmap_is_Some.
    induction IH as [|[k v] l Hv _ IHl]; [by eexists|]. apply Forall_cons in Hl as [[Hk Hvl] Hl]. cbn [mapM].
    assert (is_Some (member_text (k, v))) as [m ->].
    { unfold member_text. cbn [fst snd] in *. destruct (Hv Hvl) as [t ->]. by eexists. }
    destruct IHl as [ts ->]; [by constructor|done|]. by eexists.
Qed.
