(* ===== verification/GoDuration.v ===== *)
(** * [time.ParseDuration]

    The window parameter of the dashboard. Fractions go through float64
    arithmetic, modelled with [SpecFloat]; the sum of the parts is a uint64
    that wraps around. The loop runs on fuel, one unit per part. *)

From S2P Require Export GoTime.
From Stdlib Require Import SpecFloat Ascii.

Local Open Scope Z_scope.

(** ** float64 *)

Definition f64_of_int (z : Z) : spec_float := binary_normalize 53 1024 z 0 false.
Definition f64_mul (a b : spec_float) : spec_float := SFmul 53 1024 a b.
Definition f64_div (a b : spec_float) : spec_float := SFdiv 53 1024 a b.

(** Conversion of a non-negative number to uint64: towards zero. *)
Definition f64_trunc (f : spec_float) : Z :=
  match f with
  | S754_finite false m e => if 0 <=? e then Z.pos m * 2 ^ e else Z.pos m / 2 ^ (- e)
  | _ => 0
  end.

(** ** The parts *)

(** [leadingInt]; [None] is an overflow. *)
Fixpoint leading_int (x : Z) (s : string) : option (Z * string) :=
  match s with
  | String c s' =>
      match digit_val c with
      | Some d =>
          if 2 ^ 63 / 10 <? x then None
          else if 2 ^ 63 <? x * 10 + d then None
          else leading_int (x * 10 + d) s'
      | None => Some (x, s)
      end
  | EmptyString => Some (x, s)
  end.

(** [leadingFraction]: digits that no longer fit are skipped. *)
Fixpoint leading_fraction (x : Z) (scale : spec_float) (overflow : bool) (s : string) : Z * spec_float * string :=
  match s with
  | String c s' =>
      match digit_val c with
      | Some d =>
          if overflow then leading_fraction x scale true s'
          else if (2 ^ 63 - 1) / 10 <? x then leading_fraction x scale true s'
          else if 2 ^ 63 <? x * 10 + d then leading_fraction x scale true s'
          else leading_fraction (x * 10 + d) (f64_mul scale (f64_of_int 10)) false s'
      | None => (x, scale, s)
      end
  | EmptyString => (x, scale, s)
  end.

(** The text up to the next digit or dot. *)
Fixpoint span_unit (s : string) : string * string :=
  match s with
  | String c s' =>
      if bool_decide (c = "."%char) || is_digit c then ("", s)
      else let p := span_unit s' in (String c p.1, p.2)
  | EmptyString => ("", "")
  end.

(** [unitMap]; the microsecond has the micro sign or the Greek letter too. *)
Definition unit_value (u : string) : option Z :=
  if decide (u = "ns") then Some 1
  else if decide (u = "us" \/ u = of_bytes [0xC2; 0xB5; 0x73] \/ u = of_bytes [0xCE; 0xBC; 0x73]) then Some 1000
  else if decide (u = "ms") then Some 1000000
  else if decide (u = "s") then Some time_second
  else if decide (u = "m") then Some time_minute
  else if decide (u = "h") then Some time_hour
  else None.

(** The value of one part, given its integer, fraction and unit. *)
Definition part_value (v f : Z) (scale : spec_float) (unit : Z) : option Z :=
  if 2 ^ 63 / unit <? v then None
  else
    let v := v * unit in
    if 0 <? f then
      let v := v + f64_trunc (f64_mul (f64_of_int f) (f64_div (f64_of_int unit) scale)) in
      if 2 ^ 63 <? v then None else Some v
    else Some v.

(** One part at the front of a non-empty text. *)
Definition parse_part (s : string) : option (Z * string) :=
  match s with
  | EmptyString => None
  | String c _ =>
      if negb (bool_decide (c = "."%char) || is_digit c) then None
      else
        '(v, s1) ← leading_int 0 s;
        let pre := negb (String.length s1 =? String.length s)%nat in
        let '(f, scale, s2, post) :=
          match s1 with
          | String c s1' =>
              if decide (c = "."%char) then
                let '(f, scale, s2) := leading_fraction 0 (f64_of_int 1) false s1' in
                (f, scale, s2, negb (String.length s2 =? String.length s1')%nat)
              else (0, f64_of_int 1, s1, false)
          | EmptyString => (0, f64_of_int 1, s1, false)
          end in
        if negb pre && negb post then None
        else
          let '(u, s3) := span_unit s2 in
          unit ← unit_value u;
          v ← part_value v f scale unit;
          Some (v, s3)
  end.

Fixpoint parse_parts (fuel : nat) (d : Z) (s : string) : option Z :=
  match s, fuel with
  | EmptyString, _ => Some d
  | String _ _, O => None
  | String _ _, S fuel =>
      '(v, s) ← parse_part s;
      let d := (d + v) mod 2 ^ 64 in
      if 2 ^ 63 <? d then None else parse_parts fuel d s
  end.

(** [None] is an error. *)
Definition parse_duration (s : string) : option Z :=
  let '(neg, s) := split_sign s in
  if decide (s = "0") then Some 0
  else if decide (s = "") then None
  else
    d ← parse_parts (String.length s) 0 s;
    if neg then Some (- d)
    else if 2 ^ 63 - 1 <? d then None else Some d.

Example duration_hours : parse_duration "24h" = Some (24 * time_hour).
Proof. reflexivity. Qed.

Example duration_mixed : parse_duration "-1h15m30.918273645s" = Some (-4530918273645).
Proof. vm_compute. reflexivity. Qed.

Example duration_fraction : parse_duration "0.1h" = Some 360000000000.
Proof. vm_compute. reflexivity. Qed.

Example duration_no_unit : parse_duration "15" = None.
Proof. reflexivity. Qed.

(** Two halves of the uint64 range wrap around to nothing. *)
Example duration_wraps : parse_duration "9223372036854775808ns9223372036854775808ns" = Some 0.
Proof. vm_compute. reflexivity. Qed.

(** ** Lemmas *)

Lemma leading_int_length x s v r : leading_int x s = Some (v, r) -> (String.length r <= String.length s)%nat.
Proof.
  revert x. induction s as [|c s IH]; intros x; cbn [leading_int]; [by intros [= _ <-]|].
  destruct (digit_val c); [|by intros [= _ <-]]. repeat case_match; try done. intros Hs%IH. simpl. lia.
Qed.

Lemma leading_fraction_length x sc o s : (String.length (leading_fraction x sc o s).2 <= String.length s)%nat.
Proof.
  revert x sc o. induction s as [|c s IH]; intros x sc o; cbn [leading_fraction]; [done|].
  repeat case_match; try done; (etrans; [apply IH|simpl; lia]).
Qed.

Lemma span_unit_length s : (String.length (span_unit s).1 + String.length (span_unit s).2 = String.length s)%nat.
Proof. induction s as [|c s IH]; [done|]. cbn [span_unit]. case_match; simpl; lia. Qed.

(** A part consumes at least its unit: the fuel is enough. *)
Lemma parse_part_shorter s v r : parse_part s = Some (v, r) -> (String.length r < String.length s)%nat.
Proof.
  unfold parse_part. destruct s as [|c s]; [done|]. case_match; [done|].
  destruct (leading_int 0 (String c s)) as [[v0 s1]|] eqn:Hi; [|done]. cbn [mbind option_bind].
  apply leading_int_length in Hi.
  assert (forall f sc s2 post, (String.length s2 <= String.length (String c s))%nat ->
    (if negb (negb (String.length s1 =? String.length (String c s))%nat) && negb post then None
     else let '(u, s3) := span_unit s2 in unit ← unit_value u; v ← part_value v0 f sc unit; Some (v, s3)) = Some (v, r) ->
    (String.length r < String.length (String c s))%nat) as Hgen.
  { intros f sc s2 post Hl. case_match; [done|]. pose proof (span_unit_length s2) as Hu.
    destruct (span_unit s2) as [u s3]. cbn [fst snd] in Hu. destruct u as [|a u]; [done|].
    destruct (unit_value _); [|done]. cbn [mbind option_bind]. destruct (part_value _ _ _ _); [|done].
    intros [= _ <-]. simpl in Hu, Hl. simpl. lia. }
  destruct s1 as [|c1 s1]; [by apply Hgen|]. destruct (decide (c1 = "."%char)); [|by apply Hgen].
  pose proof (leading_fraction_length 0 (f64_of_int 1) false s1) as Hf.
  destruct (leading_fraction _ _ _ _) as [[f sc] s2]. cbn [snd] in Hf. apply Hgen. simpl in Hi |- *. lia.
Qed.

(** More fuel does not change the result. *)
Lemma parse_parts_fuel n m d s :
  (String.length s <= n)%nat -> (String.length s <= m)%nat -> parse_parts n d s = parse_parts m d s.
Proof.
  revert m d s. induction n as [|n IH]; intros m d s Hn Hm; destruct s as [|c s]; try (simpl in *; lia).
  - by destruct m.
  - by destruct m.
  - destruct m as [|m]; [simpl in Hm; lia|]. cbn [parse_parts]. destruct (parse_part (String c s)) as [[v r]|] eqn:E; [|done].
    cbn [mbind option_bind]. apply parse_part_shorter in E. cbv zeta. case_match; [done|]. simpl in *. apply IH; lia.
Qed.

Lemma parse_parts_range n d s v : 0 <= d <= 2 ^ 63 -> parse_parts n d s = Some v -> 0 <= v <= 2 ^ 63.
Proof.
  revert d s. induction n as [|n IH]; intros d s Hd; destruct s as [|c s]; cbn [parse_parts]; try (by intros [= <-]).
  destruct (parse_part _) as [[u r]|]; [|done]. cbn [mbind option_bind]. cbv zeta. case_match eqn:E; [done|]. zbool.
  apply IH. pose proof (Z.mod_pos_bound (d + u) (2 ^ 64)). lia.
Qed.

(** A duration is an int64. *)
Lemma parse_duration_range s v : parse_duration s = Some v -> in_int64 v.
Proof.
  unfold parse_duration, in_int64, int64_min, int64_max. destruct (split_sign s) as [neg r].
  case_decide; [by intros [= <-]|]. case_decide; [done|].
  destruct (parse_parts _ 0 r) as [d|] eqn:E; [|done]. cbn [mbind option_bind].
  apply parse_parts_range in E; [|done]. destruct neg; [intros [= <-]; lia|].
  case_match eqn:Hd; [done|]. zbool. intros [= <-]. lia.
Qed.
