(* ===== verification/GoHttp.v ===== *)
(** * The parts of [net/http] the program uses

    Requests as a handler sees them; a handler's effect on its
    [http.ResponseWriter] as a list of writer operations, with the semantics
    net/http gives them (first final status wins, informational statuses are
    sent at once, invalid codes panic). *)

From S2P Require Export GoJson.
From Stdlib Require Import Ascii.

(** ** Requests *)

Record Request := mkRequest {
  rq_method : string;
  rq_host : string;               (* r.Host *)
  rq_remote_addr : string;        (* r.RemoteAddr *)
  rq_path : string;               (* r.URL.Path *)
  rq_raw_path : string;           (* r.URL.RawPath *)
  rq_raw_query : string;          (* r.URL.RawQuery *)
  rq_uri : string;                (* r.URL.RequestURI() *)
  rq_url : string;                (* r.URL.String() *)
  rq_query : list (string * string); (* r.URL.Query() *)
  rq_proto : string;
  rq_header : list (string * list string); (* r.Header, in the order a range over it visits *)
  rq_transfer_encoding : list string;
  rq_cookies : list (string * string);
  rq_tls : bool;                  (* r.TLS != nil *)
  rq_seed : N;                    (* random draws of the libraries while it is served *)
  rq_content_length : Z;          (* -1: unknown *)
  rq_body : option string         (* None: nil or http.NoBody *)
}.

Definition with_body (r : Request) (b : option string) : Request :=
  mkRequest (rq_method r) (rq_host r) (rq_remote_addr r) (rq_path r) (rq_raw_path r) (rq_raw_query r) (rq_uri r)
    (rq_url r) (rq_query r) (rq_proto r) (rq_header r) (rq_transfer_encoding r) (rq_cookies r) (rq_tls r) (rq_seed r)
    (rq_content_length r) b.

(** A clone with another [URL.Path]. *)
Definition with_path (r : Request) (path : string) : Request :=
  mkRequest (rq_method r) (rq_host r) (rq_remote_addr r) path (rq_raw_path r) (rq_raw_query r) (rq_uri r)
    (rq_url r) (rq_query r) (rq_proto r) (rq_header r) (rq_transfer_encoding r) (rq_cookies r) (rq_tls r) (rq_seed r)
    (rq_content_length r) (rq_body r).

Definition lookup_key {A} (k : string) (l : list (string * A)) : option A :=
  snd <$> head (filter (fun p => p.1 = k) l).

(** [url.Values.Get] and [Request.Cookie]. *)
Definition query_get (r : Request) (k : string) : string := default "" (lookup_key k (rq_query r)).
Definition cookie_get (r : Request) (k : string) : option string := lookup_key k (rq_cookies r).

(** [textproto.CanonicalMIMEHeaderKey]. *)
Definition is_upper (c : ascii) : bool := ((65 <=? byte_of c) && (byte_of c <=? 90))%Z.
Definition is_lower (c : ascii) : bool := ((97 <=? byte_of c) && (byte_of c <=? 122))%Z.
Definition is_token_byte (c : ascii) : bool :=
  is_upper c || is_lower c || is_digit c || char_in c "!#$%&'*+-.^_`|~".

Fixpoint canonical_bytes (upper : bool) (s : string) : string :=
  match s with
  | EmptyString => ""
  | String c s =>
      let c' := if upper then (if is_lower c then of_byte (byte_of c - 32) else c) else lower_byte c in
      String c' (canonical_bytes (bool_decide (c' = "-"%char)) s)
  end.

Fixpoint all_bytes (p : ascii -> bool) (s : string) : bool :=
  match s with EmptyString => true | String c s => p c && all_bytes p s end.

Definition canonical_key (s : string) : string :=
  if all_bytes is_token_byte s then canonical_bytes true s else s.

(** [Header.Get]: the first value under the canonical key. *)
Definition header_get (r : Request) (k : string) : string :=
  default "" (head (default [] (lookup_key (canonical_key k) (rq_header r)))).

Example canonical_key_ex : canonical_key "x-forwarded-FOR" = "X-Forwarded-For".
Proof. reflexivity. Qed.

(** ** Responses *)

Record Cookie := mkCookie {
  ck_name : string; ck_value : string; ck_path : string;
  ck_expires : option time; ck_max_age : Z;
  ck_http_only : bool; ck_secure : bool; ck_same_site_strict : bool }.

(** A piece of the body: raw bytes, a JSON value passed to
    [json.NewEncoder(w).Encode], or the short link body [http.Redirect] writes. *)
Inductive chunk :=
| Raw (s : string)
| Encoded (v : json)
| LinkBody (url : string).

(** One call on an [http.ResponseWriter]. *)
Inductive wop :=
| SetHeader (k v : string)
| AddHeader (k v : string)
| DelHeader (k : string)
| ClearHeaders
| SetCookie (c : Cookie)
| WriteHeader (code : Z)
| Write (b : chunk)
| Flush
| Hijack.                       (* take the connection over and answer 101 on it *)

Record Response := mkResponse {
  rs_header : gmap string (list string); (* the header map being built *)
  rs_cookies : list Cookie;
  rs_informational : list Z;           (* 1xx responses already sent *)
  rs_sent : option (Z * gmap string (list string) * list Cookie); (* final status with the headers sent *)
  rs_body : list chunk;
  rs_panicked : bool
}.

Definition empty_response : Response := mkResponse ∅ [] [] None [] false.

Definition write_header (code : Z) (w : Response) : Response :=
  match rs_sent w with
  | Some _ => w                        (* superfluous WriteHeader call *)
  | None =>
      if ((code <? 100) || (999 <? code))%Z then
        mkResponse (rs_header w) (rs_cookies w) (rs_informational w) None (rs_body w) true
      else if ((100 <=? code) && (code <=? 199) && negb (code =? 101))%Z then
        mkResponse (rs_header w) (rs_cookies w) (rs_informational w ++ [code]) None (rs_body w) false
      else
        mkResponse (rs_header w) (rs_cookies w) (rs_informational w)
          (Some (code, rs_header w, rs_cookies w)) (rs_body w) false
  end.

Definition apply_wop (w : Response) (o : wop) : Response :=
  if rs_panicked w then w else
  match o with
  | SetHeader k v =>
      mkResponse (<[k := [v]]> (rs_header w)) (rs_cookies w) (rs_informational w) (rs_sent w) (rs_body w) false
  | AddHeader k v =>
      mkResponse (<[k := default [] (rs_header w !! k) ++ [v]]> (rs_header w)) (rs_cookies w) (rs_informational w)
        (rs_sent w) (rs_body w) false
  | DelHeader k =>
      mkResponse (delete k (rs_header w)) (rs_cookies w) (rs_informational w) (rs_sent w) (rs_body w) false
  | ClearHeaders => mkResponse ∅ [] (rs_informational w) (rs_sent w) (rs_body w) false
  | SetCookie c =>
      mkResponse (rs_header w) (rs_cookies w ++ [c]) (rs_informational w) (rs_sent w) (rs_body w) false
  | WriteHeader code => write_header code w
  | Write b =>
      let w := match rs_sent w with None => write_header 200 w | Some _ => w end in
      mkResponse (rs_header w) (rs_cookies w) (rs_informational w) (rs_sent w) (rs_body w ++ [b]) false
  | Flush => match rs_sent w with None => write_header 200 w | Some _ => w end
  | Hijack => write_header 101 w
  end.

Definition run_wops (ops : list wop) (w : Response) : Response := foldl apply_wop w ops.

(** The status the client gets: 200 when the handler never set one. *)
Definition final_status (w : Response) : Z :=
  match rs_sent w with Some (c, _, _) => c | None => 200%Z end.

(** The status a list of calls leads to, from a fresh writer. *)
Definition status_of (ops : list wop) : Z := final_status (run_wops ops empty_response).

(** [http.Error]. *)
Definition http_error (msg : string) (code : Z) : list wop :=
  [DelHeader "Content-Length"; SetHeader "Content-Type" "text/plain; charset=utf-8";
   SetHeader "X-Content-Type-Options" "nosniff"; WriteHeader code; Write (Raw (msg +:+ nl))].

(** [http.Redirect] to an absolute URL: non-ASCII bytes of the target are
    percent-escaped in the Location header. *)
Fixpoint hex_escape_non_ascii (s : string) : string :=
  match s with
  | EmptyString => ""
  | String c s =>
      let b := byte_of c in
      let hex d := of_byte (if (d <? 10)%Z then 48 + d else 87 + d) in
      if (b <? 128)%Z then String c (hex_escape_non_ascii s)
      else String "%"%char (String (hex (b / 16))%Z (String (hex (b mod 16))%Z (hex_escape_non_ascii s)))
  end.

Definition http_redirect (r : Request) (url : string) (code : Z) : list wop :=
  [SetHeader "Location" (hex_escape_non_ascii url)] ++
  (if bool_decide (rq_method r = "GET" \/ rq_method r = "HEAD")
   then [SetHeader "Content-Type" "text/html; charset=utf-8"] else []) ++
  [WriteHeader code] ++
  (if bool_decide (rq_method r = "GET") then [Write (LinkBody url)] else []).

(** ** Handlers

    An [http.Handler] over a program state [W]: its calls on the response
    writer, and whether it left by a panic. *)
Definition Handler (W : Type) : Type := Request -> M W (list wop * bool).

(** A handler panics of its own, or because the writer refuses a status code. *)
Definition panics (out : list wop * bool) : bool :=
  out.2 || rs_panicked (run_wops out.1 empty_response).

(** ** Lemmas *)

Lemma assoc_elem {A} k (l : list (string * A)) v : lookup_key k l = Some v -> (k, v) ∈ l.
Proof.
  unfold lookup_key. destruct (filter _ l) as [|[k' v'] rest] eqn:E; [done|]. cbn. intros [= ->].
  assert ((k', v) ∈ filter (fun p => p.1 = k) l) as [Hk Hin]%list_elem_of_filter by (rewrite E; apply list_elem_of_here).
  cbn in Hk. by subst.
Qed.

Lemma run_wops_app a b w : run_wops (a ++ b) w = run_wops b (run_wops a w).
Proof. apply foldl_app. Qed.

(** Once the final status is sent, no call changes it. *)
Lemma apply_wop_sent w o x : rs_sent w = Some x -> rs_sent (apply_wop w o) = Some x.
Proof.
  intros Hx. unfold apply_wop. destruct (rs_panicked w); [done|].
  destruct o; simpl; unfold write_header; by rewrite ?Hx; simpl; rewrite ?Hx.
Qed.

Lemma run_wops_sent ops w x : rs_sent w = Some x -> rs_sent (run_wops ops w) = Some x.
Proof.
  revert w. induction ops as [|o ops IH]; intros w Hw; [done|]. by apply IH, apply_wop_sent.
Qed.

Lemma run_wops_panicked ops w : rs_panicked w = true -> run_wops ops w = w.
Proof.
  intros Hw. induction ops as [|o ops IH]; [done|]. simpl. unfold apply_wop. by rewrite Hw.
Qed.
