(* ===== verification/Web.v ===== *)
(** * The embedded web application ([web/embed.go])

    What the program uses of packages path, io/fs, embed and of
    [http.FileServer]: valid names, cleaning, sub-trees, the tree a go:embed
    directive builds from a list of files, and the file server with its
    redirects, its index page and its 404s. The list of embedded files is an
    argument, since the build makes it. *)

From S2P Require Export GoHttp.
From Stdlib Require Import Ascii.

Definition slash : ascii := "/"%char.

(** ** Package path *)

(** One element of [Clean]: the elements kept so far, last first. *)
Definition clean_step (rooted : bool) (kept : list string) (e : string) : list string :=
  if bool_decide (e = "" \/ e = ".") then kept
  else if bool_decide (e = "..") then
    match kept with
    | x :: kept' => if bool_decide (x = "..") then e :: kept else kept'
    | [] => if rooted then [] else [e]
    end
  else e :: kept.

Definition path_clean (p : string) : string :=
  let rooted := has_prefix "/" p in
  let elems := rev (foldl (clean_step rooted) [] (split_on slash p)) in
  if rooted then "/" +:+ join "/" elems
  else if decide (elems = []) then "." else join "/" elems.

(** [Base]: the last element, without trailing slashes. *)
Definition path_base (p : string) : string :=
  if decide (p = "") then "."
  else default "/" (last (filter (fun e => e <> "") (split_on slash p))).

(** ** Package io/fs *)

Inductive fs_node := FsFile (content : string) | FsDir (entries : list string).

Inductive fs_error := ErrInvalid | ErrNotExist.

(** A file system: what [Open] finds. *)
Definition FileSystem : Type := string -> fs_error + fs_node.

Definition ValidPath (name : string) : bool :=
  valid_utf8 name &&
  (bool_decide (name = ".") || forallb (fun e => negb (bool_decide (e ∈ [""; "."; ".."]))) (split_on slash name)).

(** [Stat] opens the file. *)
Definition fs_stat (fsys : FileSystem) (name : string) : fs_error + fs_node := fsys name.

Definition path_join2 (dir name : string) : string := path_clean (dir +:+ "/" +:+ name).

Definition Sub (fsys : FileSystem) (dir : string) : res FileSystem :=
  if negb (ValidPath dir) then Err "sub: invalid argument"
  else if decide (dir = ".") then Ok fsys
  else Ok (fun name => if ValidPath name then fsys (path_join2 dir name) else inl ErrInvalid).

(** ** Package embed

    The files by their full names; a directory is there when a file is below
    it. *)

(** The part of [file] below [dir]. *)
Definition below (dir file : string) : option string :=
  if decide (dir = ".") then Some file else cut_prefix (dir +:+ "/") file.

Definition entries_of (files : list (string * string)) (dir : string) : list string :=
  remove_dups (omap (fun f => rest ← below dir f.1; head (split_on slash rest)) files).

Definition embed_open (files : list (string * string)) : FileSystem := fun name =>
  if negb (ValidPath name) then inl ErrNotExist
  else match lookup_key name files with
       | Some content => inr (FsFile content)
       | None =>
           if bool_decide (name = "." \/ entries_of files name <> []) then inr (FsDir (entries_of files name))
           else inl ErrNotExist
       end.

(** [web.Dist]: the directory dist of the embedded files. *)
Definition Dist (embedded : list (string * string)) : res FileSystem := Sub (embed_open embedded) "dist".

(** The files below dist. *)
Definition dist_tree (embedded : list (string * string)) : FileSystem := fun name =>
  if ValidPath name then embed_open embedded (path_join2 "dist" name) else inl ErrInvalid.

Lemma dist_ok embedded : Dist embedded = Ok (dist_tree embedded).
Proof. reflexivity. Qed.

(** ** [http.FileServer] *)

(** The media type of a file, from the system's tables or its first bytes; the
    answer to a conditional or a range request; the page that lists a
    directory. *)
Class FileAnswers := {
  media_type : string -> string -> string;
  conditional_answer : Request -> string -> string -> option (list wop);
  list_page : list string -> string;
  unconditional : forall r name content,
    (forall k, k ∈ ["If-Match"; "If-None-Match"; "Range"] -> lookup_key k (rq_header r) = None) ->
    conditional_answer r name content = None
}.

Section file_server.
Context `{FileAnswers}.

(** [http.FileSystem(fsys).Open], with its mapping of errors: a path through a file
    does not exist. *)
Definition fs_name (n : string) : string := if decide (n = "/") then "." else default n (cut_prefix "/" n).

Definition dir_open (fsys : FileSystem) (name : string) : fs_error + fs_node :=
  match fsys (fs_name name) with
  | inl ErrInvalid =>
      let parts := split_on slash name in
      let through_file i :=
        match fsys (fs_name (join "/" (take (S i) parts))) with inr (FsFile _) => true | _ => false end in
      let stops i :=
        negb (bool_decide (parts !! i = Some "")) &&
        match fsys (fs_name (join "/" (take (S i) parts))) with inr (FsDir _) => false | _ => true end in
      match head (filter (fun i => stops i = true) (seq 0 (length parts))) with
      | Some i => if through_file i then inl ErrNotExist else inl ErrInvalid
      | None => inl ErrInvalid
      end
  | found => found
  end.

Definition localRedirect (r : Request) (to : string) : list wop :=
  [SetHeader "Location" (if decide (rq_raw_query r = "") then to else to +:+ "?" +:+ rq_raw_query r);
   WriteHeader 301].

(** [serveContent] for a file without a modification time. *)
Definition serveContent (r : Request) (name content : string) : list wop :=
  match conditional_answer r name content with
  | Some ops => ops
  | None =>
      [SetHeader "Content-Type" (media_type name content); SetHeader "Accept-Ranges" "bytes";
       SetHeader "Content-Length" (format_int (Z.of_nat (String.length content))); WriteHeader 200] ++
      (if decide (rq_method r = "HEAD") then [] else [Write (Raw content)])
  end.

Definition dirList (entries : list string) : list wop :=
  [SetHeader "Content-Type" "text/html; charset=utf-8"; Write (Raw (list_page entries))].

Definition open_error (e : fs_error) : list wop :=
  match e with
  | ErrNotExist => http_error "404 page not found" 404
  | ErrInvalid => http_error "500 Internal Server Error" 500
  end.

Definition serveFile (fsys : FileSystem) (r : Request) (name : string) : list wop :=
  let url := rq_path r in
  if has_suffix "/index.html" url then localRedirect r "./"
  else
    match dir_open fsys name with
    | inl e => open_error e
    | inr (FsFile content) =>
        if has_suffix "/" url then
          if bool_decide (path_base url ∈ ["/"; "."]) then
            http_error "http: attempting to traverse a non-directory" 500
          else localRedirect r ("../" +:+ path_base url)
        else serveContent r (path_base name) content
    | inr (FsDir entries) =>
        if negb (has_suffix "/" url) then localRedirect r (path_base url +:+ "/")
        else
          let index := (if has_suffix "/" name then str_take (pred (String.length name)) name else name) +:+ "/index.html" in
          match dir_open fsys index with
          | inr (FsFile content) => serveContent r "index.html" content
          | inr (FsDir entries') => dirList entries'
          | inl _ => dirList entries
          end
    end.

Definition FileServer (fsys : FileSystem) (r : Request) : list wop :=
  let upath := if has_prefix "/" (rq_path r) then rq_path r else "/" +:+ rq_path r in
  serveFile fsys (with_path r upath) (path_clean upath).
End file_server.

(** ** Examples *)

Example clean_examples :
  path_clean <$> ["/a//b/./../c/"; "/../../x"; "a/.."; ""; "/"; "../a/../.."] =
  ["/a/c"; "/x"; "."; "."; "/"; "../.."].
Proof. reflexivity. Qed.
Example base_examples : path_base <$> ["/a/b/"; "/"; ""; "x"] = ["b"; "/"; "."; "x"].
Proof. reflexivity. Qed.
Example valid_examples :
  ValidPath <$> ["."; "a/b"; ""; "/a"; "a/"; "a/../b"; "a/./b"] = [true; true; false; false; false; false; false].
Proof. reflexivity. Qed.
