(* ===== verification/Sql.v ===== *)
(** * Tables with AUTOINCREMENT keys, and what SQLite leaves open

    The program's SQL statements are translated one by one in [Store]; this
    file holds what they share: a table of rows with an INTEGER PRIMARY KEY
    AUTOINCREMENT, the statements on it, and the interface [SqlEngine] to the
    choices that belong to SQLite (the order of ties in ORDER BY, the row a bare
    column of a GROUP BY comes from, [strftime]). *)

From S2P Require Export GoTime.

(** ** Rows with a key *)

Class HasId (A : Type) := {
  get_id : A -> Z;
  set_id : Z -> A -> A;
  get_set_id : forall i a, get_id (set_id i a) = i
}.

Record Table (A : Type) := mkTable { rows : list A; seq_no : Z }.
Arguments mkTable {A} rows seq_no.
Arguments rows {A} t.
Arguments seq_no {A} t.

Section table.
Context {A : Type} `{HasId A}.

Definition empty_table : Table A := mkTable [] 0.

Definition find_row (id : Z) (t : Table A) : option A :=
  head (filter (fun r => get_id r = id) (rows t)).

(** INSERT: the key is one more than the largest key ever used. *)
Definition insert_row (a : A) (t : Table A) : res (A * Table A) :=
  if decide (int64_max <= seq_no t)%Z then Err "database or disk is full (13)"
  else
    let a := set_id (seq_no t + 1) a in
    Ok (a, mkTable (rows t ++ [a]) (seq_no t + 1)).

(** UPDATE ... WHERE id = ?: no matching row is not an error. *)
Definition update_row (id : Z) (f : A -> A) (t : Table A) : Table A :=
  mkTable ((fun r => if decide (get_id r = id) then f r else r) <$> rows t) (seq_no t).

(** DELETE ... WHERE id = ?. *)
Definition delete_row (id : Z) (t : Table A) : Table A :=
  mkTable (filter (fun r => get_id r <> id) (rows t)) (seq_no t).

(** Keys are distinct, positive and never exceed the sequence number, which
    is an [int64]. *)
Definition table_wf (t : Table A) : Prop :=
  NoDup (get_id <$> rows t) /\
  Forall (fun r => 0 < get_id r <= seq_no t)%Z (rows t) /\
  (0 <= seq_no t <= int64_max)%Z.

(** The table as a finite map from keys to rows. *)
Definition table_map (t : Table A) : gmap Z A :=
  list_to_map ((fun r => (get_id r, r)) <$> rows t).
End table.

(** ** The engine's choices *)

Class SqlEngine := {
  (** ORDER BY: a sorted permutation, ties in any order. *)
  order_by : forall {A : Type}, (A -> A -> bool) -> list A -> list A;
  order_by_perm : forall (A : Type) (le : A -> A -> bool) l, order_by le l ≡ₚ l;
  order_by_sorted : forall (A : Type) (le : A -> A -> bool) l,
    (forall a b, le a b \/ le b a) -> (forall a b c, le a b -> le b c -> le a c) ->
    StronglySorted (fun a b => le a b) (order_by le l);
  (** The row of a non-empty group that a bare column is read from. *)
  bare_row : forall {A : Type}, A -> list A -> A;
  bare_row_in : forall (A : Type) (a : A) l, bare_row a l ∈ a :: l;
  (** [strftime('%Y-%m-%dT%H:00:00Z', s)]; [None] is NULL. *)
  strftime_hour : string -> option string;
  strftime_hour_spec : forall t, in_calendar t ->
    strftime_hour (str_take 19 (time_string t)) = Some (bucket_text t)
}.

(** GROUP BY: one group per key, with its rows. *)
Definition group_by {K A} `{EqDecision K} (key : A -> K) (l : list A) : list (K * list A) :=
  (fun k => (k, filter (fun a => key a = k) l)) <$> remove_dups (key <$> l).

(** LIMIT and OFFSET: a negative offset counts as zero. *)
Definition limit_offset {A} (limit offset : Z) (l : list A) : list A :=
  take (Z.to_nat limit) (drop (Z.to_nat offset) l).

(** ** Lemmas: tables *)

(** On a list whose images are distinct, the image determines the element. *)
Lemma NoDup_fmap_inj_on {A B} (f : A -> B) (l : list A) x y :
  NoDup (f <$> l) -> x ∈ l -> y ∈ l -> f x = f y -> x = y.
Proof.
  intros Hnd [i Hi]%list_elem_of_lookup [j Hj]%list_elem_of_lookup Hf.
  assert (i = j) as ->; [|congruence].
  apply (NoDup_lookup (f <$> l) i j (f x)); [done|..]; rewrite list_lookup_fmap, ?Hi, ?Hj; simpl; congruence.
Qed.

Section table_lemmas.
Context {A : Type} `{HasId A}.
Implicit Types (t : Table A) (a : A).

Lemma empty_table_wf : table_wf (@empty_table A).
Proof. split; [constructor|]. split; [constructor|]. unfold int64_max. simpl. lia. Qed.

Lemma find_row_Some id t a :
  table_wf t -> find_row id t = Some a <-> a ∈ rows t /\ get_id a = id.
Proof.
  intros [Hnd _]. unfold find_row. destruct t as [l n]. simpl in *.
  induction l as [|r l IH]; simpl in *; [rewrite elem_of_nil; naive_solver|].
  apply NoDup_cons in Hnd as [Hr Hnd]. rewrite filter_cons, elem_of_cons.
  case_decide as Hid; simpl.
  - split; [naive_solver|]. intros [[->|Ha] Hid']; [done|].
    destruct Hr. rewrite Hid, <- Hid'. by apply list_elem_of_fmap_2.
  - rewrite IH by done. naive_solver.
Qed.

Lemma find_row_None id t : find_row id t = None <-> forall a, a ∈ rows t -> get_id a <> id.
Proof.
  unfold find_row. destruct (head (filter _ _)) as [a|] eqn:E.
  - split; [done|]. intros Hn. destruct (filter (fun r => get_id r = id) (rows t)) as [|b l] eqn:F; [done|].
    simplify_eq/=. assert (a ∈ filter (fun r => get_id r = id) (rows t)) as Ha
      by (rewrite F; apply list_elem_of_here).
    apply list_elem_of_filter in Ha as [Hid Ha]. by destruct (Hn a Ha).
  - split; [|done]. intros _ a Ha Hid.
    destruct (filter (fun r => get_id r = id) (rows t)) as [|b l] eqn:F; [|done].
    assert (a ∈ filter (fun r => get_id r = id) (rows t)) as Ha'
      by (by apply list_elem_of_filter). rewrite F in Ha'. by apply elem_of_nil in Ha'.
Qed.

Lemma find_row_map id t : table_wf t -> table_map t !! id = find_row id t.
Proof.
  intros Hwf. apply option_eq. intros a. rewrite find_row_Some by done.
  unfold table_map. rewrite <- elem_of_list_to_map.
  - rewrite list_elem_of_fmap. naive_solver.
  - rewrite <- list_fmap_compose. apply Hwf.
Qed.

Lemma insert_row_spec a t b t' :
  table_wf t -> insert_row a t = Ok (b, t') ->
  table_wf t' /\ b = set_id (seq_no t + 1) a /\ find_row (get_id b) t = None /\
  table_map t' = <[get_id b := b]> (table_map t) /\ rows t' = rows t ++ [b].
Proof.
  intros Hwf. unfold insert_row. case_decide as Hfull; [done|]. intros [= <- <-].
  destruct Hwf as (Hnd & Hrange & Hseq).
  set (b := set_id (seq_no t + 1) a). assert (get_id b = seq_no t + 1)%Z as Hb by apply get_set_id.
  assert (forall r, r ∈ rows t -> get_id r <> get_id b) as Hfresh.
  { intros r Hr. rewrite Forall_forall in Hrange. specialize (Hrange r Hr). simpl in *. lia. }
  assert (table_wf (mkTable (rows t ++ [b]) (seq_no t + 1))) as Hwf'.
  { split; [|split]; simpl.
    - rewrite fmap_app. apply NoDup_app. split; [done|]. split; [|apply NoDup_singleton].
      intros i (r & -> & Hr)%list_elem_of_fmap Hi. apply list_elem_of_singleton in Hi.
      by destruct (Hfresh r Hr).
    - apply Forall_app. split; [|constructor; [lia|constructor]].
      eapply Forall_impl; [done|]. simpl. lia.
    - lia. }
  split; [done|]. split; [done|]. split; [by apply find_row_None|]. split; [|done].
  apply map_eq. intros i. rewrite find_row_map by done.
  apply option_eq. intros r. rewrite find_row_Some by done. simpl.
  rewrite elem_of_app, list_elem_of_singleton, lookup_insert_Some, find_row_map by done.
  rewrite find_row_Some by done. split.
  - intros [[Hr| ->] <-]; [right|left; done]. split; [|done]. intros Heq. by destruct (Hfresh r Hr).
  - intros [[<- <-]|[Hne [Hr <-]]]; auto.
Qed.

Lemma update_row_spec id f t :
  (forall a, get_id (f a) = get_id a) -> table_wf t ->
  table_wf (update_row id f t) /\ table_map (update_row id f t) = alter f id (table_map t).
Proof.
  intros Hf Hwf. assert (table_wf (update_row id f t)) as Hwf'.
  { destruct Hwf as (Hnd & Hrange & Hseq). split; [|split; [|done]]; simpl.
    - rewrite <- list_fmap_compose. erewrite list_fmap_ext; [exact Hnd|].
      intros i r _. simpl. by case_decide.
    - apply Forall_fmap. eapply Forall_impl; [done|]. intros r Hr. simpl. by case_decide; rewrite ?Hf. }
  split; [done|]. apply map_eq. intros i. rewrite find_row_map by done.
  apply option_eq. intros r. rewrite find_row_Some by done.
  rewrite lookup_alter_Some, find_row_map by done. simpl. rewrite list_elem_of_fmap.
  setoid_rewrite find_row_Some; [|done..]. split.
  - intros [(a & -> & Ha) <-]. case_decide; subst; rewrite ?Hf; [left|right]; eauto.
  - intros [[<- (a & [Ha Hid] & ->)]|[Hne [Hr <-]]].
    + rewrite Hf. split; [|done]. exists a. by rewrite decide_True.
    + split; [|done]. exists r. by rewrite decide_False.
Qed.

Lemma delete_row_spec id t :
  table_wf t ->
  table_wf (delete_row id t) /\ table_map (delete_row id t) = delete id (table_map t).
Proof.
  intros Hwf. assert (table_wf (delete_row id t)) as Hwf'.
  { destruct Hwf as (Hnd & Hrange & Hseq). split; [|split; [|done]]; simpl.
    - eapply sublist_NoDup; [exact Hnd|]. apply fmap_sublist, sublist_filter.
    - rewrite Forall_forall in *. intros r [_ Hr]%list_elem_of_filter. by apply Hrange. }
  split; [done|]. apply map_eq. intros i. rewrite find_row_map by done.
  apply option_eq. intros r. rewrite find_row_Some by done.
  rewrite lookup_delete_Some, find_row_map, find_row_Some by done. simpl.
  rewrite list_elem_of_filter. naive_solver.
Qed.
End table_lemmas.

(** ** Lemmas: grouping and slices *)

Section group_lemmas.
Context {K A : Type} `{EqDecision K} (key : A -> K).
Implicit Types l : list A.

Lemma group_by_elem k g l :
  (k, g) ∈ group_by key l -> g = filter (fun a => key a = k) l /\ g <> [].
Proof.
  unfold group_by. intros (k' & [= -> ->] & Hk)%list_elem_of_fmap. split; [done|].
  apply elem_of_remove_dups, list_elem_of_fmap in Hk as (a & -> & Ha). intros Hnil.
  assert (a ∈ filter (fun a0 => key a0 = key a) l) as Ha' by (by apply list_elem_of_filter).
  rewrite Hnil in Ha'. by apply elem_of_nil in Ha'.
Qed.

Lemma group_by_keys l : NoDup (group_by key l).*1.
Proof.
  unfold group_by. rewrite <- list_fmap_compose. rewrite list_fmap_id. apply NoDup_remove_dups.
Qed.

Lemma group_by_cover a l : a ∈ l -> key a ∈ (group_by key l).*1.
Proof.
  intros Ha. unfold group_by. rewrite <- list_fmap_compose. rewrite list_fmap_id.
  apply elem_of_remove_dups. by apply list_elem_of_fmap_2.
Qed.
End group_lemmas.

Lemma filter_ext_in {A} (P Q : A -> Prop) `{!forall x, Decision (P x)} `{!forall x, Decision (Q x)} (l : list A) :
  (forall x, x ∈ l -> P x <-> Q x) -> filter P l = filter Q l.
Proof.
  induction l as [|x l IH]; intros HPQ; [done|]. rewrite !filter_cons.
  pose proof (HPQ x (list_elem_of_here _ _)) as Hx.
  rewrite IH by (intros y Hy; apply HPQ; by right). repeat case_decide; tauto.
Qed.

(** Summing a per-row weight over distinct keys that cover every row counts
    each row once. *)
Lemma sum_over_keys {K A} `{EqDecision K} (key : A -> K) (w : A -> Z) (ks : list K) (l : list A) :
  NoDup ks -> (forall a, a ∈ l -> key a ∈ ks) ->
  foldr Z.add 0%Z ((fun k => foldr Z.add 0%Z (w <$> filter (fun a => key a = k) l)) <$> ks)
  = foldr Z.add 0%Z (w <$> l).
Proof.
  intros Hnd Hcov. induction l as [|a l IH].
  - simpl. clear. by induction ks.
  - rewrite fmap_cons. simpl. rewrite <- IH by (intros; apply Hcov; by right).
    assert (key a ∈ ks) as Hin by (apply Hcov; left). clear IH Hcov.
    induction Hnd as [|k ks Hk Hnd IH]; [by apply elem_of_nil in Hin|].
    rewrite !fmap_cons. simpl. rewrite filter_cons.
    destruct (decide (key a = k)) as [Hak|Hak].
    + rewrite fmap_cons. simpl.
      assert (((fun k => foldr Z.add 0%Z (w <$> filter (fun b => key b = k) (a :: l))) <$> ks)
              = ((fun k => foldr Z.add 0%Z (w <$> filter (fun b => key b = k) l)) <$> ks)) as ->.
      { apply list_fmap_ext. intros i x Hx. rewrite filter_cons. rewrite decide_False; [done|].
        intros Heq. apply Hk. apply list_elem_of_lookup_2 in Hx. congruence. }
      lia.
    + rewrite IH; [lia|]. apply elem_of_cons in Hin. naive_solver.
Qed.

Lemma limit_offset_length {A} n m (l : list A) :
  (0 <= n)%Z -> (Z.of_nat (length (limit_offset n m l)) <= n)%Z.
Proof. intros Hn. unfold limit_offset. rewrite length_take. lia. Qed.

Lemma limit_offset_sublist {A} n m (l : list A) : limit_offset n m l `sublist_of` l.
Proof. unfold limit_offset. etrans; [apply sublist_take|apply sublist_drop]. Qed.

Lemma StronglySorted_sublist {A} (R : A -> A -> Prop) l1 l2 :
  l1 `sublist_of` l2 -> StronglySorted R l2 -> StronglySorted R l1.
Proof.
  induction 1 as [|x l1 l2 Hsub IH|x l1 l2 Hsub IH]; intros Hs; [done|..];
    apply StronglySorted_cons in Hs as [Hx Hs]; [|by auto].
  apply StronglySorted_cons. split; [|by auto].
  rewrite Forall_forall in *. intros y Hy. apply Hx. by eapply elem_of_sublist.
Qed.

(** ** A reference engine

    A stable merge sort, the first row of each group, and the text slice that
    [strftime] computes on well-formed time stamps. *)

Definition strftime_ref (s : string) : option string :=
  if decide (String.length s = 19)%nat
  then Some (str_take 10 s +:+ "T" +:+ str_take 2 (str_drop 11 s) +:+ ":00:00Z") else None.

Definition bool_le {A} (le : A -> A -> bool) : relation A := fun x y => le x y = true.

#[export] Instance bool_le_dec {A} (le : A -> A -> bool) : RelDecision (bool_le le).
Proof. intros x y. unfold bool_le. apply _. Defined.

Lemma str_take_len n (a b : string) : String.length a = n -> str_take n (a +:+ b) = a.
Proof. intros <-. apply str_take_app. Qed.

Lemma str_drop_len n (a b : string) : String.length a = n -> str_drop n (a +:+ b) = b.
Proof. intros <-. apply str_drop_app. Qed.

Lemma date_text_length t : in_calendar t -> String.length (date_text (civil_of t)) = 10%nat.
Proof.
  intros Ht. unfold date_text. rewrite pad_year_calendar by done.
  by rewrite !string_length_app, !pad_length.
Qed.

Lemma strftime_ref_spec t :
  in_calendar t -> strftime_ref (str_take 19 (time_string t)) = Some (bucket_text t).
Proof.
  intros Ht. pose proof (date_text_length t Ht) as Hd. unfold time_string, bucket_text. cbv zeta.
  set (c := civil_of t) in *. set (x := date_text c +:+ " " +:+ clock_text c).
  assert (String.length x = 19%nat) as Hx.
  { unfold x, clock_text. by rewrite !string_length_app, Hd, !pad_length. }
  replace (date_text c +:+ " " +:+ clock_text c +:+ frac (c_nsec c) +:+ " +0000 UTC")
    with (x +:+ frac (c_nsec c) +:+ " +0000 UTC") by (unfold x; by rewrite <- !string_app_assoc).
  rewrite str_take_len by done. unfold strftime_ref. rewrite decide_True by done. f_equal.
  unfold x. rewrite str_take_len by done. rewrite (string_app_assoc _ " " (clock_text c)), str_drop_len.
  - unfold clock_text. by rewrite str_take_len by apply pad_length.
  - by rewrite string_length_app, Hd.
Qed.

Lemma merge_sort_ordered {A} (le : A -> A -> bool) l :
  (forall a b, le a b \/ le b a) -> (forall a b c, le a b -> le b c -> le a c) ->
  StronglySorted (fun a b => le a b) (merge_sort (bool_le le) l).
Proof.
  intros Htot Htr.
  assert (Total (bool_le le)) by (intros x y; unfold bool_le; destruct (Htot x y) as [?%Is_true_true|?%Is_true_true]; auto).
  assert (Transitive (bool_le le)).
  { intros x y z ?%Is_true_true ?%Is_true_true. apply Is_true_true. eauto. }
  pose proof (StronglySorted_merge_sort (bool_le le) l) as Hs.
  induction Hs as [|x k Hs IH Hx]; constructor; [done|].
  eapply Forall_impl; [exact Hx|]. intros y Hy. by apply Is_true_true.
Qed.

#[export] Program Instance reference_engine : SqlEngine := {|
  order_by A le l := merge_sort (bool_le le) l;
  bare_row A a l := a;
  strftime_hour := strftime_ref
|}.
Next Obligation. intros. apply merge_sort_Permutation. Qed.
Next Obligation. intros A le l Htot Htr. by apply merge_sort_ordered. Qed.
Next Obligation. intros. apply list_elem_of_here. Qed.
Next Obligation. apply strftime_ref_spec. Qed.

(** Another one: ties are broken the other way round. *)
Program Definition reversing_engine : SqlEngine := {|
  order_by A le l := merge_sort (bool_le le) (reverse l);
  bare_row A a l := default a (last l);
  strftime_hour := strftime_ref
|}.
Next Obligation. intros A le l. simpl. rewrite merge_sort_Permutation. apply reverse_Permutation. Qed.
Next Obligation. intros A le l Htot Htr. by apply merge_sort_ordered. Qed.
Next Obligation.
  intros A a l. simpl. destruct (last l) as [x|] eqn:E; simpl; [|apply list_elem_of_here].
  apply elem_of_cons. right. by apply last_Some_elem_of.
Qed.
Next Obligation. apply strftime_ref_spec. Qed.
