(* ===== verification/Store.v ===== *)
(** * Storage ([internal/store])

    The database (sites, rules, events and settings tables) and every operation
    of [Store], with the failures a statement can have. A fault schedule in the
    state decides, statement by statement, whether SQLite fails: at once, or,
    for a query, after a number of rows. [time.Now] reads a clock that never
    goes back. *)

From S2P Require Export Sql.

(** ** Data model (models.go) *)

(** [WAFMode] and [TLSMode] are Go strings with named constants: any other
    string can be stored as well. *)
Abbreviation WAFMode := string (only parsing).
Definition WAFModeOn : WAFMode := "on".
Definition WAFModeDetection : WAFMode := "detection".
Definition WAFModeOff : WAFMode := "off".

Abbreviation TLSMode := string (only parsing).
Definition TLSModeAuto : TLSMode := "auto".
Definition TLSModeManual : TLSMode := "manual".
Definition TLSModeOff : TLSMode := "off".

Record Site := mkSite {
  site_ID : Z; site_Domain : string; site_UpstreamURL : string;
  site_WAFMode : WAFMode; site_TLSMode : TLSMode;
  site_CertFile : string; site_KeyFile : string; site_Enabled : bool;
  site_CreatedAt : time; site_UpdatedAt : time }.

Record CustomRule := mkRule {
  rule_ID : Z; rule_Name : string; rule_Directive : string; rule_Description : string;
  rule_Enabled : bool; rule_CreatedAt : time; rule_UpdatedAt : time }.

(** [ev_MatchedRules] is [None] for a nil slice. *)
Record Event := mkEvent {
  ev_ID : Z; ev_Timestamp : time; ev_TxID : string; ev_Domain : string;
  ev_ClientIP : string; ev_Method : string; ev_URI : string; ev_Blocked : bool;
  ev_StatusCode : Z; ev_RuleID : Z; ev_Message : string; ev_Severity : Z;
  ev_AnomalyScore : Z; ev_MatchedRules : option (list Z) }.

Record RuleCount := mkRuleCount { rc_RuleID : Z; rc_Message : string; rc_Count : Z }.
Record ClientCount := mkClientCount { cc_ClientIP : string; cc_Count : Z }.
Record TimelinePoint := mkPoint { tp_Bucket : time; tp_Total : Z; tp_Blocked : Z }.
Record Stats := mkStats {
  ss_TotalEvents : Z; ss_BlockedEvents : Z; ss_TopRules : list RuleCount;
  ss_TopClients : list ClientCount; ss_Timeline : list TimelinePoint }.

Record EventFilter := mkFilter {
  ef_Domain : string; ef_BlockedOnly : bool; ef_Limit : Z; ef_Offset : Z }.

(** Field updates. *)
Definition site_with_id (i : Z) (s : Site) : Site :=
  mkSite i (site_Domain s) (site_UpstreamURL s) (site_WAFMode s) (site_TLSMode s)
    (site_CertFile s) (site_KeyFile s) (site_Enabled s) (site_CreatedAt s) (site_UpdatedAt s).
Definition site_with_times (c u : time) (s : Site) : Site :=
  mkSite (site_ID s) (site_Domain s) (site_UpstreamURL s) (site_WAFMode s) (site_TLSMode s)
    (site_CertFile s) (site_KeyFile s) (site_Enabled s) c u.
Definition rule_with_id (i : Z) (r : CustomRule) : CustomRule :=
  mkRule i (rule_Name r) (rule_Directive r) (rule_Description r) (rule_Enabled r)
    (rule_CreatedAt r) (rule_UpdatedAt r).
Definition rule_with_times (c u : time) (r : CustomRule) : CustomRule :=
  mkRule (rule_ID r) (rule_Name r) (rule_Directive r) (rule_Description r) (rule_Enabled r) c u.
Definition event_with_id (i : Z) (e : Event) : Event :=
  mkEvent i (ev_Timestamp e) (ev_TxID e) (ev_Domain e) (ev_ClientIP e) (ev_Method e) (ev_URI e)
    (ev_Blocked e) (ev_StatusCode e) (ev_RuleID e) (ev_Message e) (ev_Severity e)
    (ev_AnomalyScore e) (ev_MatchedRules e).

#[export] Instance site_has_id : HasId Site :=
  {| get_id := site_ID; set_id := site_with_id; get_set_id _ _ := eq_refl |}.
#[export] Instance rule_has_id : HasId CustomRule :=
  {| get_id := rule_ID; set_id := rule_with_id; get_set_id _ _ := eq_refl |}.
#[export] Instance event_has_id : HasId Event :=
  {| get_id := ev_ID; set_id := event_with_id; get_set_id _ _ := eq_refl |}.

(** ** The database and its environment *)

Record DB := mkDB {
  db_sites : Table Site; db_rules : Table CustomRule; db_events : Table Event;
  db_settings : gmap string string }.

Definition empty_db : DB := mkDB empty_table empty_table empty_table ∅.

(** A failing statement: at once, or after [n] rows of the result. *)
Inductive fault :=
| FailNow (e : error)
| FailAfter (n : nat) (e : error).

Record StoreState := mkStoreState {
  st_db : DB;
  st_clock : time;                   (* the last reading of the clock *)
  st_ticks : list N;                 (* how far it advances before each next reading *)
  st_entropy : list (res string);    (* what the next reads of crypto/rand give *)
  st_faults : list (option fault) }. (* what happens to the next statements *)

Definition with_db (d : DB) (s : StoreState) : StoreState :=
  mkStoreState d (st_clock s) (st_ticks s) (st_entropy s) (st_faults s).

(** [time.Now().UTC()]. *)
Definition now_of (s : StoreState) : time := (st_clock s + from_option Z.of_N 0 (head (st_ticks s)))%Z.

Definition time_now : M StoreState time := fun s =>
  (now_of s, mkStoreState (st_db s) (now_of s) (tail (st_ticks s)) (st_entropy s) (st_faults s)).

(** [rand.Read] into a buffer of [n] bytes: the source is cut, or extended with
    zeros, to the size of the buffer. *)
Definition fill (n : nat) (bs : string) : string := str_take n (bs +:+ of_bytes (repeat 0%Z n)).

Definition rand_of (n : nat) (s : StoreState) : res string :=
  match head (st_entropy s) with
  | Some (Ok bs) => Ok (fill n bs)
  | Some (Err e) => Err e
  | None => Ok (fill n "")
  end.

Definition rand_read (n : nat) : M StoreState (res string) := fun s =>
  (rand_of n s, mkStoreState (st_db s) (st_clock s) (st_ticks s) (tail (st_entropy s)) (st_faults s)).

(** What happens to the next statement. *)
Definition fault_of (s : StoreState) : option fault := mjoin (head (st_faults s)).

Definition pop_fault (s : StoreState) : StoreState :=
  mkStoreState (st_db s) (st_clock s) (st_ticks s) (st_entropy s) (tail (st_faults s)).

Definition next_fault : M StoreState (option fault) := fun s => (fault_of s, pop_fault s).

(** [db.Exec]: the statement is atomic, so a failure leaves the tables as they
    were. *)
Definition sql_exec {A} (f : DB -> res (A * DB)) : M StoreState (res A) :=
  (let! flt := next_fault in
   fun s =>
     match flt with
     | Some (FailNow e) | Some (FailAfter _ e) => (Err e, s)
     | None =>
         match f (st_db s) with
         | Ok (a, d) => (Ok a, with_db d s)
         | Err e => (Err e, s)
         end
     end)%go.

(** [db.Query]: the rows that [rows.Next] delivers, and what [rows.Err] says
    afterwards. *)
Definition sql_query {A} (f : DB -> list A) : M StoreState (res (list A * option error)) :=
  (let! flt := next_fault in
   let! all := gets (fun s => f (st_db s)) in
   ret match flt with
       | Some (FailNow e) => Err e
       | Some (FailAfter n e) => Ok (take n all, Some e)
       | None => Ok (all, None)
       end)%go.

(** [db.QueryRow(...).Scan]: [sql.ErrNoRows] when there is no row. *)
Definition ErrNoRows : error := "sql: no rows in result set".

Definition sql_query_row {A} (f : DB -> option A) : M StoreState (res (option A)) :=
  (let! flt := next_fault in
   let! row := gets (fun s => f (st_db s)) in
   ret match flt with
       | Some (FailNow e) | Some (FailAfter _ e) => Err e
       | None => Ok row
       end)%go.

(** The common tail of a listing: [return out, rows.Err()]. *)
Definition sql_list {A} (f : DB -> list A) : M StoreState (res (list A)) :=
  (let? p := sql_query f in
   ret match p.2 with Some e => Err e | None => Ok p.1 end)%go.

(** Statements on one table. *)
Definition on_sites (d : DB) (t : Table Site) : DB := mkDB t (db_rules d) (db_events d) (db_settings d).
Definition on_rules (d : DB) (t : Table CustomRule) : DB := mkDB (db_sites d) t (db_events d) (db_settings d).
Definition on_events (d : DB) (t : Table Event) : DB := mkDB (db_sites d) (db_rules d) t (db_settings d).
Definition on_settings (d : DB) (m : gmap string string) : DB :=
  mkDB (db_sites d) (db_rules d) (db_events d) m.

(** ** Schema, settings *)

(** CREATE TABLE IF NOT EXISTS: a missing table is created empty, an existing
    one is left alone. [None] is a database file without tables. *)
Definition schema (d : option DB) : DB := default empty_db d.

Definition migrate (d : option DB) (flt : option fault) : res DB :=
  match flt with
  | Some (FailNow e) | Some (FailAfter _ e) => Err ("migrate: " +:+ e)
  | None => Ok (schema d)
  end.

(** [Open] on a database file, with what [sql.Open] says. *)
Definition Open (open_error : option error) (d : option DB) (flt : option fault) : res DB :=
  match open_error with
  | Some e => Err ("open db: " +:+ e)
  | None => migrate d flt
  end.

(** [GetSetting] returns Go's triple (value, exists, error). *)
Definition GetSetting (key : string) : M StoreState (string * bool * option error) :=
  (let! r := sql_query_row (fun d => db_settings d !! key) in
   ret match r with
       | Ok None => ("", false, None)
       | Err e => ("", false, Some e)
       | Ok (Some v) => (v, true, None)
       end)%go.

Definition SetSetting (key value : string) : M StoreState (option error) :=
  (let! r := sql_exec (fun d => Ok (tt, on_settings d (<[key := value]> (db_settings d)))) in
   ret match r with Ok _ => None | Err e => Some e end)%go.

(** ** Sites *)

Definition unique_domain_error : error := "constraint failed: UNIQUE constraint failed: sites.domain (2067)".

Definition site_domain_le (a b : Site) : bool := String.leb (site_Domain a) (site_Domain b).

Definition ListSites `{SqlEngine} : M StoreState (res (list Site)) :=
  sql_list (fun d => order_by site_domain_le (rows (db_sites d))).

Definition GetSite (id : Z) : M StoreState (res Site) :=
  (let? r := sql_query_row (fun d => find_row id (db_sites d)) in
   ret match r with Some st => Ok st | None => Err ErrNoRows end)%go.

(** INSERT INTO sites, with the UNIQUE constraint on the domain. *)
Definition insert_site (st : Site) (d : DB) : res (Site * DB) :=
  if decide (Exists (fun s => site_Domain s = site_Domain st) (rows (db_sites d)))
  then Err unique_domain_error
  else match insert_row st (db_sites d) with
       | Ok (st', t) => Ok (st', on_sites d t)
       | Err e => Err e
       end.

Definition CreateSite (st : Site) : M StoreState (res Site) :=
  (let! now := time_now in
   sql_exec (insert_site (site_with_times now now st)))%go.

(** The columns UPDATE sites sets: not the key, not [created_at]. *)
Definition set_site_columns (st row : Site) : Site :=
  mkSite (site_ID row) (site_Domain st) (site_UpstreamURL st) (site_WAFMode st) (site_TLSMode st)
    (site_CertFile st) (site_KeyFile st) (site_Enabled st) (site_CreatedAt row) (site_UpdatedAt st).

Definition update_site (st : Site) (d : DB) : res (unit * DB) :=
  if decide (is_Some (find_row (site_ID st) (db_sites d)) /\
             Exists (fun s => site_Domain s = site_Domain st /\ site_ID s <> site_ID st) (rows (db_sites d)))
  then Err unique_domain_error
  else Ok (tt, on_sites d (update_row (site_ID st) (set_site_columns st) (db_sites d))).

Definition UpdateSite (st : Site) : M StoreState (res Site) :=
  (let! now := time_now in
   let st := site_with_times (site_CreatedAt st) now st in
   let? _ := sql_exec (update_site st) in
   ret (Ok st))%go.

Definition DeleteSite (id : Z) : M StoreState (option error) :=
  (let! r := sql_exec (fun d => Ok (tt, on_sites d (delete_row id (db_sites d)))) in
   ret match r with Ok _ => None | Err e => Some e end)%go.

(** ** Custom rules *)

Definition rule_id_le (a b : CustomRule) : bool := (rule_ID a <=? rule_ID b)%Z.

Definition ListRules `{SqlEngine} : M StoreState (res (list CustomRule)) :=
  sql_list (fun d => order_by rule_id_le (rows (db_rules d))).

Definition EnabledRuleDirectives `{SqlEngine} : M StoreState (res (list string)) :=
  sql_list (fun d => rule_Directive <$>
    order_by rule_id_le (filter (fun r => rule_Enabled r = true) (rows (db_rules d)))).

Definition GetRule (id : Z) : M StoreState (res CustomRule) :=
  (let? r := sql_query_row (fun d => find_row id (db_rules d)) in
   ret match r with Some r => Ok r | None => Err ErrNoRows end)%go.

Definition insert_rule (r : CustomRule) (d : DB) : res (CustomRule * DB) :=
  match insert_row r (db_rules d) with
  | Ok (r', t) => Ok (r', on_rules d t)
  | Err e => Err e
  end.

Definition CreateRule (r : CustomRule) : M StoreState (res CustomRule) :=
  (let! now := time_now in
   sql_exec (insert_rule (rule_with_times now now r)))%go.

Definition set_rule_columns (r row : CustomRule) : CustomRule :=
  mkRule (rule_ID row) (rule_Name r) (rule_Directive r) (rule_Description r) (rule_Enabled r)
    (rule_CreatedAt row) (rule_UpdatedAt r).

Definition UpdateRule (r : CustomRule) : M StoreState (res CustomRule) :=
  (let! now := time_now in
   let r := rule_with_times (rule_CreatedAt r) now r in
   let? _ := sql_exec (fun d => Ok (tt, on_rules d (update_row (rule_ID r) (set_rule_columns r) (db_rules d)))) in
   ret (Ok r))%go.

Definition DeleteRule (id : Z) : M StoreState (option error) :=
  (let! r := sql_exec (fun d => Ok (tt, on_rules d (delete_row id (db_rules d)))) in
   ret match r with Ok _ => None | Err e => Some e end)%go.

(** ** Events *)

Definition InsertEvent (e : Event) : M StoreState (res Event) :=
  sql_exec (fun d =>
    match insert_row e (db_events d) with
    | Ok (e', t) => Ok (e', on_events d t)
    | Err err => Err err
    end).

(** The driver stores a time as its [Time.String] text; the WHERE and ORDER BY
    clauses compare those texts byte by byte. *)
Definition event_desc (a b : Event) : bool :=
  String.leb (time_string (ev_Timestamp b)) (time_string (ev_Timestamp a)).

Definition event_matches (f : EventFilter) (e : Event) : bool :=
  (if decide (ef_Domain f = "") then true else bool_decide (ev_Domain e = ef_Domain f)) &&
  (if ef_BlockedOnly f then ev_Blocked e else true).

Definition effective_limit (f : EventFilter) : Z :=
  if ((ef_Limit f <=? 0) || (1000 <? ef_Limit f))%Z then 100%Z else ef_Limit f.

Definition select_events `{SqlEngine} (f : EventFilter) (d : DB) : list Event :=
  limit_offset (effective_limit f) (ef_Offset f)
    (order_by event_desc (filter (fun e => event_matches f e = true) (rows (db_events d)))).

Definition ListEvents `{SqlEngine} (f : EventFilter) : M StoreState (res (list Event)) :=
  sql_list (select_events f).

(** Rows of the window: [timestamp >= from], on the stored texts. *)
Definition in_window (from : time) (e : Event) : bool :=
  String.leb (time_string from) (time_string (ev_Timestamp e)).

Definition window (from : time) (d : DB) : list Event :=
  filter (fun e => in_window from e = true) (rows (db_events d)).

Definition count {A} (l : list A) : Z := Z.of_nat (length l).
Definition count_blocked (l : list Event) : Z :=
  foldr Z.add 0%Z ((fun e => if ev_Blocked e then 1 else 0)%Z <$> l).

Definition top_rules_query `{SqlEngine} (from : time) (d : DB) : list RuleCount :=
  let groups := group_by ev_RuleID (filter (fun e => ev_RuleID e <> 0%Z) (window from d)) in
  let count_rule '(id, g) :=
    match g with
    | e :: g' => mkRuleCount id (ev_Message (bare_row e g')) (count g)
    | [] => mkRuleCount id "" 0
    end in
  take 10 (order_by (fun a b => rc_Count b <=? rc_Count a)%Z (count_rule <$> groups)).

Definition top_clients_query `{SqlEngine} (from : time) (d : DB) : list ClientCount :=
  take 10 (order_by (fun a b => cc_Count b <=? cc_Count a)%Z
    ((fun '(ip, g) => mkClientCount ip (count g)) <$> group_by ev_ClientIP (window from d))).

(** The bucket expression: strftime over [substr(timestamp, 1, 19)]. *)
Definition bucket_of `{SqlEngine} (e : Event) : option string :=
  strftime_hour (str_take 19 (time_string (ev_Timestamp e))).

(** ORDER BY b: NULL sorts before every text. *)
Definition bucket_le (a b : option string * (Z * Z)) : bool :=
  match a.1, b.1 with
  | None, _ => true
  | Some _, None => false
  | Some x, Some y => String.leb x y
  end.

Definition buckets_query `{SqlEngine} (from : time) (d : DB) : list (option string * (Z * Z)) :=
  order_by bucket_le
    ((fun '(b, g) => (b, (count g, count_blocked g))) <$> group_by bucket_of (window from d)).

(** Scanning a NULL bucket into a Go string fails. *)
Definition scan_bucket (r : option string * (Z * Z)) : res TimelinePoint :=
  match r.1 with
  | None => Err "converting NULL to string is unsupported"
  | Some b => Ok (mkPoint (default zero_time (parse_rfc3339 b)) r.2.1 r.2.2)
  end.

Fixpoint scan_buckets (l : list (option string * (Z * Z))) : res (list TimelinePoint) :=
  match l with
  | [] => Ok []
  | r :: l =>
      match scan_bucket r, scan_buckets l with
      | Ok p, Ok ps => Ok (p :: ps)
      | Err e, _ => Err e
      | _, Err e => Err e
      end
  end.

(** Negating a [time.Duration], an [int64]. *)
Definition neg_duration (d : Z) : Z := if decide (d = int64_min) then int64_min else (- d)%Z.

(** [Stats] reads the three grouped results without looking at [rows.Err]. *)
Definition StatsOf `{SqlEngine} (since : Z) : M StoreState (res Stats) :=
  (let! now := time_now in
   let from := (now + neg_duration since)%Z in
   let? totals := sql_query_row (fun d => Some (count (window from d), count_blocked (window from d))) in
   let? rules := sql_query (top_rules_query from) in
   let? clients := sql_query (top_clients_query from) in
   let? buckets := sql_query (buckets_query from) in
   ret match scan_buckets buckets.1 with
       | Err e => Err e
       | Ok tl =>
           let t := default (0, 0)%Z totals in
           Ok (mkStats t.1 t.2 rules.1 clients.1 tl)
       end)%go.

(** ** Using the store from a larger state

    A state that contains the store lends it to the operations of this file:
    the interface the control plane is written against. *)

Class HasStore (W : Type) := {
  get_store : W -> StoreState;
  set_store : StoreState -> W -> W;
  get_set_store : forall s w, get_store (set_store s w) = s;
  set_get_store : forall w, set_store (get_store w) w = w;
  set_set_store : forall s1 s2 w, set_store s2 (set_store s1 w) = set_store s2 w
}.

Definition on_store {W A} `{HasStore W} (m : M StoreState A) : M W A :=
  fun w => let p := m (get_store w) in (p.1, set_store p.2 w).

#[export] Instance store_has_store : HasStore StoreState :=
  {| get_store s := s; set_store s _ := s; get_set_store _ _ := eq_refl;
     set_get_store _ := eq_refl; set_set_store _ _ _ := eq_refl |}.

(** ** Running a statement *)

Lemma sql_exec_ok {A} (f : DB -> res (A * DB)) s :
  fault_of s = None ->
  sql_exec f s = match f (st_db s) with
                 | Ok (a, d) => (Ok a, with_db d (pop_fault s))
                 | Err e => (Err e, pop_fault s)
                 end.
Proof. intros Hf. unfold sql_exec, bind, next_fault. simpl. by rewrite Hf. Qed.

Lemma sql_exec_fault {A} (f : DB -> res (A * DB)) s flt :
  fault_of s = Some flt -> exists e, sql_exec f s = (Err e, pop_fault s).
Proof. intros Hf. unfold sql_exec, bind, next_fault. simpl. rewrite Hf. destruct flt; eauto. Qed.

Lemma sql_query_ok {A} (f : DB -> list A) s :
  fault_of s = None -> sql_query f s = (Ok (f (st_db s), None), pop_fault s).
Proof. intros Hf. unfold sql_query, bind, next_fault, gets, ret. simpl. by rewrite Hf. Qed.

Lemma sql_query_row_ok {A} (f : DB -> option A) s :
  fault_of s = None -> sql_query_row f s = (Ok (f (st_db s)), pop_fault s).
Proof. intros Hf. unfold sql_query_row, bind, next_fault, gets, ret. simpl. by rewrite Hf. Qed.

Lemma sql_list_ok {A} (f : DB -> list A) s :
  fault_of s = None -> sql_list f s = (Ok (f (st_db s)), pop_fault s).
Proof. intros Hf. unfold sql_list, bind_ok, bind. by rewrite sql_query_ok. Qed.

(** A listing never changes the database, and on success it is exact. *)
Lemma sql_list_inv {A} (f : DB -> list A) s r s' :
  sql_list f s = (r, s') -> s' = pop_fault s /\ (forall l, r = Ok l -> l = f (st_db s)).
Proof.
  unfold sql_list, bind_ok, bind, sql_query, next_fault, gets, ret. simpl.
  destruct (fault_of s) as [[e|n e]|]; simpl; intros [= <- <-]; split; naive_solver.
Qed.

(** The database after a statement. *)
Lemma sql_exec_db {A} (f : DB -> res (A * DB)) s r s' :
  sql_exec f s = (r, s') ->
  (exists e, r = Err e /\ st_db s' = st_db s) \/
  (exists a d, r = Ok a /\ f (st_db s) = Ok (a, d) /\ st_db s' = d).
Proof.
  destruct (fault_of s) as [flt|] eqn:Hf.
  - destruct (sql_exec_fault f s flt Hf) as [e ->]. intros [= <- <-]. left. eauto.
  - rewrite sql_exec_ok by done.
    destruct (f (st_db s)) as [[a d]|e] eqn:E; intros [= <- <-]; [right|left]; eauto 6.
Qed.

Lemma fill_length n bs : String.length (fill n bs) = n.
Proof.
  unfold fill. assert (forall m k s, String.length s = m -> (k <= m)%nat -> String.length (str_take k s) = k) as H.
  { clear. intros m k. revert m. induction k as [|k IH]; intros m [|c s] Hs Hk; simpl in *; try lia.
    f_equal. destruct m; [lia|]. apply (IH m); lia. }
  eapply H; [done|]. rewrite string_length_app, <- (length_bytes_of (of_bytes _)).
  rewrite bytes_of_of; [rewrite repeat_length; lia|]. apply Forall_forall. intros x Hx.
  apply list_elem_of_In, repeat_spec in Hx as ->. unfold is_byte. lia.
Qed.

Create HintDb store.
#[export] Hint Resolve empty_table_wf : store.
