(* ===== verification/StoreSpec.v ===== *)
(** * What the storage layer promises

    The invariant of the database, the abstract repository of sites that the
    sites table refines, and the guarantees of the listings: order,
    completeness, independence from SQLite's choices, and the consistency of
    the dashboard figures. *)

From S2P Require Export Store.

(** ** Well-formed databases *)

Definition db_wf (d : DB) : Prop :=
  table_wf (db_sites d) /\ table_wf (db_rules d) /\ table_wf (db_events d) /\
  NoDup (site_Domain <$> rows (db_sites d)).

(** Every operation of [Store] that writes. *)
Inductive store_op :=
| OpSetSetting (k v : string)
| OpCreateSite (st : Site) | OpUpdateSite (st : Site) | OpDeleteSite (id : Z)
| OpCreateRule (r : CustomRule) | OpUpdateRule (r : CustomRule) | OpDeleteRule (id : Z)
| OpInsertEvent (e : Event).

Definition run_store_op (o : store_op) (s : StoreState) : StoreState :=
  match o with
  | OpSetSetting k v => (SetSetting k v s).2
  | OpCreateSite st => (CreateSite st s).2
  | OpUpdateSite st => (UpdateSite st s).2
  | OpDeleteSite id => (DeleteSite id s).2
  | OpCreateRule r => (CreateRule r s).2
  | OpUpdateRule r => (UpdateRule r s).2
  | OpDeleteRule id => (DeleteRule id s).2
  | OpInsertEvent e => (InsertEvent e s).2
  end.

Definition run_store_ops (os : list store_op) (s : StoreState) : StoreState :=
  foldl (fun s o => run_store_op o s) s os.

(** ** The abstract site repository: a finite map from keys to sites *)

Inductive site_op :=
| SCreate (st : Site)
| SUpdate (st : Site)
| SDelete (id : Z).

Definition domain_taken (m : gmap Z Site) (st : Site) : Prop :=
  exists i r, m !! i = Some r /\ i <> site_ID st /\ site_Domain r = site_Domain st.

(** What each operation may answer and do, given the time it runs at, whether
    its statement fails, and whether the key space is used up. *)
Inductive site_spec (now : time) (fails full : bool) (m : gmap Z Site)
  : site_op -> option error -> gmap Z Site -> Prop :=
| spec_create_ok st i :
    m !! i = None -> (0 < i)%Z ->
    (forall j r, m !! j = Some r -> site_Domain r <> site_Domain st) ->
    site_spec now fails full m (SCreate st) None
      (<[i := site_with_id i (site_with_times now now st)]> m)
| spec_create_dup st :
    (exists j r, m !! j = Some r /\ site_Domain r = site_Domain st) ->
    site_spec now fails full m (SCreate st) (Some unique_domain_error) m
| spec_create_full st e :
    full = true -> site_spec now fails full m (SCreate st) (Some e) m
| spec_update_ok st :
    (is_Some (m !! site_ID st) -> ~ domain_taken m st) ->
    site_spec now fails full m (SUpdate st) None
      (alter (set_site_columns (site_with_times (site_CreatedAt st) now st)) (site_ID st) m)
| spec_update_dup st :
    is_Some (m !! site_ID st) -> domain_taken m st ->
    site_spec now fails full m (SUpdate st) (Some unique_domain_error) m
| spec_delete id : site_spec now fails full m (SDelete id) None (delete id m)
| spec_fault o e : fails = true -> site_spec now fails full m o (Some e) m.

Definition run_site_op (o : site_op) (s : StoreState) : option error * StoreState :=
  let err {A} (p : res A * StoreState) := (match p.1 with Ok _ => None | Err e => Some e end, p.2) in
  match o with
  | SCreate st => err (CreateSite st s)
  | SUpdate st => err (UpdateSite st s)
  | SDelete id => DeleteSite id s
  end.

Definition sites_of (s : StoreState) : gmap Z Site := table_map (db_sites (st_db s)).

(** ** Lemmas: the invariant *)

Lemma empty_db_wf : db_wf empty_db.
Proof. repeat split; try constructor; unfold int64_max; simpl; lia. Qed.

Lemma Exists_domain st (l : list Site) :
  Exists (fun s => site_Domain s = site_Domain st) l <-> site_Domain st ∈ site_Domain <$> l.
Proof. rewrite Exists_exists, list_elem_of_fmap. naive_solver. Qed.

Lemma insert_site_spec st d st' d' :
  db_wf d -> insert_site st d = Ok (st', d') ->
  db_wf d' /\ st' = site_with_id (seq_no (db_sites d) + 1) st /\
  find_row (site_ID st') (db_sites d) = None /\
  (forall r, r ∈ rows (db_sites d) -> site_Domain r <> site_Domain st) /\
  table_map (db_sites d') = <[site_ID st' := st']> (table_map (db_sites d)).
Proof.
  intros (Hs & Hr & He & Hd). unfold insert_site. case_decide as Hdup; [done|].
  destruct (insert_row st (db_sites d)) as [[b t]|] eqn:E; [|done]. intros [= <- <-].
  destruct (insert_row_spec _ _ _ _ Hs E) as (Hwf & -> & Hfresh & Hmap & Hrows).
  assert (forall r, r ∈ rows (db_sites d) -> site_Domain r <> site_Domain st) as Hne.
  { intros r Hr' Heq. apply Hdup, Exists_exists. eauto. }
  split; [|done]. split; [done|]. do 2 (split; [done|]). simpl. rewrite Hrows, fmap_app.
  apply NoDup_app. split; [done|]. split; [|apply NoDup_singleton].
  intros x (r & -> & Hr')%list_elem_of_fmap Hx%list_elem_of_singleton. by destruct (Hne r Hr').
Qed.

Lemma update_site_spec st d u d' :
  db_wf d -> update_site st d = Ok (u, d') ->
  db_wf d' /\
  table_map (db_sites d') = alter (set_site_columns st) (site_ID st) (table_map (db_sites d)).
Proof.
  intros (Hs & Hr & He & Hd). unfold update_site. case_decide as Hdup; [done|]. intros [= <- <-].
  destruct (update_row_spec (site_ID st) (set_site_columns st) (db_sites d) ltac:(done) Hs) as [Hwf Hmap].
  split; [|done]. split; [done|]. do 2 (split; [done|]). simpl. rewrite <- list_fmap_compose.
  assert (forall r r', r ∈ rows (db_sites d) -> r' ∈ rows (db_sites d) -> site_ID r = site_ID st ->
    site_ID r' <> site_ID st -> site_Domain r' <> site_Domain st) as Hne.
  { intros r r' Hin Hin' Hid Hid' Heq. apply Hdup. split; [|by apply Exists_exists; eauto].
    exists r. by apply find_row_Some. }
  apply NoDup_fmap_2_strong; [|by eapply NoDup_fmap_1].
  intros x y Hx Hy. simpl. repeat case_decide; simpl; intros Hxy.
  - eapply (NoDup_fmap_inj_on get_id); [apply Hs|done..|]. simpl in *. congruence.
  - by destruct (Hne x y).
  - by destruct (Hne y x).
  - by eapply (NoDup_fmap_inj_on site_Domain).
Qed.

(** A property of the database survives a statement that establishes it on
    success. *)
Lemma sql_exec_preserves {A} (P : DB -> Prop) (f : DB -> res (A * DB)) s :
  P (st_db s) -> (forall a d, f (st_db s) = Ok (a, d) -> P d) -> P (st_db (sql_exec f s).2).
Proof.
  intros HP Hf. destruct (sql_exec f s) as [x s'] eqn:E.
  apply sql_exec_db in E as [(? & _ & E)|(? & ? & _ & Hi & E)]; simpl; rewrite E; eauto.
Qed.

Lemma insert_rule_wf r d r' d' : db_wf d -> insert_rule r d = Ok (r', d') -> db_wf d'.
Proof.
  intros (Hs & Hr & He & Hd). unfold insert_rule.
  destruct (insert_row _ _) as [[b t]|] eqn:Ei; [|done]. intros [= <- <-].
  apply insert_row_spec in Ei as [? _]; [|done]. by repeat (split; [done|]).
Qed.

Lemma delete_site_wf id d : db_wf d -> db_wf (on_sites d (delete_row id (db_sites d))).
Proof.
  intros (Hs & Hr & He & Hd). split; [by apply delete_row_spec|]. do 2 (split; [done|]). simpl.
  eapply sublist_NoDup; [exact Hd|]. apply fmap_sublist, sublist_filter.
Qed.

(** Every write keeps the database well-formed, whatever the fault schedule. *)
Lemma run_store_op_wf o s : db_wf (st_db s) -> db_wf (st_db (run_store_op o s)).
Proof.
  intros Hwf. pose proof Hwf as (Hs & Hr & He & Hd). destruct o as [k v|st|st|id|r|r|id|e]; simpl;
    unfold SetSetting, CreateSite, UpdateSite, DeleteSite, CreateRule, UpdateRule, DeleteRule, InsertEvent,
      bind_ok, bind; simpl.
  - apply sql_exec_preserves; [done|]. by intros ? ? [= _ <-].
  - apply sql_exec_preserves; [done|]. intros ? ? Hi. by eapply insert_site_spec in Hi as [? _].
  - case_match; simpl;
      (apply sql_exec_preserves; [done|]; intros ? ? Hi; by eapply update_site_spec in Hi as [? _]).
  - apply sql_exec_preserves; [done|]. intros ? ? [= _ <-]. by apply delete_site_wf.
  - apply sql_exec_preserves; [done|]. intros ? ? Hi. by eapply insert_rule_wf.
  - case_match; simpl;
      (apply sql_exec_preserves; [done|]; intros ? ? [= _ <-];
       split; [done|]; split; [by apply update_row_spec|done]).
  - apply sql_exec_preserves; [done|]. intros ? ? [= _ <-].
    split; [done|]. split; [by apply delete_row_spec|done].
  - apply sql_exec_preserves; [done|]. intros ? ? Hi.
    destruct (insert_row _ _) as [[b t]|] eqn:Ei; [|done]. injection Hi as _ <-.
    apply insert_row_spec in Ei as [? _]; [|done]. by repeat (split; [done|]).
Qed.

(** C21: Every sequence of writing store operations, whatever statements fail, keeps the tables
    well-formed: keys distinct, positive and at most the sequence number, domains unique. *)
Theorem db_wf_preserved (os : list store_op) (s : StoreState) :
  db_wf (st_db s) -> db_wf (st_db (run_store_ops os s)).
Proof.
  revert s. induction os as [|o os IH]; intros s Hwf; [done|]. by apply IH, run_store_op_wf.
Qed.

(** ** Refinement of the abstract repository *)

Lemma sites_of_lookup s i r :
  db_wf (st_db s) -> sites_of s !! i = Some r <-> r ∈ rows (db_sites (st_db s)) /\ site_ID r = i.
Proof.
  intros [Hwf _]. unfold sites_of. rewrite find_row_map by done. by rewrite find_row_Some by done.
Qed.

Lemma update_conflict_spec st d :
  db_wf d ->
  (is_Some (find_row (site_ID st) (db_sites d)) /\
   Exists (fun s => site_Domain s = site_Domain st /\ site_ID s <> site_ID st) (rows (db_sites d)))
  <-> is_Some (table_map (db_sites d) !! site_ID st) /\ domain_taken (table_map (db_sites d)) st.
Proof.
  intros [Hwf _]. rewrite find_row_map by done. unfold domain_taken.
  setoid_rewrite find_row_map; [|done]. setoid_rewrite find_row_Some; [|done].
  rewrite Exists_exists. simpl. naive_solver.
Qed.

(** The operations as one statement run after reading the clock. *)
Definition ticked (s : StoreState) : StoreState := (time_now s).2.

Lemma create_site_run st s :
  CreateSite st s = sql_exec (insert_site (site_with_times (now_of s) (now_of s) st)) (ticked s).
Proof. done. Qed.

Lemma update_site_run st s :
  UpdateSite st s =
  let st' := site_with_times (site_CreatedAt st) (now_of s) st in
  match sql_exec (update_site st') (ticked s) with
  | (Ok _, s') => (Ok st', s')
  | (Err e, s') => (Err e, s')
  end.
Proof.
  unfold UpdateSite, bind_ok, bind, ticked. cbv zeta. simpl. by destruct (sql_exec _ _) as [[] ?].
Qed.

Lemma create_site_refines st s :
  db_wf (st_db s) ->
  let p := CreateSite st s in
  site_spec (now_of s) (bool_decide (is_Some (fault_of s)))
    (bool_decide (int64_max <= seq_no (db_sites (st_db s)))%Z)
    (sites_of s) (SCreate st) (match p.1 with Ok _ => None | Err e => Some e end) (sites_of p.2).
Proof.
  intros Hwf. cbv zeta. rewrite create_site_run.
  destruct (fault_of s) as [flt|] eqn:Hf.
  { destruct (sql_exec_fault (insert_site (site_with_times (now_of s) (now_of s) st)) (ticked s) flt Hf) as [e ->].
    by apply spec_fault. }
  rewrite sql_exec_ok by done. change (st_db (ticked s)) with (st_db s).
  destruct (insert_site _ _) as [[st' d']|e] eqn:E; simpl.
  - destruct (insert_site_spec _ _ _ _ Hwf E) as (Hwf' & -> & Hfresh & Hne & Hmap).
    unfold sites_of at 2. simpl. rewrite Hmap. apply spec_create_ok.
    + unfold sites_of. rewrite find_row_map by apply Hwf. done.
    + destruct Hwf as ((_ & _ & Hseq) & _). lia.
    + intros j r [Hr _]%sites_of_lookup; [|done]. by apply Hne.
  - unfold insert_site in E. case_decide as Hdup.
    + injection E as <-. apply spec_create_dup.
      apply Exists_exists in Hdup as (r & Hr & Hd). exists (site_ID r), r. by rewrite sites_of_lookup.
    + unfold insert_row in E. case_decide; [|done]. apply spec_create_full.
      by rewrite bool_decide_true.
Qed.

Lemma update_site_refines st s :
  db_wf (st_db s) ->
  let p := UpdateSite st s in
  site_spec (now_of s) (bool_decide (is_Some (fault_of s)))
    (bool_decide (int64_max <= seq_no (db_sites (st_db s)))%Z)
    (sites_of s) (SUpdate st) (match p.1 with Ok _ => None | Err e => Some e end) (sites_of p.2).
Proof.
  intros Hwf. cbv zeta. rewrite update_site_run. cbv zeta.
  set (st' := site_with_times (site_CreatedAt st) (now_of s) st).
  destruct (fault_of s) as [flt|] eqn:Hf.
  { destruct (sql_exec_fault (update_site st') (ticked s) flt Hf) as [e ->]. by apply spec_fault. }
  rewrite sql_exec_ok by done. change (st_db (ticked s)) with (st_db s).
  pose proof (update_conflict_spec st' (st_db s) Hwf) as Hc.
  destruct (update_site st' (st_db s)) as [[u d']|e] eqn:E; simpl.
  - destruct (update_site_spec _ _ _ _ Hwf E) as [Hwf' Hmap].
    unfold sites_of at 2. simpl. rewrite Hmap. apply (spec_update_ok _ _ _ _ st). intros Hsome Htaken.
    unfold update_site in E. case_decide as Hdup; [done|]. apply Hdup, Hc. done.
  - unfold update_site in E. case_decide as Hdup; [|done]. injection E as <-.
    apply Hc in Hdup as [? ?]. by apply (spec_update_dup _ _ _ _ st).
Qed.

(** C20: On a well-formed database CreateSite, UpdateSite and DeleteSite implement an abstract
    repository, a finite map from keys to sites with unique domains: each answer and each new table
    is one the specification allows, for duplicates, missing rows, a used-up key space and failing
    statements too. *)
Theorem site_ops_refine (o : site_op) (s : StoreState) :
  db_wf (st_db s) ->
  site_spec (now_of s) (bool_decide (is_Some (fault_of s)))
    (bool_decide (int64_max <= seq_no (db_sites (st_db s)))%Z)
    (sites_of s) o (run_site_op o s).1 (sites_of (run_site_op o s).2).
Proof.
  intros Hwf. destruct o as [st|st|id].
  - by apply create_site_refines.
  - by apply update_site_refines.
  - simpl. unfold DeleteSite, bind. destruct (fault_of s) as [flt|] eqn:Hf.
    + destruct (sql_exec_fault (fun d => Ok (tt, on_sites d (delete_row id (db_sites d)))) s flt Hf) as [e ->].
      by apply spec_fault.
    + rewrite sql_exec_ok by done. unfold ret, sites_of. simpl.
      rewrite (proj2 (delete_row_spec id (db_sites (st_db s)) (proj1 Hwf))). apply spec_delete.
Qed.

(** ** Listings *)

Lemma string_le_total a b : String.leb a b \/ String.leb b a.
Proof. destruct (String.leb_total a b) as [->| ->]; auto. Qed.

Lemma string_le_trans a b c : String.leb a b -> String.leb b c -> String.leb a c.
Proof. intros Hab Hbc. exact (transitivity (R := String.le) Hab Hbc). Qed.

Lemma string_le_antisym a b : String.leb a b -> String.leb b a -> a = b.
Proof. intros Hab Hbc. exact (anti_symm String.le a b Hab Hbc). Qed.

Lemma site_domain_le_total a b : site_domain_le a b \/ site_domain_le b a.
Proof. apply string_le_total. Qed.
Lemma site_domain_le_trans a b c : site_domain_le a b -> site_domain_le b c -> site_domain_le a c.
Proof. apply string_le_trans. Qed.
Lemma rule_id_le_total a b : rule_id_le a b \/ rule_id_le b a.
Proof. unfold rule_id_le. destruct (Z.le_ge_cases (rule_ID a) (rule_ID b)); [left|right]; apply Is_true_true, Z.leb_le; lia. Qed.
Lemma rule_id_le_trans a b c : rule_id_le a b -> rule_id_le b c -> rule_id_le a c.
Proof. unfold rule_id_le. rewrite !Is_true_true, !Z.leb_le. lia. Qed.
Lemma event_desc_total a b : event_desc a b \/ event_desc b a.
Proof. apply string_le_total. Qed.
Lemma event_desc_trans a b c : event_desc a b -> event_desc b c -> event_desc a c.
Proof. unfold event_desc. intros ? ?. eapply string_le_trans; eauto. Qed.

#[export] Hint Resolve site_domain_le_total site_domain_le_trans rule_id_le_total rule_id_le_trans
  event_desc_total event_desc_trans order_by_perm : store.

(** Two engines give the same listing when the order separates the rows. *)
Lemma order_by_unique {A} (E1 E2 : SqlEngine) (le : A -> A -> bool) (l : list A) :
  (forall a b, le a b \/ le b a) -> (forall a b c, le a b -> le b c -> le a c) ->
  (forall a b, a ∈ l -> b ∈ l -> le a b -> le b a -> a = b) ->
  @order_by E1 A le l = @order_by E2 A le l.
Proof.
  intros Htot Htr Hanti.
  eapply StronglySorted_unique_strong with (R := fun a b => le a b).
  - intros a b Ha Hb. rewrite (@order_by_perm E1) in Ha. rewrite (@order_by_perm E2) in Hb. auto.
  - by apply order_by_sorted.
  - by apply order_by_sorted.
  - by rewrite (@order_by_perm E1), (@order_by_perm E2).
Qed.

Lemma sql_list_ext {A} (f g : DB -> list A) s :
  f (st_db s) = g (st_db s) -> sql_list f s = sql_list g s.
Proof.
  intros Hfg. unfold sql_list, bind_ok, bind, sql_query, next_fault, gets, ret. simpl.
  rewrite Hfg. done.
Qed.

(** C40: The listings of sites, rules and enabled directives do not depend on how SQLite breaks
    ties: any two engines give the same results on a well-formed database. *)
Theorem listings_engine_independent (E1 E2 : SqlEngine) (s : StoreState) :
  db_wf (st_db s) ->
  @ListSites E1 s = @ListSites E2 s /\ @ListRules E1 s = @ListRules E2 s /\
  @EnabledRuleDirectives E1 s = @EnabledRuleDirectives E2 s.
Proof.
  intros (Hs & Hr & He & Hd).
  assert (forall a b, a ∈ rows (db_rules (st_db s)) -> b ∈ rows (db_rules (st_db s)) ->
    rule_id_le a b -> rule_id_le b a -> a = b) as Hanti.
  { unfold rule_id_le. intros a b Ha Hb. rewrite !Is_true_true, !Z.leb_le. intros ? ?.
    eapply (NoDup_fmap_inj_on get_id); [apply Hr|done..|]. simpl. lia. }
  repeat split; apply sql_list_ext.
  - apply order_by_unique; [by eauto with store..|]. intros a b Ha Hb Hab Hba.
    eapply (NoDup_fmap_inj_on site_Domain); [done..|]. by apply string_le_antisym.
  - apply order_by_unique; eauto with store.
  - f_equal. apply order_by_unique; eauto with store.
    intros a b [_ Ha]%list_elem_of_filter [_ Hb]%list_elem_of_filter. by apply Hanti.
Qed.

(** Listing sites is complete and strictly ordered by domain. *)
Theorem list_sites_sorted `{SqlEngine} (s : StoreState) (l : list Site) (s' : StoreState) :
  db_wf (st_db s) -> ListSites s = (Ok l, s') ->
  l ≡ₚ rows (db_sites (st_db s)) /\ st_db s' = st_db s /\
  StronglySorted (fun a b => String.compare (site_Domain a) (site_Domain b) = Lt) l.
Proof.
  intros (Hs & Hr & He & Hd) Hl. apply sql_list_inv in Hl as [-> Hl]. specialize (Hl _ eq_refl) as ->.
  split; [apply order_by_perm|]. split; [done|].
  assert (NoDup (site_Domain <$> order_by site_domain_le (rows (db_sites (st_db s))))) as Hnd
    by (by rewrite order_by_perm).
  pose proof (order_by_sorted Site site_domain_le (rows (db_sites (st_db s)))
    site_domain_le_total site_domain_le_trans) as Hsort.
  revert Hnd. induction Hsort as [|x l Hsort IH Hx]; intros Hnd; [constructor|].
  apply NoDup_cons in Hnd as [Hxn Hnd]. constructor; [by apply IH|].
  rewrite Forall_forall in *. intros y Hy. specialize (Hx y Hy).
  unfold site_domain_le, String.leb in Hx.
  destruct (String.compare (site_Domain x) (site_Domain y)) eqn:E; [|done|done].
  apply String.compare_eq_iff in E. destruct Hxn. rewrite E. by apply list_elem_of_fmap_2.
Qed.

Definition event_times_ok (d : DB) : Prop :=
  Forall (fun e => in_calendar (ev_Timestamp e)) (rows (db_events d)).

(** C39: With event times in the calendar's range a page of events is a contiguous slice, of the
    requested offset and effective limit, of the events that match the filter ordered from newest to
    oldest; the database is unchanged. *)
Theorem list_events_page `{SqlEngine} (f : EventFilter) (s : StoreState) (l : list Event) (s' : StoreState) :
  event_times_ok (st_db s) -> ListEvents f s = (Ok l, s') ->
  exists before after,
    before ++ l ++ after ≡ₚ filter (fun e => event_matches f e = true) (rows (db_events (st_db s))) /\
    StronglySorted (fun a b => ev_Timestamp b <= ev_Timestamp a)%Z (before ++ l ++ after) /\
    length before = Nat.min (Z.to_nat (ef_Offset f)) (length (before ++ l ++ after)) /\
    length l = Nat.min (Z.to_nat (effective_limit f)) (length (l ++ after)) /\
    st_db s' = st_db s.
Proof.
  intros Htimes Hl. apply sql_list_inv in Hl as [-> Hl]. specialize (Hl _ eq_refl) as ->.
  unfold select_events, limit_offset.
  set (all := order_by event_desc _).
  exists (take (Z.to_nat (ef_Offset f)) all),
    (drop (Z.to_nat (effective_limit f)) (drop (Z.to_nat (ef_Offset f)) all)).
  rewrite !take_drop. split; [apply order_by_perm|].
  split; [|split; [by rewrite length_take|split; [by rewrite length_take|done]]].
  assert (Forall (fun e => in_calendar (ev_Timestamp e)) all) as Hall.
  { unfold all. rewrite order_by_perm. unfold event_times_ok in Htimes. rewrite Forall_forall in Htimes |- *.
    intros e [_ He]%list_elem_of_filter. by apply Htimes. }
  pose proof (order_by_sorted Event event_desc (filter (fun e => event_matches f e = true) (rows (db_events (st_db s))))
    event_desc_total event_desc_trans) as Hsort. fold all in Hsort.
  clearbody all. induction Hsort as [|x k Hsort IH Hx]; [constructor|].
  apply Forall_cons in Hall as [Hx' Hk]. constructor; [by apply IH|].
  rewrite Forall_forall in *. intros y Hy. specialize (Hx y Hy). unfold event_desc in Hx.
  rewrite time_string_le in Hx by auto. apply Is_true_true in Hx. lia.
Qed.

(** Page size. *)
Theorem list_events_bounded `{SqlEngine} (f : EventFilter) (s : StoreState) (l : list Event) (s' : StoreState) :
  ListEvents f s = (Ok l, s') -> (Z.of_nat (length l) <= 1000)%Z.
Proof.
  intros Hl. apply sql_list_inv in Hl as [_ Hl]. rewrite (Hl _ eq_refl). unfold select_events.
  etrans; [apply limit_offset_length|]; unfold effective_limit; case_match; zbool; lia.
Qed.

(** ** The dashboard figures *)

Definition no_faults (s : StoreState) : Prop := Forall (fun f => f = None) (st_faults s).

Lemma no_faults_fault_of s : no_faults s -> fault_of s = None.
Proof. unfold no_faults, fault_of. destruct (st_faults s) as [|f l]; simpl; [done|]. by intros [-> _]%Forall_cons. Qed.

Lemma no_faults_pop s : no_faults s -> no_faults (pop_fault s).
Proof. unfold no_faults. simpl. destruct (st_faults s); simpl; [done|]. by intros [_ ?]%Forall_cons. Qed.

Lemma no_faults_ticked s : no_faults s -> no_faults (ticked s).
Proof. done. Qed.

#[export] Hint Resolve no_faults_fault_of no_faults_pop no_faults_ticked : store.

Definition zsum (l : list Z) : Z := foldr Z.add 0%Z l.

Lemma zsum_perm l1 l2 : l1 ≡ₚ l2 -> zsum l1 = zsum l2.
Proof. unfold zsum. induction 1; simpl; lia. Qed.

Lemma count_as_sum {A} (l : list A) : count l = zsum ((fun _ => 1%Z) <$> l).
Proof.
  unfold count, zsum. induction l as [|a l IH]; [done|]. rewrite fmap_cons. simpl in *. rewrite <- IH. lia.
Qed.

Lemma count_blocked_bounds l : (0 <= count_blocked l <= count l)%Z.
Proof.
  unfold count_blocked, count. induction l as [|e l IH]; [simpl; lia|].
  rewrite fmap_cons. simpl length. cbn [foldr]. destruct (ev_Blocked e); lia.
Qed.

(** The timeline point of one group. *)
Definition group_point (e : Event) (g : list Event) : TimelinePoint :=
  mkPoint (hour_floor (ev_Timestamp e)) (count g) (count_blocked g).

Section timeline.
Context `{SqlEngine} (w : list Event)
  (Hw : Forall (fun e => in_calendar (ev_Timestamp e)) w).

Lemma bucket_of_calendar e : e ∈ w -> bucket_of e = Some (bucket_text (ev_Timestamp e)).
Proof.
  intros He. pose proof Hw as Hc. rewrite Forall_forall in Hc. by apply strftime_hour_spec, Hc.
Qed.

Let rowf : option string * list Event -> option string * (Z * Z) :=
  fun '(b, g) => (b, (count g, count_blocked g)).
Let result := order_by bucket_le (rowf <$> group_by bucket_of w).

Lemma timeline_row b x :
  (b, x) ∈ result ->
  exists e, e ∈ w /\ b = Some (bucket_text (ev_Timestamp e)) /\
    x = (count (filter (fun e' => bucket_of e' = b) w), count_blocked (filter (fun e' => bucket_of e' = b) w)).
Proof.
  unfold result. rewrite order_by_perm. intros ([b' g] & [= -> ->] & Hg)%list_elem_of_fmap.
  destruct (group_by_elem _ _ _ _ Hg) as [-> Hne].
  destruct (filter (fun e' => bucket_of e' = b') w) as [|e g] eqn:E; [done|].
  assert (e ∈ filter (fun e' => bucket_of e' = b') w) as He by (rewrite E; apply list_elem_of_here).
  apply list_elem_of_filter in He as [Hb He]. exists e.
  split; [done|]. split; [|done]. by rewrite <- Hb, bucket_of_calendar.
Qed.

(** Scanning succeeds and gives one point per row. *)
Lemma scan_buckets_ok (l : list (option string * (Z * Z))) :
  Forall (fun r => exists e, e ∈ w /\ r.1 = Some (bucket_text (ev_Timestamp e))) l ->
  exists pts, scan_buckets l = Ok pts /\
    Forall2 (fun r p => exists e, e ∈ w /\ r.1 = Some (bucket_text (ev_Timestamp e)) /\
      p = mkPoint (hour_floor (ev_Timestamp e)) r.2.1 r.2.2) l pts.
Proof.
  induction 1 as [|[b [n k]] l (e & He & Hb) Hl (pts & Hs & Hp)]; [by exists []|]. simpl in *. subst b.
  exists (mkPoint (hour_floor (ev_Timestamp e)) n k :: pts). unfold scan_bucket. simpl.
  rewrite Hs, parse_bucket_text by (by eapply Forall_forall in Hw). split; [done|].
  constructor; [|done]. by exists e.
Qed.

Lemma timeline_rows_ok :
  Forall (fun r => exists e, e ∈ w /\ r.1 = Some (bucket_text (ev_Timestamp e))) result.
Proof.
  apply Forall_forall. intros [b x] (e & He & Hb & _)%timeline_row. eauto.
Qed.

(** Bucket of an event in terms of its hour. *)
Lemma filter_bucket_hour e :
  e ∈ w -> filter (fun e' => bucket_of e' = Some (bucket_text (ev_Timestamp e))) w
           = filter (fun e' => hour_floor (ev_Timestamp e') = hour_floor (ev_Timestamp e)) w.
Proof.
  intros He. apply filter_ext_in. intros e' He'.
  pose proof Hw as Hc. rewrite Forall_forall in Hc.
  rewrite bucket_of_calendar by done. split.
  - intros [= E]. by apply bucket_text_inj in E; auto.
  - intros E. f_equal. apply bucket_text_inj; auto.
Qed.

Lemma timeline_sum (f : Event -> Z) :
  zsum ((fun r => zsum (f <$> filter (fun e => bucket_of e = r.1) w)) <$> result) = zsum (f <$> w).
Proof.
  transitivity (zsum ((fun k => zsum (f <$> filter (fun e => bucket_of e = k) w)) <$> remove_dups (bucket_of <$> w))).
  - apply zsum_perm. unfold result. rewrite order_by_perm. unfold group_by.
    rewrite <- !list_fmap_compose. done.
  - apply sum_over_keys; [apply NoDup_remove_dups|].
    intros e He. by apply elem_of_remove_dups, list_elem_of_fmap_2.
Qed.
End timeline.

(** The window a call of [StatsOf] looks at. *)
Definition stats_from (since : Z) (s : StoreState) : time := (now_of s + neg_duration since)%Z.

(** The events of the window, by instant instead of by text. *)
Definition recent (from : time) (d : DB) : list Event :=
  filter (fun e => from <= ev_Timestamp e)%Z (rows (db_events d)).

Lemma window_recent from d :
  in_calendar from -> event_times_ok d -> window from d = recent from d.
Proof.
  intros Hf Ht. apply filter_ext_in. intros e He. unfold in_window.
  unfold event_times_ok in Ht. rewrite Forall_forall in Ht.
  rewrite time_string_le by auto. lia.
Qed.

Lemma recent_times from d :
  event_times_ok d -> Forall (fun e => in_calendar (ev_Timestamp e)) (recent from d).
Proof.
  unfold event_times_ok. rewrite !Forall_forall. intros Ht e [_ He]%list_elem_of_filter. auto.
Qed.

(** Without faults [StatsOf] answers with the four query results. *)
Lemma stats_run `{SqlEngine} since s :
  no_faults s ->
  let from := stats_from since s in
  (StatsOf since s).1 =
  match scan_buckets (buckets_query from (st_db s)) with
  | Err e => Err e
  | Ok tl => Ok (mkStats (count (window from (st_db s))) (count_blocked (window from (st_db s)))
               (top_rules_query from (st_db s)) (top_clients_query from (st_db s)) tl)
  end.
Proof.
  intros Hs. cbv zeta. unfold StatsOf. unfold bind at 1. cbv zeta. cbn [fst snd].
  change ((time_now s).1) with (now_of s). fold (stats_from since s). fold (ticked s).
  unfold bind_ok, bind.
  rewrite sql_query_row_ok by eauto with store. cbn [fst snd].
  rewrite sql_query_ok by eauto with store. cbn [fst snd].
  rewrite sql_query_ok by eauto with store. cbn [fst snd].
  rewrite sql_query_ok by eauto 6 with store. cbn [fst snd]. done.
Qed.

(** What the timeline points say about the events of the window. *)
Definition point_ok (w : list Event) (p : TimelinePoint) : Prop :=
  tp_Total p = count (filter (fun e => hour_floor (ev_Timestamp e) = tp_Bucket p) w) /\
  tp_Blocked p = count_blocked (filter (fun e => hour_floor (ev_Timestamp e) = tp_Bucket p) w) /\
  (0 < tp_Total p)%Z.

Definition row_value `{SqlEngine} (w : list Event) (r : option string * (Z * Z)) : Prop :=
  r.2 = (count (filter (fun e => bucket_of e = r.1) w), count_blocked (filter (fun e => bucket_of e = r.1) w)).

Lemma count_pos {A} (x : A) l : x ∈ l -> (0 < count l)%Z.
Proof. unfold count. destruct l; [by intros ?%elem_of_nil|]. simpl. lia. Qed.

Lemma timeline_points `{SqlEngine} w l pts :
  Forall (fun e => in_calendar (ev_Timestamp e)) w -> Forall (row_value w) l ->
  Forall2 (fun r p => exists e, e ∈ w /\ r.1 = Some (bucket_text (ev_Timestamp e)) /\
    p = mkPoint (hour_floor (ev_Timestamp e)) r.2.1 r.2.2) l pts ->
  zsum (tp_Total <$> pts) = zsum ((fun r => count (filter (fun e => bucket_of e = r.1) w)) <$> l) /\
  zsum (tp_Blocked <$> pts) = zsum ((fun r => count_blocked (filter (fun e => bucket_of e = r.1) w)) <$> l) /\
  Forall (point_ok w) pts.
Proof.
  intros Hw Hval. induction 1 as [|r p l pts (e & He & Hb & ->) Hpts IH]; [repeat split; constructor|].
  apply Forall_cons in Hval as [Hr Hval]. destruct (IH Hval) as (I1 & I2 & I3).
  unfold row_value in Hr. rewrite !fmap_cons. unfold zsum in *. cbn [foldr tp_Total tp_Blocked].
  rewrite I1, I2. rewrite Hb, filter_bucket_hour in * by done. rewrite Hr. cbn [fst snd].
  do 2 (split; [done|]). constructor; [|done]. do 2 (split; [done|]).
  cbn [tp_Total tp_Bucket]. apply (count_pos e). by apply list_elem_of_filter.
Qed.

(** C37: Without failures and with times in the calendar's range Stats succeeds, its totals count
    the events of the window by instant although SQLite compares texts, and the hourly timeline
    partitions them: every point counts the events of its hour, none is empty, and the points sum up
    to the totals. *)
Theorem stats_timeline `{SqlEngine} (since : Z) (s : StoreState) :
  no_faults s -> event_times_ok (st_db s) -> in_calendar (stats_from since s) ->
  let w := recent (stats_from since s) (st_db s) in
  exists st, (StatsOf since s).1 = Ok st /\
    ss_TotalEvents st = count w /\ ss_BlockedEvents st = count_blocked w /\
    zsum (tp_Total <$> ss_Timeline st) = ss_TotalEvents st /\
    zsum (tp_Blocked <$> ss_Timeline st) = ss_BlockedEvents st /\
    Forall (point_ok w) (ss_Timeline st).
Proof.
  intros Hs Ht Hf. cbv zeta. rewrite stats_run by done. cbv zeta.
  unfold buckets_query. rewrite window_recent by done.
  set (w := recent (stats_from since s) (st_db s)).
  assert (Forall (fun e => in_calendar (ev_Timestamp e)) w) as Hw by (by apply recent_times).
  destruct (scan_buckets_ok w Hw _ (timeline_rows_ok w Hw)) as (pts & Hscan & Hpts).
  rewrite Hscan. eexists. split; [done|]. cbn [ss_TotalEvents ss_BlockedEvents ss_Timeline].
  apply timeline_points in Hpts as (P1 & P2 & P3); [|done|].
  - rewrite P1, P2. do 2 (split; [done|]).
    pose proof (timeline_sum w (fun _ => 1%Z)) as S1. rewrite <- count_as_sum in S1.
    split; [|split; [exact (timeline_sum w (fun e => if ev_Blocked e then 1%Z else 0%Z))|done]].
    rewrite <- S1. f_equal. apply list_fmap_ext. intros i r _. apply count_as_sum.
  - apply Forall_forall. intros [b x] Hr. by apply timeline_row in Hr as (? & _ & _ & ->).
Qed.

(** *** Top lists *)

(** The head of a list sorted by a score: anything left out scores no more. *)
Lemma top_n_maximal `{SqlEngine} {A} (score : A -> Z) (n : nat) (l : list A) x :
  let top := take n (order_by (fun a b => score b <=? score a)%Z l) in
  x ∈ l -> x ∉ top -> length top = n /\ Forall (fun y => score x <= score y)%Z top.
Proof.
  cbv zeta. set (le := fun a b => (score b <=? score a)%Z). intros Hx Hnot.
  assert (x ∈ drop n (order_by le l)) as Hdrop.
  { rewrite <- (order_by_perm A le l), <- (take_drop n) in Hx. by apply elem_of_app in Hx as [|]. }
  pose proof (order_by_sorted A le l) as Hs.
  rewrite <- (take_drop n (order_by le l)) in Hs at 1.
  assert (forall a b, le a b \/ le b a) as Htot
    by (unfold le; intros a b; destruct (Z.le_ge_cases (score b) (score a)); [left|right]; apply Is_true_true, Z.leb_le; lia).
  assert (forall a b c, le a b -> le b c -> le a c) as Htr
    by (unfold le; intros a b c; rewrite !Is_true_true, !Z.leb_le; lia).
  specialize (Hs Htot Htr). split.
  - rewrite length_take. assert (0 < length (drop n (order_by le l)))%nat as Hlen
      by (destruct (drop n (order_by le l)); [by apply elem_of_nil in Hdrop|simpl; lia]).
    rewrite length_drop in Hlen. lia.
  - apply Forall_forall. intros y Hy.
    pose proof (StronglySorted_app_1_elem_of _ _ _ y x Hs Hy Hdrop) as Hyx.
    apply Is_true_true, Z.leb_le in Hyx. done.
Qed.

(** The rows of the rule ranking. *)
Definition rule_hits (w : list Event) (id : Z) : list Event := filter (fun e => ev_RuleID e = id) w.

Lemma top_rules_elem `{SqlEngine} (w : list Event) rc :
  rc ∈ ((fun '(id, g) => match g with
        | e :: g' => mkRuleCount id (ev_Message (bare_row e g')) (count g)
        | [] => mkRuleCount id "" 0 end) <$> group_by ev_RuleID (filter (fun e => ev_RuleID e <> 0%Z) w)) ->
  rc_RuleID rc <> 0%Z /\ rc_Count rc = count (rule_hits w (rc_RuleID rc)) /\
  exists e, e ∈ rule_hits w (rc_RuleID rc) /\ rc_Message rc = ev_Message e.
Proof.
  intros ([id g] & -> & Hg)%list_elem_of_fmap. apply group_by_elem in Hg as [Hg Hne].
  assert (forall e, e ∈ g -> e ∈ w /\ ev_RuleID e = id /\ id <> 0%Z) as Hin.
  { intros e. rewrite Hg, !list_elem_of_filter. naive_solver. }
  destruct g as [|e g]; [done|]. cbn [rc_RuleID rc_Count rc_Message].
  destruct (Hin e (list_elem_of_here _ _)) as (_ & _ & Hid). split; [done|].
  assert (e :: g = rule_hits w id) as Heq.
  { rewrite Hg. unfold rule_hits. rewrite list_filter_filter. apply filter_ext_in. naive_solver. }
  rewrite <- Heq. split; [done|]. eexists. split; [|done]. apply bare_row_in.
Qed.

Lemma top_rules_group `{SqlEngine} (w : list Event) id :
  id <> 0%Z -> rule_hits w id <> [] ->
  exists rc, rc_RuleID rc = id /\ rc ∈ ((fun '(id, g) => match g with
        | e :: g' => mkRuleCount id (ev_Message (bare_row e g')) (count g)
        | [] => mkRuleCount id "" 0 end) <$> group_by ev_RuleID (filter (fun e => ev_RuleID e <> 0%Z) w)).
Proof.
  intros Hid Hne. destruct (rule_hits w id) as [|e l] eqn:E; [done|].
  assert (e ∈ rule_hits w id) as He by (rewrite E; apply list_elem_of_here).
  apply list_elem_of_filter in He as [He Hw].
  assert (e ∈ filter (fun e => ev_RuleID e <> 0%Z) w) as Hf by (apply list_elem_of_filter; split; congruence).
  apply (group_by_cover ev_RuleID), list_elem_of_fmap in Hf as ([k g] & Hk & Hg).
  simpl in Hk. eexists. split; [|apply list_elem_of_fmap; by exists (k, g)].
  destruct g; simpl; congruence.
Qed.

(** C38: Without failures and with times in the calendar's range the rule ranking has at most ten
    entries, each with the exact number of events of the window and a message one of them has, and a
    rule that is left out has no more events than any rule listed. *)
Theorem stats_top_rules `{SqlEngine} (since : Z) (s : StoreState) (st : Stats) :
  no_faults s -> event_times_ok (st_db s) -> in_calendar (stats_from since s) ->
  (StatsOf since s).1 = Ok st ->
  let w := recent (stats_from since s) (st_db s) in
  (length (ss_TopRules st) <= 10)%nat /\
  Forall (fun rc => rc_RuleID rc <> 0%Z /\ rc_Count rc = count (rule_hits w (rc_RuleID rc)) /\
    exists e, e ∈ rule_hits w (rc_RuleID rc) /\ rc_Message rc = ev_Message e) (ss_TopRules st) /\
  (forall id, id <> 0%Z -> rule_hits w id <> [] ->
    id ∈ rc_RuleID <$> ss_TopRules st \/
    length (ss_TopRules st) = 10%nat /\
    Forall (fun rc => count (rule_hits w id) <= rc_Count rc)%Z (ss_TopRules st)).
Proof.
  intros Hs Ht Hf Hst. cbv zeta. rewrite stats_run in Hst by done. cbv zeta in Hst.
  destruct (scan_buckets _) as [tl|]; [|done]. injection Hst as <-. cbn [ss_TopRules].
  unfold top_rules_query. rewrite window_recent by done.
  set (w := recent (stats_from since s) (st_db s)). set (groups := fmap _ _).
  split; [rewrite length_take; lia|]. split.
  - apply Forall_forall. intros rc Hrc. apply (top_rules_elem w).
    eapply elem_of_sublist in Hrc; [|apply sublist_take]. by rewrite order_by_perm in Hrc.
  - intros id Hid Hne. destruct (top_rules_group w id Hid Hne) as (rc & <- & Hrc). fold groups in Hrc.
    destruct (top_rules_elem w rc Hrc) as (_ & <- & _).
    destruct (decide (rc_RuleID rc ∈ rc_RuleID <$> take 10 (order_by (fun a b => rc_Count b <=? rc_Count a)%Z groups)))
      as [|Hout]; [by left|right].
    apply (top_n_maximal rc_Count 10 groups); [done|].
    intros Hin. apply Hout. by apply list_elem_of_fmap_2.
Qed.

(** A failure while rows are read goes unnoticed by [StatsOf]. *)
Theorem stats_drops_rows_error `{SqlEngine} (since : Z) (s : StoreState) (e : error) :
  st_faults s = [None; Some (FailAfter 0 e); Some (FailAfter 0 e); Some (FailAfter 0 e)] ->
  exists st, (StatsOf since s).1 = Ok st /\
    ss_TopRules st = [] /\ ss_TopClients st = [] /\ ss_Timeline st = [] /\
    ss_TotalEvents st = count (window (stats_from since s) (st_db s)).
Proof.
  intros Hf. unfold StatsOf, bind_ok, bind, sql_query_row, sql_query, bind, next_fault, fault_of, pop_fault, gets, ret.
  simpl. rewrite Hf. simpl. eexists. split; [done|]. done.
Qed.
