(* ===== verification/Auth.v ===== *)
(** * Administrator account and sessions ([internal/auth])

    One administrator whose bcrypt hash is a setting of the store, and
    stateless session cookies signed with HMAC-SHA256. bcrypt is a parameter
    ([Bcrypt]) with the two facts its documentation states. *)

From S2P Require Export Store GoCodec GoCrypto GoHttp.
From Stdlib Require Import Ascii.

(** golang.org/x/crypto/bcrypt: [GenerateFromPassword] with the outcome of
    drawing its salt, and [CompareHashAndPassword] ([true] for a nil error). It
    fails exactly for passwords over 72 bytes and when the salt cannot be drawn. *)
Class Bcrypt := {
  bcrypt_generate : res string -> string -> res string;
  bcrypt_compare : string -> string -> bool;
  bcrypt_correct : forall salt pw h, bcrypt_generate salt pw = Ok h -> bcrypt_compare h pw = true;
  bcrypt_limit : forall salt pw,
    is_ok (bcrypt_generate salt pw) = true <-> is_ok salt = true /\ (String.length pw <= 72)%nat
}.

Section auth.
Context `{Bcrypt}.

(** ** Constants (auth.go:25) *)

Definition cookieName : string := "wafportal_session".
Definition sessionDuration : Z := 7 * 24 * time_hour.
Definition keyUsername : string := "admin_username".
Definition keyHash : string := "admin_password_hash".
Definition keySecret : string := "session_secret".
Definition ErrInvalidCredentials : error := "invalid username or password".
Definition err_short_password : error := "new password must be at least 8 characters".

(** The store an [Authenticator] points to is the state. *)
Record Authenticator := mkAuth { secret : string; GeneratedPassword : string }.

(** ** Account *)

Definition Username : M StoreState string :=
  (let! v := GetSetting keyUsername in ret v.1.1)%go.

Definition Check (username password : string) : M StoreState bool :=
  (let! storedUser := GetSetting keyUsername in
   let! hash := GetSetting keyHash in
   if hash.1.2 then
     ret (bool_decide (username = storedUser.1.1) && bcrypt_compare hash.1.1 password)
   else ret false)%go.

Definition setPassword (password : string) : M StoreState (option error) :=
  (let! salt := rand_read 16 in
   match bcrypt_generate salt password with
   | Err e => ret (Some e)
   | Ok hash => SetSetting keyHash hash
   end)%go.

Definition ChangePassword (current next : string) : M StoreState (option error) :=
  (let! user := Username in
   let! ok := Check user current in
   if negb ok then ret (Some ErrInvalidCredentials)
   else if (String.length next <? 8)%nat then ret (Some err_short_password)
   else setPassword next)%go.

(** ** Secrets *)

Definition loadOrCreateSecret : M StoreState (res string) :=
  (let! v := GetSetting keySecret in
   match v with
   | (_, _, Some e) => ret (Err e)
   | (v, ok, None) =>
       if ok && negb (bool_decide (v = "")) then ret (hex_decode v)
       else
         let! buf := rand_read 32 in
         match buf with
         | Err e => ret (Err ("generate session secret: " +:+ e))
         | Ok buf =>
             let! err := SetSetting keySecret (hex_encode buf) in
             ret match err with Some e => Err e | None => Ok buf end
         end
   end)%go.

Definition randomPassword : M StoreState (res string) :=
  (let? buf := rand_read 12 in ret (Ok (b64_encode buf)))%go.

(** ** [New] *)

(** The user name to store: the configured one, else the stored one, else
    "admin". *)
Definition resolve_username (bootstrapUser : string) : M StoreState string :=
  (let username := trim_space bootstrapUser in
   if decide (username = "") then
     let! v := GetSetting keyUsername in
     ret (if v.1.2 && negb (bool_decide (v.1.1 = "")) then v.1.1 else "admin")
   else ret username)%go.

(** The switch at the end of [New]: a configured password wins, else a missing
    one is generated. *)
Definition ensure_password (bootstrapPassword : string) (hasHash : bool) (sec : string)
    : M StoreState (res Authenticator) :=
  (if negb (bool_decide (bootstrapPassword = "")) then
     let! err := setPassword bootstrapPassword in
     ret match err with Some e => Err e | None => Ok (mkAuth sec "") end
   else if negb hasHash then
     let? pw := randomPassword in
     let! err := setPassword pw in
     ret match err with Some e => Err e | None => Ok (mkAuth sec pw) end
   else ret (Ok (mkAuth sec "")))%go.

Definition New (bootstrapUser bootstrapPassword : string) : M StoreState (res Authenticator) :=
  (let? sec := loadOrCreateSecret in
   let! username := resolve_username bootstrapUser in
   let! err := SetSetting keyUsername username in
   match err with
   | Some e => ret (Err e)
   | None =>
       let! h := GetSetting keyHash in
       match h with
       | (_, _, Some e) => ret (Err e)
       | (_, hasHash, None) => ensure_password bootstrapPassword hasHash sec
       end
   end)%go.

(** ** Sessions *)

Definition sign (a : Authenticator) (payload : string) : string :=
  hex_encode_bytes (hmac_sha256 (bytes_of (secret a)) (bytes_of payload)).

Definition session_payload (username : string) (exp : time) : string :=
  username +:+ "|" +:+ format_int (unix exp).

Definition session_token (a : Authenticator) (username : string) (exp : time) : string :=
  let payload := session_payload username exp in
  b64_encode payload +:+ "." +:+ sign a payload.

Definition IssueCookie (a : Authenticator) (r : Request) (username : string) : M StoreState (list wop) :=
  (let! now := time_now in
   let exp := (now + sessionDuration)%Z in
   ret [SetCookie (mkCookie cookieName (session_token a username exp) "/" (Some exp) 0
                     true (rq_tls r) true)])%go.

Definition Clear : list wop :=
  [SetCookie (mkCookie cookieName "" "/" None (-1) true false true)].

(** The checks of [verify] that do not look at the clock: the user name and
    the expiry of a correctly signed token. *)
Definition check_token (a : Authenticator) (value : string) : option (string * Z) :=
  '(encoded, sig) ← cut "."%char value;
  payload ← b64_decode encoded;
  if bool_decide (sig = sign a payload) then
    '(username, expStr) ← cut "|"%char payload;
    match parse_int expStr with
    | (exp, None) => Some (username, exp)
    | _ => None
    end
  else None.

(** [None] stands for the pair (empty string, false). *)
Definition verify (a : Authenticator) (r : Request) : M StoreState (option string) :=
  match cookie_get r cookieName with
  | None => ret None
  | Some value =>
      match check_token a value with
      | None => ret None
      | Some (username, exp) =>
          (let! now := time_now in
           ret (if (exp <? unix now)%Z then None else Some username))%go
      end
  end.

Definition CurrentUser (a : Authenticator) (r : Request) : M StoreState (option string) := verify a r.

(** ** Middleware, over any state that holds the store *)

Definition unauthorized : list wop :=
  let quote s := String (of_byte 34) s +:+ String (of_byte 34) "" in
  [SetHeader "Content-Type" "application/json"; WriteHeader 401;
   Write (Raw ("{" +:+ quote "error" +:+ ":" +:+ quote "authentication required" +:+ "}"))].

Definition Middleware {W} `{HasStore W} (a : Authenticator) (next : Request -> M W (list wop))
    (r : Request) : M W (list wop) :=
  (let! user := on_store (verify a r) in
   match user with
   | None => ret unauthorized
   | Some _ => next r
   end)%go.
End auth.
