(* ===== verification/AuthSpec.v ===== *)
(** * What the account and the sessions promise

    Sessions: who is accepted and for how long. Account: what each way of
    setting the password leaves in the store, whatever statement fails, and
    what [New] establishes at start-up. *)

From S2P Require Export Auth StoreSpec.
From Stdlib Require Import Ascii.

(** ** Settings *)

Definition setting (k : string) (s : StoreState) : option string := db_settings (st_db s) !! k.

(** The triple [GetSetting] returns for a lookup. *)
Definition setting_result (v : option string) : string * bool * option error :=
  match v with Some v => (v, true, None) | None => ("", false, None) end.

Definition put_setting (k v : string) (d : DB) : DB := on_settings d (<[k := v]> (db_settings d)).

Lemma get_setting_run k s :
  fault_of s = None -> GetSetting k s = (setting_result (setting k s), pop_fault s).
Proof.
  intros Hf. unfold GetSetting, bind, ret. rewrite sql_query_row_ok by done. cbn [fst snd].
  unfold setting. by destruct (db_settings (st_db s) !! k).
Qed.

(** Reading a setting never changes the database, and a value that is reported
    to exist is the stored one. *)
Lemma get_setting_inv k s :
  st_db (GetSetting k s).2 = st_db s /\
  ((GetSetting k s).1.1.2 = true -> setting k s = Some (GetSetting k s).1.1.1).
Proof.
  unfold GetSetting, bind, ret, sql_query_row, next_fault, gets, bind, ret. simpl. unfold setting.
  destruct (fault_of s) as [[]|]; simpl; [done..|].
  by destruct (db_settings (st_db s) !! k).
Qed.

(** A setting reported as absent, without an error, is absent. *)
Lemma get_setting_absent k s :
  (GetSetting k s).1.2 = None -> (GetSetting k s).1.1.2 = false -> setting k s = None.
Proof.
  unfold GetSetting, bind, ret, sql_query_row, next_fault, gets, bind, ret. simpl. unfold setting.
  destruct (fault_of s) as [[]|]; simpl; [done..|]. by destruct (db_settings (st_db s) !! k).
Qed.

Lemma set_setting_run k v s :
  fault_of s = None -> SetSetting k v s = (None, with_db (put_setting k v (st_db s)) (pop_fault s)).
Proof. intros Hf. unfold SetSetting, bind, ret. by rewrite sql_exec_ok. Qed.

Lemma set_setting_inv k v s :
  st_db (SetSetting k v s).2 =
  match (SetSetting k v s).1 with None => put_setting k v (st_db s) | Some _ => st_db s end.
Proof.
  unfold SetSetting, bind, ret. destruct (sql_exec _ _) as [r s'] eqn:E.
  by apply sql_exec_db in E as [(e & -> & E)|(a & d & -> & [= _ <-] & E)].
Qed.

Lemma no_faults_with_db d s : no_faults (with_db d s) <-> no_faults s.
Proof. done. Qed.
Lemma no_faults_rand n s : no_faults s -> no_faults (rand_read n s).2.
Proof. done. Qed.
#[export] Hint Resolve no_faults_rand : store.

(** ** Sessions *)

Lemma cut_dot_token a payload :
  cut "."%char (b64_encode payload +:+ "." +:+ sign a payload) = Some (b64_encode payload, sign a payload).
Proof. apply cut_app, b64_encode_no_dot. Qed.

Lemma cut_payload u exp :
  char_in "|"%char u = false ->
  cut "|"%char (session_payload u exp) = Some (u, format_int (unix exp)).
Proof. intros Hu. by apply cut_app. Qed.

Lemma cut_payload_bad u exp :
  char_in "|"%char u = true ->
  exists x y, cut "|"%char (session_payload u exp) = Some (x, y) /\ is_Some (parse_int y).2.
Proof.
  intros Hu. destruct (cut "|"%char u) as [[x z]|] eqn:E;
    [|apply cut_None in E; congruence].
  apply cut_Some in E as [-> Hx]. exists x, (z +:+ "|" +:+ format_int (unix exp)). split.
  - unfold session_payload. rewrite <- string_app_assoc, string_app_cons. by apply cut_app.
  - apply (parse_int_bad "|"%char); try done. rewrite !char_in_app. simpl. by destruct (char_in _ z).
Qed.

(** The token [IssueCookie] signs, seen by [check_token]. *)
Lemma check_session_token a u exp :
  in_int64 (unix exp) ->
  check_token a (session_token a u exp) =
  if char_in "|"%char u then None else Some (u, unix exp).
Proof.
  intros Hexp. unfold check_token, session_token. cbv zeta. rewrite cut_dot_token. simpl.
  rewrite b64_decode_encode. simpl. rewrite bool_decide_true by done.
  destruct (char_in "|"%char u) eqn:Hu.
  - destruct (cut_payload_bad u exp Hu) as (x & y & -> & [e He]). simpl.
    destruct (parse_int y) as [z o]. simpl in He. by subst o.
  - rewrite cut_payload by done. simpl. by rewrite parse_format_int.
Qed.

(** Everything [check_token] accepts is signed with the secret. *)
Lemma check_token_sound a value u exp :
  check_token a value = Some (u, exp) ->
  exists encoded expStr,
    value = encoded +:+ "." +:+ sign a (u +:+ "|" +:+ expStr) /\
    b64_decode encoded = Some (u +:+ "|" +:+ expStr) /\
    parse_int expStr = (exp, None) /\ char_in "|"%char u = false.
Proof.
  unfold check_token. destruct (cut "."%char value) as [[encoded sig]|] eqn:Ec; [|done]. simpl.
  apply cut_Some in Ec as [-> _]. destruct (b64_decode encoded) as [payload|] eqn:Ed; [|done]. simpl.
  case_bool_decide as Hs; [|done]. subst sig.
  destruct (cut "|"%char payload) as [[x y]|] eqn:Ep; [|done]. simpl.
  apply cut_Some in Ep as [-> Hx]. destruct (parse_int y) as [z [e|]] eqn:Ez; [done|].
  intros [= -> ->]. by exists encoded, y.
Qed.

Lemma verify_run a r s value :
  cookie_get r cookieName = Some value ->
  (verify a r s).1 = match check_token a value with
                     | Some (u, exp) => if (exp <? unix (now_of s))%Z then None else Some u
                     | None => None
                     end.
Proof. intros Hc. unfold verify. rewrite Hc. by destruct (check_token a value) as [[u exp]|]. Qed.

(** Checking a session does not touch the database. *)
Lemma verify_db a r s : st_db (verify a r s).2 = st_db s.
Proof. unfold verify. destruct (cookie_get _ _); [|done]. by destruct (check_token _ _) as [[]|]. Qed.

(** C23: The cookie issued at sign-in is accepted, for the same user, exactly until its expiry seven
    days later, if the user name contains no vertical bar; for a name with one it is never accepted.
    It is HttpOnly and SameSite strict, and Secure when the sign-in came over TLS. *)
Theorem session_lifetime (a : Authenticator) (login later : Request) (u : string) (s0 s : StoreState) (c : Cookie) :
  (IssueCookie a login u s0).1 = [SetCookie c] ->
  cookie_get later cookieName = Some (ck_value c) ->
  in_int64 (unix (now_of s0 + sessionDuration)%Z) ->
  (verify a later s).1 =
    (if char_in "|"%char u then None
     else if (unix (now_of s) <=? unix (now_of s0 + sessionDuration)%Z)%Z then Some u else None) /\
  ck_name c = cookieName /\ ck_http_only c = true /\ ck_same_site_strict c = true /\
  ck_secure c = rq_tls login.
Proof.
  intros Hi Hc Hexp. injection Hi as <-. cbn [ck_value ck_name ck_http_only ck_same_site_strict ck_secure] in *.
  split; [|done]. rewrite (verify_run _ _ _ _ Hc). cbn [time_now fst snd] in *.
  rewrite check_session_token by done. destruct (char_in "|"%char u); [done|].
  rewrite Z.ltb_antisym. by destruct (_ <=? _)%Z.
Qed.

(** C24: verify accepts only a cookie whose payload, decoded from base64, carries this server's
    HMAC-SHA256 signature, names the accepted user and an expiry that has not passed. *)
Theorem verify_sound (a : Authenticator) (r : Request) (s : StoreState) (u : string) :
  (verify a r s).1 = Some u ->
  exists encoded expStr exp,
    cookie_get r cookieName = Some (encoded +:+ "." +:+ sign a (u +:+ "|" +:+ expStr)) /\
    b64_decode encoded = Some (u +:+ "|" +:+ expStr) /\
    parse_int expStr = (exp, None) /\ (unix (now_of s) <= exp)%Z /\ char_in "|"%char u = false.
Proof.
  destruct (cookie_get r cookieName) as [value|] eqn:Hc; [|by unfold verify; rewrite Hc].
  rewrite (verify_run _ _ _ _ Hc). destruct (check_token a value) as [[x exp]|] eqn:E; [|done].
  case_match eqn:Hlt; [done|]. intros [= ->]. zbool.
  apply check_token_sound in E as (encoded & expStr & -> & ? & ? & ?). by exists encoded, expStr, exp.
Qed.

(** ** The account *)

Section account.
Context `{Bcrypt}.

(** [Check] answers from the stored user name and hash. *)
Definition accepts (s : StoreState) (u p : string) : bool :=
  match setting keyHash s with
  | Some h => bool_decide (u = default "" (setting keyUsername s)) && bcrypt_compare h p
  | None => false
  end.

Lemma check_run u p s :
  no_faults s -> Check u p s = (accepts s u p, pop_fault (pop_fault s)).
Proof.
  intros Hs. unfold Check, bind, ret. rewrite (get_setting_run keyUsername) by eauto with store. cbn [fst snd].
  rewrite get_setting_run by eauto with store. cbn [fst snd].
  change (setting keyHash (pop_fault s)) with (setting keyHash s). unfold accepts, setting_result.
  by destruct (setting keyHash s), (setting keyUsername s).
Qed.

(** Whatever fails, a positive answer means the password matched the stored
    hash, and nothing was written. *)
Lemma check_inv u p s :
  st_db (Check u p s).2 = st_db s /\
  ((Check u p s).1 = true -> exists h, setting keyHash s = Some h /\ bcrypt_compare h p = true).
Proof.
  unfold Check, bind, ret. destruct (get_setting_inv keyUsername s) as [E1 _].
  set (s1 := (GetSetting keyUsername s).2) in *. destruct (get_setting_inv keyHash s1) as [E2 Hh].
  destruct (GetSetting keyHash s1) as [[[h ok] e] s2]. simpl in *.
  destruct ok; simpl; (split; [congruence|]); [|done].
  intros [_ Hc]%andb_true_iff. exists h. split; [|done]. by apply Hh.
Qed.

Lemma set_password_inv p s :
  match (setPassword p s).1 with
  | None => exists h, st_db (setPassword p s).2 = put_setting keyHash h (st_db s) /\
              bcrypt_compare h p = true /\ (String.length p <= 72)%nat
  | Some _ => st_db (setPassword p s).2 = st_db s
  end.
Proof.
  unfold setPassword, bind, ret, rand_read. simpl.
  destruct (bcrypt_generate (rand_of 16 s) p) as [h|e] eqn:Eg; [|done].
  set (s1 := mkStoreState _ _ _ _ _). pose proof (set_setting_inv keyHash h s1) as Hi.
  destruct ((SetSetting keyHash h s1).1); [done|]. exists h.
  split; [done|]. split; [by eapply bcrypt_correct|]. apply (bcrypt_limit (rand_of 16 s)). by rewrite Eg.
Qed.

(** Setting a password succeeds exactly when it fits bcrypt's limit. *)
Lemma set_password_run p s :
  no_faults s -> is_ok (rand_of 16 s) = true ->
  let q := setPassword p s in
  no_faults q.2 /\
  if decide (String.length p <= 72)%nat
  then q.1 = None /\ exists h, st_db q.2 = put_setting keyHash h (st_db s) /\ bcrypt_compare h p = true
  else (exists e, bcrypt_generate (rand_of 16 s) p = Err e /\ q.1 = Some e) /\ st_db q.2 = st_db s.
Proof.
  intros Hs Hr. cbv zeta. unfold setPassword, bind, ret, rand_read. simpl.
  pose proof (bcrypt_limit (rand_of 16 s) p) as Hl.
  destruct (bcrypt_generate (rand_of 16 s) p) as [h|e] eqn:Eg; simpl in Hl.
  - rewrite set_setting_run by (unfold no_faults in Hs; by apply no_faults_fault_of).
    split; [by apply (no_faults_pop s)|]. rewrite decide_True by (by apply Hl).
    split; [done|]. exists h. split; [done|]. by eapply bcrypt_correct.
  - split; [done|]. rewrite decide_False; [split; [by exists e|done]|].
    intros Hp. discriminate (proj2 Hl (conj Hr Hp)).
Qed.

(** A password change writes at most the hash, and only after the checks. *)
Lemma change_password_inv (current next : string) (s : StoreState) :
  let p := ChangePassword current next s in
  match p.1 with
  | Some _ => st_db p.2 = st_db s
  | None => exists old new,
      setting keyHash s = Some old /\ bcrypt_compare old current = true /\
      bcrypt_compare new next = true /\ (8 <= String.length next <= 72)%nat /\
      st_db p.2 = put_setting keyHash new (st_db s)
  end.
Proof.
  cbv zeta. unfold ChangePassword, Username, bind, ret. cbn [fst snd].
  destruct (get_setting_inv keyUsername s) as [E1 _].
  destruct (GetSetting keyUsername s) as [[[u ok0] e0] s1]. cbn [fst snd] in *.
  destruct (check_inv u current s1) as [E2 Hok]. destruct (Check u current s1) as [ok s2].
  cbn [fst snd] in *. destruct ok; cbn [negb]; [|simpl; congruence].
  destruct (String.length next <? 8)%nat eqn:Hlen; [simpl; congruence|].
  apply Nat.ltb_ge in Hlen. destruct (Hok eq_refl) as (old & Hold & Hcmp).
  pose proof (set_password_inv next s2) as Hp. destruct ((setPassword next s2).1); [congruence|].
  destruct Hp as (new & Hdb & Hnew & Hmax). exists old, new.
  unfold setting in *. rewrite Hdb, E2, E1. rewrite E1 in Hold. by repeat (split; [done|]).
Qed.

Lemma change_password_db current next s :
  st_db (ChangePassword current next s).2 = st_db s \/
  exists h, st_db (ChangePassword current next s).2 = put_setting keyHash h (st_db s).
Proof.
  pose proof (change_password_inv current next s) as H'. cbv zeta in H'.
  destruct ((ChangePassword current next s).1); [by left|]. destruct H' as (old & new & _ & _ & _ & _ & E). eauto.
Qed.

(** Whatever statement fails, ChangePassword either reports an error and leaves the database
    untouched, or the current password matched the stored hash, the new one has 8 to 72 bytes, and
    only the hash was replaced, by one the new password matches. *)
Theorem change_password_safe (current next : string) (s : StoreState) :
  let p := ChangePassword current next s in
  match p.1 with
  | Some _ => st_db p.2 = st_db s
  | None => exists old new,
      setting keyHash s = Some old /\ bcrypt_compare old current = true /\
      bcrypt_compare new next = true /\ (8 <= String.length next <= 72)%nat /\
      st_db p.2 = put_setting keyHash new (st_db s)
  end.
Proof. apply change_password_inv. Qed.

Lemma accepts_put h s d u p :
  st_db d = put_setting keyHash h (st_db s) ->
  accepts d u p = bool_decide (u = default "" (setting keyUsername s)) && bcrypt_compare h p.
Proof.
  intros Hd. unfold accepts, setting. rewrite Hd. simpl. rewrite lookup_insert_eq.
  rewrite lookup_insert_ne by done. done.
Qed.

(** C26: With a working database and random source ChangePassword answers wrong current passwords
    with ErrInvalidCredentials, then too short ones with their message, then ones over 72 bytes with
    bcrypt's error, and otherwise succeeds, after which the new password signs in and the user name
    is unchanged. *)
Theorem change_password_exact (current next : string) (s : StoreState) :
  no_faults s -> is_ok (rand_of 16 s) = true ->
  let user := default "" (setting keyUsername s) in
  let p := ChangePassword current next s in
  if negb (accepts s user current) then p.1 = Some ErrInvalidCredentials
  else if decide (String.length next < 8)%nat then p.1 = Some err_short_password
  else if decide (72 < String.length next)%nat
  then exists e, bcrypt_generate (rand_of 16 s) next = Err e /\ p.1 = Some e
  else p.1 = None /\ accepts p.2 user next = true /\ setting keyUsername p.2 = setting keyUsername s.
Proof.
  intros Hs Hr. cbv zeta. unfold ChangePassword, Username, bind, ret.
  rewrite (get_setting_run keyUsername) by eauto with store. cbn [fst snd].
  assert ((setting_result (setting keyUsername s)).1.1 = default "" (setting keyUsername s)) as ->
    by (by destruct (setting keyUsername s)).
  rewrite check_run by eauto with store. cbn [fst snd].
  change (accepts (pop_fault s)) with (accepts s).
  destruct (accepts s _ current); cbn [negb fst snd]; [|done].
  destruct (decide _) as [Hl|Hl]; [by rewrite (proj2 (Nat.ltb_lt _ _) Hl)|].
  rewrite (proj2 (Nat.ltb_ge _ _)) by lia. set (s3 := pop_fault _).
  destruct (set_password_run next s3) as [_ Hp]; [unfold s3; eauto 6 with store|done|].
  destruct (decide (72 < _)%nat); [rewrite decide_False in Hp by lia; tauto|].
  rewrite decide_True in Hp by lia. destruct Hp as [Hn (h & Hdb & Hcmp)]. split; [done|].
  rewrite (accepts_put h s) by done. split.
  - by rewrite bool_decide_true, Hcmp.
  - unfold setting. rewrite Hdb. simpl. by rewrite lookup_insert_ne.
Qed.
End account.

(** ** Start-up *)

(** Only the listed settings differ. *)
Definition same_but (ks : list string) (s s' : StoreState) : Prop :=
  db_sites (st_db s') = db_sites (st_db s) /\ db_rules (st_db s') = db_rules (st_db s) /\
  db_events (st_db s') = db_events (st_db s) /\ forall k, k ∉ ks -> setting k s' = setting k s.

Lemma same_but_refl ks s s' : st_db s' = st_db s -> same_but ks s s'.
Proof. intros E. unfold same_but, setting. by rewrite E. Qed.

Lemma same_but_put ks k v s s' : k ∈ ks -> st_db s' = put_setting k v (st_db s) -> same_but ks s s'.
Proof.
  intros Hk E. unfold same_but, setting. rewrite E. do 3 (split; [done|]). intros j Hj. simpl.
  rewrite lookup_insert_ne; [done|]. by intros ->.
Qed.

Lemma same_but_trans ks s1 s2 s3 : same_but ks s1 s2 -> same_but ks s2 s3 -> same_but ks s1 s3.
Proof.
  intros (A1 & A2 & A3 & A4) (B1 & B2 & B3 & B4).
  split; [congruence|]. split; [congruence|]. split; [congruence|].
  intros k Hk. rewrite B4 by done. auto.
Qed.

Lemma same_but_weaken ks ks' s s' : ks ⊆ ks' -> same_but ks s s' -> same_but ks' s s'.
Proof. intros Hks (? & ? & ? & Hk). repeat (split; [done|]). intros k ?. apply Hk. set_solver. Qed.

(** The secret a state stores. *)
Definition stored_secret (s : StoreState) (sec : string) : Prop :=
  exists v, setting keySecret s = Some v /\ v <> "" /\ hex_decode v = Ok sec.

Lemma stored_secret_unique s x y : stored_secret s x -> stored_secret s y -> x = y.
Proof. intros (v & H1 & _ & H2) (v' & H1' & _ & H2'). congruence. Qed.

Lemma hex_encode_nonempty n bs : (0 < n)%nat -> hex_encode (fill n bs) <> "".
Proof.
  intros Hn E. apply (f_equal String.length) in E. rewrite hex_encode_length, fill_length in E. simpl in E. lia.
Qed.

Lemma rand_of_Ok n s bs : rand_of n s = Ok bs -> exists b, bs = fill n b.
Proof.
  unfold rand_of. destruct (head (st_entropy s)) as [[b|e]|]; intros [= <-]; eauto.
Qed.

(** Whatever fails, a secret that is returned is the stored one, and only that
    setting may have changed. *)
Lemma load_secret_inv s :
  let p := loadOrCreateSecret s in
  same_but [keySecret] s p.2 /\
  (forall sec, p.1 = Ok sec -> stored_secret p.2 sec) /\
  (forall sec, p.1 = Ok sec -> forall x, stored_secret s x -> x = sec).
Proof.
  cbv zeta. unfold loadOrCreateSecret, bind, ret. cbn [fst snd].
  pose proof (get_setting_inv keySecret s) as [Hdb Hv].
  pose proof (get_setting_absent keySecret s) as Hnone.
  destruct (GetSetting keySecret s) as [[[v ok] err] s1]. cbn [fst snd] in *.
  destruct err as [e|]; [split; [by apply same_but_refl|done]|].
  destruct (ok && negb (bool_decide (v = ""))) eqn:Hload; cbn [fst snd].
  - apply andb_true_iff in Hload as [-> Hne]. apply negb_true_iff, bool_decide_eq_false in Hne.
    split; [by apply same_but_refl|]. specialize (Hv eq_refl). split.
    + intros sec Hsec. exists v. unfold setting in *. by rewrite Hdb.
    + intros sec Hsec x Hx. eapply stored_secret_unique; [done|]. by exists v.
  - assert (forall x, ~ stored_secret s x) as Hno.
    { intros x (w & Hw & Hwne & _). destruct ok; [|rewrite Hnone in Hw by done; done].
      rewrite Hv in Hw by done. simplify_eq. by rewrite bool_decide_false in Hload. }
    unfold rand_read. cbn [fst snd]. destruct (rand_of 32 s1) as [buf|e] eqn:Hr; cbn [fst snd];
      [|split; [by apply same_but_refl|done]].
    apply rand_of_Ok in Hr as [b ->]. set (s2 := mkStoreState _ _ _ _ _).
    pose proof (set_setting_inv keySecret (hex_encode (fill 32 b)) s2) as Hset.
    change (st_db s2) with (st_db s1) in Hset. rewrite Hdb in Hset.
    destruct ((SetSetting keySecret (hex_encode (fill 32 b)) s2).1); cbn [fst snd].
    + split; [by apply same_but_refl|done].
    + split; [|split].
      * eapply same_but_put; [|done]. apply list_elem_of_here.
      * intros sec [= <-]. exists (hex_encode (fill 32 b)). unfold setting. rewrite Hset. simpl.
        rewrite lookup_insert_eq. split; [done|]. split; [apply hex_encode_nonempty; lia|].
        apply hex_decode_encode.
      * intros sec _ x Hx. by destruct (Hno x).
Qed.

Lemma stored_secret_frame ks s s' sec :
  same_but ks s s' -> keySecret ∉ ks -> stored_secret s sec -> stored_secret s' sec.
Proof. intros (_ & _ & _ & Hk) Hn (v & Hv & ?). exists v. by rewrite Hk. Qed.

Lemma resolve_username_db u s : st_db (resolve_username u s).2 = st_db s.
Proof.
  unfold resolve_username. case_decide; [|done]. unfold bind, ret. cbn [fst snd].
  apply (get_setting_inv keyUsername s).
Qed.

Section startup.
Context `{Bcrypt}.

Lemma set_password_frame p s : same_but [keyHash] s (setPassword p s).2.
Proof.
  pose proof (set_password_inv p s) as Hp. destruct ((setPassword p s).1).
  - by apply same_but_refl.
  - destruct Hp as (h & Hdb & _). eapply same_but_put; [|done]. apply list_elem_of_here.
Qed.

(** Whatever fails, [ensure_password] touches only the hash and keeps the
    secret it is given. *)
Lemma ensure_password_inv p has sec s :
  let q := ensure_password p has sec s in
  same_but [keyHash] s q.2 /\ (forall a, q.1 = Ok a -> secret a = sec).
Proof.
  cbv zeta. unfold ensure_password. case_match; [|case_match].
  - unfold bind, ret. cbn [fst snd]. split; [apply set_password_frame|].
    intros a. case_match; [done|]. by intros [= <-].
  - unfold randomPassword, rand_read, bind_ok, bind, ret. cbn [fst snd].
    destruct (rand_of 12 s) as [b|e]; cbn [fst snd]; [|split; [by apply same_but_refl|done]].
    split; [|intros a; case_match; [done|]; by intros [= <-]].
    eapply same_but_trans; [|apply set_password_frame]. by apply same_but_refl.
  - split; [by apply same_but_refl|]. by intros a [= <-].
Qed.

(** Whatever fails, a successful [New] hands out the stored secret, and the
    one stored before if there was one. *)
Lemma new_inv u p s a :
  (New u p s).1 = Ok a ->
  stored_secret (New u p s).2 (secret a) /\ (forall x, stored_secret s x -> x = secret a).
Proof.
  unfold New, bind_ok, bind, ret. pose proof (load_secret_inv s) as (Hf & Hs & Hold).
  destruct (loadOrCreateSecret s) as [[sec|e] s1]; cbn [fst snd] in *; [|done].
  specialize (Hs _ eq_refl). specialize (Hold _ eq_refl).
  pose proof (resolve_username_db u s1) as Hdb2.
  destruct (resolve_username u s1) as [name s2]. cbn [fst snd] in *.
  pose proof (set_setting_inv keyUsername name s2) as Hset.
  destruct (SetSetting keyUsername name s2) as [[e|] s3]; cbn [fst snd] in *; [done|].
  pose proof (get_setting_inv keyHash s3) as [Hdb4 _].
  destruct (GetSetting keyHash s3) as [[[h has] [e|]] s4]; cbn [fst snd] in *; [done|].
  destruct (ensure_password_inv p has sec s4) as [Hf5 Ha]. intros Hok.
  rewrite (Ha _ Hok). split; [|done].
  eapply stored_secret_frame; [exact Hf5|set_solver|].
  eapply (stored_secret_frame [keyUsername]); [|set_solver|exact Hs].
  eapply same_but_put; [apply list_elem_of_here|]. by rewrite Hdb4, Hset, Hdb2.
Qed.

(** A successful [New] only writes its three settings. *)
Lemma new_frame u p s a :
  (New u p s).1 = Ok a -> same_but [keySecret; keyUsername; keyHash] s (New u p s).2.
Proof.
  unfold New, bind_ok, bind, ret. pose proof (load_secret_inv s) as (Hf & _ & _).
  destruct (loadOrCreateSecret s) as [[sec|e] s1]; cbn [fst snd] in *; [|done].
  pose proof (resolve_username_db u s1) as Hdb2.
  destruct (resolve_username u s1) as [name s2]. cbn [fst snd] in *.
  pose proof (set_setting_inv keyUsername name s2) as Hset.
  destruct (SetSetting keyUsername name s2) as [[e|] s3]; cbn [fst snd] in *; [done|].
  pose proof (get_setting_inv keyHash s3) as [Hdb4 _].
  destruct (GetSetting keyHash s3) as [[[h has] [e|]] s4]; cbn [fst snd] in *; [done|].
  destruct (ensure_password_inv p has sec s4) as [Hf5 _]. intros _.
  eapply same_but_trans; [eapply same_but_weaken; [|exact Hf]; set_solver|].
  eapply same_but_trans; [|eapply same_but_weaken; [|exact Hf5]; set_solver].
  apply (same_but_weaken [keyUsername]); [set_solver|].
  eapply same_but_put; [apply list_elem_of_here|]. by rewrite Hdb4, Hset, Hdb2.
Qed.

(** *** Start-up when nothing fails *)

Definition steady (s : StoreState) : Prop :=
  no_faults s /\ Forall (fun r => is_ok r = true) (st_entropy s).

Lemma steady_pop s : steady s -> steady (pop_fault s).
Proof. intros [? ?]. split; [by apply no_faults_pop|done]. Qed.
Lemma steady_with_db d s : steady s -> steady (with_db d s).
Proof. done. Qed.
Lemma steady_fault s : steady s -> fault_of s = None.
Proof. intros [? _]. by apply no_faults_fault_of. Qed.
Lemma steady_rand n s : steady s -> is_ok (rand_of n s) = true /\ steady (rand_read n s).2.
Proof.
  intros [Hf He]. unfold steady, rand_read, rand_of, no_faults in *. simpl.
  destruct (st_entropy s) as [|[b|e] l]; simpl; [done|..]; apply Forall_cons in He as [Hb He]; done.
Qed.
Local Hint Resolve steady_pop steady_with_db steady_fault : store.

Lemma set_password_steady p s :
  steady s -> (String.length p <= 72)%nat ->
  let q := setPassword p s in
  q.1 = None /\ steady q.2 /\
  exists h, st_db q.2 = put_setting keyHash h (st_db s) /\ bcrypt_compare h p = true.
Proof.
  intros Hs Hp. cbv zeta. pose proof (steady_rand 16 s Hs) as [Hr Hs'].
  destruct (set_password_run p s) as [_ Hq]; [apply Hs|done|].
  rewrite decide_True in Hq by done. destruct Hq as [Hn Hh]. split; [done|]. split; [|done].
  revert Hn. unfold setPassword, bind, ret. destruct (rand_read 16 s) as [salt s1] eqn:E; cbn [fst snd] in *.
  destruct (bcrypt_generate salt p); [|done]. rewrite set_setting_run by eauto with store. intros _.
  eauto with store.
Qed.

(** A stored secret that [New] can decode, or none. *)
Definition secret_readable (s : StoreState) : Prop :=
  match setting keySecret s with
  | None => True
  | Some v => v = "" \/ is_ok (hex_decode v) = true
  end.

Lemma load_secret_steady s :
  steady s -> secret_readable s ->
  is_ok (loadOrCreateSecret s).1 = true /\ steady (loadOrCreateSecret s).2.
Proof.
  intros Hs Hread. unfold loadOrCreateSecret, bind, ret. rewrite get_setting_run by eauto with store.
  cbn [fst snd]. unfold secret_readable, setting_result in *.
  assert (forall buf t, steady t -> let q := SetSetting keySecret (hex_encode buf) t in
    is_ok (match q.1 with Some e => Err e | None => Ok buf end) = true /\ steady q.2) as Hset.
  { intros buf t Ht. cbv zeta. rewrite set_setting_run by eauto with store. split; [done|].
    eauto with store. }
  destruct (steady_rand 32 (pop_fault s)) as [Hr Hs2]; [eauto with store|].
  destruct (setting keySecret s) as [v|]; [case_bool_decide as Hv|]; cbn [andb negb fst snd].
  2: { destruct Hread as [?|Hread]; [done|]. split; [done|]. eauto with store. }
  all: destruct (rand_read 32 (pop_fault s)) as [[buf|e] s2] eqn:E;
    [by apply Hset|injection E as E _; by rewrite E in Hr].
Qed.

(** The user name [New] stores. *)
Definition resolved (u : string) (s : StoreState) : string :=
  if decide (trim_space u = "") then
    match setting keyUsername s with
    | Some v => if decide (v = "") then "admin" else v
    | None => "admin"
    end
  else trim_space u.

Lemma resolve_username_steady u s :
  steady s -> (resolve_username u s).1 = resolved u s /\ steady (resolve_username u s).2.
Proof.
  intros Hs. unfold resolve_username, resolved. case_decide; [|done].
  unfold bind, ret. rewrite get_setting_run by eauto with store. cbn [fst snd].
  split; [|eauto with store]. unfold setting_result.
  destruct (setting keyUsername s) as [v|]; [|done]. simpl. by case_bool_decide; case_decide.
Qed.

Lemma random_password_length bs : String.length (b64_encode (fill 12 bs)) = 16%nat.
Proof.
  unfold b64_encode. pose proof (fill_length 12 bs) as Hl. rewrite <- length_bytes_of in Hl.
  revert Hl. generalize (bytes_of (fill 12 bs)). intros l Hl.
  do 12 (destruct l as [|? l]; [done|]). by destruct l.
Qed.

(** What the account looks like after [ensure_password]. *)
Definition account_ready (p : string) (old : option string) (a : Authenticator) (s : StoreState) : Prop :=
  if decide (p = "") then
    match old with
    | Some h => GeneratedPassword a = "" /\ setting keyHash s = Some h
    | None => String.length (GeneratedPassword a) = 16%nat /\
              exists h, setting keyHash s = Some h /\ bcrypt_compare h (GeneratedPassword a) = true
    end
  else GeneratedPassword a = "" /\ exists h, setting keyHash s = Some h /\ bcrypt_compare h p = true.

Lemma setting_put_eq k v s s' : st_db s' = put_setting k v (st_db s) -> setting k s' = Some v.
Proof. intros E. unfold setting. rewrite E. simpl. by rewrite lookup_insert_eq. Qed.

Lemma ensure_password_steady p sec s :
  steady s -> (String.length p <= 72)%nat ->
  let q := ensure_password p (bool_decide (is_Some (setting keyHash s))) sec s in
  exists a, q.1 = Ok a /\ account_ready p (setting keyHash s) a q.2.
Proof.
  intros Hs Hp. cbv zeta. unfold ensure_password, account_ready. destruct (decide (p = "")) as [Hpe|Hpe].
  - rewrite bool_decide_true by done. cbn [negb]. destruct (setting keyHash s) as [h|] eqn:Eh.
    + exists (mkAuth sec ""). rewrite bool_decide_true by eauto. by cbn.
    + rewrite bool_decide_false by (by intros [? ?]). cbn [negb].
      unfold randomPassword, bind_ok, bind, ret. destruct (steady_rand 12 s Hs) as [Hr Hs'].
      destruct (rand_read 12 s) as [[b|e] s1] eqn:E; injection E as Eb Es1;
        [|by rewrite Eb in Hr]. cbn [fst snd] in *.
      apply rand_of_Ok in Eb as [b' ->].
      pose proof (random_password_length b') as Hlen.
      destruct (set_password_steady (b64_encode (fill 12 b')) s1) as (Hn & _ & h & Hdb & Hcmp);
        [done|lia|].
      rewrite Hn. eexists. split; [done|]. cbn [GeneratedPassword]. split; [done|]. exists h.
      split; [|done]. by eapply setting_put_eq.
  - rewrite bool_decide_false by done. cbn [negb]. unfold bind, ret. cbn [fst snd].
    destruct (set_password_steady p s) as (Hn & _ & h & Hdb & Hcmp); [done|done|].
    rewrite Hn. eexists. split; [done|]. split; [done|]. exists h. split; [|done]. by eapply setting_put_eq.
Qed.

Lemma same_but_setting ks s s' k : same_but ks s s' -> k ∉ ks -> setting k s' = setting k s.
Proof. intros (_ & _ & _ & Hk). apply Hk. Qed.

(** Up to the password, [New] stores the secret and the user name. *)
Lemma new_run u p s :
  steady s -> secret_readable s ->
  exists sec s4,
    New u p s = ensure_password p (bool_decide (is_Some (setting keyHash s4))) sec s4 /\
    steady s4 /\ same_but [keySecret; keyUsername] s s4 /\ setting keyUsername s4 = Some (resolved u s).
Proof.
  intros Hs Hread. unfold New, bind_ok, bind, ret.
  pose proof (load_secret_inv s) as (Hf1 & _ & _). destruct (load_secret_steady s Hs Hread) as [Hok Hs1].
  destruct (loadOrCreateSecret s) as [[sec|e] s1]; cbn [fst snd] in *; [|done].
  pose proof (resolve_username_db u s1) as Hdb2.
  destruct (resolve_username_steady u s1 Hs1) as [Hname Hs2].
  assert (resolved u s1 = resolved u s) as Hres.
  { unfold resolved. by rewrite (same_but_setting _ _ _ keyUsername Hf1) by set_solver. }
  destruct (resolve_username u s1) as [name s2]. cbn [fst snd] in *. rewrite Hres in Hname. subst name.
  rewrite set_setting_run by eauto with store. cbn [fst snd].
  set (s3 := with_db _ _). assert (steady s3) as Hs3 by (unfold s3; eauto with store).
  rewrite get_setting_run by eauto with store. cbn [fst snd]. exists sec, (pop_fault s3).
  change (setting keyHash (pop_fault s3)) with (setting keyHash s3).
  split; [by destruct (setting keyHash s3)|]. split; [eauto with store|]. split.
  - eapply same_but_trans; [eapply same_but_weaken; [|exact Hf1]; set_solver|].
    eapply (same_but_put _ keyUsername (resolved u s)); [set_solver|]. unfold s3. simpl. by rewrite Hdb2.
  - by eapply (setting_put_eq _ _ s2).
Qed.

(** [New] when nothing fails. *)
Lemma new_account (u p : string) (s : StoreState) :
  steady s -> secret_readable s -> (String.length p <= 72)%nat ->
  let q := New u p s in
  exists a, q.1 = Ok a /\
    setting keyUsername q.2 = Some (resolved u s) /\
    account_ready p (setting keyHash s) a q.2 /\
    stored_secret q.2 (secret a) /\
    same_but [keySecret; keyUsername; keyHash] s q.2.
Proof.
  intros Hs Hread Hp. cbv zeta. pose proof (new_inv u p s) as Hinv.
  destruct (new_run u p s Hs Hread) as (sec & s4 & Hrun & Hs4 & Hf & Hname). rewrite Hrun in *.
  destruct (ensure_password_steady p sec s4 Hs4 Hp) as (a & Ha & Hready).
  destruct (ensure_password_inv p (bool_decide (is_Some (setting keyHash s4))) sec s4) as [Hf4 _].
  exists a. split; [done|]. rewrite (same_but_setting _ _ _ keyUsername Hf4) by set_solver.
  pose proof (same_but_setting _ _ _ keyHash Hf ltac:(set_solver)) as Hh. rewrite Hh in *.
  split; [done|]. split; [done|]. split; [by apply Hinv|].
  eapply same_but_trans; eapply same_but_weaken; [|exact Hf| |exact Hf4]; set_solver.
Qed.

(** When nothing fails, New returns an Authenticator and leaves a usable account: the user name
    is the configured one, else the stored one, else admin; a configured password replaces the
    stored one, a missing one is generated with 16 characters and accepted afterwards, an existing
    one is kept; the secret is stored; nothing else changes. *)
Theorem new_establishes (u p : string) (s : StoreState) :
  steady s -> secret_readable s -> (String.length p <= 72)%nat ->
  let q := New u p s in
  exists a, q.1 = Ok a /\
    setting keyUsername q.2 = Some (resolved u s) /\
    account_ready p (setting keyHash s) a q.2 /\
    stored_secret q.2 (secret a) /\
    same_but [keySecret; keyUsername; keyHash] s q.2.
Proof. apply new_account. Qed.

(** C25: After a restart on a database with the same stored secret, whatever credentials are
    configured and whatever statements failed on the way, the new Authenticator has the same secret
    and judges every session cookie as the old one did. *)
Theorem sessions_survive_restart (u p u' p' : string) (s1 s2 s : StoreState) (a a' : Authenticator) (r : Request) :
  (New u p s1).1 = Ok a ->
  setting keySecret s2 = setting keySecret (New u p s1).2 ->
  (New u' p' s2).1 = Ok a' ->
  secret a' = secret a /\ verify a' r s = verify a r s.
Proof.
  intros Ha Hs Ha'. apply new_inv in Ha as [(v & Hv & Hne & Hd) _].
  apply new_inv in Ha' as [_ Hold].
  assert (secret a = secret a') as E by (apply Hold; exists v; by rewrite Hs).
  split; [done|]. unfold verify, check_token, sign. by rewrite E.
Qed.
End startup.
