(* ===== verification/Waf.v ===== *)
(** * The firewall ([internal/waf])

    The manager of compiled engines ([manager.go]) and the middleware that
    drives one transaction per request and records events ([middleware.go]).
    Coraza itself is a parameter: the class [Coraza] lists the calls the code
    makes on it. *)

From S2P Require Export Store GoHttp.
From Stdlib Require Import Ascii.

(** ** The engine library *)

Record Interruption := mkInterruption { it_RuleID : Z; it_Status : Z }.

Record MatchedRule := mkMatched { mr_Message : string; mr_ID : Z; mr_Severity : Z }.

(** The calls on a transaction before its first phase. *)
Inductive tx_call :=
| ProcessConnection (client : string) (cPort : Z) (server : string) (sPort : Z)
| ProcessURI (uri method proto : string)
| AddRequestHeader (k v : string)
| SetServerName (name : string).

(** github.com/corazawaf/coraza/v3 with the embedded Core Rule Set.
    [read_request_body_from] returns what it leaves unread of the body. The
    laws: a transaction buffers what it reads and nothing else, and its body
    reader gives back the buffer. *)
Class Coraza := {
  WAF : Type;
  Tx : Type;
  new_waf : string -> res WAF;
  new_transaction : WAF -> N -> Tx;
  tx_apply : Tx -> tx_call -> Tx;
  process_request_headers : Tx -> option Interruption * Tx;
  is_request_body_accessible : Tx -> bool;
  read_request_body_from : string -> Tx -> res (option Interruption) * string * Tx;
  request_body_reader : Tx -> res string;
  process_request_body : Tx -> option Interruption * option error * Tx;
  process_response_headers : Z -> string -> Tx -> Tx;
  process_logging : Tx -> Tx;
  matched_rules : Tx -> list MatchedRule;
  tx_interruption : Tx -> option Interruption;
  tx_ID : Tx -> string;
  (* the body buffer of a transaction *)
  tx_buffer : Tx -> string;
  tx_buffer_new : forall w n, tx_buffer (new_transaction w n) = "";
  tx_buffer_call : forall t c, tx_buffer (tx_apply t c) = tx_buffer t;
  tx_buffer_headers : forall t, tx_buffer (process_request_headers t).2 = tx_buffer t;
  tx_buffer_read : forall body t it rest t',
    read_request_body_from body t = (Ok it, rest, t') ->
    exists taken, body = taken +:+ rest /\ tx_buffer t' = tx_buffer t +:+ taken;
  tx_buffer_reader : forall t b, request_body_reader t = Ok b -> b = tx_buffer t
}.

(** ** Manager *)

(** The engines by mode; modes are strings. *)
Abbreviation Manager := (gmap string WAF).

Section manager.
Context `{Coraza}.

Definition baseDirectives : string :=
  nl +:+ "Include @coraza.conf-recommended" +:+ nl +:+ "Include @crs-setup.conf.example" +:+ nl
  +:+ "Include @owasp_crs/*.conf" +:+ nl.

(** The text [build] compiles. *)
Definition directives_of (custom engineMode : string) : string :=
  (if decide (trim_space custom = "") then baseDirectives else baseDirectives +:+ nl +:+ custom)
  +:+ nl +:+ "SecRuleEngine " +:+ engineMode +:+ nl.

Definition build (custom engineMode : string) : res WAF := new_waf (directives_of custom engineMode).

Definition NewManager : Manager := ∅.

Definition ManagerReload (customDirectives : list string) : M Manager (option error) := fun m =>
  let custom := join nl customDirectives in
  match build custom "On" with
  | Err e => (Some ("build blocking engine: " +:+ e), m)
  | Ok on =>
      match build custom "DetectionOnly" with
      | Err e => (Some ("build detection engine: " +:+ e), m)
      | Ok detect => (None, <[WAFModeOn := on]> (<[WAFModeDetection := detect]> ∅))
      end
  end.

Definition Engine (mode : WAFMode) (m : Manager) : option WAF := m !! mode.
End manager.

(** ** Helpers of the middleware *)

Definition splitHostPort (addr : string) : string * Z :=
  match last_index_byte ":"%char addr with
  | None => (addr, 0%Z)
  | Some idx => (str_take idx addr, (atoi (str_drop (S idx) addr)).1)
  end.

Definition splitHost (addr : string) : string := (splitHostPort addr).1.

Definition statusFromInterruption (it : Interruption) : Z :=
  if (0 <? it_Status it)%Z then it_Status it else 403%Z.

(** [statusRecorder]: what it remembers of the calls that go through it. *)
Record statusRecorder := mkRecorder { sr_status : Z; sr_wroteHeader : bool }.

Definition recorder_step (s : statusRecorder) (o : wop) : statusRecorder :=
  match o with
  | WriteHeader code => if sr_wroteHeader s then s else mkRecorder code true
  | Write _ => mkRecorder (sr_status s) true
  | _ => s
  end.

(** Its methods are those of [http.ResponseWriter] and [Flush]: it is no
    [http.Hijacker] and has no [Unwrap] that would lead to one. *)
Definition recorder_hijacker : bool := false.

Definition recorded_status (ops : list wop) : Z :=
  sr_status (foldl recorder_step (mkRecorder 200 false) ops).

(** The regular expression [Total Score:\s*(\d+)], leftmost match, first group. *)
Definition re_space (c : ascii) : bool :=
  let b := byte_of c in ((b =? 9) || (b =? 10) || (b =? 12) || (b =? 13) || (b =? 32))%Z.

Fixpoint skip_spaces (s : string) : string :=
  match s with
  | String c s' => if re_space c then skip_spaces s' else s
  | EmptyString => s
  end.

Fixpoint leading_digits (s : string) : string :=
  match s with
  | String c s' => if is_digit c then String c (leading_digits s') else ""
  | EmptyString => ""
  end.

Definition score_prefix : string := "Total Score:".

Definition score_here (s : string) : option string :=
  match cut_prefix score_prefix s with
  | None => None
  | Some rest =>
      let d := leading_digits (skip_spaces rest) in
      if decide (d = "") then None else Some d
  end.

Fixpoint anomalyScoreRE (s : string) : option string :=
  match score_here s with
  | Some d => Some d
  | None => match s with String _ s' => anomalyScoreRE s' | EmptyString => None end
  end.

(** ** Events *)

Definition unset : Z := 99.

(** The variables of the loop in [buildEvent]. *)
Record summary := mkSummary {
  sm_matched : list Z; sm_bestSev : Z; sm_bestMsg : string; sm_bestID : Z; sm_anomaly : Z }.

Definition summary_init : summary := mkSummary [] unset "" 0 0.

Definition summary_step (s : summary) (mr : MatchedRule) : summary :=
  let anomaly :=
    if decide (sm_anomaly s = 0%Z) then
      match anomalyScoreRE (mr_Message mr) with
      | Some m => (atoi m).1
      | None => sm_anomaly s
      end
    else sm_anomaly s in
  let sev := mr_Severity mr in
  if (sev <? 0)%Z then
    mkSummary (sm_matched s) (sm_bestSev s) (sm_bestMsg s) (sm_bestID s) anomaly
  else
    let matched := if decide (mr_ID mr = 0%Z) then sm_matched s else sm_matched s ++ [mr_ID mr] in
    if (sev <? sm_bestSev s)%Z then mkSummary matched sev (mr_Message mr) (mr_ID mr) anomaly
    else mkSummary matched (sm_bestSev s) (sm_bestMsg s) (sm_bestID s) anomaly.

Definition summarize (l : list MatchedRule) : summary := foldl summary_step summary_init l.

Section middleware.
Context `{Coraza} {W : Type} `{HasStore W}.

Definition event_of (tx : Tx) (r : Request) (domain : string) (blocked : bool) (status : Z)
    (s : summary) (now : time) : Event :=
  let ruleID :=
    if decide (sm_bestID s = 0%Z) then
      match tx_interruption tx with Some it => it_RuleID it | None => 0%Z end
    else sm_bestID s in
  mkEvent 0 now (tx_ID tx) domain (splitHost (rq_remote_addr r)) (rq_method r) (rq_uri r)
    blocked status ruleID (sm_bestMsg s)
    (if decide (sm_bestSev s = unset) then 0%Z else sm_bestSev s)
    (sm_anomaly s)
    (match sm_matched s with [] => None | l => Some l end).

Definition buildEvent (tx : Tx) (r : Request) (domain : string) (blocked : bool) (status : Z)
    : M W (option Event) :=
  (let s := summarize (matched_rules tx) in
   if negb blocked && bool_decide (sm_matched s = []) then ret None
   else
     let! now := on_store time_now in
     ret (Some (event_of tx r domain blocked status s now)))%go.

(** ** The request phases *)

Definition header_calls (r : Request) : list tx_call :=
  let '(client, port) := splitHostPort (rq_remote_addr r) in
  [ProcessConnection client port "" 0; ProcessURI (rq_url r) (rq_method r) (rq_proto r)]
  ++ (rq_header r ≫= fun '(k, vs) => AddRequestHeader k <$> vs)
  ++ (if decide (rq_host r = "") then []
      else [AddRequestHeader "Host" (rq_host r); SetServerName (rq_host r)])
  ++ (AddRequestHeader "Transfer-Encoding" <$> rq_transfer_encoding r).

(** The interruption and the error of the phases, the request with the body
    the upstream will read, and the transaction. *)
Definition processRequestPhase (tx : Tx) (r : Request)
    : (option Interruption * option error) * Request * Tx :=
  let tx := foldl tx_apply tx (header_calls r) in
  match process_request_headers tx with
  | (Some it, tx) => ((Some it, None), r, tx)
  | (None, tx) =>
      match rq_body r with
      | Some body =>
          if is_request_body_accessible tx then
            match read_request_body_from body tx with
            | (Err e, rest, tx) => ((None, Some e), with_body r (Some rest), tx)
            | (Ok (Some it), rest, tx) => ((Some it, None), with_body r (Some rest), tx)
            | (Ok None, rest, tx) =>
                match request_body_reader tx with
                | Err e => ((None, Some e), with_body r (Some rest), tx)
                | Ok buf =>
                    let '(out, tx) := process_request_body tx in
                    (out, with_body r (Some (buf +:+ rest)), tx)
                end
            end
          else let '(out, tx) := process_request_body tx in (out, r, tx)
      | None => let '(out, tx) := process_request_body tx in (out, r, tx)
      end
  end.

(** The deferred function: log, report the event if there is one. *)
Definition finish (sink : Event -> M W unit) (tx : Tx) (r : Request) (domain : string)
    (blocked : bool) (status : Z) : M W unit :=
  (let tx := process_logging tx in
   let! e := buildEvent tx r domain blocked status in
   match e with
   | Some e => sink e
   | None => ret tt
   end)%go.

Definition WafMiddleware (engine : WAF) (upstream : Handler W) (sink : Event -> M W unit)
    (domain : string) : Handler W := fun r =>
  (let tx := new_transaction engine (rq_seed r) in
   match processRequestPhase tx r with
   | ((_, Some _), r', tx) =>
       do! finish sink tx r' domain false 502 ;;
       ret (http_error "request processing error" 502, false)
   | ((Some it, None), r', tx) =>
       let status := statusFromInterruption it in
       do! finish sink tx r' domain true status ;;
       ret ([WriteHeader status], false)
   | ((None, None), r', tx) =>
       let! out := upstream r' in
       if panics out then
         do! finish sink tx r' domain false 200 ;; ret out
       else
         let status := recorded_status out.1 in
         let tx := process_response_headers status (rq_proto r') tx in
         do! finish sink tx r' domain false status ;; ret out
   end)%go.
End middleware.
