(* ===== verification/WafSpec.v ===== *)
(** * What the firewall promises

    Reloading is all-or-nothing; a request that passes inspection reaches the
    upstream with its body intact and its answer unchanged; a blocked one never
    does and leaves exactly one event; the event names the most severe rule. *)

From S2P Require Export Waf StoreSpec.
From Stdlib Require Import Ascii.

(** ** The manager *)

Section manager_spec.
Context `{Coraza}.

(** Both engines compile from the same directives. *)
Definition compiles (ds : list string) : Prop :=
  exists on detect, build (join nl ds) "On" = Ok on /\ build (join nl ds) "DetectionOnly" = Ok detect.

#[export] Instance compiles_dec ds : Decision (compiles ds).
Proof.
  destruct (build (join nl ds) "On") as [on|e] eqn:E1; [destruct (build (join nl ds) "DetectionOnly") as [det|e] eqn:E2|].
  - left. by exists on, det.
  - right. intros (? & ? & ? & ?). congruence.
  - right. intros (? & ? & ? & ?). congruence.
Defined.

Lemma reload_fails ds m :
  ~ compiles ds -> exists e, ManagerReload ds m = (Some e, m).
Proof.
  intros Hc. unfold ManagerReload. cbv zeta. destruct (build (join nl ds) "On") as [on|e] eqn:E1; [|eauto].
  destruct (build (join nl ds) "DetectionOnly") as [det|e] eqn:E2; [|eauto].
  destruct Hc. by exists on, det.
Qed.

Lemma reload_succeeds ds m on detect :
  build (join nl ds) "On" = Ok on -> build (join nl ds) "DetectionOnly" = Ok detect ->
  ManagerReload ds m = (None, <[WAFModeOn := on]> (<[WAFModeDetection := detect]> ∅)).
Proof. intros E1 E2. unfold ManagerReload. cbv zeta. by rewrite E1, E2. Qed.

(** Reloading the engines is all-or-nothing: on an error the old engines stay and the
    directives do not compile in both modes; on success both modes run engines built from the new
    directives and any other mode has none. *)
Theorem manager_reload_atomic (ds : list string) (m : Manager) :
  match ManagerReload ds m with
  | (Some _, m') => m' = m /\ ~ compiles ds
  | (None, m') =>
      (exists on, build (join nl ds) "On" = Ok on /\ Engine WAFModeOn m' = Some on) /\
      (exists det, build (join nl ds) "DetectionOnly" = Ok det /\ Engine WAFModeDetection m' = Some det) /\
      (forall mode, mode <> WAFModeOn -> mode <> WAFModeDetection -> Engine mode m' = None)
  end.
Proof.
  unfold ManagerReload, compiles, Engine. cbv zeta.
  destruct (build (join nl ds) "On") as [on|e] eqn:E1; [|split; [done|naive_solver]].
  destruct (build (join nl ds) "DetectionOnly") as [det|e] eqn:E2; [|split; [done|naive_solver]].
  split; [exists on; by rewrite lookup_insert_eq|]. split.
  - exists det. rewrite lookup_insert_ne by done. by rewrite lookup_insert_eq.
  - intros mode Hon Hdet. by rewrite !lookup_insert_ne, lookup_empty.
Qed.
End manager_spec.

(** ** The summary of the matched rules *)

(** A detection rule carries a severity. *)
Definition is_detection (mr : MatchedRule) : Prop := (0 <= mr_Severity mr)%Z.

#[export] Instance is_detection_dec mr : Decision (is_detection mr).
Proof. unfold is_detection. apply _. Defined.

(** [mr] is the first rule of the list with the lowest severity below [unset]. *)
Definition first_worst (l : list MatchedRule) (mr : MatchedRule) : Prop :=
  exists l1 l2, l = l1 ++ mr :: l2 /\ (0 <= mr_Severity mr < unset)%Z /\
    Forall (fun x => is_detection x -> mr_Severity mr < mr_Severity x)%Z l1 /\
    Forall (fun x => is_detection x -> mr_Severity mr <= mr_Severity x)%Z l2.

(** What the loop has computed after the rules [l]. *)
Definition summary_of (l : list MatchedRule) (s : summary) : Prop :=
  sm_matched s = mr_ID <$> filter (fun mr => is_detection mr /\ mr_ID mr <> 0%Z) l /\
  ((exists mr, first_worst l mr /\ sm_bestSev s = mr_Severity mr /\
      sm_bestMsg s = mr_Message mr /\ sm_bestID s = mr_ID mr) \/
   (Forall (fun x => is_detection x -> unset <= mr_Severity x)%Z l /\
      sm_bestSev s = unset /\ sm_bestMsg s = "" /\ sm_bestID s = 0%Z)).

Lemma first_worst_snoc_keep l mr x :
  first_worst l mr -> (is_detection x -> mr_Severity mr <= mr_Severity x)%Z -> first_worst (l ++ [x]) mr.
Proof.
  intros (l1 & l2 & -> & Hs & H1 & H2) Hx. exists l1, (l2 ++ [x]). rewrite <- app_assoc.
  do 3 (split; [done|]). apply Forall_app. by repeat constructor.
Qed.

Lemma first_worst_snoc_new l x :
  (0 <= mr_Severity x < unset)%Z ->
  Forall (fun y => is_detection y -> mr_Severity x < mr_Severity y)%Z l -> first_worst (l ++ [x]) x.
Proof. intros Hx Hl. by exists l, []. Qed.

(** Every detection rule is at least as benign as the best so far. *)
Lemma summary_lower_bound l s :
  summary_of l s -> Forall (fun y => is_detection y -> sm_bestSev s <= mr_Severity y)%Z l /\ (sm_bestSev s <= unset)%Z.
Proof.
  intros [_ [(mr & (l1 & l2 & -> & Hs & H1 & H2) & -> & _)|(Hl & -> & _)]]; [|done]. split; [|lia].
  apply Forall_app. split; [|constructor; [done|done]].
  eapply Forall_impl; [exact H1|]. intros y Hy Hd. simpl in Hy. specialize (Hy Hd). lia.
Qed.

Lemma summary_step_of l s x : summary_of l s -> summary_of (l ++ [x]) (summary_step s x).
Proof.
  intros Hs. destruct (summary_lower_bound _ _ Hs) as [Hlow Hmax]. destruct Hs as [Hm Hbest].
  assert (sm_matched (summary_step s x) =
    mr_ID <$> filter (fun mr => is_detection mr /\ mr_ID mr <> 0%Z) (l ++ [x])) as Hm'.
  { rewrite filter_app, fmap_app, <- Hm, filter_cons, filter_nil. unfold summary_step, is_detection. cbv zeta.
    destruct (mr_Severity x <? 0)%Z eqn:E; zbool; cbn [sm_matched].
    - rewrite decide_False by lia. by rewrite app_nil_r.
    - destruct (mr_Severity x <? sm_bestSev s)%Z; cbn [sm_matched]; destruct (decide (mr_ID x = 0%Z));
        [rewrite decide_False by tauto; by rewrite app_nil_r|by rewrite decide_True|
         rewrite decide_False by tauto; by rewrite app_nil_r|by rewrite decide_True]. }
  split; [done|]. clear Hm Hm'. unfold summary_step. cbv zeta.
  destruct (mr_Severity x <? 0)%Z eqn:E; [|destruct (mr_Severity x <? sm_bestSev s)%Z eqn:E2]; zbool;
    cbn [sm_bestSev sm_bestMsg sm_bestID].
  - destruct Hbest as [(mr & Hf & Hb)|(Hl & Hb)]; [left; exists mr|right]; (split; [|done]).
    + apply first_worst_snoc_keep; [done|]. unfold is_detection. lia.
    + apply Forall_app. split; [done|]. constructor; [|done]. unfold is_detection. lia.
  - left. exists x. split; [|done]. apply first_worst_snoc_new; [lia|].
    eapply Forall_impl; [exact Hlow|]. intros y Hy Hd. simpl in Hy. specialize (Hy Hd). lia.
  - destruct Hbest as [(mr & Hf & Hb)|(Hl & Hb)]; [left; exists mr|right]; (split; [|done]).
    + apply first_worst_snoc_keep; [done|]. destruct Hb as [Hb _]. lia.
    + apply Forall_app. split; [done|]. constructor; [|done]. destruct Hb as [Hb _]. lia.
Qed.

Lemma summarize_of l : summary_of l (summarize l).
Proof.
  induction l as [|x l IH] using rev_ind.
  - split; [done|]. right. by split.
  - unfold summarize. rewrite foldl_app. by apply summary_step_of.
Qed.

Section middleware_spec.
Context `{Coraza} {W : Type} `{HasStore W}.

Implicit Types (tx : Tx) (r : Request) (w : W).

(** The clock of the state and the state after reading it. *)
Definition clock_of w : time := now_of (get_store w).
Definition clock_read w : W := (on_store time_now w).2.

(** Does a list of matched rules call for an event? *)
Definition reportable (l : list MatchedRule) : Prop :=
  Exists (fun mr => is_detection mr /\ mr_ID mr <> 0%Z) l.

#[export] Instance reportable_dec l : Decision (reportable l).
Proof. unfold reportable. apply _. Defined.

Lemma sm_matched_nil l : sm_matched (summarize l) = [] <-> ~ reportable l.
Proof.
  destruct (summarize_of l) as [-> _]. unfold reportable. rewrite Exists_exists. split.
  - intros E%fmap_nil_inv (mr & Hin & Hmr).
    assert (mr ∈ filter (fun mr => is_detection mr /\ mr_ID mr <> 0%Z) l) as Hf by (by apply list_elem_of_filter).
    rewrite E in Hf. by apply elem_of_nil in Hf.
  - intros Hn. destruct (filter (fun mr => is_detection mr /\ mr_ID mr <> 0%Z) l) as [|mr k] eqn:E; [done|]. destruct Hn. exists mr.
    assert (mr ∈ filter (fun mr => is_detection mr /\ mr_ID mr <> 0%Z) l) as Hf by (rewrite E; apply list_elem_of_here).
    apply list_elem_of_filter in Hf. tauto.
Qed.

Lemma build_event_run tx r d b st w :
  (b = true \/ reportable (matched_rules tx)) ->
  buildEvent tx r d b st w =
    (Some (event_of tx r d b st (summarize (matched_rules tx)) (clock_of w)), clock_read w).
Proof.
  intros Hb. unfold buildEvent. cbv zeta.
  assert (negb b && bool_decide (sm_matched (summarize (matched_rules tx)) = []) = false) as ->; [|done].
  destruct b; [done|]. destruct Hb as [Hb|Hb]; [done|]. simpl.
  apply bool_decide_eq_false. by intros E%sm_matched_nil.
Qed.

Lemma build_event_skip tx r d st w :
  ~ reportable (matched_rules tx) -> buildEvent tx r d false st w = (None, w).
Proof.
  intros Hb. unfold buildEvent. cbv zeta. by rewrite bool_decide_true by (by apply sm_matched_nil).
Qed.

(** The rule an event is attributed to when no detection rule names one. *)
Definition fallback_rule tx : Z :=
  match tx_interruption tx with Some it => it_RuleID it | None => 0%Z end.

(** C34: buildEvent reports an event exactly for a block or a match of a rule with a severity and an
    id; it lists the ids of all such matches in order and takes severity, message and rule id from
    the first of the most severe ones, falling back to the interruption's rule when none names one. *)
Theorem build_event_spec tx r d b st w :
  let l := matched_rules tx in
  match (buildEvent tx r d b st w).1 with
  | None => b = false /\ ~ reportable l
  | Some e =>
      (b = true \/ reportable l) /\
      ev_Blocked e = b /\ ev_StatusCode e = st /\ ev_Domain e = d /\ ev_Timestamp e = clock_of w /\
      default [] (ev_MatchedRules e) =
        mr_ID <$> filter (fun mr => is_detection mr /\ mr_ID mr <> 0%Z) l /\
      ((exists mr, first_worst l mr /\ ev_Severity e = mr_Severity mr /\ ev_Message e = mr_Message mr /\
          ev_RuleID e = if decide (mr_ID mr = 0%Z) then fallback_rule tx else mr_ID mr) \/
       (Forall (fun mr => is_detection mr -> unset <= mr_Severity mr)%Z l /\
          ev_Severity e = 0%Z /\ ev_Message e = "" /\ ev_RuleID e = fallback_rule tx))
  end.
Proof.
  cbv zeta. destruct (decide (b = true \/ reportable (matched_rules tx))) as [Hb|Hb].
  - rewrite build_event_run by done. cbn [fst]. split; [done|]. do 4 (split; [done|]).
    destruct (summarize_of (matched_rules tx)) as [Hm Hbest]. rewrite <- Hm. unfold event_of. cbv zeta.
    cbn [ev_MatchedRules ev_Severity ev_Message ev_RuleID]. split; [by destruct (sm_matched _)|].
    destruct Hbest as [(mr & Hf & Hsev & Hmsg & Hid)|(Hl & -> & -> & ->)]; [left|by right].
    exists mr. split; [done|]. rewrite Hsev, Hmsg, Hid. split; [|done].
    destruct Hf as (? & ? & _ & ? & _). rewrite decide_False; [done|]. lia.
  - assert (b = false) as -> by (destruct b; tauto).
    rewrite build_event_skip by tauto. cbn [fst]. tauto.
Qed.

(** *** The request phases *)

Lemma tx_buffer_calls cs tx : tx_buffer (foldl tx_apply tx cs) = tx_buffer tx.
Proof.
  revert tx. induction cs as [|c cs IH]; intros tx; [done|]. simpl. by rewrite IH, tx_buffer_call.
Qed.

Lemma with_body_id r body : rq_body r = Some body -> with_body r (Some body) = r.
Proof. intros E. destruct r. simpl in *. by subst. Qed.

(** Inspection that lets a request through hands on the same request. *)
Lemma phase_intact tx r r' tx' :
  tx_buffer tx = "" -> processRequestPhase tx r = ((None, None), r', tx') -> r' = r.
Proof.
  intros Hbuf. unfold processRequestPhase. set (tx1 := foldl tx_apply tx (header_calls r)).
  pose proof (tx_buffer_headers tx1) as Hh. unfold tx1 in Hh at 2. rewrite tx_buffer_calls, Hbuf in Hh.
  destruct (process_request_headers tx1) as [[it|] tx2]; [done|]. cbn [snd] in Hh. cbv zeta.
  destruct (rq_body r) as [body|] eqn:Hbody; [|by destruct (process_request_body tx2); intros [= _ <- _]].
  destruct (is_request_body_accessible tx2); [|by destruct (process_request_body tx2); intros [= _ <- _]].
  destruct (read_request_body_from body tx2) as [[[[it|]|e] rest] tx3] eqn:Hread; [done| |done].
  apply tx_buffer_read in Hread as (taken & -> & Htaken).
  destruct (request_body_reader tx3) as [buf|e] eqn:Hrd; [|done].
  apply tx_buffer_reader in Hrd as ->. rewrite Htaken, Hh, string_app_nil_l.
  destruct (process_request_body tx3) as [out tx4]. intros [= _ <- _]. by apply with_body_id.
Qed.

(** Whatever comes of the inspection, only the body may have changed. *)
Lemma phase_request tx r x r' tx' :
  processRequestPhase tx r = (x, r', tx') -> exists b, r' = with_body r b.
Proof.
  assert (exists b, r = with_body r b) as Hr by (exists (rq_body r); by destruct r).
  unfold processRequestPhase. cbv zeta. repeat case_match; intros; simplify_eq/=; eauto.
Qed.

(** What the deferred function does to the state. *)
Lemma finish_blocked sink tx r d st w :
  finish sink tx r d true st w =
  sink (event_of (process_logging tx) r d true st (summarize (matched_rules (process_logging tx))) (clock_of w))
    (clock_read w).
Proof. unfold finish, bind. cbv zeta. rewrite build_event_run by auto. done. Qed.

Lemma finish_silent sink tx r d st w :
  ~ reportable (matched_rules (process_logging tx)) -> finish sink tx r d false st w = (tt, w).
Proof. intros Hn. unfold finish, bind. cbv zeta. by rewrite build_event_skip. Qed.

Lemma finish_reports sink tx r d b st w :
  reportable (matched_rules (process_logging tx)) ->
  finish sink tx r d b st w =
  sink (event_of (process_logging tx) r d b st (summarize (matched_rules (process_logging tx))) (clock_of w))
    (clock_read w).
Proof. intros Hn. unfold finish, bind. cbv zeta. by rewrite build_event_run by auto. Qed.

(** What an event says of its request. *)
Definition event_about (domain : string) r (e : Event) : Prop :=
  ev_Domain e = domain /\ ev_Method e = rq_method r /\ ev_URI e = rq_uri r /\ ev_ClientIP e = splitHost (rq_remote_addr r).

(** The deferred function reports one event about the request, or nothing. *)
Lemma finish_effect sink tx r body d b st w :
  (finish sink tx (with_body r body) d b st w).2 = w \/
  exists e, event_about d r e /\ ev_Blocked e = b /\ ev_StatusCode e = st /\
    (finish sink tx (with_body r body) d b st w).2 = (sink e (clock_read w)).2.
Proof.
  destruct b.
  - rewrite finish_blocked. right. eexists. split; [|by split; [|split; [|done]]]. done.
  - destruct (decide (reportable (matched_rules (process_logging tx)))) as [Hr|Hr].
    + rewrite finish_reports by done. right. eexists. split; [|by split; [|split; [|done]]]. done.
    + rewrite finish_silent by done. by left.
Qed.

(** The middleware around an upstream that leaves the state alone. *)
Lemma waf_effect (engine : WAF) (upstream : Handler W) (sink : Event -> M W unit) (domain : string) r w :
  (forall r w, (upstream r w).2 = w) ->
  (WafMiddleware engine upstream sink domain r w).2 = w \/
  exists e, event_about domain r e /\
    (WafMiddleware engine upstream sink domain r w).2 = (sink e (clock_read w)).2.
Proof.
  intros Hup. unfold WafMiddleware. cbv zeta.
  destruct (processRequestPhase _ r) as [[[it err] r'] tx] eqn:Hp. apply phase_request in Hp as [body ->].
  destruct err as [e|], it as [it|]; unfold bind, ret; cbn [fst snd];
    try (destruct (finish_effect sink tx r body domain false 502 w) as [->|(x & ? & _ & _ & ->)]; eauto; fail).
  - destruct (finish_effect sink tx r body domain true (statusFromInterruption it) w) as [->|(x & ? & _ & _ & ->)]; eauto.
  - pose proof (Hup (with_body r body) w) as Hu. destruct (upstream (with_body r body) w) as [out w1]. cbn [fst snd] in *. subst w1.
    destruct (panics out); cbn [fst snd];
      [destruct (finish_effect sink tx r body domain false 200 w) as [->|(x & ? & _ & _ & ->)]; eauto|].
    destruct (finish_effect sink (process_response_headers (recorded_status out.1) (rq_proto (with_body r body)) tx) r body domain
      false (recorded_status out.1) w) as [->|(x & ? & _ & _ & ->)]; eauto.
Qed.

(** A request that passes, in one equation. *)
Lemma waf_passes_run (engine : WAF) (upstream : Handler W) (sink : Event -> M W unit) (domain : string)
    r r' tx w :
  processRequestPhase (new_transaction engine (rq_seed r)) r = ((None, None), r', tx) ->
  let out := upstream r w in
  let status := if panics out.1 then 200%Z else recorded_status out.1.1 in
  let tx' := if panics out.1 then tx else process_response_headers status (rq_proto r) tx in
  WafMiddleware engine upstream sink domain r w =
    (out.1, (finish sink tx' r domain false status out.2).2).
Proof.
  intros Hp. cbv zeta. unfold WafMiddleware. cbv zeta. rewrite Hp.
  apply phase_intact in Hp as ->; [|apply tx_buffer_new]. unfold bind, ret.
  destruct (upstream r w) as [out w1]. cbn [fst snd]. by destruct (panics out).
Qed.

(** C8: A request that passes inspection reaches the upstream unchanged, body included, although the
    engine has read a part of the body; the upstream's answer goes to the client unchanged; and the
    event, if any, carries the recorded status, or 200 when the upstream panicked. *)
Theorem waf_transparent (engine : WAF) (upstream : Handler W) (sink : Event -> M W unit) (domain : string)
    r r' tx w :
  processRequestPhase (new_transaction engine (rq_seed r)) r = ((None, None), r', tx) ->
  let out := upstream r w in
  let status := if panics out.1 then 200%Z else recorded_status out.1.1 in
  let tx' := if panics out.1 then tx else process_response_headers status (rq_proto r) tx in
  WafMiddleware engine upstream sink domain r w =
    (out.1, (finish sink tx' r domain false status out.2).2).
Proof. apply waf_passes_run. Qed.

(** A blocked request, in one equation. *)
Lemma waf_blocked_run (engine : WAF) (upstream : Handler W) (sink : Event -> M W unit) (domain : string)
    r r' tx it w :
  processRequestPhase (new_transaction engine (rq_seed r)) r = ((Some it, None), r', tx) ->
  exists e,
    WafMiddleware engine upstream sink domain r w =
      (([WriteHeader (statusFromInterruption it)], false), (sink e (clock_read w)).2) /\
    ev_Blocked e = true /\ ev_StatusCode e = statusFromInterruption it /\
    ev_Domain e = domain /\ ev_Timestamp e = clock_of w /\
    ev_Method e = rq_method r /\ ev_URI e = rq_uri r /\ ev_ClientIP e = splitHost (rq_remote_addr r).
Proof.
  intros Hp. unfold WafMiddleware. cbv zeta. rewrite Hp. unfold bind, ret. rewrite finish_blocked.
  eexists. split; [done|]. do 4 (split; [done|]).
  assert (rq_method r' = rq_method r /\ rq_uri r' = rq_uri r /\ rq_remote_addr r' = rq_remote_addr r) as E;
    [|by destruct E as (<- & <- & <-)].
  revert Hp. unfold processRequestPhase. cbv zeta.
  repeat case_match; intros; simplify_eq/=; done.
Qed.

(** A blocked request never reaches the upstream and leaves one event. *)
Theorem waf_blocks (engine : WAF) (upstream : Handler W) (sink : Event -> M W unit) (domain : string)
    r r' tx it w :
  processRequestPhase (new_transaction engine (rq_seed r)) r = ((Some it, None), r', tx) ->
  exists e,
    WafMiddleware engine upstream sink domain r w =
      (([WriteHeader (statusFromInterruption it)], false), (sink e (clock_read w)).2) /\
    ev_Blocked e = true /\ ev_StatusCode e = statusFromInterruption it /\
    ev_Domain e = domain /\ ev_Timestamp e = clock_of w /\
    ev_Method e = rq_method r /\ ev_URI e = rq_uri r /\ ev_ClientIP e = splitHost (rq_remote_addr r).
Proof. apply waf_blocked_run. Qed.
End middleware_spec.

(** ** The status recorder *)

(** A code the recorder and the client agree on: final and valid. *)
Definition final_code (c : Z) : Prop := (200 <= c <= 999 \/ c = 101)%Z.

(** The recorder's writer cannot be hijacked. *)
Definition final_op (o : wop) : Prop := match o with WriteHeader c => final_code c | Hijack => False | _ => True end.

(** No [Flush] before the first [WriteHeader] or [Write]. *)
Fixpoint flush_after_header (ops : list wop) : bool :=
  match ops with
  | Flush :: _ => false
  | (WriteHeader _ | Write _) :: _ | [] => true
  | _ :: ops => flush_after_header ops
  end.

Lemma recorder_wrote ops s : sr_wroteHeader s = true -> sr_status (foldl recorder_step s ops) = sr_status s.
Proof.
  revert s. induction ops as [|o ops IH]; intros s Hs; [done|]. simpl.
  destruct o; simpl; rewrite ?Hs; rewrite IH by done; done.
Qed.

Lemma write_header_final c w :
  final_code c -> rs_sent w = None -> rs_sent (write_header c w) = Some (c, rs_header w, rs_cookies w).
Proof.
  intros Hc Hw. unfold write_header, final_code in *. rewrite Hw.
  repeat case_match; zbool; simpl; try done; lia.
Qed.

Lemma recorder_agrees ops w :
  Forall final_op ops -> flush_after_header ops = true -> rs_sent w = None -> rs_panicked w = false ->
  sr_status (foldl recorder_step (mkRecorder 200 false) ops) = final_status (run_wops ops w).
Proof.
  intros Hf. revert w. induction Hf as [|o ops Ho Hf IH]; intros w Hfl Hsent Hpan; simpl.
  { unfold run_wops, final_status. simpl. by rewrite Hsent. }
  assert (forall c w', rs_sent w' = Some c -> final_status (run_wops ops w') = c.1.1) as Hdone.
  { intros [[c h] k] w' Hc. unfold final_status. by rewrite (run_wops_sent _ _ _ Hc). }
  unfold run_wops in *. simpl. destruct o; simpl in *; try discriminate;
    unfold apply_wop at 2; rewrite Hpan; try (by apply IH).
  - rewrite recorder_wrote by done. rewrite (Hdone _ _ (write_header_final _ _ Ho Hsent)). done.
  - rewrite recorder_wrote by done. rewrite Hsent.
    assert (final_code 200) as H200 by (unfold final_code; lia).
    erewrite Hdone; [|simpl; apply write_header_final; done]. done.
Qed.

(** For a handler that sends no informational response and does not flush before its header,
    the recorded status is the one the client gets. *)
Theorem recorder_faithful (ops : list wop) :
  Forall final_op ops -> flush_after_header ops = true -> recorded_status ops = status_of ops.
Proof. intros Hf Hfl. by apply recorder_agrees. Qed.

(** Informational responses already sent have no influence on later calls. *)
Definition with_info (i : list Z) (w : Response) : Response :=
  mkResponse (rs_header w) (rs_cookies w) i (rs_sent w) (rs_body w) (rs_panicked w).

Lemma apply_wop_info o w i : exists i', apply_wop (with_info i w) o = with_info i' (apply_wop w o).
Proof.
  unfold apply_wop, write_header, with_info. destruct w as [h k inf sent b p]. simpl.
  destruct p; [by eexists|]. destruct o; repeat case_match; simplify_eq/=; by eexists.
Qed.

Lemma run_wops_info ops w i : exists i', run_wops ops (with_info i w) = with_info i' (run_wops ops w).
Proof.
  revert w i. induction ops as [|o ops IH]; intros w i; [by eexists|].
  unfold run_wops in *. simpl. destruct (apply_wop_info o w i) as [i' ->]. apply IH.
Qed.

Lemma write_header_info code w :
  (100 <= code <= 199)%Z -> code <> 101%Z -> rs_sent w = None -> rs_panicked w = false ->
  write_header code w = with_info (rs_informational w ++ [code]) w.
Proof.
  intros Hc Hne Hs Hp. unfold write_header, with_info. rewrite Hs, Hp.
  destruct ((code <? 100) || (999 <? code))%Z eqn:E1; [apply orb_true_iff in E1 as [?|?]; zbool; lia|].
  destruct ((100 <=? code) && (code <=? 199) && negb (code =? 101))%Z eqn:E2; [done|].
  apply andb_false_iff in E2 as [E2|E2]; [apply andb_false_iff in E2 as [?|?]|]; zbool; lia.
Qed.

(** After an informational response such as 103 the recorded status stays that code whatever
    final status follows, while the client gets the final status. *)
Theorem recorder_informational (code : Z) (ops : list wop) :
  (100 <= code <= 199)%Z -> code <> 101%Z ->
  recorded_status (WriteHeader code :: ops) = code /\
  status_of (WriteHeader code :: ops) = status_of ops.
Proof.
  intros Hc Hne. split; [exact (recorder_wrote ops (mkRecorder code true) eq_refl)|].
  unfold status_of. change (WriteHeader code :: ops) with ([WriteHeader code] ++ ops).
  rewrite run_wops_app. change (run_wops [WriteHeader code] empty_response) with (write_header code empty_response).
  rewrite write_header_info by done. by destruct (run_wops_info ops empty_response (rs_informational empty_response ++ [code])) as [i ->].
Qed.

(** ** The anomaly score *)

Lemma cut_prefix_app p s : cut_prefix p (p +:+ s) = Some s.
Proof. induction p as [|c p IH]; [done|]. rewrite string_app_cons. simpl. by rewrite decide_True. Qed.

Lemma cut_prefix_head c p d s : c <> d -> cut_prefix (String c p) (String d s) = None.
Proof. intros Hc. simpl. by rewrite decide_False. Qed.

Lemma anomaly_skip pre s :
  char_in "T"%char pre = false -> anomalyScoreRE (pre +:+ s) = anomalyScoreRE s.
Proof.
  induction pre as [|d pre IH]; intros Hp; [done|]. simpl in Hp. case_decide as Hd; [done|].
  rewrite string_app_cons. cbn [anomalyScoreRE]. unfold score_here, score_prefix.
  rewrite cut_prefix_head by done. auto.
Qed.

(** The digits of a number are read back up to the first other byte. *)
Lemma leading_fmt_digits fuel n acc :
  (0 <= n)%Z -> leading_digits (fmt_digits fuel n acc) = fmt_digits fuel n (leading_digits acc).
Proof.
  revert n acc. induction fuel as [|f IH]; intros n acc Hn; [done|]. cbn [fmt_digits].
  assert (forall a, leading_digits (String (digit_char (n mod 10)) a) = String (digit_char (n mod 10)) (leading_digits a)) as Hd.
  { intros a. cbn [leading_digits]. by rewrite is_digit_char by (apply Z.mod_pos_bound; lia). }
  cbv zeta. destruct (n <? 10)%Z; [apply Hd|]. rewrite IH by (apply Z.div_pos; lia). by rewrite Hd.
Qed.

Lemma score_here_number n c post :
  (0 <= n)%Z -> is_digit c = false ->
  score_here (score_prefix +:+ " " +:+ format_uint n +:+ String c post) = Some (format_uint n).
Proof.
  intros Hn Hc. unfold score_here. rewrite cut_prefix_app. cbv zeta.
  assert (leading_digits (skip_spaces (" " +:+ format_uint n +:+ String c post)) = format_uint n) as ->.
  - unfold format_uint at 1. rewrite string_app_cons, fmt_digits_app. cbn [skip_spaces].
    change (re_space " ") with true. rewrite !string_app_nil_l.
    destruct (fmt_digits_head (digit_fuel n) n (String c post)) as (d & s & Hd & Hr);
      [done|unfold digit_fuel; lia|].
    assert (skip_spaces (fmt_digits (digit_fuel n) n (String c post)) = fmt_digits (digit_fuel n) n (String c post)) as ->.
    { rewrite Hd. cbn [skip_spaces]. assert (re_space (digit_char d) = false) as ->; [|done].
      unfold re_space, digit_char. rewrite byte_of_of by (unfold is_byte; lia). cbv zeta.
      repeat (apply orb_false_iff; split); apply Z.eqb_neq; lia. }
    rewrite leading_fmt_digits by done. cbn [leading_digits]. by rewrite Hc.
  - rewrite decide_False; [done|]. unfold format_uint.
    destruct (fmt_digits_head (digit_fuel n) n "") as (d & s & -> & _); [done|unfold digit_fuel; lia|done].
Qed.

Lemma summary_anomaly_keep l s : sm_anomaly s <> 0%Z -> sm_anomaly (foldl summary_step s l) = sm_anomaly s.
Proof.
  revert s. induction l as [|x l IH]; intros s Hs; [done|]. simpl.
  assert (sm_anomaly (summary_step s x) = sm_anomaly s) as E.
  { unfold summary_step. cbv zeta. rewrite decide_False by done. by repeat case_match. }
  rewrite IH by congruence. done.
Qed.

Lemma summary_anomaly_step s x :
  sm_anomaly s = 0%Z ->
  sm_anomaly (summary_step s x) = match anomalyScoreRE (mr_Message x) with Some m => (atoi m).1 | None => 0%Z end.
Proof.
  intros Hs. unfold summary_step. cbv zeta. rewrite decide_True, Hs by done. by repeat case_match.
Qed.

Lemma summary_anomaly_zero l s :
  sm_anomaly s = 0%Z -> Forall (fun x => anomalyScoreRE (mr_Message x) = None) l ->
  sm_anomaly (foldl summary_step s l) = 0%Z.
Proof.
  intros Hs Hl. revert s Hs. induction Hl as [|x l Hx Hl IH]; intros s Hs; [done|]. simpl. apply IH.
  rewrite summary_anomaly_step by done. by rewrite Hx.
Qed.

(** When a matched rule's message carries the text Total Score followed by a number, and no
    earlier message does, the event's anomaly score is that number. *)
Theorem anomaly_score_reported `{Coraza} {W} `{HasStore W} (tx : Tx) (r : Request) (d : string) (b : bool) (st : Z)
    (w : W) (e : Event) (l1 l2 : list MatchedRule) (mr : MatchedRule) (pre post : string) (c : ascii) (n : Z) :
  (buildEvent tx r d b st w).1 = Some e ->
  matched_rules tx = l1 ++ mr :: l2 ->
  Forall (fun x => anomalyScoreRE (mr_Message x) = None) l1 ->
  mr_Message mr = pre +:+ "Total Score: " +:+ format_uint n +:+ String c post ->
  char_in "T"%char pre = false -> is_digit c = false -> (0 < n <= int64_max)%Z ->
  ev_AnomalyScore e = n.
Proof.
  intros He Hl Hl1 Hmsg Hpre Hc Hn.
  assert (ev_AnomalyScore e = sm_anomaly (summarize (matched_rules tx))) as ->.
  { revert He. unfold buildEvent, bind, ret. cbv zeta. case_match; [done|]. by intros [= <-]. }
  rewrite Hl. unfold summarize. rewrite foldl_app. simpl.
  set (s := foldl summary_step summary_init l1).
  assert (sm_anomaly (summary_step s mr) = n) as Hs.
  { rewrite summary_anomaly_step by (by apply summary_anomaly_zero). rewrite Hmsg, anomaly_skip by done.
    change ("Total Score: " +:+ format_uint n +:+ String c post)
      with (score_prefix +:+ " " +:+ format_uint n +:+ String c post).
    assert (forall t, score_here t = Some (format_uint n) -> anomalyScoreRE t = Some (format_uint n)) as Hh.
    { intros t Ht. destruct t; cbn [anomalyScoreRE]; by rewrite Ht. }
    rewrite (Hh _ (score_here_number n c post ltac:(lia) Hc)).
    assert (format_uint n = format_int n) as -> by (unfold format_int; case_match; zbool; [lia|done]).
    unfold atoi. rewrite parse_format_int; [done|]. unfold in_int64, int64_min. lia. }
  rewrite summary_anomaly_keep by lia. done.
Qed.
