(* ===== verification/RateLimit.v ===== *)
(** * Per-client rate limiting ([internal/ratelimit])

    A token bucket per client key, created on first use and evicted when idle.
    The bucket is golang.org/x/time/rate, a parameter. Buckets live in a heap
    because a caller keeps its pointer after the lock is released: [Allow] is
    the composition of its locked part and of the call on the bucket, and the
    step relation at the end interleaves them. *)

From S2P Require Export GoTime.
From Stdlib Require Export SpecFloat.

Local Open Scope Z_scope.

(** golang.org/x/time/rate: [NewLimiter] and [Allow] at a given instant. *)
Class TokenBucket := {
  Bucket : Type;
  new_bucket : spec_float -> Z -> Bucket;
  bucket_allow : time -> Bucket -> bool * Bucket
}.

Record client := mkClient { limiter : nat; lastSeen : time }.

Section ratelimit.
Context `{TokenBucket}.

Record Limiter := mkLimiter {
  l_rps : spec_float; l_burst : Z; l_ttl : Z;
  l_clients : gmap string client;
  l_heap : list Bucket }.      (* the rate.Limiter objects, by address *)

Definition NewLimiter (rps : spec_float) (burst : Z) : Limiter :=
  mkLimiter rps burst (10 * time_minute) ∅ [].

Definition with_clients (m : gmap string client) (l : Limiter) : Limiter :=
  mkLimiter (l_rps l) (l_burst l) (l_ttl l) m (l_heap l).

(** The locked part of [Allow]: find or create the entry, stamp it, and keep
    the pointer to its bucket. *)
Definition allow_locked (key : string) (now : time) : M Limiter nat := fun l =>
  match l_clients l !! key with
  | Some c =>
      (limiter c, with_clients (<[key := mkClient (limiter c) now]> (l_clients l)) l)
  | None =>
      let p := length (l_heap l) in
      (p, mkLimiter (l_rps l) (l_burst l) (l_ttl l) (<[key := mkClient p now]> (l_clients l))
            (l_heap l ++ [new_bucket (l_rps l) (l_burst l)]))
  end.

(** [lim.Allow()], outside the lock. An address comes from [allow_locked], so
    it is always in the heap. *)
Definition take_token (p : nat) (now : time) : M Limiter bool := fun l =>
  match l_heap l !! p with
  | Some b =>
      let r := bucket_allow now b in
      (r.1, mkLimiter (l_rps l) (l_burst l) (l_ttl l) (l_clients l) (<[p := r.2]> (l_heap l)))
  | None => (false, l)
  end.

(** [Allow] with the two readings of the clock it makes. *)
Definition Allow (key : string) (now now' : time) : M Limiter bool :=
  (let! p := allow_locked key now in take_token p now')%go.

(** One round of [cleanupLoop]. *)
Definition sweep (cutoff : time) (l : Limiter) : Limiter :=
  with_clients (filter (fun kc => ~ lastSeen kc.2 < cutoff) (l_clients l)) l.

Definition cleanup (now : time) (l : Limiter) : Limiter := sweep (now - l_ttl l) l.

(** ** Interleavings

    Goroutines serving requests and the cleanup goroutine: [Lock] and
    [Unlock]'s critical sections are atomic, everything else interleaves. *)

Record LState := mkLState {
  ls_limiter : Limiter;
  ls_waiting : gmap nat (string * nat);  (* goroutine -> key and bucket it is about to use *)
  ls_cutoff : option time }.             (* cutoff the cleanup goroutine has computed *)

Inductive lstep : LState -> LState -> Prop :=
| step_lock g key now l wt co :
    wt !! g = None ->
    lstep (mkLState l wt co)
      (mkLState (allow_locked key now l).2 (<[g := (key, (allow_locked key now l).1)]> wt) co)
| step_take g key p now l wt co :
    wt !! g = Some (key, p) ->
    lstep (mkLState l wt co) (mkLState (take_token p now l).2 (delete g wt) co)
| step_tick now l wt :
    lstep (mkLState l wt None) (mkLState l wt (Some (now - l_ttl l)))
| step_sweep cutoff l wt :
    lstep (mkLState l wt (Some cutoff)) (mkLState (sweep cutoff l) wt None).

(** ** Sequential runs *)

Inductive lop :=
| OpAllow (key : string) (now : time)
| OpCleanup (now : time).

Definition lop_time (o : lop) : time := match o with OpAllow _ t | OpCleanup t => t end.

(** The answers of a sequence of operations, with the keys they are for. *)
Fixpoint run_limiter (ops : list lop) (l : Limiter) : list (string * bool) :=
  match ops with
  | [] => []
  | OpAllow k t :: ops =>
      let r := Allow k t t l in (k, r.1) :: run_limiter ops r.2
  | OpCleanup t :: ops => run_limiter ops (cleanup t l)
  end.

(** ** The reference: one bucket per key, never evicted *)

Fixpoint run_bucket (b : Bucket) (ts : list time) : list bool :=
  match ts with [] => [] | t :: ts => (bucket_allow t b).1 :: run_bucket (bucket_allow t b).2 ts end.

Definition bucket_after (b : Bucket) (ts : list time) : Bucket :=
  foldl (fun b t => (bucket_allow t b).2) b ts.

(** The times of the requests with key [k]. *)
Definition times_of (k : string) (ops : list lop) : list time :=
  omap (fun o => match o with OpAllow k' t => if decide (k' = k) then Some t else None | _ => None end) ops.

Fixpoint run_reference (rps : spec_float) (burst : Z) (past ops : list lop) : list (string * bool) :=
  match ops with
  | [] => []
  | OpAllow k t :: ops' =>
      (k, (bucket_allow t (bucket_after (new_bucket rps burst) (times_of k past))).1)
        :: run_reference rps burst (past ++ [OpAllow k t]) ops'
  | OpCleanup t :: ops' => run_reference rps burst (past ++ [OpCleanup t]) ops'
  end.

(** A bucket left alone for [ttl] answers like a new one: with a bucket of
    [burst] tokens refilled at [rps] per second, the case when
    [burst <= rps * ttl]. *)
Definition refills_within (ttl : Z) (rps : spec_float) (burst : Z) : Prop :=
  forall ts ts', StronglySorted Z.le (ts ++ ts') ->
    (forall x y, x ∈ ts -> y ∈ ts' -> x + ttl <= y) ->
    run_bucket (bucket_after (new_bucket rps burst) ts) ts' = run_bucket (new_bucket rps burst) ts'.
End ratelimit.
