(* ===== verification/RateLimitSpec.v ===== *)
(** * What the rate limiter promises

    Clients do not influence each other; evicting idle buckets is invisible
    when a bucket refills within the time to live; idle entries are gone within
    two rounds of the cleanup; buckets are never shared between keys under any
    interleaving. *)

From S2P Require Export RateLimit.

Local Open Scope Z_scope.

Section limiter_spec.
Context `{TokenBucket}.

Implicit Types (l : Limiter) (k : string) (t : time) (b : Bucket).

(** ** The abstract view: per key, when it was last seen and its bucket *)

Definition view k l : option (time * Bucket) :=
  c ← l_clients l !! k; b ← l_heap l !! limiter c; Some (lastSeen c, b).

(** Every entry points to a bucket of its own. *)
Definition limiter_wf l : Prop :=
  (forall k c, l_clients l !! k = Some c -> (limiter c < length (l_heap l))%nat) /\
  (forall k k' c c', l_clients l !! k = Some c -> l_clients l !! k' = Some c' ->
     limiter c = limiter c' -> k = k').

Definition fresh_bucket l : Bucket := new_bucket (l_rps l) (l_burst l).

(** The bucket a request with key [k] draws from. *)
Definition bucket_for k l : Bucket :=
  match view k l with Some (_, b) => b | None => fresh_bucket l end.

Definition same_params l l' : Prop :=
  l_rps l' = l_rps l /\ l_burst l' = l_burst l /\ l_ttl l' = l_ttl l.

Lemma view_Some k l c :
  limiter_wf l -> l_clients l !! k = Some c ->
  exists b, l_heap l !! limiter c = Some b /\ view k l = Some (lastSeen c, b).
Proof.
  intros [Hb _] Hc. destruct (lookup_lt_is_Some_2 (l_heap l) (limiter c)) as [b Hh]; [eauto|].
  exists b. split; [done|]. unfold view. rewrite Hc. simpl. by rewrite Hh.
Qed.

Lemma view_None k l : l_clients l !! k = None -> view k l = None.
Proof. intros Hc. unfold view. by rewrite Hc. Qed.

(** [Allow] on an entry that exists and on one that does not. *)
Lemma allow_hit k t t' l c b :
  l_clients l !! k = Some c -> l_heap l !! limiter c = Some b ->
  Allow k t t' l = ((bucket_allow t' b).1,
    mkLimiter (l_rps l) (l_burst l) (l_ttl l) (<[k := mkClient (limiter c) t]> (l_clients l))
      (<[limiter c := (bucket_allow t' b).2]> (l_heap l))).
Proof. intros Hc Hb. unfold Allow, bind, allow_locked, take_token. rewrite Hc. simpl. by rewrite Hb. Qed.

Lemma allow_miss k t t' l :
  l_clients l !! k = None ->
  Allow k t t' l = ((bucket_allow t' (fresh_bucket l)).1,
    mkLimiter (l_rps l) (l_burst l) (l_ttl l) (<[k := mkClient (length (l_heap l)) t]> (l_clients l))
      (l_heap l ++ [(bucket_allow t' (fresh_bucket l)).2])).
Proof.
  intros Hc. unfold Allow, bind, allow_locked, take_token. rewrite Hc. simpl.
  rewrite list_lookup_middle by done. simpl. by rewrite insert_app_r_alt, Nat.sub_diag by lia.
Qed.

Lemma allow_wf k t t' l : limiter_wf l -> limiter_wf (Allow k t t' l).2.
Proof.
  intros Hwf. pose proof Hwf as [Hb Hinj]. destruct (l_clients l !! k) as [c|] eqn:Hc.
  - destruct (view_Some k l c Hwf Hc) as (b & Hh & _). rewrite (allow_hit _ _ _ _ _ _ Hc Hh). split; simpl.
    + intros j d. rewrite length_insert, lookup_insert_Some. intros [[<- <-]|[_ Hd]]; simpl; eauto.
    + intros j j' d d'. rewrite !lookup_insert_Some.
      intros [[<- <-]|[? Hd]] [[<- <-]|[? Hd']]; simpl; eauto; intros E; exfalso; eauto.
  - rewrite allow_miss by done. split; simpl.
    + intros j d. rewrite length_app, lookup_insert_Some. simpl.
      intros [[<- <-]|[_ Hd]]; simpl; [lia|]. specialize (Hb _ _ Hd). lia.
    + intros j j' d d'. rewrite !lookup_insert_Some.
      intros [[<- <-]|[? Hd]] [[<- <-]|[? Hd']]; simpl; eauto; intros E; exfalso.
      * specialize (Hb _ _ Hd'). lia.
      * specialize (Hb _ _ Hd). lia.
Qed.

(** [Allow] in terms of views. *)
Lemma allow_view k t t' l :
  limiter_wf l ->
  (Allow k t t' l).1 = (bucket_allow t' (bucket_for k l)).1 /\
  view k (Allow k t t' l).2 = Some (t, (bucket_allow t' (bucket_for k l)).2) /\
  (forall k', k' <> k -> view k' (Allow k t t' l).2 = view k' l) /\
  same_params l (Allow k t t' l).2.
Proof.
  intros Hwf. unfold bucket_for. destruct (l_clients l !! k) as [c|] eqn:Hc.
  - destruct (view_Some k l c Hwf Hc) as (b & Hh & ->). rewrite (allow_hit _ _ _ _ _ _ Hc Hh).
    split; [done|]. split; [|split; [|done]].
    + unfold view. simpl. rewrite lookup_insert_eq. simpl.
      by rewrite list_lookup_insert_eq by (by eapply Hwf).
    + intros k' Hk. unfold view. simpl. rewrite lookup_insert_ne by done.
      destruct (l_clients l !! k') as [c'|] eqn:Hc'; [|done]. simpl.
      rewrite list_lookup_insert_ne; [done|]. intros E. apply Hk, eq_sym. by eapply Hwf.
  - rewrite view_None, allow_miss by done. split; [done|]. split; [|split; [|done]].
    + unfold view. simpl. rewrite lookup_insert_eq. simpl. by rewrite list_lookup_middle.
    + intros k' Hk. unfold view. simpl. rewrite lookup_insert_ne by done.
      destruct (l_clients l !! k') as [c'|] eqn:Hc'; [|done]. simpl.
      rewrite lookup_app_l; [done|]. by eapply Hwf.
Qed.

Lemma sweep_wf cutoff l : limiter_wf l -> limiter_wf (sweep cutoff l).
Proof.
  intros [Hb Hinj]. split; simpl.
  - intros k c [Hc _]%map_lookup_filter_Some. eauto.
  - intros k k' c c' [Hc _]%map_lookup_filter_Some [Hc' _]%map_lookup_filter_Some. eauto.
Qed.

Lemma sweep_view cutoff k l :
  view k (sweep cutoff l) =
  match view k l with
  | Some (t, b) => if decide (t < cutoff) then None else Some (t, b)
  | None => None
  end.
Proof.
  unfold view, sweep. simpl. destruct (l_clients l !! k) as [c|] eqn:Hc; simpl.
  - destruct (l_heap l !! limiter c) as [b|] eqn:Hb; simpl.
    + case_decide as Hd.
      * rewrite (proj2 (map_lookup_filter_None _ _ _)); [done|]. right. intros x ?. by simplify_eq/=; intros Hn.
      * by rewrite (proj2 (map_lookup_filter_Some _ _ _ c)); simpl; [rewrite Hb|].
    + destruct (filter _ (l_clients l) !! k) as [c'|] eqn:E; [|done].
      apply map_lookup_filter_Some in E as [E _]. simplify_eq/=. by rewrite Hb.
  - by rewrite (proj2 (map_lookup_filter_None _ _ _)) by auto.
Qed.

Lemma new_limiter_wf rps burst : limiter_wf (NewLimiter rps burst).
Proof. split; simpl; intros *; by rewrite lookup_empty. Qed.

(** ** Isolation *)

(** Operations that can matter to key [k]: its own requests and cleanups. *)
Definition concerns k (o : lop) : Prop := match o with OpAllow k' _ => k' = k | OpCleanup _ => True end.

#[export] Instance concerns_dec k o : Decision (concerns k o).
Proof. destruct o; simpl; apply _. Defined.

Lemma isolation_sim k ops l l' :
  limiter_wf l -> limiter_wf l' -> same_params l l' -> view k l = view k l' ->
  filter (fun p => p.1 = k) (run_limiter ops l) = run_limiter (filter (concerns k) ops) l'.
Proof.
  revert l l'. induction ops as [|[k0 t|t] ops IH]; intros l l' Hwf Hwf' Hp Hv; [done|..];
    cbn [run_limiter].
  - destruct (allow_view k0 t t l Hwf) as (Hr & Hv0 & Hoth & Hp0). destruct (decide (k0 = k)) as [->|Hne].
    + rewrite !filter_cons_True by done. cbn [run_limiter]. cbv zeta.
      destruct (allow_view k t t l' Hwf') as (Hr' & Hv0' & _ & Hp0').
      assert (bucket_for k l = bucket_for k l') as Hb.
      { unfold bucket_for, fresh_bucket. rewrite Hv. destruct Hp as (-> & -> & _). done. }
      f_equal; [by rewrite Hr, Hr', Hb|]. apply IH; [by apply allow_wf..| |by rewrite Hv0, Hv0', Hb].
      unfold same_params in *. intuition congruence.
    + rewrite !filter_cons_False by done. apply IH; [by apply allow_wf|done| |].
      * unfold same_params in *. intuition congruence.
      * by rewrite Hoth.
  - rewrite (filter_cons_True (concerns k)) by done. cbn [run_limiter]. unfold cleanup.
    assert (l_ttl l' = l_ttl l) as -> by apply Hp.
    apply IH; [by apply sweep_wf..|done|]. by rewrite !sweep_view, Hv.
Qed.

(** C31: The answers a client gets depend only on its own requests and on the cleanups: removing all
    other clients' requests from a sequence of operations does not change them. *)
Theorem client_isolation (rps : spec_float) (burst : Z) (ops : list lop) (k : string) :
  filter (fun p => p.1 = k) (run_limiter ops (NewLimiter rps burst)) =
  run_limiter (filter (concerns k) ops) (NewLimiter rps burst).
Proof. apply isolation_sim; [apply new_limiter_wf..|done|done]. Qed.

(** ** Eviction is invisible *)

Lemma run_bucket_app b ts ts' :
  run_bucket b (ts ++ ts') = run_bucket b ts ++ run_bucket (bucket_after b ts) ts'.
Proof. revert b. induction ts as [|t ts IH]; intros b; [done|]. simpl. by rewrite IH. Qed.

Lemma bucket_after_app b ts ts' : bucket_after b (ts ++ ts') = bucket_after (bucket_after b ts) ts'.
Proof. apply foldl_app. Qed.

(** What the limiter remembers of the requests [ts] of one key at time [now]:
    a bucket for the requests since the last long pause, or nothing after
    one. *)
Definition remembers (rps : spec_float) (burst ttl now : Z) (ts : list time) (v : option (time * Bucket)) : Prop :=
  match v with
  | Some (t, b) => exists ts1 ts2, ts = ts1 ++ ts2 /\ last ts2 = Some t /\
      b = bucket_after (new_bucket rps burst) ts2 /\ (forall x y, x ∈ ts1 -> y ∈ ts2 -> x + ttl <= y)
  | None => forall x, x ∈ ts -> x + ttl <= now
  end.

(** Either way the next answer is the one of a bucket that saw everything. *)
Lemma remembers_answer rps burst ttl now ts v t :
  refills_within ttl rps burst -> 0 <= ttl -> StronglySorted Z.le (ts ++ [t]) -> now <= t ->
  remembers rps burst ttl now ts v ->
  (bucket_allow t (match v with Some (_, b) => b | None => new_bucket rps burst end)).1 =
  (bucket_allow t (bucket_after (new_bucket rps burst) ts)).1.
Proof.
  intros Hrefill Httl Hsort Hnow. destruct v as [[t0 b]|]; simpl.
  - intros (ts1 & ts2 & -> & Hlast & -> & Hgap).
    assert (run_bucket (bucket_after (new_bucket rps burst) ts1) (ts2 ++ [t]) = run_bucket (new_bucket rps burst) (ts2 ++ [t])) as E.
    { apply Hrefill; [by rewrite app_assoc|]. intros x y Hx [Hy|Hy%list_elem_of_singleton]%elem_of_app; [auto|].
      subst y. assert (t0 ∈ ts2) as Ht0 by (by apply last_Some_elem_of).
      specialize (Hgap x t0 Hx Ht0).
      assert (t0 <= t); [|lia]. eapply (StronglySorted_app_1_elem_of _ _ _ _ _ Hsort);
        [apply elem_of_app; by right|apply list_elem_of_here]. }
    rewrite !run_bucket_app in E. apply app_inj_2 in E as [_ E]; [|done]. simpl in E.
    rewrite bucket_after_app. congruence.
  - intros Hgap. specialize (Hrefill ts [t] Hsort).
    assert (forall x y, x ∈ ts -> y ∈ [t] -> x + ttl <= y) as Hg.
    { intros x y Hx Hy%list_elem_of_singleton. subst. specialize (Hgap x Hx). lia. }
    specialize (Hrefill Hg). simpl in Hrefill. congruence.
Qed.

(** After a request the bucket remembers it too. *)
Lemma remembers_request rps burst ttl now ts v t :
  Forall (fun x => x <= now) ts -> now <= t -> remembers rps burst ttl now ts v ->
  remembers rps burst ttl t (ts ++ [t])
    (Some (t, (bucket_allow t (match v with Some (_, b) => b | None => new_bucket rps burst end)).2)).
Proof.
  intros Hle Hnow. rewrite Forall_forall in Hle. destruct v as [[t0 b]|]; simpl.
  - intros (ts1 & ts2 & -> & Hlast & -> & Hgap). exists ts1, (ts2 ++ [t]).
    rewrite app_assoc, last_snoc, bucket_after_app. do 3 (split; [done|]).
    intros x y Hx [Hy|Hy%list_elem_of_singleton]%elem_of_app; [auto|]. subst y.
    apply last_Some_elem_of in Hlast. specialize (Hgap x t0 Hx Hlast).
    assert (t0 <= now) by (apply Hle, elem_of_app; by right). lia.
  - intros Hgap. exists ts, [t]. do 3 (split; [done|]).
    intros x y Hx Hy%list_elem_of_singleton. subst. specialize (Hgap x Hx). lia.
Qed.

Lemma remembers_later rps burst ttl now now' ts v :
  now <= now' -> remembers rps burst ttl now ts v -> remembers rps burst ttl now' ts v.
Proof. intros Hn. destruct v as [[t0 b]|]; simpl; [done|]. intros Hg x Hx. specialize (Hg x Hx). lia. Qed.

(** A cleanup forgets only what a fresh bucket would answer as well. *)
Lemma remembers_cleanup rps burst ttl now ts v t :
  StronglySorted Z.le ts -> now <= t -> remembers rps burst ttl now ts v ->
  remembers rps burst ttl t ts
    (match v with Some (t0, b) => if decide (t0 < t - ttl) then None else Some (t0, b) | None => None end).
Proof.
  intros Hsort Hnow. destruct v as [[t0 b]|]; [|by apply remembers_later]. case_decide as Hd; [|done].
  intros (ts1 & ts2 & -> & Hlast & -> & Hgap) x Hx.
  assert (x <= t0); [|lia]. apply last_Some in Hlast as [ts3 ->]. rewrite app_assoc in Hsort, Hx.
  apply elem_of_app in Hx as [Hx|Hx%list_elem_of_singleton]; [|lia].
  eapply (StronglySorted_app_1_elem_of _ _ _ _ _ Hsort); [done|apply list_elem_of_here].
Qed.

Lemma times_of_sublist k ops : times_of k ops `sublist_of` (lop_time <$> ops).
Proof.
  induction ops as [|o ops IH]; [constructor|]. unfold times_of in *. rewrite fmap_cons. cbn [omap list_omap].
  destruct o as [k' t|t]; [case_decide|]; by constructor.
Qed.

Lemma sublist_sorted (ts ts' : list time) : ts `sublist_of` ts' -> StronglySorted Z.le ts' -> StronglySorted Z.le ts.
Proof.
  induction 1 as [|x l1 l2 Hsub IH|x l1 l2 Hsub IH]; intros Hs; [done|..];
    apply StronglySorted_cons in Hs as [Hx Hs]; [|by auto].
  apply StronglySorted_cons. split; [|by auto].
  rewrite Forall_forall in *. intros y Hy. apply Hx. by eapply elem_of_sublist.
Qed.

Lemma times_of_snoc k past o :
  times_of k (past ++ [o]) =
  times_of k past ++ match o with OpAllow k' t => if decide (k' = k) then [t] else [] | _ => [] end.
Proof.
  unfold times_of. rewrite omap_app. f_equal. destruct o as [k' t|t]; [|done].
  cbn [omap list_omap]. by case_decide.
Qed.

(** The limiter after the operations [past]. *)
Definition limiter_after (rps : spec_float) (burst ttl now : Z) (past : list lop) l : Prop :=
  limiter_wf l /\ l_rps l = rps /\ l_burst l = burst /\ l_ttl l = ttl /\
  Forall (fun x => x <= now) (lop_time <$> past) /\
  forall k, remembers rps burst ttl now (times_of k past) (view k l).

Lemma limiter_after_step rps burst ttl now past l o :
  limiter_after rps burst ttl now past l ->
  StronglySorted Z.le (lop_time <$> past) -> now <= lop_time o ->
  limiter_after rps burst ttl (lop_time o) (past ++ [o])
    (match o with OpAllow k t => (Allow k t t l).2 | OpCleanup t => cleanup t l end).
Proof.
  intros (Hwf & Hr & Hb & Ht & Hle & Hrem) Hsort Hnow.
  assert (Forall (fun x => x <= lop_time o) (lop_time <$> past ++ [o])) as Hle'.
  { rewrite fmap_app. apply Forall_app. split; [|by constructor].
    eapply Forall_impl; [exact Hle|]. simpl. lia. }
  destruct o as [k t|t]; simpl in Hnow, Hle'.
  - destruct (allow_view k t t l Hwf) as (_ & Hk & Hoth & P1 & P2 & P3).
    split; [by apply allow_wf|]. do 3 (split; [congruence|]). split; [done|].
    intros k'. rewrite times_of_snoc. destruct (decide (k = k')) as [<-|Hne].
    + rewrite Hk. unfold bucket_for, fresh_bucket. rewrite Hr, Hb.
      eapply remembers_request; [|exact Hnow|by apply Hrem].
      rewrite Forall_forall in *. intros x Hx. apply Hle. by eapply elem_of_sublist; [|apply times_of_sublist].
    + rewrite app_nil_r, Hoth by done. by eapply remembers_later.
  - split; [by apply sweep_wf|]. do 4 (split; [done|]). intros k. rewrite times_of_snoc, app_nil_r.
    unfold cleanup. rewrite sweep_view, Ht. eapply remembers_cleanup; [|exact Hnow|done].
    eapply sublist_sorted; [apply times_of_sublist|done].
Qed.

Lemma equivalence_sim rps burst ttl ops past now l :
  refills_within ttl rps burst -> 0 <= ttl ->
  limiter_after rps burst ttl now past l ->
  StronglySorted Z.le (lop_time <$> past ++ ops) -> Forall (fun o => now <= lop_time o) ops ->
  run_limiter ops l = run_reference rps burst past ops.
Proof.
  intros Hrefill Httl. revert past now l. induction ops as [|o ops IH]; intros past now l Hl Hsort Hnow; [done|].
  apply Forall_cons in Hnow as [Hnow _].
  assert (StronglySorted Z.le (lop_time <$> past)) as Hpast
    by (rewrite fmap_app in Hsort; by apply StronglySorted_app_1_l in Hsort).
  assert (Forall (fun o' => lop_time o <= lop_time o') ops) as Hlater.
  { rewrite fmap_app, fmap_cons in Hsort. apply StronglySorted_app_1_r, StronglySorted_cons in Hsort as [Hs _].
    rewrite Forall_fmap in Hs. exact Hs. }
  pose proof (limiter_after_step _ _ _ _ _ _ o Hl Hpast Hnow) as Hl'.
  specialize (IH (past ++ [o]) _ _ Hl'). rewrite <- app_assoc in IH. specialize (IH Hsort Hlater).
  destruct o as [k t|t]; cbn [run_limiter run_reference]; cbv zeta; [|done].
  f_equal; [f_equal|done]. destruct Hl as (Hwf & Hr & Hb & Ht & _ & Hrem).
  destruct (allow_view k t t l Hwf) as (-> & _). unfold bucket_for, fresh_bucket. rewrite Hr, Hb.
  eapply (remembers_answer rps burst ttl now); [done|done| |done|apply Hrem].
  assert (times_of k (past ++ [OpAllow k t]) = times_of k past ++ [t]) as <-
    by (by rewrite times_of_snoc, decide_True).
  eapply sublist_sorted; [apply times_of_sublist|]. eapply sublist_sorted; [|exact Hsort].
  apply fmap_sublist, sublist_app; [done|]. apply sublist_skip, sublist_nil_l.
Qed.

(** C30: For any sequence of requests and cleanups in time order the limiter answers exactly as the
    reference that keeps one bucket per client for ever, provided a bucket left alone for the ten
    minutes of the time to live behaves like a new one. *)
Theorem eviction_invisible (rps : spec_float) (burst : Z) (ops : list lop) :
  refills_within (10 * time_minute) rps burst ->
  StronglySorted Z.le (lop_time <$> ops) ->
  run_limiter ops (NewLimiter rps burst) = run_reference rps burst [] ops.
Proof.
  intros Hrefill Hsort. destruct ops as [|o ops]; [done|].
  eapply (equivalence_sim _ _ _ _ [] (lop_time o)); [exact Hrefill|by compute| |done|].
  - split; [apply new_limiter_wf|]. do 3 (split; [done|]). split; [constructor|].
    intros k. unfold view. simpl. rewrite lookup_empty. simpl. intros x Hx. by apply elem_of_nil in Hx.
  - rewrite fmap_cons in Hsort. apply StronglySorted_cons in Hsort as [Hs _]. rewrite Forall_fmap in Hs.
    constructor; [lia|]. exact Hs.
Qed.

(** ** Memory *)

Definition limiter_step l (o : lop) : Limiter :=
  match o with OpAllow k t => (Allow k t t l).2 | OpCleanup t => cleanup t l end.

Definition run_state (ops : list lop) l : Limiter := foldl limiter_step l ops.

(** The keys a limiter holds an entry for. *)
Definition known l : gset string := dom (l_clients l).

(** The keys requested at [from] or later, and at any time. *)
Definition keys_since (from : time) (ops : list lop) : gset string :=
  list_to_set (omap (fun o => match o with
    | OpAllow k t => if decide (from <= t) then Some k else None
    | OpCleanup _ => None end) ops).

Definition keys_in (ops : list lop) : gset string :=
  list_to_set (omap (fun o => match o with OpAllow k _ => Some k | OpCleanup _ => None end) ops).

Lemma elem_of_keys_since from k ops : k ∈ keys_since from ops <-> exists t, OpAllow k t ∈ ops /\ from <= t.
Proof.
  unfold keys_since. rewrite elem_of_list_to_set, list_elem_of_omap. split.
  - intros ([k' t|t] & Hin & E); [|done]. case_decide; simplify_eq. eauto.
  - intros (t & Hin & Ht). exists (OpAllow k t). by rewrite decide_True.
Qed.

(** Entries are stamped by requests. *)
Definition stamped (ops : list lop) l : Prop :=
  forall k c, l_clients l !! k = Some c -> OpAllow k (lastSeen c) ∈ ops.

Lemma allow_clients k t t' l :
  exists p, l_clients (Allow k t t' l).2 = <[k := mkClient p t]> (l_clients l) /\ l_ttl (Allow k t t' l).2 = l_ttl l.
Proof.
  unfold Allow, bind, allow_locked, take_token.
  destruct (l_clients l !! k); simpl; case_match; simpl; eauto.
Qed.

Lemma run_state_stamped rps burst ops :
  stamped ops (run_state ops (NewLimiter rps burst)) /\
  l_ttl (run_state ops (NewLimiter rps burst)) = 10 * time_minute.
Proof.
  induction ops as [|o ops [IH Httl]] using rev_ind; [split; [|done]; intros k c; simpl; by rewrite lookup_empty|].
  unfold run_state in *. rewrite foldl_app. simpl. set (l := foldl limiter_step _ ops) in *.
  destruct o as [k t|t]; simpl.
  - destruct (allow_clients k t t l) as (p & Hc & Ht). split; [|congruence]. intros k' c. rewrite Hc.
    rewrite lookup_insert_Some. intros [[<- <-]|[_ Hk']]; apply elem_of_app; [right|left; by apply IH].
    apply list_elem_of_here.
  - split; [|done]. intros k c. simpl. intros [Hc _]%map_lookup_filter_Some. apply elem_of_app. left. by apply IH.
Qed.

Lemma known_step l o : known (limiter_step l o) ⊆ known l ∪ keys_in [o].
Proof.
  destruct o as [k t|t]; simpl.
  - destruct (allow_clients k t t l) as (p & Hc & _). unfold known, keys_in. rewrite Hc, dom_insert. simpl. set_solver.
  - unfold known, cleanup, sweep. simpl.
    pose proof (dom_filter_subseteq (fun kc => ~ lastSeen kc.2 < t - l_ttl l) (l_clients l)). set_solver.
Qed.

Lemma keys_in_cons o ops : keys_in (o :: ops) = keys_in [o] ∪ keys_in ops.
Proof. destruct o; unfold keys_in; simpl; set_solver. Qed.

Lemma known_run ops l : known (run_state ops l) ⊆ known l ∪ keys_in ops.
Proof.
  revert l. induction ops as [|o ops IH]; intros l; [set_solver|].
  pose proof (IH (limiter_step l o)) as H1. pose proof (known_step l o) as H2.
  rewrite (keys_in_cons o ops). simpl in *. set_solver.
Qed.

(** After a cleanup the table holds only clients seen within the time to live before it or
    since it: its size is bounded by the recent clients. *)
Theorem idle_forgotten (rps : spec_float) (burst : Z) (before after : list lop) (tick : time) :
  known (run_state (before ++ OpCleanup tick :: after) (NewLimiter rps burst)) ⊆
  keys_since (tick - 10 * time_minute) before ∪ keys_in after.
Proof.
  unfold run_state. rewrite foldl_app. simpl. fold (run_state before (NewLimiter rps burst)).
  destruct (run_state_stamped rps burst before) as [Hst Httl].
  set (l := run_state before (NewLimiter rps burst)) in *.
  pose proof (known_run after (cleanup tick l)) as Hk. unfold run_state in Hk.
  enough (known (cleanup tick l) ⊆ keys_since (tick - 10 * time_minute) before) by set_solver.
  intros k. unfold known. rewrite elem_of_dom. intros [c Hc]. apply map_lookup_filter_Some in Hc as [Hc Hd].
  simpl in Hd. rewrite Httl in Hd. apply elem_of_keys_since. exists (lastSeen c). split; [by apply Hst|lia].
Qed.

(** ** Interleavings *)

(** Who may use which bucket: an entry of the table, or a goroutine between
    the lock and the call on the bucket. *)
Definition uses (s : LState) k (p : nat) : Prop :=
  (exists c, l_clients (ls_limiter s) !! k = Some c /\ limiter c = p) \/
  (exists g, ls_waiting s !! g = Some (k, p)).

Definition unshared (s : LState) : Prop :=
  (forall k p, uses s k p -> (p < length (l_heap (ls_limiter s)))%nat) /\
  (forall k k' p, uses s k p -> uses s k' p -> k = k').

Definition lstart (rps : spec_float) (burst : Z) : LState := mkLState (NewLimiter rps burst) ∅ None.

(** A step that adds no use and keeps the heap's size keeps the invariant. *)
Lemma unshared_shrink s s' :
  unshared s -> length (l_heap (ls_limiter s')) = length (l_heap (ls_limiter s)) ->
  (forall k p, uses s' k p -> uses s k p) -> unshared s'.
Proof. intros [H1 H2] Hl Hu. split; [rewrite Hl|]; eauto. Qed.

Lemma lock_uses g key now l wt co k p :
  uses (mkLState (allow_locked key now l).2 (<[g := (key, (allow_locked key now l).1)]> wt) co) k p ->
  uses (mkLState l wt co) k p \/
  (k = key /\ p = length (l_heap l) /\ l_clients l !! key = None).
Proof.
  unfold uses, allow_locked. destruct (l_clients l !! key) as [c0|] eqn:Hc0; simpl.
  - intros [(c & Hc & <-)|(g' & Hg)]; left.
    + apply lookup_insert_Some in Hc as [[<- <-]|[_ Hc]]; left; eauto.
    + apply lookup_insert_Some in Hg as [[_ [= <- <-]]|[_ Hg]]; [left|right]; eauto.
  - intros [(c & Hc & <-)|(g' & Hg)].
    + apply lookup_insert_Some in Hc as [[<- <-]|[_ Hc]]; [right|left; left]; eauto.
    + apply lookup_insert_Some in Hg as [[_ [= <- <-]]|[_ Hg]]; [right|left; right]; eauto.
Qed.

Lemma lock_heap key now l :
  length (l_heap (allow_locked key now l).2) =
  (length (l_heap l) + if decide (l_clients l !! key = None) then 1 else 0)%nat.
Proof.
  unfold allow_locked. destruct (l_clients l !! key); simpl; [lia|]. by rewrite length_app.
Qed.

Lemma lstep_unshared s s' : unshared s -> lstep s s' -> unshared s'.
Proof.
  intros Hs Hstep. destruct Hstep as [g key now l wt co Hg|g key p now l wt co Hg|now l wt|cutoff l wt].
  - destruct Hs as [H1 H2]. pose proof (lock_heap key now l) as Hlen. split; cbn [ls_limiter] in *.
    + intros k p [Hu|(-> & -> & Hn)]%lock_uses; rewrite Hlen; [specialize (H1 _ _ Hu); simpl in H1; lia|].
      rewrite decide_True by done. lia.
    + intros k k' p Hu Hu'. apply lock_uses in Hu as [Hu|(-> & -> & Hn)], Hu' as [Hu'|(-> & Hp & Hn')]; eauto.
      * specialize (H1 _ _ Hu). simpl in H1. lia.
      * specialize (H1 _ _ Hu'). simpl in H1. lia.
  - eapply unshared_shrink; [exact Hs|simpl; unfold take_token; case_match; simpl; rewrite ?length_insert; done|].
    intros k q [(c & Hc & <-)|(g' & Hg')].
    + left. exists c. split; [|done]. revert Hc. simpl. unfold take_token. by case_match.
    + right. exists g'. simpl in Hg'. by apply lookup_delete_Some in Hg' as [_ ?].
  - by eapply unshared_shrink.
  - eapply unshared_shrink; [exact Hs|done|]. intros k q [(c & Hc & <-)|Hg]; [left|by right].
    simpl in Hc. apply map_lookup_filter_Some in Hc as [Hc _]. by exists c.
Qed.

(** C32: Under every interleaving of goroutines between the locked part of Allow, the call on the
    bucket and the two halves of the cleanup, no two clients use the same bucket and every bucket in
    use exists. *)
Theorem buckets_never_shared (rps : spec_float) (burst : Z) (s : LState) :
  rtc lstep (lstart rps burst) s -> unshared s.
Proof.
  intros Hs. remember (lstart rps burst) as s0 eqn:E. assert (unshared s0) as H0.
  { subst. split; intros *; unfold uses; simpl; setoid_rewrite lookup_empty; naive_solver. }
  clear E. induction Hs as [|s1 s2 s3 Hstep Hs IH]; [done|]. apply IH. by eapply lstep_unshared.
Qed.
End limiter_spec.
