(* ===== verification/GoUrl.v ===== *)
(** * [net/url.Parse], as far as the proxy looks at its result

    The scheme, authority and path split, the percent-escape rules of each
    part, and the port check: which strings parse, and with which host. The
    check of a bracketed address literal differs between Go releases and stays
    a parameter ([UrlRelease]). *)

From S2P Require Export GoHttp.
From Stdlib Require Import Ascii.

Class UrlRelease := { bracket_ok : string -> bool }.

Record URL := mkURL {
  u_Scheme : string; u_Opaque : string; u_Host : string; u_Path : string; u_RawPath : string; u_RawQuery : string }.

(** ** Characters *)

Definition is_alpha (c : ascii) : bool := is_upper c || is_lower c.
Definition is_alnum (c : ascii) : bool := is_alpha c || is_digit c.
Definition is_ctl (c : ascii) : bool := (byte_of c <? 32)%Z || (byte_of c =? 127)%Z.

Definition dquote : string := String (of_byte 34) "".

Definition host_char (c : ascii) : bool :=
  is_alnum c || char_in c ("!$&'()*+,;=:[]<>" +:+ dquote +:+ "-_.~").

Definition hex_digit (c : ascii) : option Z :=
  let b := byte_of c in
  if is_digit c then Some (b - 48)%Z
  else if ((97 <=? b) && (b <=? 102))%Z then Some (b - 87)%Z
  else if ((65 <=? b) && (b <=? 70))%Z then Some (b - 55)%Z
  else None.

Fixpoint any_byte (p : ascii -> bool) (s : string) : bool :=
  match s with EmptyString => false | String c s => p c || any_byte p s end.

(** [strings.Index]: the first occurrence of a substring. *)
Fixpoint index_str (p s : string) : option nat :=
  if has_prefix p s then Some 0
  else match s with EmptyString => None | String _ s => S <$> index_str p s end.

(** ** Percent escapes *)

Inductive encoding := encodePath | encodeHost | encodeZone | encodeUserPassword | encodeFragment.

(** [unescape]; [None] is its error. *)
Fixpoint unescape (mode : encoding) (s : string) : option string :=
  match s with
  | EmptyString => Some ""
  | String c s =>
      if decide (c = "%"%char) then
        match s with
        | String a (String b s') =>
            match hex_digit a, hex_digit b with
            | Some x, Some y =>
                let v := of_byte (x * 16 + y) in
                let is25 := bool_decide (x * 16 + y = 37)%Z in
                let bad := match mode with
                  | encodeHost => (x <? 8)%Z && negb is25
                  | encodeZone => negb is25 && negb (byte_of v =? 32)%Z && negb (host_char v)
                  | _ => false end in
                if bad then None else String v <$> unescape mode s'
            | _, _ => None
            end
        | _ => None
        end
      else
        let bad := match mode with
          | encodeHost | encodeZone => (byte_of c <? 128)%Z && negb (host_char c)
          | _ => false end in
        if bad then None else String c <$> unescape mode s
  end.

(** [shouldEscape] and [escape] for a path. *)
Definition path_escaped (c : ascii) : bool := negb (is_alnum c || char_in c "-_.~$&+,/:;=@").

Definition upper_hex (d : Z) : ascii := of_byte (if (d <? 10)%Z then 48 + d else 55 + d).

Fixpoint escape_path (s : string) : string :=
  match s with
  | EmptyString => ""
  | String c s =>
      if path_escaped c then
        String "%"%char (String (upper_hex (byte_of c / 16)) (String (upper_hex (byte_of c mod 16)) (escape_path s)))
      else String c (escape_path s)
  end.

Definition validEncoded (s : string) : bool :=
  all_bytes (fun c => char_in c "!$&'()*+,;=:@[]%" || negb (path_escaped c)) s.

(** [setPath]: the path, and its raw form when the default encoding differs. *)
Definition setPath (p : string) : option (string * string) :=
  path ← unescape encodePath p;
  Some (path, if decide (p = escape_path path) then "" else p).

(** [EscapedPath]. *)
Definition escaped_path (path rawPath : string) : string :=
  if negb (bool_decide (rawPath = "")) && validEncoded rawPath &&
     bool_decide (unescape encodePath rawPath = Some path) then rawPath
  else if decide (path = "*") then "*" else escape_path path.

(** ** The parts of a URL *)

(** [getScheme]: scheme and rest; [None] is the missing-scheme error. *)
Fixpoint get_scheme_loop (first : bool) (acc s raw : string) : option (string * string) :=
  match s with
  | EmptyString => Some ("", raw)
  | String c s =>
      if is_alpha c then get_scheme_loop false (acc +:+ String c "") s raw
      else if is_digit c || char_in c "+-." then
        if first then Some ("", raw) else get_scheme_loop false (acc +:+ String c "") s raw
      else if decide (c = ":"%char) then if first then None else Some (acc, s)
      else Some ("", raw)
  end.

Definition getScheme (raw : string) : option (string * string) := get_scheme_loop true "" raw raw.

Definition validOptionalPort (port : string) : bool :=
  match port with
  | EmptyString => true
  | String c p => bool_decide (c = ":"%char) && all_bytes is_digit p
  end.

Definition validUserinfo (s : string) : bool :=
  all_bytes (fun c => is_alnum c || char_in c "-._:~!$&'()*+,;=%@") s.

Definition parseHost `{UrlRelease} (host : string) : option string :=
  if has_prefix "[" host then
    match last_index_byte "]"%char host with
    | None => None
    | Some i =>
        if validOptionalPort (str_drop (S i) host) then
          if bracket_ok (str_take i host) then
            match index_str "%25" (str_take i host) with
            | Some zone =>
                h1 ← unescape encodeHost (str_take zone host);
                h2 ← unescape encodeZone (str_drop zone (str_take i host));
                h3 ← unescape encodeHost (str_drop i host);
                Some (h1 +:+ h2 +:+ h3)
            | None => unescape encodeHost host
            end
          else None
        else None
    end
  else
    match last_index_byte ":"%char host with
    | Some i => if validOptionalPort (str_drop i host) then unescape encodeHost host else None
    | None => unescape encodeHost host
    end.

Definition parseAuthority `{UrlRelease} (authority : string) : option string :=
  match last_index_byte "@"%char authority with
  | None => parseHost authority
  | Some i =>
      host ← parseHost (str_drop (S i) authority);
      let userinfo := str_take i authority in
      if validUserinfo userinfo then
        match cut ":"%char userinfo with
        | None => _ ← unescape encodeUserPassword userinfo; Some host
        | Some (u, p) =>
            _ ← unescape encodeUserPassword u; _ ← unescape encodeUserPassword p; Some host
        end
      else None
  end.

Fixpoint count_char (c : ascii) (s : string) : nat :=
  match s with
  | EmptyString => 0
  | String d s => (if decide (c = d) then 1 else 0) + count_char c s
  end.

Definition split_query (rest : string) : string * string :=
  if bool_decide (last_index_byte "?"%char rest = Some (pred (String.length rest))) &&
     (count_char "?"%char rest =? 1)%nat
  then (str_take (pred (String.length rest)) rest, "")
  else match cut "?"%char rest with Some (a, b) => (a, b) | None => (rest, "") end.

(** [parse] with [viaRequest = false]. *)
Definition parse_url `{UrlRelease} (raw : string) : option URL :=
  if any_byte is_ctl raw then None
  else if decide (raw = "*") then Some (mkURL "" "" "" "*" "" "")
  else
    '(scheme, rest) ← getScheme raw;
    let scheme := ascii_lower scheme in
    let '(rest, query) := split_query rest in
    if negb (has_prefix "/" rest) && negb (bool_decide (scheme = "")) then
      Some (mkURL scheme rest "" "" "" query)
    else if negb (has_prefix "/" rest) &&
            char_in ":"%char (match cut "/"%char rest with Some (seg, _) => seg | None => rest end) then None
    else
      '(host, path) ←
        (if (negb (bool_decide (scheme = "")) || negb (has_prefix "///" rest)) && has_prefix "//" rest then
           let authority := str_drop 2 rest in
           match index_byte "/"%char authority with
           | Some i => h ← parseAuthority (str_take i authority); Some (h, str_drop i authority)
           | None => h ← parseAuthority authority; Some (h, "")
           end
         else Some ("", rest));
      '(path, rawPath) ← setPath path;
      Some (mkURL scheme "" host path rawPath query).

(** [url.Parse]. *)
Definition url_parse `{UrlRelease} (raw : string) : option URL :=
  match cut "#"%char raw with
  | None => parse_url raw
  | Some (u, frag) => url ← parse_url u; _ ← unescape encodeFragment frag; Some url
  end.

(** ** Examples *)

Section examples.
Local Instance any_release : UrlRelease := {| bracket_ok _ := true |}.

Example url_plain : u_Host <$> url_parse "http://127.0.0.1:8080/app?x=1" = Some "127.0.0.1:8080".
Proof. reflexivity. Qed.
Example url_v6 : u_Host <$> url_parse "https://u:p@[::1]:8443" = Some "[::1]:8443".
Proof. reflexivity. Qed.
Example url_no_scheme : url_parse "localhost:8080" = Some (mkURL "localhost" "8080" "" "" "" "").
Proof. reflexivity. Qed.
Example url_ip_no_scheme : url_parse "127.0.0.1:8080" = None.
Proof. reflexivity. Qed.
Example url_bad_port : url_parse "http://host:8x" = None.
Proof. reflexivity. Qed.
Example url_bad_escape : url_parse "http://host/%zz" = None.
Proof. reflexivity. Qed.
Example url_paths :
  fmap (fun u => (u_Path u, u_RawPath u)) <$> (url_parse <$> ["http://h/a%20b"; "http://h/a%2Fb"; "http://h/a b"]) =
  [Some ("/a b", ""); Some ("/a/b", "/a%2Fb"); Some ("/a b", "/a b")].
Proof. reflexivity. Qed.
Example escaped_paths :
  [escaped_path "/a b" ""; escaped_path "/a/b" "/a%2Fb"; escaped_path "/a b" "/a b"; escaped_path "/[x]" "/[x]"] =
  ["/a%20b"; "/a%2Fb"; "/a%20b"; "/[x]"].
Proof. reflexivity. Qed.
End examples.
