(* ===== verification/ReverseProxy.v ===== *)
(** * The reverse proxy ([net/http/httputil], as [proxy.newReverseProxy] uses it)

    [NewSingleHostReverseProxy]: what the upstream is asked, and what of its
    answer the client gets. The exchange with the upstream itself is
    [http.Transport]'s and a parameter. *)

From S2P Require Export GoUrl.
From Stdlib Require Import Ascii.

(** ** Header maps *)

(** Canonical keys with their values. *)
Abbreviation Header := (list (string * list string)).

Definition h_values (k : string) (h : Header) : list string := default [] (lookup_key k h).
Definition h_get (k : string) (h : Header) : string := default "" (head (h_values k h)).
Definition h_del (k : string) (h : Header) : Header := filter (fun p => p.1 <> k) h.
Definition h_set (k v : string) (h : Header) : Header := h_del k h ++ [(k, [v])].

(** [copyHeader] to the client's header map. *)
Definition copyHeader (h : Header) : list wop := h ≫= fun '(k, vs) => AddHeader k <$> vs.

(** ** Tokens *)

Fixpoint trim_left_of (p : ascii -> bool) (s : string) : string :=
  match s with
  | String c s' => if p c then trim_left_of p s' else s
  | EmptyString => ""
  end.

Definition rev_string (s : string) : string := of_bytes (rev (bytes_of s)).
Definition trim_of (p : ascii -> bool) (s : string) : string :=
  rev_string (trim_left_of p (rev_string (trim_left_of p s))).

Definition is_ows (c : ascii) : bool := (byte_of c =? 32)%Z || (byte_of c =? 9)%Z.
Definition is_mime_space (c : ascii) : bool := is_ows c || (byte_of c =? 10)%Z || (byte_of c =? 13)%Z.

(** [httpguts.HeaderValuesContainsToken]; a token is in ASCII. *)
Definition token_equal (a b : string) : bool := is_ascii a && bool_decide (ascii_lower a = ascii_lower b).
Definition values_contain_token (token : string) (vs : list string) : bool :=
  existsb (fun v => existsb (fun e => token_equal (trim_of is_ows e) token) (split_on ","%char v)) vs.

(** [ascii.IsPrint] and [ascii.EqualFold]. *)
Definition is_print (s : string) : bool := all_bytes (fun c => (32 <=? byte_of c)%Z && (byte_of c <=? 126)%Z) s.
Definition equal_fold (a b : string) : bool := bool_decide (ascii_lower a = ascii_lower b).

Definition upgradeType (h : Header) : string :=
  if values_contain_token "Upgrade" (h_values "Connection" h) then h_get "Upgrade" h else "".

Definition hopHeaders : list string :=
  ["Connection"; "Proxy-Connection"; "Keep-Alive"; "Proxy-Authenticate"; "Proxy-Authorization"; "Te"; "Trailer";
   "Transfer-Encoding"; "Upgrade"].

(** The headers a Connection header names. *)
Definition connection_named (h : Header) : list string :=
  h_values "Connection" h ≫= fun f =>
    omap (fun sf => let sf := trim_of is_mime_space sf in
                    if decide (sf = "") then None else Some (canonical_key sf)) (split_on ","%char f).

Definition removeHopByHopHeaders (h : Header) : Header :=
  foldl (fun h k => h_del k h) h (connection_named h ++ hopHeaders).

(** ** The request to the upstream *)

Record OutRequest := mkOut {
  out_method : string;
  out_scheme : string;
  out_addr : string;              (* URL.Host: where it is sent *)
  out_host : string;              (* the Host header *)
  out_path : string;
  out_raw_path : string;
  out_raw_query : string;
  out_header : Header;
  out_transfer_encoding : list string;
  out_content_length : Z;
  out_body : option string }.

Definition singleJoiningSlash (a b : string) : string :=
  match has_suffix "/" a, has_prefix "/" b with
  | true, true => a +:+ str_drop 1 b
  | false, false => a +:+ "/" +:+ b
  | _, _ => a +:+ b
  end.

(** The path and its raw form: slashes are looked for in the escaped paths. *)
Definition joinURLPath (target : URL) (path rawPath : string) : string * string :=
  if bool_decide (u_RawPath target = "" /\ rawPath = "") then (singleJoiningSlash (u_Path target) path, "")
  else
    let apath := escaped_path (u_Path target) (u_RawPath target) in
    let bpath := escaped_path path rawPath in
    match has_suffix "/" apath, has_prefix "/" bpath with
    | true, true => (u_Path target +:+ str_drop 1 path, apath +:+ str_drop 1 bpath)
    | false, false => (u_Path target +:+ "/" +:+ path, apath +:+ "/" +:+ bpath)
    | _, _ => (u_Path target +:+ path, apath +:+ bpath)
    end.

Definition join_query (a b : string) : string :=
  if bool_decide (a = "" \/ b = "") then a +:+ b else a +:+ "&" +:+ b.

(** The headers added back after the hop-by-hop ones are gone. *)
Definition readd_headers (r : Request) (reqUpType : string) (h : Header) : Header :=
  let h := if values_contain_token "trailers" (h_values "Te" (rq_header r)) then h_set "Te" "trailers" h else h in
  if decide (reqUpType = "") then h else h_set "Upgrade" reqUpType (h_set "Connection" "Upgrade" h).

Definition forwarded_for (r : Request) (h : Header) : Header :=
  match split_host_port (rq_remote_addr r) with
  | inl (clientIP, _) =>
      match lookup_key "X-Forwarded-For" h with
      | Some [] => h
      | Some prior => h_set "X-Forwarded-For" (join ", " prior +:+ ", " +:+ clientIP) h
      | None => h_set "X-Forwarded-For" clientIP h
      end
  | inr _ => h
  end.

Definition no_user_agent (h : Header) : Header :=
  match lookup_key "User-Agent" h with Some _ => h | None => h_set "User-Agent" "" h end.

(** The outgoing request, unless the client asks for an unprintable protocol. *)
Definition outgoing (target : URL) (r : Request) : option OutRequest :=
  let '(path, rawPath) := joinURLPath target (rq_path r) (rq_raw_path r) in
  let reqUpType := upgradeType (rq_header r) in
  if negb (is_print reqUpType) then None
  else
    let h := removeHopByHopHeaders (rq_header r) in
    let h := no_user_agent (forwarded_for r (readd_headers r reqUpType h)) in
    Some (mkOut (rq_method r) (u_Scheme target) (u_Host target) (rq_host r) path rawPath
            (join_query (u_RawQuery target) (rq_raw_query r)) h (rq_transfer_encoding r) (rq_content_length r)
            (if decide (rq_content_length r = 0%Z) then None else rq_body r)).

(** ** The upstream's answer *)

Record UpstreamResponse := mkUpstream {
  ur_status : Z;
  ur_header : Header;
  ur_content_length : Z;          (* -1: unknown *)
  ur_announced : list string;     (* trailers announced before the body *)
  ur_reads : list string;         (* what the reads of the body return, and whether they reach its end *)
  ur_complete : bool;
  ur_trailer : Header }.

(** [http.DefaultTransport]: the informational responses it passes on, then the
    final one or an error. The first argument stands for what the network and
    the upstream do meanwhile. *)
Class Transport := {
  round_trip : N -> OutRequest -> list (Z * Header) * res UpstreamResponse;
  informational_codes : forall n out c h, (c, h) ∈ (round_trip n out).1 -> (100 <= c <= 199)%Z /\ c <> 101%Z
}.

(** [rp.ErrorHandler] as [newReverseProxy] sets it. *)
Definition upstream_unavailable : list wop := http_error "upstream unavailable" 502.

(** [Got1xxResponse]: forwarded at once; the header map is cleared again. *)
Definition forward_1xx (ch : Z * Header) : list wop := copyHeader ch.2 ++ [WriteHeader ch.1; ClearHeaders].

(** [flushInterval] is negative; the media type's parameters are not parsed. *)
Definition flush_at_once (res : UpstreamResponse) : bool :=
  let ct := h_get "Content-Type" (ur_header res) in
  let base := match cut ";"%char ct with Some (a, _) => a | None => ct end in
  bool_decide (ascii_lower (trim_of is_mime_space base) = "text/event-stream") || (ur_content_length res =? -1)%Z.

Definition copyResponse (res : UpstreamResponse) : list wop :=
  ur_reads res ≫= fun b => Write (Raw b) :: (if flush_at_once res then [Flush] else []).

(** The trailers after the body. *)
Definition write_trailers (res : UpstreamResponse) : list wop :=
  if decide (ur_trailer res = []) then []
  else Flush :: (if decide (length (ur_trailer res) = length (ur_announced res)) then copyHeader (ur_trailer res)
                 else copyHeader ((fun '(k, vs) => ("Trailer:" +:+ k, vs)) <$> ur_trailer res)).

(** [handleUpgradeResponse]: an upgrade type the client cannot have asked for
    calls the error handler twice. *)
Definition handleUpgradeResponse (hijacker : bool) (out : OutRequest) (res : UpstreamResponse) : list wop :=
  let reqUpType := upgradeType (out_header out) in
  let resUpType := upgradeType (ur_header res) in
  (if is_print resUpType then [] else upstream_unavailable) ++
  (if negb (equal_fold reqUpType resUpType) then upstream_unavailable
   else if negb hijacker then upstream_unavailable
   else copyHeader (ur_header res) ++ [Hijack]).

(** What [ReverseProxy.ServeHTTP] does with the answer to [out]: the calls on
    the writer, and whether it ends with the panic [http.ErrAbortHandler].
    [hijacker]: the writer, or one it unwraps to, implements [http.Hijacker]. *)
Definition relay_answer (hijacker : bool) (out : OutRequest)
    (exchange : list (Z * Header) * res UpstreamResponse) : list wop * bool :=
  let '(infos, answer) := exchange in
  let early := infos ≫= forward_1xx in
  match answer with
  | Err _ => (early ++ upstream_unavailable, false)
  | Ok res =>
      if (ur_status res =? 101)%Z then (early ++ handleUpgradeResponse hijacker out res, false)
      else
        let head := early ++ copyHeader (removeHopByHopHeaders (ur_header res)) ++
          (if decide (ur_announced res = []) then [] else [AddHeader "Trailer" (join ", " (ur_announced res))]) ++
          [WriteHeader (ur_status res)] in
        if ur_complete res then (head ++ copyResponse res ++ write_trailers res, false)
        else (head ++ copyResponse res, true)
  end.

(** [ReverseProxy.ServeHTTP]: a request that cannot be put is answered without
    asking the upstream. *)
Definition reverse_proxy `{Transport} (hijacker : bool) (target : URL) (r : Request) : list wop * bool :=
  match outgoing target r with
  | None => (upstream_unavailable, false)
  | Some out => relay_answer hijacker out (round_trip (rq_seed r) out)
  end.

(** ** Examples *)

Example joined :
  [singleJoiningSlash "/api/" "/x"; singleJoiningSlash "/api" "x"; singleJoiningSlash "" "/x"; singleJoiningSlash "/" "x"] =
  ["/api/x"; "/api/x"; "/x"; "/x"].
Proof. reflexivity. Qed.
Example upgrades :
  upgradeType [("Connection", ["keep-alive, Upgrade"]); ("Upgrade", ["websocket"])] = "websocket" /\
  upgradeType [("Connection", ["close"]); ("Upgrade", ["websocket"])] = "".
Proof. split; reflexivity. Qed.
Example hop_by_hop :
  removeHopByHopHeaders [("Connection", ["close, x-secret"]); ("X-Secret", ["1"]); ("Te", ["x"]); ("Accept", ["*/*"])] =
  [("Accept", ["*/*"])].
Proof. reflexivity. Qed.
