(* ===== verification/ReverseProxySpec.v ===== *)
(** * What the reverse proxy promises

    Header maps under the proxy's edits; the request the upstream gets; how the
    upstream's answer reaches the client, as the effect of the calls on the
    response writer. *)

From S2P Require Export ReverseProxy.
From Stdlib Require Import Ascii.

(** ** Header maps *)

Lemma assoc_cons {A} k k' (v : A) l : lookup_key k ((k', v) :: l) = if decide (k' = k) then Some v else lookup_key k l.
Proof. unfold lookup_key. rewrite filter_cons. cbn [fst]. by case_decide. Qed.

Lemma assoc_del k k' h : lookup_key k (h_del k' h) = if decide (k = k') then None else lookup_key k h.
Proof.
  unfold h_del. induction h as [|[k0 vs] h IH]; [by case_decide|]. rewrite filter_cons. cbn [fst].
  destruct (decide (k0 = k')) as [->|Hne].
  - rewrite decide_False by (by intros []). rewrite IH, assoc_cons. repeat case_decide; congruence.
  - rewrite decide_True by done. rewrite !assoc_cons, IH. repeat case_decide; congruence.
Qed.

Lemma assoc_app {A} k (l l' : list (string * A)) : lookup_key k (l ++ l') = match lookup_key k l with Some v => Some v | None => lookup_key k l' end.
Proof. induction l as [|[k0 v] l IH]; [done|]. rewrite <- app_comm_cons, !assoc_cons. by case_decide. Qed.

Lemma assoc_set k k' v h : lookup_key k (h_set k' v h) = if decide (k = k') then Some [v] else lookup_key k h.
Proof.
  unfold h_set. rewrite assoc_app, assoc_del, assoc_cons.
  repeat case_decide; subst; try done; by destruct (lookup_key k h).
Qed.

Lemma assoc_del_all k ks h : lookup_key k (foldl (fun h k => h_del k h) h ks) = if decide (k ∈ ks) then None else lookup_key k h.
Proof.
  revert h. induction ks as [|k0 ks IH]; intros h; cbn [foldl]; [by rewrite decide_False by (by intros ?%elem_of_nil)|].
  rewrite IH, assoc_del. repeat case_decide; rewrite ?elem_of_cons in *; tauto.
Qed.

(** A header is dropped when it is hop-by-hop or named by Connection. *)
Definition hop_by_hop_of (h : Header) (k : string) : Prop := k ∈ connection_named h ++ hopHeaders.

#[export] Instance hop_by_hop_dec h k : Decision (hop_by_hop_of h k).
Proof. unfold hop_by_hop_of. apply _. Defined.

Lemma assoc_end_to_end k h :
  lookup_key k (removeHopByHopHeaders h) = if decide (hop_by_hop_of h k) then None else lookup_key k h.
Proof. apply assoc_del_all. Qed.

(** The values of a header that survive. *)
Definition end_to_end (h : Header) (k : string) : option (list string) :=
  if decide (hop_by_hop_of h k) then None else lookup_key k h.

Lemma hop_header k h : k ∈ hopHeaders -> end_to_end h k = None.
Proof. intros Hk. unfold end_to_end. rewrite decide_True; [done|]. apply elem_of_app. by right. Qed.

(** ** The request *)

Lemma assoc_readd r up h k :
  lookup_key k (readd_headers r up h) =
  if decide (up <> "" /\ k = "Upgrade") then Some [up]
  else if decide (up <> "" /\ k = "Connection") then Some ["Upgrade"]
  else if decide (values_contain_token "trailers" (h_values "Te" (rq_header r)) = true /\ k = "Te") then Some ["trailers"]
  else lookup_key k h.
Proof.
  unfold readd_headers. cbv zeta. destruct (values_contain_token _ _), (decide (up = "")); rewrite ?assoc_set;
    repeat case_decide; naive_solver.
Qed.

Lemma assoc_forwarded r h k :
  k <> "X-Forwarded-For" -> lookup_key k (forwarded_for r h) = lookup_key k h.
Proof.
  intros Hk. unfold forwarded_for. repeat case_match; rewrite ?assoc_set; try done; by rewrite decide_False.
Qed.

Lemma assoc_agent h k :
  lookup_key k (no_user_agent h) = if decide (k = "User-Agent") then Some (default [""] (lookup_key k h)) else lookup_key k h.
Proof.
  unfold no_user_agent. destruct (lookup_key "User-Agent" h) eqn:E; rewrite ?assoc_set; case_decide; subst; rewrite ?E; done.
Qed.

(** The target's path without a final slash. *)
Definition base_path (target : URL) : string :=
  if has_suffix "/" (u_Path target) then str_take (pred (String.length (u_Path target))) (u_Path target) else u_Path target.

Lemma has_suffix_slash s : has_suffix "/" s = true -> s = str_take (pred (String.length s)) s +:+ "/".
Proof.
  unfold has_suffix. intros [_ Hs%bool_decide_eq_true]%andb_true_iff.
  change (String.length "/") with 1 in Hs. rewrite Nat.sub_1_r in Hs.
  transitivity (str_take (pred (String.length s)) s +:+ str_drop (pred (String.length s)) s); [by rewrite str_take_drop|].
  by rewrite Hs.
Qed.

Lemma joined_path target p :
  u_RawPath target = "" -> joinURLPath target ("/" +:+ p) "" = (base_path target +:+ "/" +:+ p, "").
Proof.
  intros Ht. unfold joinURLPath. rewrite bool_decide_true by done. f_equal. unfold singleJoiningSlash, base_path.
  replace (has_prefix "/" ("/" +:+ p)) with true by (by destruct p).
  destruct (has_suffix "/" (u_Path target)) eqn:E; [|done]. apply has_suffix_slash in E.
  change (str_drop 1 ("/" +:+ p)) with p. rewrite E at 1. by rewrite <- string_app_assoc.
Qed.

(** The client's list of addresses with its own at the end; a list that is
    present but empty is left alone. *)
Lemma forwarded_for_list r h :
  lookup_key "X-Forwarded-For" (forwarded_for r h) =
  match split_host_port (rq_remote_addr r), lookup_key "X-Forwarded-For" h with
  | inl _, Some [] => Some []
  | inl (ip, _), prior => Some [join ", " (default [] prior ++ [ip])]
  | inr _, prior => prior
  end.
Proof.
  unfold forwarded_for. destruct (split_host_port _) as [[ip port]|]; [|done].
  destruct (lookup_key "X-Forwarded-For" h) as [[|v vs]|] eqn:E; [done| |by rewrite assoc_set, decide_True].
  rewrite assoc_set, decide_True by done. do 2 f_equal. cbn [default from_option]. unfold id. clear. revert v.
  induction vs as [|v' vs IH]; intros v; [done|].
  change (join ", " (v :: v' :: vs)) with (v +:+ ", " +:+ join ", " (v' :: vs)).
  change (join ", " ((v :: v' :: vs) ++ [ip])) with (v +:+ ", " +:+ join ", " ((v' :: vs) ++ [ip])).
  rewrite <- IH. by rewrite <- !string_app_assoc.
Qed.

(** [out] asks [target] for what the client asked for in [r]. *)
Record forwards (target : URL) (r : Request) (out : OutRequest) : Prop := mkForwards {
  fw_method : out_method out = rq_method r;
  fw_host : out_host out = rq_host r;
  fw_scheme : out_scheme out = u_Scheme target;
  fw_addr : out_addr out = u_Host target;
  fw_length : out_content_length out = rq_content_length r;
  fw_body : out_body out = (if decide (rq_content_length r = 0%Z) then None else rq_body r);
  (* without encodings to keep, the target's path, one slash, and the request's *)
  fw_path : forall p, u_RawPath target = "" -> rq_raw_path r = "" -> rq_path r = "/" +:+ p ->
    out_path out = base_path target +:+ "/" +:+ p;
  fw_query : u_RawQuery target = "" -> out_raw_query out = rq_raw_query r;
  (* headers: what is neither hop-by-hop nor named by Connection, unchanged, *)
  fw_headers : forall k, k ∉ ["Te"; "Connection"; "Upgrade"; "X-Forwarded-For"; "User-Agent"] ->
    lookup_key k (out_header out) = end_to_end (rq_header r) k;
  (* the hop-by-hop ones that are put back, *)
  fw_te : lookup_key "Te" (out_header out) =
    (if values_contain_token "trailers" (h_values "Te" (rq_header r)) then Some ["trailers"] else None);
  fw_upgrade : lookup_key "Upgrade" (out_header out) =
    (if decide (upgradeType (rq_header r) = "") then None else Some [upgradeType (rq_header r)]);
  fw_connection : lookup_key "Connection" (out_header out) =
    (if decide (upgradeType (rq_header r) = "") then None else Some ["Upgrade"]);
  (* and those the proxy writes itself *)
  fw_agent : lookup_key "User-Agent" (out_header out) = Some (default [""] (end_to_end (rq_header r) "User-Agent"));
  fw_client : lookup_key "X-Forwarded-For" (out_header out) =
    match split_host_port (rq_remote_addr r), end_to_end (rq_header r) "X-Forwarded-For" with
    | inl _, Some [] => Some []
    | inl (ip, _), prior => Some [join ", " (default [] prior ++ [ip])]
    | inr _, prior => prior
    end }.

(** Only a request for an unprintable protocol is not put to the upstream. *)
Lemma outgoing_forwards target r :
  if is_print (upgradeType (rq_header r)) then exists out, outgoing target r = Some out /\ forwards target r out
  else outgoing target r = None.
Proof.
  unfold outgoing. destruct (joinURLPath _ _ _) as [path rawPath] eqn:Ej. cbv zeta.
  destruct (is_print _) eqn:Hp; cbn [negb]; [|done]. eexists. split; [done|].
  set (up := upgradeType (rq_header r)). set (h0 := removeHopByHopHeaders (rq_header r)).
  assert (forall k, lookup_key k h0 = end_to_end (rq_header r) k) as H0 by (intros; apply assoc_end_to_end).
  constructor; cbn; fold up; try done.
  - intros p Ht Hr Hq. rewrite Hr, Hq, joined_path in Ej by done. by injection Ej.
  - intros Hq. unfold join_query. by rewrite bool_decide_true, Hq by auto.
  - intros k Hk. rewrite !elem_of_cons, elem_of_nil in Hk.
    rewrite assoc_agent, decide_False, assoc_forwarded, assoc_readd, !decide_False, H0 by tauto. done.
  - rewrite assoc_agent, assoc_forwarded, assoc_readd, H0, hop_header by (done || by apply (bool_decide_unpack _)).
    rewrite decide_False by done. destruct (values_contain_token _ _); repeat case_decide; naive_solver.
  - rewrite assoc_agent, assoc_forwarded, assoc_readd, H0, hop_header by (done || by apply (bool_decide_unpack _)).
    rewrite decide_False by done. repeat case_decide; naive_solver.
  - rewrite assoc_agent, assoc_forwarded, assoc_readd, H0, hop_header by (done || by apply (bool_decide_unpack _)).
    rewrite decide_False by done. repeat case_decide; naive_solver.
  - rewrite assoc_agent, assoc_forwarded, assoc_readd, H0 by done. rewrite decide_True by done.
    repeat case_decide; naive_solver.
  - rewrite assoc_agent, decide_False, forwarded_for_list by done.
    assert (lookup_key "X-Forwarded-For" (readd_headers r up h0) = end_to_end (rq_header r) "X-Forwarded-For") as ->; [|done].
    rewrite assoc_readd, H0. repeat case_decide; naive_solver.
Qed.

(** ** The response *)

(** The header map a copy leads to, from the map [m]. *)
Definition add_values (m : gmap string (list string)) (kvs : string * list string) : gmap string (list string) :=
  foldl (fun m v => <[kvs.1 := default [] (m !! kvs.1) ++ [v]]> m) m kvs.2.

Definition with_header (m : gmap string (list string)) (w : Response) : Response :=
  mkResponse m (rs_cookies w) (rs_informational w) (rs_sent w) (rs_body w) (rs_panicked w).

Lemma with_header_id w : with_header (rs_header w) w = w.
Proof. by destruct w. Qed.

Lemma run_copy_header h w :
  rs_panicked w = false -> run_wops (copyHeader h) w = with_header (foldl add_values (rs_header w) h) w.
Proof.
  intros Hp. unfold copyHeader. revert w Hp. induction h as [|[k vs] h IH]; intros w Hp; [exact (eq_sym (with_header_id w))|].
  rewrite bind_cons, run_wops_app.
  assert (run_wops (AddHeader k <$> vs) w = with_header (add_values (rs_header w) (k, vs)) w) as ->.
  { unfold add_values. cbn [fst snd]. clear IH. revert w Hp. induction vs as [|v vs IH]; intros w Hp; [exact (eq_sym (with_header_id w))|].
    cbn [fmap list_fmap foldl]. change (run_wops (AddHeader k v :: (AddHeader k <$> vs)) w)
      with (run_wops (AddHeader k <$> vs) (apply_wop w (AddHeader k v))).
    unfold apply_wop. rewrite Hp. rewrite IH by done. destruct w; simpl in *; by subst. }
  by rewrite IH.
Qed.

(** A header map: distinct keys, each with a value. *)
Definition header_ok (h : Header) : Prop := NoDup h.*1 /\ Forall (fun kvs => kvs.2 <> []) h.

Lemma add_values_fresh m k vs : m !! k = None -> vs <> [] -> add_values m (k, vs) = <[k := vs]> m.
Proof.
  intros Hm Hvs. unfold add_values. cbn [fst snd].
  assert (forall done, done ++ vs <> [] -> foldl (fun m v => <[k := default [] (m !! k) ++ [v]]> m)
    (match done with [] => m | _ => <[k := done]> m end) vs = <[k := done ++ vs]> m) as H; [|by apply (H [])].
  clear Hvs. induction vs as [|v vs IH]; intros dn Hne; cbn [foldl].
  - rewrite app_nil_r in *. by destruct dn.
  - assert (<[k := default [] ((match dn with [] => m | _ => <[k := dn]> m end) !! k) ++ [v]]>
      (match dn with [] => m | _ => <[k := dn]> m end) = <[k := dn ++ [v]]> m) as ->.
    { destruct dn as [|x dn]; [by rewrite Hm|]. by rewrite lookup_insert_eq, insert_insert_eq. }
    specialize (IH (dn ++ [v])). rewrite <- app_assoc in IH. cbn [app] in IH. rewrite <- IH by done. by destruct dn.
Qed.

Lemma copy_fresh h m :
  header_ok h -> (forall k, k ∈ h.*1 -> m !! k = None) -> forall k,
  foldl add_values m h !! k = match lookup_key k h with Some vs => Some vs | None => m !! k end.
Proof.
  intros [Hnd Hne]. revert m. induction h as [|[k0 vs] h IH]; intros m Hm k; [done|].
  apply NoDup_cons in Hnd as [Hk0 Hnd]. apply Forall_cons in Hne as [Hvs Hne]. cbn [foldl fst snd] in *.
  rewrite (add_values_fresh m k0 vs) by (done || apply Hm; left). rewrite assoc_cons, IH by
    (done || (intros k' Hk'; rewrite lookup_insert_ne by (intros ->; done); apply Hm; by right)).
  destruct (decide (k0 = k)) as [->|Hn].
  - rewrite lookup_insert_eq. destruct (lookup_key k h) as [vs'|] eqn:E; [|done]. destruct Hk0.
    apply list_elem_of_fmap. exists (k, vs'). split; [done|by apply assoc_elem].
  - by rewrite lookup_insert_ne.
Qed.

Lemma header_ok_del_all ks h : header_ok h -> header_ok (foldl (fun h k => h_del k h) h ks).
Proof.
  revert h. induction ks as [|k ks IH]; intros h Hh; [done|]. apply IH. destruct Hh as [Hnd Hne]. unfold h_del. split.
  - eapply sublist_NoDup; [exact Hnd|]. apply fmap_sublist, sublist_filter.
  - rewrite Forall_forall in *. intros kv [_ Hkv]%list_elem_of_filter. by apply Hne.
Qed.

(** Between calls: nothing sent yet but informational responses. *)
Definition waiting (infos : list Z) : Response := mkResponse ∅ [] infos None [] false.

Lemma run_early infos :
  (forall c h, (c, h) ∈ infos -> (100 <= c <= 199)%Z /\ c <> 101%Z) ->
  run_wops (infos ≫= forward_1xx) empty_response = waiting infos.*1.
Proof.
  change empty_response with (waiting []). change (waiting infos.*1) with (waiting ([] ++ infos.*1)).
  generalize (@nil Z). induction infos as [|[c h] infos IH]; intros sent Hc; [cbn [fmap list_fmap]; by rewrite app_nil_r|].
  rewrite bind_cons, run_wops_app.
  assert (run_wops (forward_1xx (c, h)) (waiting sent) = waiting (sent ++ [c])) as ->.
  { unfold forward_1xx. cbn [fst snd]. rewrite run_wops_app, run_copy_header by done. destruct (Hc c h) as [Hr Hne]; [left|]. unfold run_wops, with_header, waiting. cbn [foldl apply_wop rs_panicked].
    unfold write_header. cbn [rs_sent rs_header rs_cookies rs_informational rs_body].
    assert ((c <? 100) || (999 <? c) = false)%Z as -> by (apply orb_false_iff; split; apply Z.ltb_ge; lia).
    assert ((100 <=? c) && (c <=? 199) && negb (c =? 101) = true)%Z as ->; [|done].
    rewrite !andb_true_iff, !Z.leb_le, negb_true_iff, Z.eqb_neq. lia. }
  rewrite IH by (intros c' h' Hin; apply (Hc c' h'); by right). cbn [fmap list_fmap fst]. by rewrite <- app_assoc.
Qed.

Lemma run_copy_response res w x :
  rs_sent w = Some x -> rs_panicked w = false ->
  run_wops (copyResponse res) w =
  mkResponse (rs_header w) (rs_cookies w) (rs_informational w) (rs_sent w) (rs_body w ++ (Raw <$> ur_reads res)) false.
Proof.
  unfold copyResponse. intros Hs Hp. revert w Hs Hp. induction (ur_reads res) as [|b l IH]; intros w Hs Hp.
  { rewrite app_nil_r. destruct w. simpl in *. by subst. }
  rewrite bind_cons, run_wops_app.
  assert (run_wops (Write (Raw b) :: (if flush_at_once res then [Flush] else [])) w =
    mkResponse (rs_header w) (rs_cookies w) (rs_informational w) (rs_sent w) (rs_body w ++ [Raw b]) false) as ->.
  { unfold run_wops. destruct (flush_at_once res); cbn [foldl]; unfold apply_wop; rewrite Hp, Hs; cbn; by rewrite ?Hs. }
  rewrite IH by done. cbn. by rewrite <- app_assoc.
Qed.

(** Trailers change neither what was sent nor the body. *)
Lemma run_trailers res w x :
  rs_sent w = Some x -> rs_panicked w = false ->
  exists m, run_wops (write_trailers res) w = with_header m w.
Proof.
  intros Hs Hp. unfold write_trailers. case_decide; [exists (rs_header w); by rewrite with_header_id|].
  assert (forall h, exists m, run_wops (Flush :: copyHeader h) w = with_header m w) as Hc.
  { intros h. change (run_wops (Flush :: copyHeader h) w) with (run_wops (copyHeader h) (apply_wop w Flush)).
    unfold apply_wop. rewrite Hp, Hs. rewrite run_copy_header by done. eauto. }
  case_decide; apply Hc.
Qed.

(** The headers a relayed answer has. *)
Definition relayed_header (res : UpstreamResponse) (k : string) : option (list string) :=
  match end_to_end (ur_header res) k with
  | Some vs => Some vs
  | None => if decide (k = "Trailer" /\ ur_announced res <> []) then Some [join ", " (ur_announced res)] else None
  end.

Section transport.
Context `{Transport}.

(** What the client has got when the proxied handler returns. *)
Lemma relayed hijacker target r out infos res :
  outgoing target r = Some out -> round_trip (rq_seed r) out = (infos, Ok res) ->
  (200 <= ur_status res <= 999)%Z -> header_ok (ur_header res) -> ur_complete res = true ->
  let q := reverse_proxy hijacker target r in
  q.2 = false /\
  exists m, (forall k, m !! k = relayed_header res k) /\
    rs_sent (run_wops q.1 empty_response) = Some (ur_status res, m, []) /\
    rs_informational (run_wops q.1 empty_response) = infos.*1 /\
    rs_body (run_wops q.1 empty_response) = Raw <$> ur_reads res /\
    rs_panicked (run_wops q.1 empty_response) = false.
Proof.
  intros Ho Hr Hst Hok Hc. cbv zeta. unfold reverse_proxy. rewrite Ho, Hr. unfold relay_answer.
  rewrite (proj2 (Z.eqb_neq _ _)) by lia. rewrite Hc. cbn [fst snd]. split; [done|].
  pose proof (fun c h Hin => informational_codes (rq_seed r) out c h ltac:(rewrite Hr; exact Hin)) as Hinf.
  rewrite !run_wops_app, run_early by done. rewrite run_copy_header by done. cbn [rs_header waiting].
  set (m0 := foldl add_values ∅ _).
  assert (forall k, m0 !! k = end_to_end (ur_header res) k) as Hm0.
  { intros k. unfold m0. rewrite copy_fresh; [|by apply header_ok_del_all|intros; apply lookup_empty].
    rewrite lookup_empty, assoc_end_to_end. unfold end_to_end. case_decide; [done|]. by destruct (lookup_key _ _). }
  set (ops := if decide (ur_announced res = []) then _ else _).
  assert (exists m, (forall k, m !! k = relayed_header res k) /\
    run_wops ops (with_header m0 (waiting infos.*1)) = with_header m (waiting infos.*1)) as (m & Hm & ->).
  { unfold ops, relayed_header. case_decide as Ha.
    - exists m0. split; [|done]. intros k. rewrite Hm0. rewrite decide_False by tauto. by destruct (end_to_end _ _).
    - exists (<["Trailer" := [join ", " (ur_announced res)]]> m0).
      assert (m0 !! "Trailer" = None) as Ht by (rewrite Hm0; apply hop_header; by apply (bool_decide_unpack _)).
      split; [|unfold run_wops, with_header, waiting; cbn; by rewrite Ht].
      intros k. destruct (decide (k = "Trailer")) as [->|Hk].
      + rewrite lookup_insert_eq, <- Hm0, Ht. by rewrite decide_True.
      + rewrite lookup_insert_ne, Hm0 by done. rewrite decide_False by tauto. by destruct (end_to_end _ _). }
  exists m. split; [done|]. set (w1 := with_header m (waiting infos.*1)).
  assert (run_wops [WriteHeader (ur_status res)] w1 = mkResponse m [] infos.*1 (Some (ur_status res, m, [])) [] false) as ->.
  { unfold run_wops, w1, with_header, waiting. cbn [foldl apply_wop rs_panicked]. unfold write_header. cbn.
    assert ((ur_status res <? 100) || (999 <? ur_status res) = false)%Z as -> by (apply orb_false_iff; split; apply Z.ltb_ge; lia).
    assert ((100 <=? ur_status res) && (ur_status res <=? 199) && negb (ur_status res =? 101) = false)%Z as ->; [|done].
    rewrite (proj2 (Z.leb_gt (ur_status res) 199)) by lia. by rewrite andb_false_r. }
  erewrite run_copy_response by done. edestruct run_trailers as [m' ->]; [done..|]. done.
Qed.

(** The upstream cannot be reached. *)
Lemma unreachable hijacker target r out infos e :
  outgoing target r = Some out -> round_trip (rq_seed r) out = (infos, Err e) ->
  let q := reverse_proxy hijacker target r in
  q.2 = false /\ status_of q.1 = 502%Z /\ rs_body (run_wops q.1 empty_response) = [Raw ("upstream unavailable" +:+ nl)] /\
  rs_panicked (run_wops q.1 empty_response) = false.
Proof.
  intros Ho Hr. cbv zeta. unfold reverse_proxy. rewrite Ho, Hr. unfold relay_answer. cbn [fst snd]. split; [done|].
  pose proof (fun c h Hin => informational_codes (rq_seed r) out c h ltac:(rewrite Hr; exact Hin)) as Hinf.
  unfold status_of. rewrite !run_wops_app, run_early by done. done.
Qed.

(** The upstream switches protocols. *)
Lemma upgraded hijacker target r out res :
  outgoing target r = Some out -> round_trip (rq_seed r) out = ([], Ok res) -> ur_status res = 101%Z ->
  is_print (upgradeType (ur_header res)) = true ->
  equal_fold (upgradeType (out_header out)) (upgradeType (ur_header res)) = true ->
  reverse_proxy hijacker target r =
    (if hijacker then copyHeader (ur_header res) ++ [Hijack] else upstream_unavailable, false).
Proof.
  intros Ho Hr Hst Hp He. unfold reverse_proxy. rewrite Ho, Hr. unfold relay_answer. rewrite Hst. cbn [Z.eqb Pos.eqb].
  unfold handleUpgradeResponse. rewrite Hp, He. by destruct hijacker.
Qed.
End transport.
