(* ===== verification/EventSink.v ===== *)
(** * The event sink ([cmd/wafportal]: eventSink)

    A buffered channel between the request path and one worker that writes to
    the store. [Submit] never blocks: with the buffer full the event is dropped
    and logged. The worker receives one event and inserts it, two separate
    steps between which anything may happen. *)

From S2P Require Export StoreSpec.

Record Sink := mkSink {
  sk_cap : nat;               (* capacity of the channel *)
  sk_queue : list Event;      (* its buffer, oldest first *)
  sk_hand : option Event;     (* what the worker has received and not yet written *)
  sk_dropped : list Event }.  (* events reported as dropped in the log *)

Definition newEventSink (buffer : nat) : Sink := mkSink buffer [] None [].

Definition Submit (e : Event) : M Sink unit := fun s =>
  if (length (sk_queue s) <? sk_cap s)%nat
  then (tt, mkSink (sk_cap s) (sk_queue s ++ [e]) (sk_hand s) (sk_dropped s))
  else (tt, mkSink (sk_cap s) (sk_queue s) (sk_hand s) (sk_dropped s ++ [e])).

(** [run]: the receive of the range loop, enabled when the worker is idle and
    the buffer is not empty... *)
Definition receive (s : Sink) : Sink :=
  match sk_hand s, sk_queue s with
  | None, e :: q => mkSink (sk_cap s) q (Some e) (sk_dropped s)
  | _, _ => s
  end.

(** ... and the body of the loop: a failed insert is logged, the event gone. *)
Definition insert_received (p : Sink * StoreState) : Sink * StoreState :=
  match sk_hand p.1 with
  | Some e => (mkSink (sk_cap p.1) (sk_queue p.1) None (sk_dropped p.1), (InsertEvent e p.2).2)
  | None => p
  end.

(** One step of the worker on its own. *)
Inductive worker_step : Sink * StoreState -> Sink * StoreState -> Prop :=
| worker_receives s e q st :
    sk_hand s = None -> sk_queue s = e :: q -> worker_step (s, st) (receive s, st)
| worker_inserts s e st :
    sk_hand s = Some e -> worker_step (s, st) (insert_received (s, st)).

(** The interleavings of the proxy and the worker. *)
Inductive sink_action := ASubmit (e : Event) | AReceive | AInsert.

Definition sink_act (p : Sink * StoreState) (a : sink_action) : Sink * StoreState :=
  match a with
  | ASubmit e => ((Submit e p.1).2, p.2)
  | AReceive => (receive p.1, p.2)
  | AInsert => insert_received p
  end.

Definition run_sink (acts : list sink_action) (p : Sink * StoreState) : Sink * StoreState :=
  foldl sink_act p acts.

Definition submitted (acts : list sink_action) : list Event :=
  omap (fun a => match a with ASubmit e => Some e | _ => None end) acts.

(** ** Order and loss *)

(** Events without the key the database assigns. *)
Definition no_id (e : Event) : Event := event_with_id 0 e.

Definition stored (s : StoreState) : list Event := no_id <$> rows (db_events (st_db s)).
Definition pending (s : Sink) : list Event := option_list (sk_hand s) ++ sk_queue s.

(** What has reached the database or is on its way, in order. *)
Definition kept (p : Sink * StoreState) : list Event := stored p.2 ++ (no_id <$> pending p.1).

Lemma insert_event_rows e s :
  let s' := (InsertEvent e s).2 in
  stored s' = stored s ++ [no_id e] \/ stored s' = stored s.
Proof.
  cbv zeta. unfold InsertEvent. destruct (sql_exec _ s) as [r s'] eqn:E.
  apply sql_exec_db in E as [(x & _ & Hdb)|(a & d & _ & Hf & Hdb)]; unfold stored; cbn [snd]; rewrite Hdb; [by right|left].
  unfold insert_row in Hf. case_decide; [done|]. injection Hf as _ <-. simpl. by rewrite fmap_app.
Qed.

(** Without faults, and with keys left, the insert succeeds. *)
Lemma insert_event_ok e s :
  no_faults s -> (seq_no (db_events (st_db s)) < int64_max)%Z ->
  let s' := (InsertEvent e s).2 in
  stored s' = stored s ++ [no_id e] /\ no_faults s' /\
  seq_no (db_events (st_db s')) = (seq_no (db_events (st_db s)) + 1)%Z.
Proof.
  intros Hn Hseq. cbv zeta. unfold InsertEvent. rewrite sql_exec_ok by eauto with store.
  unfold insert_row. rewrite decide_False by lia. cbn [snd]. split; [|split].
  - unfold stored. simpl. by rewrite fmap_app.
  - apply no_faults_pop in Hn. exact Hn.
  - done.
Qed.

(** One action keeps order and only loses what it drops or fails to insert. *)
Lemma sink_act_kept p a subs :
  kept p `sublist_of` subs -> kept (sink_act p a) `sublist_of` (subs ++ (no_id <$> submitted [a])).
Proof.
  intros Hk. destruct p as [s st]. destruct a as [e| |]; unfold kept in *; simpl.
  - unfold Submit. case_match; unfold pending in *; simpl.
    + rewrite (app_assoc (option_list _)), fmap_app, app_assoc. by apply sublist_app.
    + etrans; [exact Hk|]. by apply sublist_inserts_r.
  - rewrite app_nil_r. etrans; [|exact Hk]. unfold receive, pending.
    destruct (sk_hand s) as [h|] eqn:Eh, (sk_queue s) as [|e q] eqn:Eq; simpl; by rewrite ?Eh, ?Eq.
  - rewrite app_nil_r. etrans; [|exact Hk]. unfold insert_received, pending. simpl.
    destruct (sk_hand s) as [h|] eqn:Eh; simpl; [|by rewrite Eh].
    destruct (insert_event_rows h st) as [-> | ->].
    + by rewrite <- app_assoc.
    + apply sublist_app; [done|]. by apply sublist_cons.
Qed.

(** Under every interleaving of submissions and worker steps and whatever inserts fail, the
    events in the database, in the worker's hand and in the queue are, in this order, a subsequence
    of the events stored before followed by the submitted ones: never reordered, duplicated or
    invented. *)
Theorem sink_order (cap : nat) (acts : list sink_action) (st : StoreState) :
  kept (run_sink acts (newEventSink cap, st)) `sublist_of` (stored st ++ (no_id <$> submitted acts)).
Proof.
  unfold run_sink. induction acts as [|a acts IH] using rev_ind; [done|].
  rewrite foldl_app. simpl. unfold submitted. rewrite omap_app, fmap_app, app_assoc. by apply sink_act_kept.
Qed.

(** A run in which nothing fails and keys are left. *)
Definition sink_sound (p : Sink * StoreState) (subs : list Event) (n : nat) : Prop :=
  no_faults p.2 /\ (seq_no (db_events (st_db p.2)) + Z.of_nat n < int64_max)%Z /\
  (length (kept p) + length (sk_dropped p.1) = length subs)%nat /\
  (sk_dropped p.1 = [] -> kept p = subs).

Lemma sink_act_sound p a subs n :
  sink_sound p subs (S n) -> sink_sound (sink_act p a) (subs ++ (no_id <$> submitted [a])) n.
Proof.
  intros (Hn & Hseq & Hlen & Heq). destruct p as [s st]. unfold sink_sound, kept in *. simpl in *.
  destruct a as [e| |]; simpl.
  - unfold Submit. case_match; simpl; unfold pending in *; simpl.
    + split; [done|]. split; [lia|]. rewrite app_assoc, !fmap_app, app_assoc, !length_app in *. simpl. split; [lia|].
      intros Hd. by rewrite <- Heq, <- !app_assoc.
    + split; [done|]. split; [lia|]. rewrite !length_app in *. simpl. split; [lia|]. by destruct (sk_dropped s).
  - rewrite app_nil_r. unfold receive, pending in *.
    destruct (sk_hand s) as [h|] eqn:Eh, (sk_queue s) as [|e q] eqn:Eq; simpl; rewrite ?Eh, ?Eq; simpl;
      (split; [done|]; split; [lia|done]).
  - rewrite app_nil_r. unfold insert_received. simpl. unfold pending in *.
    destruct (sk_hand s) as [h|] eqn:Eh; simpl; rewrite ?Eh; simpl; [|split; [done|]; split; [lia|done]].
    destruct (insert_event_ok h st) as (E & Hn' & Hs'); [done|lia|]. rewrite E, Hs'.
    split; [done|]. split; [lia|]. rewrite <- app_assoc. done.
Qed.

(** C33: Without database failures and while event ids last, every submitted event is stored, on its
    way or logged as dropped; when none was dropped the stored and pending events are exactly the
    submitted ones in order. *)
Theorem sink_accounting (cap : nat) (acts : list sink_action) (st : StoreState) :
  no_faults st ->
  (seq_no (db_events (st_db st)) + Z.of_nat (length acts) < int64_max)%Z ->
  let p := run_sink acts (newEventSink cap, st) in
  (length (kept p) + length (sk_dropped p.1) = length (stored st) + length (submitted acts))%nat /\
  (sk_dropped p.1 = [] -> kept p = stored st ++ (no_id <$> submitted acts)).
Proof.
  intros Hn Hseq. cbv zeta.
  assert (forall n, (seq_no (db_events (st_db st)) + Z.of_nat (length acts + n) < int64_max)%Z ->
    sink_sound (run_sink acts (newEventSink cap, st)) (stored st ++ (no_id <$> submitted acts)) n) as H.
  { clear Hseq. induction acts as [|a acts IH] using rev_ind; intros n Hseq.
    - unfold sink_sound, kept. simpl in *. split; [done|]. split; [lia|]. rewrite Nat.add_0_r. done.
    - unfold run_sink in *. rewrite foldl_app. simpl. unfold submitted. rewrite omap_app, fmap_app, app_assoc.
      apply sink_act_sound, IH. rewrite length_app in Hseq. simpl in Hseq. lia. }
  destruct (H 0%nat) as (_ & _ & H1 & H2); [by rewrite Nat.add_0_r|].
  rewrite length_app, length_fmap in H1. done.
Qed.

(** The buffer is bounded and drops only what exceeds it. *)
Theorem sink_bounded (cap : nat) (acts : list sink_action) (st : StoreState) :
  let p := run_sink acts (newEventSink cap, st) in
  (length (sk_queue p.1) <= cap)%nat /\
  ((length (submitted acts) <= cap)%nat -> sk_dropped p.1 = []).
Proof.
  cbv zeta. assert (let p := run_sink acts (newEventSink cap, st) in
    sk_cap p.1 = cap /\ (length (sk_queue p.1) <= cap)%nat /\
    (length (sk_queue p.1) <= length (submitted acts))%nat /\
    ((length (submitted acts) <= cap)%nat -> sk_dropped p.1 = [])) as H; [|by destruct H as (_ & ? & _ & ?)].
  cbv zeta. induction acts as [|a acts IH] using rev_ind; [repeat split; simpl; lia|].
  unfold run_sink, submitted in *. rewrite foldl_app, omap_app, !length_app. simpl.
  set (p := foldl sink_act _ acts) in *. destruct IH as (Hc & Hq & Hs & Hd).
  destruct a as [e| |]; simpl.
  - unfold Submit. destruct (length (sk_queue p.1) <? sk_cap p.1)%nat eqn:E; simpl;
      [apply Nat.ltb_lt in E|apply Nat.ltb_ge in E]; rewrite ?length_app; simpl;
      (split; [done|]; split; [lia|]; split; [lia|]; intros; try lia; apply Hd; lia).
  - unfold receive. destruct (sk_hand p.1), (sk_queue p.1) eqn:E; simpl in *; rewrite ?E; simpl;
      (split; [done|]; split; [lia|]; split; [lia|]; intros; apply Hd; lia).
  - unfold insert_received. destruct (sk_hand p.1); simpl;
      (split; [done|]; split; [lia|]; split; [lia|]; intros; apply Hd; lia).
Qed.

(** ** The worker on its own *)

(** What is left to do: two steps for an event in the buffer, one for the event
    in hand. *)
Definition work_left (p : Sink * StoreState) : nat :=
  2 * length (sk_queue p.1) + match sk_hand p.1 with Some _ => 1 | None => 0 end.

Lemma worker_step_decreases p p' : worker_step p p' -> work_left p = S (work_left p').
Proof.
  destruct 1 as [s e q st Hh Hq|s e st Hh]; unfold work_left, receive, insert_received; cbn [fst snd];
    rewrite ?Hh, ?Hq; cbn; rewrite ?Hh; lia.
Qed.

Lemma worker_step_sound p p' :
  worker_step p p' -> no_faults p.2 -> (seq_no (db_events (st_db p.2)) + Z.of_nat (work_left p) < int64_max)%Z ->
  kept p' = kept p /\ no_faults p'.2 /\
  (seq_no (db_events (st_db p'.2)) + Z.of_nat (work_left p') < int64_max)%Z.
Proof.
  intros Hstep Hn Hseq. pose proof (worker_step_decreases _ _ Hstep) as Hw.
  destruct Hstep as [s e q st Hh Hq|s e st Hh]; cbn [fst snd] in *.
  - split; [unfold kept, receive, pending; cbn [fst snd]; by rewrite Hh, Hq|]. split; [done|lia].
  - unfold insert_received in *. cbn [fst snd] in *. rewrite Hh in *. cbn [fst snd] in *.
    destruct (insert_event_ok e st Hn) as (Hst & Hn' & Hs); [lia|]. rewrite Hs.
    split; [|split; [done|lia]]. unfold kept, pending. cbn [fst snd sk_hand sk_queue]. rewrite Hst, Hh.
    cbn [option_list app fmap list_fmap]. by rewrite <- app_assoc.
Qed.

Lemma worker_runs_sound n p p' :
  nsteps worker_step n p p' -> no_faults p.2 -> (seq_no (db_events (st_db p.2)) + Z.of_nat (work_left p) < int64_max)%Z ->
  kept p' = kept p.
Proof.
  induction 1 as [|n p1 p2 p3 Hstep Hrun IH]; intros Hn Hseq; [done|].
  destruct (worker_step_sound _ _ Hstep Hn Hseq) as (Hk & Hn' & Hseq'). by rewrite IH.
Qed.

Lemma worker_stops p : nf worker_step p -> sk_hand p.1 = None /\ sk_queue p.1 = [].
Proof.
  destruct p as [s st]. intros Hnf. destruct (sk_hand s) as [e|] eqn:Hh; cbn [fst].
  - destruct Hnf. eexists. by eapply worker_inserts.
  - split; [done|]. destruct (sk_queue s) as [|e q] eqn:Hq; [done|]. destruct Hnf. eexists. by eapply worker_receives.
Qed.

Lemma worker_bounded n p p' : nsteps worker_step n p p' -> work_left p = n + work_left p'.
Proof. induction 1 as [|n p1 p2 p3 Hstep Hrun IH]; [done|]. rewrite (worker_step_decreases _ _ Hstep), IH. done. Qed.

(** Where the worker stops, everything it had to do is stored. *)
Lemma worker_stored n p p' :
  nsteps worker_step n p p' -> nf worker_step p' -> no_faults p.2 ->
  (seq_no (db_events (st_db p.2)) + Z.of_nat (work_left p) < int64_max)%Z -> stored p'.2 = kept p.
Proof.
  intros Hrun Hnf Hn Hseq. rewrite <- (worker_runs_sound _ _ _ Hrun Hn Hseq).
  destruct (worker_stops _ Hnf) as [Hh Hq]. unfold kept, pending. rewrite Hh, Hq. cbn. by rewrite app_nil_r.
Qed.

(** It gets there. *)
Lemma worker_finishes p : exists n p', nsteps worker_step n p p' /\ nf worker_step p'.
Proof.
  remember (work_left p) as m eqn:E. revert p E. induction m as [|m IH]; intros [s st] E.
  - exists 0%nat, (s, st). split; [constructor|]. intros [p' Hp]. apply worker_step_decreases in Hp. lia.
  - assert (exists p', worker_step (s, st) p') as [p' Hp].
    { destruct (sk_hand s) as [e|] eqn:Hh; [eexists; by eapply worker_inserts|].
      destruct (sk_queue s) as [|e q] eqn:Hq; [|eexists; by eapply worker_receives].
      unfold work_left in E. cbn [fst] in E. rewrite Hh, Hq in E. discriminate. }
    pose proof (worker_step_decreases _ _ Hp) as Hd. destruct (IH p') as (n & p'' & Hn & Hnf); [lia|].
    exists (S n), p''. split; [by econstructor|done].
Qed.

(** C18: The sink's worker alone stops after exactly two steps per queued event and one for an event
    in hand, with nothing left to do, and without database failures, while event ids last,
    everything that was stored, in hand or queued is then stored in order. *)
Theorem worker_drains (p : Sink * StoreState) :
  sn worker_step p /\
  (exists n p', nsteps worker_step n p p' /\ nf worker_step p') /\
  (forall n p', nsteps worker_step n p p' -> nf worker_step p' ->
     n = work_left p /\ sk_hand p'.1 = None /\ sk_queue p'.1 = [] /\
     (no_faults p.2 -> (seq_no (db_events (st_db p.2)) + Z.of_nat (work_left p) < int64_max)%Z ->
      stored p'.2 = kept p)).
Proof.
  split; [|split; [apply worker_finishes|]].
  - remember (work_left p) as n eqn:E. revert p E. induction (lt_wf n) as [n _ IH]. intros p ->. constructor.
    intros p' Hstep. eapply IH; [|done]. unfold flip in Hstep. rewrite (worker_step_decreases _ _ Hstep). lia.
  - intros n p' Hrun Hnf. destruct (worker_stops _ Hnf) as [Hh Hq]. split; [|split; [done|split; [done|]]].
    + rewrite (worker_bounded _ _ _ Hrun). unfold work_left. rewrite Hh, Hq. simpl. lia.
    + by eapply worker_stored.
Qed.
