(* ===== verification/Proxy.v ===== *)
(** * The data plane ([internal/proxy])

    Routing by Host header, certificate selection and the request path through
    the rate limiter, the firewall and the reverse proxy, over the state of the
    whole program ([System]). The transport to the upstreams, the certificate
    files and autocert are parameters. *)

From S2P Require Export ReverseProxy Waf RateLimit EventSink.
From Stdlib Require Import Ascii.

(** crypto/tls key pairs on disk. *)
Class KeyPairs := {
  Certificate : Type;
  LoadX509KeyPair : string -> string -> res Certificate
}.

(** golang.org/x/crypto/acme/autocert, given the host policy. A host name is
    normalised ([acme_name]) before the policy sees it; the policy is asked
    before a certificate that is not cached is requested; everything but a
    challenge request goes to the fallback handler. *)
Class Autocert `{KeyPairs} := {
  acme_protos : list string;      (* NextProtos of the manager's TLSConfig *)
  acme_name : string -> string;
  acme_cached : string -> option Certificate;
  acme_get_certificate : (string -> option error) -> string -> res Certificate;
  acme_http_handler : forall W : Type, (W -> string -> option error) -> Handler W -> Handler W;
  acme_policy_asked : forall policy name e,
    acme_cached (acme_name name) = None -> policy (acme_name name) = Some e ->
    is_ok (acme_get_certificate policy name) = false;
  acme_fallback : forall W policy (fallback : Handler W) r,
    has_prefix "/.well-known/acme-challenge/" (rq_path r) = false ->
    acme_http_handler W policy fallback r = fallback r
}.

Section proxy.
Context `{Coraza} `{TokenBucket} `{UnicodeTables} `{UrlRelease} `{Transport} `{Autocert}.

(** ** State *)

(** A value of the handler map: a reverse proxy, bare or behind the firewall. *)
Inductive SiteHandler :=
| Plain (target : URL)
| Guarded (engine : WAF) (target : URL) (domain : string).

Record Proxy := mkProxy {
  px_handlers : gmap string SiteHandler;
  px_autoDomains : gmap string bool;
  px_manualCerts : gmap string Certificate }.

Definition NewProxy : Proxy := mkProxy ∅ ∅ ∅.

(** The state of the program. *)
Record System := mkSystem {
  sy_store : StoreState;
  sy_engines : Manager;
  sy_proxy : Proxy;
  sy_limiter : option Limiter;
  sy_sink : Sink }.

#[export] Instance system_has_store : HasStore System :=
  {| get_store := sy_store;
     set_store s w := mkSystem s (sy_engines w) (sy_proxy w) (sy_limiter w) (sy_sink w);
     get_set_store _ _ := eq_refl;
     set_get_store w := match w with mkSystem _ _ _ _ _ => eq_refl end;
     set_set_store _ _ _ := eq_refl |}.

(** ** Reload *)

(** One site of the loop. *)
Definition add_site (m : Manager) (p : Proxy) (site : Site) : Proxy :=
  if negb (site_Enabled site) then p
  else
    match url_parse (site_UpstreamURL site) with
    | None => p
    | Some target =>
        if decide (u_Host target = "") then p
        else
          let h := match Engine (site_WAFMode site) m with
                   | Some engine => Guarded engine target (site_Domain site)
                   | None => Plain target
                   end in
          let domain := to_lower (site_Domain site) in
          let handlers := <[domain := h]> (px_handlers p) in
          if decide (site_TLSMode site = TLSModeAuto) then
            mkProxy handlers (<[domain := true]> (px_autoDomains p)) (px_manualCerts p)
          else if decide (site_TLSMode site = TLSModeManual) then
            match LoadX509KeyPair (site_CertFile site) (site_KeyFile site) with
            | Err _ => mkProxy handlers (px_autoDomains p) (px_manualCerts p)
            | Ok cert => mkProxy handlers (px_autoDomains p) (<[domain := cert]> (px_manualCerts p))
            end
          else mkProxy handlers (px_autoDomains p) (px_manualCerts p)
    end.

Definition ProxyReload (m : Manager) (sites : list Site) : Proxy := foldl (add_site m) NewProxy sites.

(** ** Lookups *)

(** The lower-cased host without its port. *)
Definition host_domain (host : string) : string :=
  let domain := to_lower host in
  match index_byte ":"%char domain with
  | Some i => str_take i domain
  | None => domain
  end.

Definition handlerFor (host : string) (p : Proxy) : option SiteHandler := px_handlers p !! host_domain host.

Definition usesTLS (host : string) (p : Proxy) : bool :=
  let domain := host_domain host in
  default false (px_autoDomains p !! domain) || bool_decide (is_Some (px_manualCerts p !! domain)).

(** The error without the quoted host. *)
Definition hostPolicy (p : Proxy) (host : string) : option error :=
  if default false (px_autoDomains p !! to_lower host) then None
  else Some "acme: host not configured for automatic TLS".

Definition getCertificate (p : Proxy) (serverName : string) : res Certificate :=
  match px_manualCerts p !! to_lower serverName with
  | Some cert => Ok cert
  | None => acme_get_certificate (hostPolicy p) serverName
  end.

(** The [tls.Config] of the HTTPS listener: autocert's, with another
    [GetCertificate]. *)
Record tls_config := mkTls { tls_NextProtos : list string; tls_GetCertificate : string -> res Certificate }.

Definition ProxyTLSConfig (p : Proxy) : tls_config :=
  let cfg := mkTls acme_protos (acme_get_certificate (hostPolicy p)) in
  mkTls (tls_NextProtos cfg) (getCertificate p).

(** ** Serving *)

(** [newReverseProxy] on a writer that is an [http.Hijacker] or not. *)
Definition newReverseProxy {W} (hijacker : bool) (target : URL) : Handler W := fun r =>
  ret (reverse_proxy hijacker target r).

(** net/http's writer for HTTP/1 can be hijacked, the one for HTTP/2 cannot. *)
Definition server_hijacker (r : Request) : bool := negb (bool_decide (rq_proto r = "HTTP/2.0")).

(** [sink.Submit]. *)
Definition submit_event (e : Event) : M System unit := fun w =>
  (tt, mkSystem (sy_store w) (sy_engines w) (sy_proxy w) (sy_limiter w) (Submit e (sy_sink w)).2).

Definition serve_site (h : SiteHandler) : Handler System :=
  match h with
  | Plain target => fun r => newReverseProxy (server_hijacker r) target r
  | Guarded engine target domain =>
      WafMiddleware engine (newReverseProxy recorder_hijacker target) submit_event domain
  end.

(** [p.limiter.Allow(key)] with its two readings of the clock; no limiter
    allows everything. *)
Definition limiter_allow (key : string) : M System bool := fun w =>
  match sy_limiter w with
  | None => (true, w)
  | Some l =>
      let '(now, st) := time_now (sy_store w) in
      let '(now', st) := time_now st in
      let '(ok, l) := Allow key now now' l in
      (ok, mkSystem st (sy_engines w) (sy_proxy w) (Some l) (sy_sink w))
  end.

Definition too_many_requests : list wop :=
  SetHeader "Retry-After" "1" :: http_error "rate limit exceeded" 429.

Definition no_site : list wop := http_error "no site configured for this host" 404.

Definition ProxyServeHTTP (clientIP : Request -> string) : Handler System := fun r =>
  (let! allowed := limiter_allow (clientIP r) in
   if negb allowed then ret (too_many_requests, false)
   else
     let! h := gets (fun w => handlerFor (rq_host r) (sy_proxy w)) in
     match h with
     | None => ret (no_site, false)
     | Some h => serve_site h r
     end)%go.

(** The handler behind the ACME challenges on the plaintext listener. *)
Definition redirect_handler (clientIP : Request -> string) : Handler System := fun r =>
  (let! tls := gets (fun w => usesTLS (rq_host r) (sy_proxy w)) in
   if tls then ret (http_redirect r ("https://" +:+ rq_host r +:+ rq_uri r) 301, false)
   else ProxyServeHTTP clientIP r)%go.

Definition HTTPHandler (clientIP : Request -> string) : Handler System :=
  acme_http_handler System (fun w => hostPolicy (sy_proxy w)) (redirect_handler clientIP).
End proxy.
