(* ===== verification/ProxySpec.v ===== *)
(** * What the data plane promises

    The routing tables in terms of the list of sites they were built from;
    which requests are served, refused, redirected or unknown; who gets a
    certificate. *)

From S2P Require Export Proxy WafSpec ReverseProxySpec.
From Stdlib Require Import Ascii.

Section proxy_spec.
Context `{Coraza} `{TokenBucket} `{UnicodeTables} `{UrlRelease} `{Transport} `{Autocert}.

(** ** The tables *)

(** The target of a site that [Reload] does not skip. *)
Definition routable (site : Site) : option URL :=
  if site_Enabled site then
    target ← url_parse (site_UpstreamURL site);
    if decide (u_Host target = "") then None else Some target
  else None.

Definition handler_of (m : Manager) (site : Site) (target : URL) : SiteHandler :=
  match Engine (site_WAFMode site) m with
  | Some engine => Guarded engine target (site_Domain site)
  | None => Plain target
  end.

(** A site's entry for domain [d] in each table. *)
Definition handler_entry (m : Manager) (d : string) (site : Site) : option SiteHandler :=
  target ← routable site;
  if decide (to_lower (site_Domain site) = d) then Some (handler_of m site target) else None.

Definition serves_auto (d : string) (site : Site) : Prop :=
  is_Some (routable site) /\ to_lower (site_Domain site) = d /\ site_TLSMode site = TLSModeAuto.

#[export] Instance serves_auto_dec d site : Decision (serves_auto d site).
Proof. unfold serves_auto. apply _. Defined.

Definition cert_entry (d : string) (site : Site) : option Certificate :=
  _ ← routable site;
  if decide (to_lower (site_Domain site) = d /\ site_TLSMode site = TLSModeManual) then
    match LoadX509KeyPair (site_CertFile site) (site_KeyFile site) with Ok c => Some c | Err _ => None end
  else None.

Lemma add_site_skip m p site : routable site = None -> add_site m p site = p.
Proof.
  unfold routable, add_site. destruct (site_Enabled site); [|done]. simpl.
  destruct (url_parse _); [|done]. simpl. by case_decide.
Qed.

(** What one routable site adds to the tables. *)
Lemma add_site_routable m p site target :
  routable site = Some target ->
  px_handlers (add_site m p site) =
    <[to_lower (site_Domain site) := handler_of m site target]> (px_handlers p) /\
  px_autoDomains (add_site m p site) =
    (if decide (site_TLSMode site = TLSModeAuto)
     then <[to_lower (site_Domain site) := true]> (px_autoDomains p) else px_autoDomains p) /\
  px_manualCerts (add_site m p site) =
    match cert_entry (to_lower (site_Domain site)) site with
    | Some c => <[to_lower (site_Domain site) := c]> (px_manualCerts p)
    | None => px_manualCerts p
    end.
Proof.
  intros Hr. unfold cert_entry. rewrite Hr. simpl. revert Hr.
  unfold routable, add_site. destruct (site_Enabled site); [|done]. simpl.
  destruct (url_parse _) as [t|]; [|done]. simpl. case_decide; [done|]. intros [= ->]. cbv zeta.
  change (match Engine (site_WAFMode site) m with Some engine => Guarded engine target (site_Domain site)
          | None => Plain target end) with (handler_of m site target).
  destruct (decide (site_TLSMode site = TLSModeAuto)) as [->|Hn].
  - by rewrite decide_False by (by intros [_ ?]).
  - destruct (decide (site_TLSMode site = TLSModeManual)) as [->|Hn'].
    + rewrite decide_True by done. by destruct (LoadX509KeyPair _ _).
    + by rewrite decide_False by (by intros [_ ?]).
Qed.

Lemma last_omap_snoc {A B} (f : A -> option B) l x :
  last (omap f (l ++ [x])) = match f x with Some y => Some y | None => last (omap f l) end.
Proof.
  rewrite omap_app. simpl. destruct (f x) as [y|]; [apply last_snoc|by rewrite app_nil_r].
Qed.

(** The handler of a domain is the one of its last routable site. *)
Lemma reload_handlers m sites d :
  px_handlers (ProxyReload m sites) !! d = last (omap (handler_entry m d) sites).
Proof.
  induction sites as [|site sites IH] using rev_ind; [simpl; apply lookup_empty|].
  rewrite last_omap_snoc. unfold ProxyReload in *. rewrite foldl_app. simpl. unfold handler_entry at 1.
  destruct (routable site) as [t|] eqn:Hr; simpl; [|rewrite add_site_skip by done; exact IH].
  destruct (add_site_routable m (foldl (add_site m) NewProxy sites) site t Hr) as (-> & _ & _).
  case_decide as Hd; [subst; by rewrite lookup_insert_eq|by rewrite lookup_insert_ne].
Qed.

Lemma reload_auto m sites d :
  px_autoDomains (ProxyReload m sites) !! d =
  if decide (Exists (serves_auto d) sites) then Some true else None.
Proof.
  induction sites as [|site sites IH] using rev_ind.
  { rewrite decide_False by (by intros ?%Exists_nil). simpl. apply lookup_empty. }
  unfold ProxyReload in *. rewrite foldl_app. simpl. set (p := foldl (add_site m) NewProxy sites) in *.
  assert (Exists (serves_auto d) (sites ++ [site]) <-> Exists (serves_auto d) sites \/ serves_auto d site) as Hex.
  { rewrite Exists_app, Exists_cons, Exists_nil. tauto. }
  destruct (routable site) as [t|] eqn:Hr.
  - destruct (add_site_routable m p site t Hr) as (_ & -> & _).
    assert (serves_auto d site <-> to_lower (site_Domain site) = d /\ site_TLSMode site = TLSModeAuto) as Hs.
    { unfold serves_auto. rewrite Hr. naive_solver. }
    destruct (decide (site_TLSMode site = TLSModeAuto)) as [Ha|Ha].
    + destruct (decide (to_lower (site_Domain site) = d)) as [<-|Hd].
      * rewrite lookup_insert_eq. rewrite decide_True; [done|]. tauto.
      * rewrite lookup_insert_ne, IH by done. apply decide_ext. tauto.
    + rewrite IH. apply decide_ext. tauto.
  - rewrite add_site_skip, IH by done. apply decide_ext. rewrite Hex.
    assert (~ serves_auto d site); [|tauto]. intros [Hs _]. rewrite Hr in Hs. by destruct Hs.
Qed.

Lemma reload_certs m sites d :
  px_manualCerts (ProxyReload m sites) !! d = last (omap (cert_entry d) sites).
Proof.
  induction sites as [|site sites IH] using rev_ind; [simpl; apply lookup_empty|].
  rewrite last_omap_snoc. unfold ProxyReload in *. rewrite foldl_app. simpl.
  set (p := foldl (add_site m) NewProxy sites) in *.
  destruct (routable site) as [t|] eqn:Hr.
  - destruct (add_site_routable m p site t Hr) as (_ & _ & ->). rewrite <- IH. unfold cert_entry.
    rewrite Hr. simpl. destruct (decide (site_TLSMode site = TLSModeManual)) as [Hm|Hm].
    + rewrite decide_True by done. destruct (LoadX509KeyPair _ _) as [c|e].
      * destruct (decide (to_lower (site_Domain site) = d)) as [<-|Hd].
        -- rewrite decide_True by done. by rewrite lookup_insert_eq.
        -- rewrite decide_False by tauto. by rewrite lookup_insert_ne.
      * by destruct (decide _).
    + rewrite !decide_False by tauto. done.
  - rewrite add_site_skip by done. unfold cert_entry. by rewrite Hr.
Qed.

(** C35: After Reload the handler of a domain is that of the last enabled site with a valid upstream
    and this domain in lower case, automatic TLS is on exactly for the domains of such sites in that
    mode, and the manual certificate is the last one that loaded. *)
Theorem reload_tables (m : Manager) (sites : list Site) (d : string) :
  px_handlers (ProxyReload m sites) !! d = last (omap (handler_entry m d) sites) /\
  px_autoDomains (ProxyReload m sites) !! d = (if decide (Exists (serves_auto d) sites) then Some true else None) /\
  px_manualCerts (ProxyReload m sites) !! d = last (omap (cert_entry d) sites).
Proof. split; [apply reload_handlers|]. split; [apply reload_auto|apply reload_certs]. Qed.

(** ** Hosts *)

Lemma host_domain_plain h :
  is_ascii h = true -> char_in ":"%char h = false -> host_domain h = to_lower h.
Proof.
  intros Ha Hc. unfold host_domain, to_lower. rewrite Ha. cbv zeta. rewrite index_byte_None; [done|].
  rewrite char_in_lower; [done|]. left. by compute.
Qed.

Lemma host_domain_port h port :
  is_ascii h = true -> is_ascii port = true -> char_in ":"%char h = false ->
  host_domain (h +:+ ":" +:+ port) = to_lower h.
Proof.
  intros Ha Hp Hc. unfold host_domain, to_lower. rewrite !is_ascii_app, Ha, Hp. cbv zeta. simpl.
  rewrite !ascii_lower_app. change (ascii_lower ":") with ":". rewrite string_app_cons, string_app_nil_l.
  rewrite index_byte_app, str_take_app; [done|]. rewrite char_in_lower; [done|]. left. by compute.
Qed.

(** The domain a host selects never contains a colon. *)
Lemma host_domain_no_colon host : char_in ":"%char (host_domain host) = false.
Proof.
  unfold host_domain. cbv zeta. destruct (index_byte ":"%char (to_lower host)) as [i|] eqn:E.
  - by apply index_byte_Some in E as [_ ?].
  - revert E. generalize (to_lower host). intros s. induction s as [|c s IH]; simpl; [done|].
    case_decide; [done|]. destruct (index_byte _ s); [done|]. auto.
Qed.

Lemma omap_unique_entry m d (sites : list Site) s h :
  s ∈ sites -> handler_entry m d s = Some h ->
  (forall s', s' ∈ sites -> to_lower (site_Domain s') = to_lower (site_Domain s) -> s' = s) ->
  last (omap (handler_entry m d) sites) = Some h.
Proof.
  intros Hin Hh Huniq.
  assert (d = to_lower (site_Domain s)) as ->.
  { revert Hh. unfold handler_entry. destruct (routable s); [|done]. simpl. by case_decide. }
  assert (forall h', h' ∈ omap (handler_entry m (to_lower (site_Domain s))) sites -> h' = h) as Hall.
  { intros h' (s' & Hs' & E)%list_elem_of_omap. assert (s' = s) as ->; [|congruence].
    apply Huniq; [done|]. revert E. unfold handler_entry. destruct (routable s'); [|done]. simpl. by case_decide. }
  assert (h ∈ omap (handler_entry m (to_lower (site_Domain s))) sites) as Hmem
    by (apply list_elem_of_omap; eauto).
  destruct (last (omap (handler_entry m (to_lower (site_Domain s))) sites)) as [h'|] eqn:E.
  - f_equal. by apply Hall, last_Some_elem_of.
  - apply last_None in E. rewrite E in Hmem. by apply elem_of_nil in Hmem.
Qed.

(** The route of a site without competitors. *)
Lemma site_route (m : Manager) (sites : list Site) (s : Site) (t : URL) (h port : string) :
  s ∈ sites -> routable s = Some t ->
  (forall s', s' ∈ sites -> to_lower (site_Domain s') = to_lower (site_Domain s) -> s' = s) ->
  to_lower h = to_lower (site_Domain s) ->
  is_ascii h = true -> is_ascii port = true -> char_in ":"%char h = false ->
  handlerFor h (ProxyReload m sites) = Some (handler_of m s t) /\
  handlerFor (h +:+ ":" +:+ port) (ProxyReload m sites) = Some (handler_of m s t).
Proof.
  intros Hin Hr Huniq Hh Ha Hp Hc. unfold handlerFor.
  rewrite host_domain_plain, host_domain_port, reload_handlers by done.
  assert (last (omap (handler_entry m (to_lower h)) sites) = Some (handler_of m s t)) as ->; [|done].
  eapply omap_unique_entry; [done| |done]. unfold handler_entry. rewrite Hr. simpl. by rewrite decide_True.
Qed.

(** Every enabled site with a valid upstream and no case-insensitive double is reached under
    its domain in any letter case, with and without a port. *)
Theorem site_reachable (m : Manager) (sites : list Site) (s : Site) (t : URL) (h port : string) :
  s ∈ sites -> routable s = Some t ->
  (forall s', s' ∈ sites -> to_lower (site_Domain s') = to_lower (site_Domain s) -> s' = s) ->
  to_lower h = to_lower (site_Domain s) ->
  is_ascii h = true -> is_ascii port = true -> char_in ":"%char h = false ->
  handlerFor h (ProxyReload m sites) = Some (handler_of m s t) /\
  handlerFor (h +:+ ":" +:+ port) (ProxyReload m sites) = Some (handler_of m s t).
Proof. apply site_route. Qed.

(** A site matters only for its own domain. *)
Lemma handler_entry_None m d s : to_lower (site_Domain s) <> d -> handler_entry m d s = None.
Proof. intros Hd. unfold handler_entry. destruct (routable s); [|done]. simpl. by rewrite decide_False. Qed.

Lemma other_host (m : Manager) (before after : list Site) (s : Site) (host : string) :
  to_lower (site_Domain s) <> host_domain host ->
  handlerFor host (ProxyReload m (before ++ s :: after)) = handlerFor host (ProxyReload m (before ++ after)).
Proof.
  intros Hd. unfold handlerFor. rewrite !reload_handlers, !omap_app. cbn [omap list_omap].
  by rewrite handler_entry_None.
Qed.

(** A site alone with its domain decides what the domain's hosts get. *)
Lemma own_host (m : Manager) (before after : list Site) (s : Site) (host : string) :
  host_domain host = to_lower (site_Domain s) ->
  (forall x, x ∈ before ++ after -> to_lower (site_Domain x) <> to_lower (site_Domain s)) ->
  handlerFor host (ProxyReload m (before ++ s :: after)) = handler_of m s <$> routable s.
Proof.
  intros Hh Hx. unfold handlerFor. rewrite Hh, reload_handlers, omap_app. cbn [omap list_omap].
  set (f := handler_entry m (to_lower (site_Domain s))).
  assert (forall l, (forall x, x ∈ l -> x ∈ before ++ after) -> omap f l = []) as Hnil.
  { intros l Hl. induction l as [|x l IH]; [done|]. cbn [omap list_omap].
    unfold f at 1. rewrite handler_entry_None by apply Hx, Hl, list_elem_of_here.
    apply IH. intros y Hy. by apply Hl, list_elem_of_further. }
  rewrite !Hnil by (intros x ?; apply elem_of_app; auto). unfold f, handler_entry. cbn [app].
  destruct (routable s); [|done]. simpl. by rewrite decide_True.
Qed.

(** A site whose domain names a port is never served. *)
Theorem port_domain_unreachable (m : Manager) (before after : list Site) (s : Site) (host : string) :
  char_in ":"%char (to_lower (site_Domain s)) = true ->
  handlerFor host (ProxyReload m (before ++ s :: after)) = handlerFor host (ProxyReload m (before ++ after)).
Proof. intros Hc. apply other_host. intros E. by rewrite E, host_domain_no_colon in Hc. Qed.

(** Sites that differ only in letter case mix their settings. *)
Theorem case_collision_mixes (m : Manager) (s1 s2 : Site) (t1 t2 : URL) (host : string) :
  routable s1 = Some t1 -> routable s2 = Some t2 ->
  to_lower (site_Domain s1) = host_domain host -> to_lower (site_Domain s2) = host_domain host ->
  site_TLSMode s1 = TLSModeAuto -> site_TLSMode s2 = TLSModeOff ->
  let p := ProxyReload m [s1; s2] in
  handlerFor host p = Some (handler_of m s2 t2) /\ usesTLS host p = true.
Proof.
  intros R1 R2 D1 D2 M1 M2. cbv zeta. split.
  - unfold handlerFor. rewrite reload_handlers. change [s1; s2] with ([s1] ++ [s2]). rewrite last_omap_snoc.
    unfold handler_entry at 1. rewrite R2. simpl. by rewrite decide_True.
  - unfold usesTLS. cbv zeta. rewrite reload_auto, decide_True; [done|].
    apply Exists_cons. left. split; [by rewrite R1|done].
Qed.

(** ** Certificates *)

(** C36: A TLS handshake gets a certificate only from a manual key pair configured for the name or,
    unless autocert has one cached, for a name of an enabled site with automatic TLS. *)
Theorem certificate_policy (m : Manager) (sites : list Site) (name : string) (c : Certificate) :
  tls_GetCertificate (ProxyTLSConfig (ProxyReload m sites)) name = Ok c ->
  acme_cached (acme_name name) = None ->
  (exists s, s ∈ sites /\ cert_entry (to_lower name) s = Some c) \/
  Exists (serves_auto (to_lower (acme_name name))) sites.
Proof.
  cbn [ProxyTLSConfig tls_GetCertificate]. unfold getCertificate. rewrite reload_certs.
  destruct (last (omap (cert_entry (to_lower name)) sites)) as [c'|] eqn:E.
  - intros [= ->] _. left. apply last_Some_elem_of, list_elem_of_omap in E as (s & ? & ?). eauto.
  - intros Hok Hcache. right.
    destruct (decide (Exists (serves_auto (to_lower (acme_name name))) sites)) as [|Hn]; [done|]. exfalso.
    pose proof (acme_policy_asked (hostPolicy (ProxyReload m sites)) name
      "acme: host not configured for automatic TLS" Hcache) as Hpol.
    rewrite Hok in Hpol. unfold hostPolicy in Hpol. rewrite reload_auto, decide_False in Hpol by done.
    by specialize (Hpol eq_refl).
Qed.

(** ** Serving *)

(** The state after the limiter was asked. *)
Lemma limiter_allow_frame key w :
  let w' := (limiter_allow key w).2 in
  sy_engines w' = sy_engines w /\ sy_proxy w' = sy_proxy w /\ sy_sink w' = sy_sink w /\
  st_db (sy_store w') = st_db (sy_store w).
Proof.
  cbv zeta. unfold limiter_allow. destruct (sy_limiter w) as [l|]; [|done].
  simpl. by destruct (Allow key _ _ l).
Qed.

(** A request over the rate limit gets status 429 with Retry-After 1 and goes no further: no
    event, no change of engines, routes or database. *)
Theorem over_limit_refused (clientIP : Request -> string) (r : Request) (w : System) :
  (limiter_allow (clientIP r) w).1 = false ->
  let q := ProxyServeHTTP clientIP r w in
  status_of q.1.1 = 429%Z /\ rs_header (run_wops q.1.1 empty_response) !! "Retry-After" = Some ["1"] /\
  panics q.1 = false /\
  sy_engines q.2 = sy_engines w /\ sy_proxy q.2 = sy_proxy w /\ sy_sink q.2 = sy_sink w /\
  st_db (sy_store q.2) = st_db (sy_store w).
Proof.
  intros Hl. cbv zeta. unfold ProxyServeHTTP, bind, ret. rewrite Hl. cbn [negb fst snd].
  do 3 (split; [by vm_compute|]). apply limiter_allow_frame.
Qed.

(** On the plaintext listener, a request other than an ACME challenge is redirected with 301 to
    https for hosts with TLS, without consulting the limiter, and served like on the TLS listener
    otherwise. *)
Theorem plaintext_listener (clientIP : Request -> string) (r : Request) (w : System) :
  has_prefix "/.well-known/acme-challenge/" (rq_path r) = false ->
  HTTPHandler clientIP r w =
  if usesTLS (rq_host r) (sy_proxy w)
  then ((http_redirect r ("https://" +:+ rq_host r +:+ rq_uri r) 301, false), w)
  else ProxyServeHTTP clientIP r w.
Proof.
  intros Hp. unfold HTTPHandler. rewrite acme_fallback by done.
  unfold redirect_handler, bind, gets, ret. cbn [fst snd]. by destruct (usesTLS _ _).
Qed.

(** The sink's view of one event. *)
Definition sink_took (s s' : Sink) (e : Event) : Prop :=
  if decide (length (sk_queue s) < sk_cap s)%nat
  then sk_queue s' = sk_queue s ++ [e] /\ sk_dropped s' = sk_dropped s
  else sk_queue s' = sk_queue s /\ sk_dropped s' = sk_dropped s ++ [e].

Lemma submit_took e s : sink_took s (Submit e s).2 e.
Proof.
  unfold sink_took, Submit. destruct (length (sk_queue s) <? sk_cap s)%nat eqn:E;
    [apply Nat.ltb_lt in E; by rewrite decide_True|apply Nat.ltb_ge in E; by rewrite decide_False by lia].
Qed.

(** A request that reaches a handler. *)
Lemma serve_http_run clientIP r w h :
  (limiter_allow (clientIP r) w).1 = true -> handlerFor (rq_host r) (sy_proxy w) = Some h ->
  ProxyServeHTTP clientIP r w = serve_site h r (limiter_allow (clientIP r) w).2.
Proof.
  intros Hl Hh. unfold ProxyServeHTTP, bind, gets, ret. rewrite Hl. cbn [negb fst snd].
  destruct (limiter_allow_frame (clientIP r) w) as (_ & -> & _). by rewrite Hh.
Qed.

(** A blocked request from the listener to the sink, in one equation. *)
Lemma attack_run clientIP r r' w engine target domain it tx :
  (limiter_allow (clientIP r) w).1 = true ->
  handlerFor (rq_host r) (sy_proxy w) = Some (Guarded engine target domain) ->
  processRequestPhase (new_transaction engine (rq_seed r)) r = ((Some it, None), r', tx) ->
  exists e, ProxyServeHTTP clientIP r w =
      (([WriteHeader (statusFromInterruption it)], false),
       (submit_event e (clock_read (limiter_allow (clientIP r) w).2)).2) /\
    ev_Blocked e = true /\ ev_StatusCode e = statusFromInterruption it /\ event_about domain r e.
Proof.
  intros Hl Hh Hp. rewrite (serve_http_run _ _ _ _ Hl Hh). cbn [serve_site].
  destruct (waf_blocked_run engine (newReverseProxy recorder_hijacker target) submit_event domain r r' tx it
    (limiter_allow (clientIP r) w).2 Hp) as (e & -> & Hb & Hst & Hd & _ & Hm & Hu & Hip).
  exists e. done.
Qed.

(** C7: A request that the rate limiter admits, whose host is guarded by the firewall and that the
    engine interrupts, is answered with the interruption's status without reaching the upstream, and
    exactly one blocked event naming its domain, URI, status and client address is queued, or
    dropped when the queue is full. *)
Theorem attack_blocked (clientIP : Request -> string) (r r' : Request) (w : System)
    (engine : WAF) (target : URL) (domain : string) (it : Interruption) (tx : Tx) :
  (limiter_allow (clientIP r) w).1 = true ->
  handlerFor (rq_host r) (sy_proxy w) = Some (Guarded engine target domain) ->
  processRequestPhase (new_transaction engine (rq_seed r)) r = ((Some it, None), r', tx) ->
  let q := ProxyServeHTTP clientIP r w in
  q.1 = ([WriteHeader (statusFromInterruption it)], false) /\
  exists e, sink_took (sy_sink w) (sy_sink q.2) e /\
    ev_Blocked e = true /\ ev_Domain e = domain /\ ev_StatusCode e = statusFromInterruption it /\
    ev_URI e = rq_uri r /\ ev_ClientIP e = splitHost (rq_remote_addr r) /\
  st_db (sy_store q.2) = st_db (sy_store w) /\ sy_proxy q.2 = sy_proxy w /\ sy_engines q.2 = sy_engines w.
Proof.
  intros Hl Hh Hp. cbv zeta. destruct (attack_run _ _ _ _ _ _ _ _ _ Hl Hh Hp) as (e & -> & Hb & Hst & Hd & _ & Hu & Hip).
  destruct (limiter_allow_frame (clientIP r) w) as (He & Hx & Hs & Hdb). cbn [fst snd]. split; [done|]. exists e.
  rewrite <- Hs, <- Hdb, <- Hx, <- He. split; [apply (submit_took e)|]. done.
Qed.

(** An unknown host. *)
Theorem unknown_host (clientIP : Request -> string) (r : Request) (w : System) :
  (limiter_allow (clientIP r) w).1 = true -> handlerFor (rq_host r) (sy_proxy w) = None ->
  let q := ProxyServeHTTP clientIP r w in
  status_of q.1.1 = 404%Z /\ q.2 = (limiter_allow (clientIP r) w).2.
Proof.
  intros Hl Hh. cbv zeta. unfold ProxyServeHTTP, bind, gets, ret. rewrite Hl. cbn [negb fst snd].
  destruct (limiter_allow_frame (clientIP r) w) as (_ & -> & _). rewrite Hh. split; [by vm_compute|done].
Qed.
(** An event for the sink, or none. *)
Definition submit_opt (oe : option Event) (s : Sink) : Sink :=
  match oe with Some e => (Submit e s).2 | None => s end.

(** The domain whose events a handler reports. *)
Definition reports_for (h : SiteHandler) : option string := match h with Guarded _ _ d => Some d | Plain _ => None end.

(** Serving a request changes nothing but the clock and the sink, and that by
    at most one event about the request. *)
Lemma serve_site_effect h r w :
  let w' := (serve_site h r w).2 in
  exists oe, sy_sink w' = submit_opt oe (sy_sink w) /\
    match oe with Some e => exists d, reports_for h = Some d /\ event_about d r e | None => True end /\
    st_db (sy_store w') = st_db (sy_store w) /\ sy_engines w' = sy_engines w /\ sy_proxy w' = sy_proxy w /\
    sy_limiter w' = sy_limiter w.
Proof.
  cbv zeta. destruct h as [t|engine t d]; [by exists None|]. cbn [serve_site].
  destruct (waf_effect engine (newReverseProxy recorder_hijacker t) submit_event d r w) as [E|(e & He & E)];
    [done|rewrite E; by exists None|]. rewrite E. exists (Some e). split; [done|]. split; [by exists d|done].
Qed.

(** ** The exchange with the upstream *)

(** The firewall, if there is one, lets the request through. *)
Definition passes (h : SiteHandler) (r : Request) : Prop :=
  match h with
  | Plain _ => True
  | Guarded engine _ _ => exists r' tx, processRequestPhase (new_transaction engine (rq_seed r)) r = ((None, None), r', tx)
  end.

Definition target_of (h : SiteHandler) : URL := match h with Plain t | Guarded _ t _ => t end.

(** Whether the reverse proxy's writer can be hijacked. *)
Definition site_hijacker (h : SiteHandler) (r : Request) : bool :=
  match h with Plain _ => server_hijacker r | Guarded _ _ _ => recorder_hijacker end.

Lemma serve_site_passes h r w :
  passes h r -> (serve_site h r w).1 = reverse_proxy (site_hijacker h r) (target_of h) r.
Proof.
  destruct h as [t|engine t d]; [done|]. intros (r' & tx & Hp). cbn [serve_site].
  by rewrite (waf_passes_run _ _ _ _ _ _ _ _ Hp).
Qed.

(** C9: A request that is admitted, routed and passes the firewall, or has none, is put to the
    site's upstream, unless it asks for an unprintable protocol and is answered with upstream
    unavailable: with the client's method, Host, length and body, under the target's address, with
    the target's path and the request's rooted path joined by one slash when neither keeps an
    encoding, and with the request's query when the target has none. Headers neither hop-by-hop nor
    named by Connection are passed on unchanged; of the hop-by-hop ones only Te: trailers when the
    client sent that token, and Connection: Upgrade with the protocol when the client asks for an
    upgrade; a missing User-Agent is sent empty, and X-Forwarded-For is the client's own end-to-end
    list with its address appended when that can be split. The client gets what the upstream's
    answer to exactly this request is made into. *)
Theorem request_forwarded (clientIP : Request -> string) (r : Request) (w : System) (h : SiteHandler) :
  (limiter_allow (clientIP r) w).1 = true -> handlerFor (rq_host r) (sy_proxy w) = Some h -> passes h r ->
  let q := (ProxyServeHTTP clientIP r w).1 in
  if is_print (upgradeType (rq_header r))
  then exists out, forwards (target_of h) r out /\
    q = relay_answer (site_hijacker h r) out (round_trip (rq_seed r) out)
  else q = (upstream_unavailable, false).
Proof.
  intros Hl Hh Hp. cbv zeta. rewrite (serve_http_run _ _ _ _ Hl Hh), serve_site_passes by done. unfold reverse_proxy.
  pose proof (outgoing_forwards (target_of h) r) as Ho. destruct (is_print _); [|by rewrite Ho].
  destruct Ho as (out & -> & Hf). by exists out.
Qed.

(** C10: A request that is admitted, routed and passes the firewall, or has none, and can be put to
    the upstream gets the upstream's answer when it is complete, with distinct headers and a final
    status between 200 and 999: informational responses first, then the final status with exactly
    the end-to-end headers and announced trailers, and the body piece by piece; an upstream that
    cannot be reached is answered with 502 and the text upstream unavailable. *)
Theorem exchange_relayed (clientIP : Request -> string) (r : Request) (w : System) (h : SiteHandler)
    (out : OutRequest) (infos : list (Z * Header)) (answer : res UpstreamResponse) :
  (limiter_allow (clientIP r) w).1 = true -> handlerFor (rq_host r) (sy_proxy w) = Some h -> passes h r ->
  outgoing (target_of h) r = Some out -> round_trip (rq_seed r) out = (infos, answer) ->
  let q := (ProxyServeHTTP clientIP r w).1 in
  let client := run_wops q.1 empty_response in
  match answer with
  | Ok res =>
      (200 <= ur_status res <= 999)%Z -> header_ok (ur_header res) -> ur_complete res = true ->
      panics q = false /\
      exists header, (forall k, header !! k = relayed_header res k) /\
        rs_sent client = Some (ur_status res, header, []) /\ rs_informational client = infos.*1 /\
        rs_body client = Raw <$> ur_reads res
  | Err _ => panics q = false /\ status_of q.1 = 502%Z /\ rs_body client = [Raw ("upstream unavailable" +:+ nl)]
  end.
Proof.
  intros Hl Hh Hp Ho Hr. cbv zeta. rewrite (serve_http_run _ _ _ _ Hl Hh), serve_site_passes by done. unfold panics.
  destruct answer as [res|e].
  - intros Hst Hok Hc. destruct (relayed (site_hijacker h r) _ _ _ _ _ Ho Hr Hst Hok Hc) as (Hq & m & Hm & Hs & Hi & Hb & Hpan).
    rewrite Hq, Hpan. split; [done|]. by exists m.
  - destruct (unreachable (site_hijacker h r) _ _ _ _ _ Ho Hr) as (Hq & Hst & Hb & Hpan). by rewrite Hq, Hpan.
Qed.

(** C17: When the upstream agrees to switch protocols for a request over HTTP/1 that the firewall
    lets pass, a site without firewall answers 101 and tunnels, while the same site behind the
    firewall answers 502, because the status recorder cannot be hijacked. *)
Theorem firewall_breaks_upgrades (engine : WAF) (target : URL) (domain : string) (r r' : Request) (tx : Tx)
    (w : System) (out : OutRequest) (res : UpstreamResponse) :
  rq_proto r <> "HTTP/2.0" ->
  processRequestPhase (new_transaction engine (rq_seed r)) r = ((None, None), r', tx) ->
  outgoing target r = Some out -> round_trip (rq_seed r) out = ([], Ok res) -> ur_status res = 101%Z ->
  is_print (upgradeType (ur_header res)) = true ->
  equal_fold (upgradeType (out_header out)) (upgradeType (ur_header res)) = true ->
  status_of (serve_site (Plain target) r w).1.1 = 101%Z /\
  status_of (serve_site (Guarded engine target domain) r w).1.1 = 502%Z.
Proof.
  intros Hproto Hp Ho Hr Hst Hpr He. rewrite !serve_site_passes by (done || by exists r', tx).
  rewrite !(upgraded _ _ _ _ _ Ho Hr Hst Hpr He). cbn [site_hijacker recorder_hijacker fst].
  unfold server_hijacker. rewrite bool_decide_false by done. cbn [negb]. split; [|by vm_compute].
  unfold status_of. rewrite run_wops_app, run_copy_header by done. done.
Qed.
(** ** From the attack to the stored event *)

Lemma limiter_allow_faults key w : st_faults (sy_store (limiter_allow key w).2) = st_faults (sy_store w).
Proof. unfold limiter_allow. destruct (sy_limiter w) as [l|]; [|done]. cbn. by destruct (Allow key _ _ l). Qed.

(** C5: After a blocked attack on a guarded host that the limiter admits, with room in the queue, a
    working database and event ids left, the worker needs two steps more than it had to do before,
    and then the last row of the events table is the blocked event about this request, with the
    interruption's status. *)
Theorem attack_recorded (clientIP : Request -> string) (r r' : Request) (w : System)
    (engine : WAF) (target : URL) (domain : string) (it : Interruption) (tx : Tx) :
  (limiter_allow (clientIP r) w).1 = true ->
  handlerFor (rq_host r) (sy_proxy w) = Some (Guarded engine target domain) ->
  processRequestPhase (new_transaction engine (rq_seed r)) r = ((Some it, None), r', tx) ->
  no_faults (sy_store w) -> (length (sk_queue (sy_sink w)) < sk_cap (sy_sink w))%nat ->
  (seq_no (db_events (st_db (sy_store w))) + Z.of_nat (work_left (sy_sink w, sy_store w)) + 2 < int64_max)%Z ->
  let q := ProxyServeHTTP clientIP r w in
  exists n p e, nsteps worker_step n (sy_sink q.2, sy_store q.2) p /\ nf worker_step p /\
    n = (work_left (sy_sink w, sy_store w) + 2)%nat /\
    last (rows (db_events (st_db p.2))) = Some e /\
    ev_Blocked e = true /\ ev_StatusCode e = statusFromInterruption it /\ event_about domain r e.
Proof.
  intros Hl Hh Hp Hn Hroom Hseq. cbv zeta.
  destruct (attack_run _ _ _ _ _ _ _ _ _ Hl Hh Hp) as (e & -> & Hb & Hst & Habout). cbn [snd].
  destruct (limiter_allow_frame (clientIP r) w) as (_ & _ & Hs & Hdb).
  pose proof (limiter_allow_faults (clientIP r) w) as Hf. set (w1 := (limiter_allow (clientIP r) w).2) in *.
  cbn [submit_event snd sy_sink sy_store clock_read on_store set_store get_store system_has_store].
  set (st := (time_now (sy_store w1)).2). rewrite Hs.
  assert ((Submit e (sy_sink w)).2 = mkSink (sk_cap (sy_sink w)) (sk_queue (sy_sink w) ++ [e]) (sk_hand (sy_sink w)) (sk_dropped (sy_sink w))) as ->.
  { unfold Submit. by rewrite (proj2 (Nat.ltb_lt _ _)) by done. }
  set (p0 := (mkSink _ _ _ _, st)). destruct (worker_finishes p0) as (n & p & Hrun & Hnf).
  assert (work_left p0 = work_left (sy_sink w, sy_store w) + 2)%nat as Hw.
  { unfold work_left, p0. cbn [fst sk_queue sk_hand]. rewrite length_app. cbn. lia. }
  assert (stored p.2 = kept p0) as Hk.
  { apply (worker_stored n p0 p Hrun Hnf); [unfold no_faults, p0, st in *; cbn; by rewrite Hf|].
    rewrite Hw. unfold p0, st. cbn [snd]. change (st_db (time_now (sy_store w1)).2) with (st_db (sy_store w1)).
    rewrite Hdb. lia. }
  assert (exists x, last (rows (db_events (st_db p.2))) = Some x /\ no_id x = no_id e) as (x & Hx & Hid).
  { unfold stored, kept, pending, p0 in Hk. cbn [fst snd sk_queue sk_hand] in Hk.
    rewrite !fmap_app, !app_assoc in Hk. cbn in Hk.
    assert (last (no_id <$> rows (db_events (st_db p.2))) = Some (no_id e)) as Hlast by (rewrite Hk; apply last_snoc).
    rewrite fmap_last in Hlast. destruct (last _) as [x|]; [|done]. exists x. split; [done|]. cbn in Hlast. congruence. }
  exists n, p, x. split; [done|]. split; [done|]. split.
  { pose proof (worker_bounded _ _ _ Hrun) as Hb0. destruct (worker_stops _ Hnf) as [E1 E2].
    assert (work_left p = 0)%nat by (unfold work_left; by rewrite E1, E2). lia. }
  assert (forall A (f : Event -> A), (forall a, f (no_id a) = f a) -> f x = f e) as Hfld
    by (intros A f Hfa; by rewrite <- (Hfa x), Hid).
  split; [done|]. unfold event_about in *.
  by rewrite (Hfld _ ev_Blocked), (Hfld _ ev_StatusCode), (Hfld _ ev_Domain), (Hfld _ ev_Method), (Hfld _ ev_URI),
    (Hfld _ ev_ClientIP) by done.
Qed.
End proxy_spec.
