(* ===== verification/Config.v ===== *)
(** * Configuration and listeners ([internal/config], [cmd/wafportal])

    The defaults and [Load], the client-address function the rate limiter is
    keyed by, and the listeners [startServers] opens. The YAML decoder is a
    parameter. *)

From S2P Require Export GoHttp.
From Stdlib Require Export SpecFloat.
From Stdlib Require Import Ascii.

(** ** Configuration *)

Record RateLimitConfig := mkRateLimitConfig {
  rl_Enabled : bool; rl_RequestsPerSecond : spec_float; rl_Burst : Z;
  rl_TrustForwardedHeader : bool; rl_ForwardedHeader : string }.
Record ProxyConfig := mkProxyConfig { pc_HTTPAddr : string; pc_HTTPSAddr : string }.
Record AdminConfig := mkAdminConfig { ac_Addr : string; ac_Username : string; ac_Password : string }.
Record TLSConfig := mkTLSConfig { tc_Email : string; tc_CacheDir : string }.
Record DatabaseConfig := mkDatabaseConfig { dc_Path : string }.

Record Config := mkConfig {
  cfg_Proxy : ProxyConfig; cfg_Admin : AdminConfig; cfg_TLS : TLSConfig;
  cfg_Database : DatabaseConfig; cfg_RateLimit : RateLimitConfig }.

(** The float64 20. *)
Definition twenty : spec_float := S754_finite false 5629499534213120 (-48).

Definition Default : Config :=
  mkConfig (mkProxyConfig ":80" ":443") (mkAdminConfig "127.0.0.1:9090" "" "")
    (mkTLSConfig "" "./certs") (mkDatabaseConfig "./wafportal.db")
    (mkRateLimitConfig true twenty 40 false "X-Forwarded-For").

(** The leaves of the configuration, to speak about one of them. *)
Inductive setting_value := VStr (s : string) | VBool (b : bool) | VInt (z : Z) | VFloat (f : spec_float).

Inductive field :=
| FHTTPAddr | FHTTPSAddr | FAddr | FUsername | FPassword | FEmail | FCacheDir | FPath
| FEnabled | FRequestsPerSecond | FBurst | FTrustForwardedHeader | FForwardedHeader.

Definition field_value (f : field) (c : Config) : setting_value :=
  match f with
  | FHTTPAddr => VStr (pc_HTTPAddr (cfg_Proxy c))
  | FHTTPSAddr => VStr (pc_HTTPSAddr (cfg_Proxy c))
  | FAddr => VStr (ac_Addr (cfg_Admin c))
  | FUsername => VStr (ac_Username (cfg_Admin c))
  | FPassword => VStr (ac_Password (cfg_Admin c))
  | FEmail => VStr (tc_Email (cfg_TLS c))
  | FCacheDir => VStr (tc_CacheDir (cfg_TLS c))
  | FPath => VStr (dc_Path (cfg_Database c))
  | FEnabled => VBool (rl_Enabled (cfg_RateLimit c))
  | FRequestsPerSecond => VFloat (rl_RequestsPerSecond (cfg_RateLimit c))
  | FBurst => VInt (rl_Burst (cfg_RateLimit c))
  | FTrustForwardedHeader => VBool (rl_TrustForwardedHeader (cfg_RateLimit c))
  | FForwardedHeader => VStr (rl_ForwardedHeader (cfg_RateLimit c))
  end.

(** gopkg.in/yaml.v3: decoding into a struct leaves the fields whose key the
    document does not have. *)
Class Yaml := {
  yaml_unmarshal : string -> Config -> Config * option error;
  yaml_has : string -> field -> bool;
  yaml_keeps : forall data c f,
    yaml_has data f = false -> field_value f (yaml_unmarshal data c).1 = field_value f c
}.

(** What [os.ReadFile] gives. *)
Inductive file := FileData (data : string) | FileMissing (e : error) | FileError (e : error).

Definition quoted (s : string) : string :=
  let q := String (of_byte 34) "" in q +:+ s +:+ q.

(** [Load], for a path without characters that need escaping in the messages. *)
Definition Load `{Yaml} (path : string) (f : file) : Config * option error :=
  let cfg := Default in
  match f with
  | FileMissing _ => (cfg, None)
  | FileError e => (cfg, Some ("read config " +:+ quoted path +:+ ": " +:+ e))
  | FileData data =>
      let '(cfg, err) := yaml_unmarshal data cfg in
      match err with
      | Some e => (cfg, Some ("parse config " +:+ quoted path +:+ ": " +:+ e))
      | None => (cfg, None)
      end
  end.

(** ** Client addresses *)

Definition clientIPFunc (cfg : RateLimitConfig) (r : Request) : string :=
  let peer :=
    match split_host_port (rq_remote_addr r) with
    | inl (host, _) => host
    | inr _ => rq_remote_addr r
    end in
  if rl_TrustForwardedHeader cfg && negb (bool_decide (rl_ForwardedHeader cfg = "")) then
    let h := header_get r (rl_ForwardedHeader cfg) in
    if decide (h = "") then peer
    else trim_space (match index_byte ","%char h with Some i => str_take i h | None => h end)
  else peer.

(** ** Listeners *)

Inductive listener_handler := AdminAPI | PlaintextProxy | TLSProxy.

(** The fields of [http.Server] that are set; timeouts in nanoseconds, zero for
    none. *)
Record HttpServer := mkServer {
  sv_Addr : string; sv_Handler : listener_handler;
  sv_ReadHeaderTimeout : Z; sv_ReadTimeout : Z; sv_WriteTimeout : Z; sv_IdleTimeout : Z }.

Definition setProxyTimeouts (s : HttpServer) : HttpServer :=
  mkServer (sv_Addr s) (sv_Handler s) (10 * time_second) (sv_ReadTimeout s) (sv_WriteTimeout s) (120 * time_second).

Definition startServers (cfg : Config) : list HttpServer :=
  let admin := mkServer (ac_Addr (cfg_Admin cfg)) AdminAPI
    (10 * time_second) (30 * time_second) (60 * time_second) (120 * time_second) in
  let httpSrv := setProxyTimeouts (mkServer (pc_HTTPAddr (cfg_Proxy cfg)) PlaintextProxy 0 0 0 0) in
  [admin; httpSrv] ++
  (if decide (pc_HTTPSAddr (cfg_Proxy cfg) = "") then []
   else [setProxyTimeouts (mkServer (pc_HTTPSAddr (cfg_Proxy cfg)) TLSProxy 0 0 0 0)]).

(** ** Properties *)

(** Unset fields have their defaults. *)
Theorem load_defaults `{Yaml} (path : string) (f : file) (fld : field) :
  match f with FileData data => yaml_has data fld = false | _ => True end ->
  field_value fld (Load path f).1 = field_value fld Default /\
  (match f with FileMissing _ => (Load path f).2 = None | FileError _ => is_Some (Load path f).2 | _ => True end).
Proof.
  intros Hf. destruct f as [data|e|e]; [|done|by split; [done|eexists]]. unfold Load. cbv zeta.
  pose proof (yaml_keeps data Default fld Hf) as Hk.
  destruct (yaml_unmarshal data Default) as [cfg [e|]]; done.
Qed.

(** The header's address: everything before the first comma, trimmed. *)
Lemma client_ip_forwarded cfg r :
  rl_TrustForwardedHeader cfg = true -> rl_ForwardedHeader cfg <> "" ->
  header_get r (rl_ForwardedHeader cfg) <> "" ->
  clientIPFunc cfg r =
  trim_space (match cut ","%char (header_get r (rl_ForwardedHeader cfg)) with
              | Some (first, _) => first
              | None => header_get r (rl_ForwardedHeader cfg)
              end).
Proof.
  intros Ht Hf Hh. unfold clientIPFunc. cbv zeta. rewrite Ht, bool_decide_false by done. simpl.
  rewrite decide_False by done. f_equal. generalize (header_get r (rl_ForwardedHeader cfg)). intros h.
  induction h as [|c h IH]; [done|]. simpl. case_decide; [done|].
  destruct (index_byte ","%char h), (cut ","%char h) as [[a b]|]; simpl in *; congruence.
Qed.

Lemma split_host_port_plain host port :
  char_in ":"%char host = false -> char_in "["%char host = false -> char_in "]"%char host = false ->
  char_in ":"%char port = false -> char_in "["%char port = false -> char_in "]"%char port = false ->
  split_host_port (host +:+ ":" +:+ port) = inl (host, port).
Proof.
  intros H1 H2 H3 P1 P2 P3. unfold split_host_port. rewrite string_app_cons, string_app_nil_l.
  rewrite last_index_byte_app by done. cbv zeta.
  rewrite decide_False; [|destruct host as [|c h]; [done|]; intros [= ->]; done].
  rewrite str_take_app, H1. simpl. rewrite !char_in_app. simpl. rewrite H2, H3, P2, P3. simpl.
  f_equal. f_equal. clear. induction host as [|c h IH]; [done|]. by rewrite string_app_cons.
Qed.

(** The rate limiter's key is the peer's address without port, or, when a forwarded header is
    trusted, configured and present, the trimmed text before its first comma. *)
Theorem client_ip_spec (cfg : RateLimitConfig) (r : Request) (host port : string) :
  rq_remote_addr r = host +:+ ":" +:+ port ->
  Forall (fun c => char_in c host = false /\ char_in c port = false) [":"%char; "["%char; "]"%char] ->
  clientIPFunc cfg r =
  (if rl_TrustForwardedHeader cfg && negb (bool_decide (rl_ForwardedHeader cfg = ""))
      && negb (bool_decide (header_get r (rl_ForwardedHeader cfg) = ""))
   then trim_space (match cut ","%char (header_get r (rl_ForwardedHeader cfg)) with
                    | Some (first, _) => first
                    | None => header_get r (rl_ForwardedHeader cfg)
                    end)
   else host).
Proof.
  intros Hr Hc. rewrite !Forall_cons in Hc. destruct Hc as ([? ?] & [? ?] & [? ?] & _).
  destruct (rl_TrustForwardedHeader cfg) eqn:Ht; [case_bool_decide as Hf; [|case_bool_decide as Hh]|];
    cbn [andb negb]; try (by apply client_ip_forwarded).
  all: unfold clientIPFunc; rewrite Hr, split_host_port_plain, Ht by done; cbv zeta; simpl;
    repeat (case_bool_decide || case_decide); done.
Qed.

(** Every listener has header and idle timeouts, TLS only when configured. *)
Theorem listeners_hardened (cfg : Config) :
  Forall (fun s => sv_ReadHeaderTimeout s = 10 * time_second /\ sv_IdleTimeout s = 120 * time_second)%Z (startServers cfg) /\
  (Exists (fun s => sv_Handler s = TLSProxy) (startServers cfg) <-> pc_HTTPSAddr (cfg_Proxy cfg) <> "") /\
  Forall (fun s => sv_Handler s <> AdminAPI -> sv_ReadTimeout s = 0 /\ sv_WriteTimeout s = 0)%Z (startServers cfg).
Proof.
  unfold startServers. cbv zeta. case_decide as Ht; simpl; (split; [by repeat constructor|]; split; [|by repeat constructor]);
    rewrite !Exists_cons, Exists_nil; simpl; naive_solver.
Qed.
