(* ===== verification/Shutdown.v ===== *)
(** * Shutting down ([cmd/wafportal]: waitForShutdown)

    After the signal the servers are shut down one after the other under one
    deadline of ten seconds. [http.Server.Shutdown] closes the listeners, then
    closes idle connections again and again, waiting a little longer each time,
    until none is left or the context ends. Clients and handlers decide what
    state a connection is in at what time; they and the random part of the
    waiting times are arguments. Timers fire on time. *)

From S2P Require Export Config.

Local Open Scope Z_scope.

Definition time_millisecond : Z := 1000000.

(** ** [http.Server.Shutdown] *)

Inductive ConnState := StateNew | StateActive | StateIdle.

(** The state of a connection at a time and since when it is in it; [None]:
    it is gone. *)
Definition Conn : Type := time -> option (ConnState * time).

(** A connection that [closeIdleConns] leaves open: not idle, and not a new one
    that has sent no request for more than five seconds. *)
Definition stays_open (now : time) (c : Conn) : bool :=
  match c now with
  | None => false
  | Some (st, since) =>
      match st with
      | StateIdle => unix since =? 0
      | StateNew => negb (unix since <? unix now - 5) || (unix since =? 0)
      | StateActive => true
      end
  end.

(** Whether no connection is left, and those that are. *)
Definition closeIdleConns (now : time) (conns : list Conn) : bool * list Conn :=
  let rest := filter (fun c => stays_open now c = true) conns in
  (bool_decide (length rest = 0%nat), rest).

Definition shutdownPollIntervalMax : Z := 500 * time_millisecond.

Definition next_base (base : Z) : Z := Z.min (2 * base) shutdownPollIntervalMax.

(** [jitter k] is the k-th draw of [rand.IntN]; the waiting times start at one
    millisecond. The result: the error, when the call returned, what is open. *)
Fixpoint shutdown_loop (fuel : nat) (deadline now base : Z) (jitter : nat -> Z) (k : nat) (conns : list Conn)
    : option (option error * time * list Conn) :=
  match fuel with
  | O => None
  | S fuel =>
      let '(quiescent, conns) := closeIdleConns now conns in
      if quiescent then Some (None, now, conns)
      else
        let fires := now + base + jitter k in
        if deadline <=? fires then Some (Some "context deadline exceeded", Z.max now deadline, conns)
        else shutdown_loop fuel deadline fires (next_base base) jitter (S k) conns
  end.

(** One round per millisecond would be enough. *)
Definition shutdown_fuel (deadline now : time) : nat := S (Z.to_nat ((deadline - now) / time_millisecond + 1)).

Definition Shutdown (deadline now : time) (jitter : nat -> Z) (conns : list Conn)
    : option (option error * time * list Conn) :=
  shutdown_loop (shutdown_fuel deadline now) deadline now time_millisecond jitter 0 conns.

(** ** waitForShutdown *)

(** What one server leaves behind. *)
Record closed_server := mkClosed { cl_error : option error; cl_at : time; cl_open : list Conn }.

(** [conns srv t]: the connections of the server when its listeners close at
    [t]; until then it goes on accepting. *)
Fixpoint shutdown_all (deadline : time) (jitter : HttpServer -> nat -> Z) (conns : HttpServer -> time -> list Conn)
    (servers : list HttpServer) (now : time) : option (time * list closed_server) :=
  match servers with
  | [] => Some (now, [])
  | srv :: servers =>
      '(err, now', rest) ← Shutdown deadline now (jitter srv) (conns srv now);
      '(finish, closed) ← shutdown_all deadline jitter conns servers now';
      Some (finish, mkClosed err now' rest :: closed)
  end.

Definition waitForShutdown (jitter : HttpServer -> nat -> Z) (conns : HttpServer -> time -> list Conn)
    (servers : list HttpServer) (signal : time) : option (time * list closed_server) :=
  shutdown_all (signal + 10 * ns_per_sec) jitter conns servers signal.

(** ** Termination *)

Section shutdown.
Context (deadline : time).

(** Draws are never negative. *)
Definition jitter_ok (jitter : nat -> Z) : Prop := forall k, 0 <= jitter k.

Lemma next_base_bounds base : time_millisecond <= base -> time_millisecond <= next_base base.
Proof. unfold next_base, shutdownPollIntervalMax, time_millisecond. intros Hb. apply Z.min_glb; lia. Qed.

Lemma filter_all_out (now : time) (conns : list Conn) :
  (closeIdleConns now conns).1 = true <-> (closeIdleConns now conns).2 = [].
Proof.
  unfold closeIdleConns. cbn [fst snd]. rewrite bool_decide_eq_true. split; [apply nil_length_inv|by intros ->].
Qed.

(** Enough fuel for the time that is left. *)
Lemma shutdown_loop_total fuel now base jitter k conns :
  jitter_ok jitter -> time_millisecond <= base -> (deadline - now) / time_millisecond + 1 < Z.of_nat fuel -> (0 < fuel)%nat ->
  exists err at_ rest, shutdown_loop fuel deadline now base jitter k conns = Some (err, at_, rest) /\
    now <= at_ <= Z.max now deadline /\
    (err = None -> rest = []) /\ (err <> None -> at_ = Z.max now deadline /\ rest <> []) /\ rest `sublist_of` conns.
Proof.
  intros Hj. revert now base k conns. induction fuel as [|fuel IH]; intros now base k conns Hb Hfuel Hpos; [lia|].
  cbn [shutdown_loop]. pose proof (filter_all_out now conns) as Hq. unfold closeIdleConns in *. cbn [fst snd] in Hq.
  set (rest := filter _ conns) in *. assert (rest `sublist_of` conns) as Hsub by apply sublist_filter.
  destruct (bool_decide (length rest = 0%nat)) eqn:Eq.
  { exists None, now, rest. split; [done|]. split; [lia|]. split; [intros _; by apply Hq|]. done. }
  assert (rest <> []) as Hne by (intros E; apply Hq in E; congruence).
  destruct (deadline <=? now + base + jitter k) eqn:Ed; zbool.
  { exists (Some "context deadline exceeded"), (Z.max now deadline), rest. split; [done|]. split; [lia|]. done. }
  specialize (Hj k). assert (0 < time_millisecond) as Hms by (by vm_compute).
  destruct (IH (now + base + jitter k) (next_base base) (S k) rest) as (err & at_ & rest' & -> & Hat & Hn & He & Hs).
  - by apply next_base_bounds.
  - assert ((deadline - (now + base + jitter k)) / time_millisecond + 1 <= (deadline - now) / time_millisecond); [|lia].
    replace ((deadline - (now + base + jitter k)) / time_millisecond + 1)
      with ((deadline - (now + base + jitter k) + 1 * time_millisecond) / time_millisecond)
      by (rewrite Z.div_add by lia; lia).
    apply Z.div_le_mono; lia.
  - assert (0 <= (deadline - now) / time_millisecond) by (apply Z.div_pos; lia). lia.
  - exists err, at_, rest'. split; [done|]. split; [lia|]. split; [done|]. split; [|by etrans].
    intros Herr. destruct (He Herr) as [-> ?]. split; [lia|done].
Qed.

Lemma shutdown_total now jitter conns :
  jitter_ok jitter ->
  exists err at_ rest, Shutdown deadline now jitter conns = Some (err, at_, rest) /\
    now <= at_ <= Z.max now deadline /\
    (err = None -> rest = []) /\ (err <> None -> at_ = Z.max now deadline /\ rest <> []) /\ rest `sublist_of` conns.
Proof.
  intros Hj. apply shutdown_loop_total; [done|done| |unfold shutdown_fuel; lia]. unfold shutdown_fuel.
  destruct (decide (0 <= (deadline - now) / time_millisecond + 1)); lia.
Qed.

(** A server without connections takes no time. *)
Lemma shutdown_quiet now jitter conns :
  Forall (fun c => stays_open now c = false) conns -> Shutdown deadline now jitter conns = Some (None, now, []).
Proof.
  intros Hc. unfold Shutdown, shutdown_fuel. cbn [shutdown_loop]. unfold closeIdleConns.
  assert (filter (fun c => stays_open now c = true) conns = []) as ->; [|done].
  induction Hc as [|c conns Hc _ IH]; [done|]. rewrite filter_cons, decide_False by congruence. done.
Qed.

Lemma shutdown_all_total jitter conns servers now :
  (forall srv, jitter_ok (jitter srv)) -> now <= deadline ->
  exists finish closed, shutdown_all deadline jitter conns servers now = Some (finish, closed) /\
    now <= finish <= deadline /\ length closed = length servers /\
    Forall (fun c => cl_at c <= finish /\ (cl_error c = None -> cl_open c = []) /\
                     (cl_error c <> None -> cl_at c = deadline /\ finish = deadline)) closed.
Proof.
  intros Hj. revert now. induction servers as [|srv servers IH]; intros now Hnow; cbn [shutdown_all].
  { exists now, []. split; [done|]. split; [lia|]. done. }
  destruct (shutdown_total now (jitter srv) (conns srv now)) as (err & at_ & rest & -> & Hat & Hn & He & _); [done|].
  cbn. destruct (IH at_) as (finish & closed & -> & Hf & Hl & Hall); [lia|]. cbn.
  exists finish, (mkClosed err at_ rest :: closed). split; [done|]. split; [lia|]. split; [cbn; lia|].
  constructor; [|done]. cbn. split; [lia|]. split; [done|]. intros Herr. destruct (He Herr) as [-> _]. lia.
Qed.
End shutdown.

(** C19: After the signal waitForShutdown returns within ten seconds whatever connections do: every
    server has been shut down, one is left with open connections only when the time is over, and
    servers whose connections are idle are not waited for. *)
Theorem wait_for_shutdown_terminates (jitter : HttpServer -> nat -> Z) (conns : HttpServer -> time -> list Conn)
    (servers : list HttpServer) (signal : time) :
  (forall srv, jitter_ok (jitter srv)) ->
  exists finish closed, waitForShutdown jitter conns servers signal = Some (finish, closed) /\
    signal <= finish <= signal + 10 * ns_per_sec /\ length closed = length servers /\
    (* a server is left with open connections only when the time is over *)
    Forall (fun c => cl_at c <= finish /\ (cl_error c = None -> cl_open c = []) /\
                     (cl_error c <> None -> finish = signal + 10 * ns_per_sec)) closed /\
    (* a server whose connections are idle is not waited for *)
    ((forall srv t, Forall (fun c => stays_open t c = false) (conns srv t)) -> finish = signal).
Proof.
  intros Hj. destruct (shutdown_all_total (signal + 10 * ns_per_sec) jitter conns servers signal Hj)
    as (finish & closed & Hrun & Hf & Hl & Hall); [unfold ns_per_sec; lia|].
  exists finish, closed. split; [exact Hrun|]. do 2 (split; [done|]). split.
  - eapply Forall_impl; [exact Hall|]. intros c (H1 & H2 & H3). split; [done|]. split; [done|]. intros He. by apply H3.
  - intros Hquiet. assert (forall now closed, shutdown_all (signal + 10 * ns_per_sec) jitter conns servers now = Some (finish, closed) ->
      finish = now) as H; [|by eapply H].
    clear -Hquiet. induction servers as [|srv servers IH]; intros now closed; cbn [shutdown_all]; [by intros [= ->]|].
    rewrite shutdown_quiet by done. cbn. destruct (shutdown_all _ _ _ servers now) as [[f cl]|] eqn:E; [|done].
    cbn. intros [= -> _]. by eapply IH.
Qed.

(** ** One deadline for all *)

Lemma shutdown_loop_busy fuel deadline now base jitter k conns busy r :
  busy ∈ conns -> (forall t, stays_open t busy = true) ->
  shutdown_loop fuel deadline now base jitter k conns = Some r -> r.1.1 <> None.
Proof.
  intros Hin Hb. revert now base k conns Hin. induction fuel as [|fuel IH]; intros now base k conns Hin; [done|].
  cbn [shutdown_loop]. unfold closeIdleConns. set (rest := filter _ conns).
  assert (busy ∈ rest) as Hr by (apply list_elem_of_filter; split; [apply Hb|done]).
  rewrite bool_decide_false by (intros E%nil_length_inv; rewrite E in Hr; by apply elem_of_nil in Hr).
  destruct (deadline <=? _); [by intros [= <-]|]. by apply IH.
Qed.

(** At the deadline a server gets one look at its connections. *)
Lemma shutdown_late deadline jitter conns :
  jitter_ok jitter -> exists err,
    Shutdown deadline deadline jitter conns = Some (err, deadline, filter (fun c => stays_open deadline c = true) conns).
Proof.
  intros Hj. unfold Shutdown, shutdown_fuel. cbn [shutdown_loop]. unfold closeIdleConns.
  destruct (bool_decide _); [eauto|]. specialize (Hj 0%nat).
  rewrite (proj2 (Z.leb_le _ _)) by (unfold time_millisecond; lia). rewrite Z.max_id. eauto.
Qed.

(** A connection that stays busy on one server uses the ten seconds of all: the
    next one looks at its connections once, when the time is over. *)
Theorem busy_server_takes_all (jitter : HttpServer -> nat -> Z) (conns : HttpServer -> time -> list Conn)
    (srv next : HttpServer) (signal : time) (busy : Conn) :
  (forall srv, jitter_ok (jitter srv)) -> busy ∈ conns srv signal -> (forall t, stays_open t busy = true) ->
  let deadline := signal + 10 * ns_per_sec in
  exists first second, waitForShutdown jitter conns [srv; next] signal = Some (deadline, [first; second]) /\
    cl_open second = filter (fun c => stays_open deadline c = true) (conns next deadline).
Proof.
  intros Hj Hin Hb. cbv zeta. unfold waitForShutdown. cbn [shutdown_all].
  set (deadline := signal + 10 * ns_per_sec). assert (signal <= deadline) as Hle by (unfold deadline, ns_per_sec; lia).
  destruct (shutdown_total deadline signal (jitter srv) (conns srv signal)) as (err & at_ & rest & Es & _ & _ & He & _); [done|].
  rewrite Es. pose proof (shutdown_loop_busy _ _ _ _ _ _ _ _ _ Hin Hb Es) as Herr. cbn [fst] in Herr.
  destruct (He Herr) as [-> _]. rewrite Z.max_r by done. cbn [mbind option_bind].
  destruct (shutdown_late deadline (jitter next) (conns next deadline)) as [err2 ->]; [done|]. cbn. eauto.
Qed.
