(* ===== verification/Api.v ===== *)
(** * The control plane ([internal/api])

    Every handler of the REST API, the route table with the authenticated
    group, and the single-page-app handler, over any program state that holds
    the store and for any [reload]. The chi router is a parameter. *)

From S2P Require Export Auth Store GoHttp GoDuration Web.
From Stdlib Require Import Ascii.

(** The texts of package time's parse errors, which the code only passes on. *)
Class TimeMessages := { time_parse_error : json -> error }.

(** ** Decoding into structs *)

(** What storing a value in a field does: it is stored; its kind does not fit
    the field's type, which is remembered while decoding goes on; the field's
    own decoder refuses it, which ends decoding. *)
Inductive decoded (A : Type) :=
| Stored (a : A)
| Mismatch (value type : string)
| Refused (e : error).
Arguments Stored {A} a.
Arguments Mismatch {A} value type.
Arguments Refused {A} e.

(** A struct type: its name, how errors show the type, and its fields with
    their keys. *)
Record struct_type (A : Type) := mkStruct {
  go_name : string;
  go_type : string;
  go_zero : A;
  go_fields : list (string * (json -> A -> decoded A)) }.
Arguments mkStruct {A} _ _ _ _.
Arguments go_name {A} _.
Arguments go_type {A} _.
Arguments go_zero {A} _.
Arguments go_fields {A} _.

(** The kind of a value, as [UnmarshalTypeError] names it. *)
Definition kind_name (v : json) : string :=
  match v with
  | JNull => "null" | JBool _ => "bool" | JNum _ | JFrac _ => "number"
  | JStr _ | JEscStr _ | JTime _ => "string" | JArr _ => "array" | JObj _ => "object"
  end.

Definition set_str {A} (type : string) (f : string -> A -> A) (v : json) (a : A) : decoded A :=
  match v with JStr s | JEscStr s => Stored (f s a) | _ => Mismatch (kind_name v) type end.

Definition set_bool {A} (f : bool -> A -> A) (v : json) (a : A) : decoded A :=
  match v with JBool b => Stored (f b a) | _ => Mismatch (kind_name v) "bool" end.

Definition set_int64 {A} (f : Z -> A -> A) (v : json) (a : A) : decoded A :=
  match v with
  | JNum z => if decide (in_int64 z) then Stored (f z a) else Mismatch ("number " +:+ format_int z) "int64"
  | JFrac literal => Mismatch ("number " +:+ literal) "int64"
  | _ => Mismatch (kind_name v) "int64"
  end.

(** [Time.UnmarshalJSON] looks at the text as it is written: one with escapes
    is no time. The zone of a time that is not in UTC is not kept. *)
Definition set_time `{TimeMessages} {A} (f : time -> A -> A) (v : json) (a : A) : decoded A :=
  match v with
  | JStr s => match parse_rfc3339 s with Some t => Stored (f t a) | None => Refused (time_parse_error v) end
  | JEscStr _ => Refused (time_parse_error v)
  | _ => Refused "Time.UnmarshalJSON: input is not a JSON string"
  end.

(** Case folding of a key against ASCII field names: two letters outside ASCII
    fold into it, the long s and the Kelvin sign. *)
Fixpoint fold_key (l : list Z) : list Z :=
  match l with
  | [] => []
  | b0 :: l0 =>
      let lower := byte_of (lower_byte (of_byte b0)) in
      match l0 with
      | b1 :: l1 =>
          if ((b0 =? 0xC5) && (b1 =? 0xBF))%Z then 115%Z :: fold_key l1
          else
            match l1 with
            | b2 :: l2 =>
                if ((b0 =? 0xE2) && (b1 =? 0x84) && (b2 =? 0xAA))%Z then 107%Z :: fold_key l2
                else lower :: fold_key l0
            | [] => lower :: fold_key l0
            end
      | [] => [lower]
      end
  end.

Definition key_matches (k fld : string) : bool := bool_decide (fold_key (bytes_of k) = bytes_of fld).

(** One key of an object: unknown keys and [null] change nothing. *)
Definition decode_key {A} (ty : struct_type A) (a : A) (kv : string * json) : decoded A :=
  match head (filter (fun f => key_matches kv.1 f.1 = true) (go_fields ty)), kv.2 with
  | None, _ | _, JNull => Stored a
  | Some f, v =>
      match f.2 v a with
      | Mismatch value type =>
          Mismatch value ("struct field " +:+ go_name ty +:+ "." +:+ f.1 +:+ " of type " +:+ type)
      | r => r
      end
  end.

Definition unmarshal_type_error (value into : string) : error :=
  "json: cannot unmarshal " +:+ value +:+ " into Go " +:+ into.

(** [saved] is the first error remembered. *)
Fixpoint decode_object {A} (ty : struct_type A) (a : A) (saved : option error) (l : list (string * json)) : res A :=
  match l with
  | [] => match saved with None => Ok a | Some e => Err e end
  | kv :: l =>
      match decode_key ty a kv with
      | Stored a => decode_object ty a saved l
      | Mismatch value into => decode_object ty a (Some (default (unmarshal_type_error value into) saved)) l
      | Refused e => Err e
      end
  end.

Definition decode_struct {A} (ty : struct_type A) (v : json) : res A :=
  match v with
  | JNull => Ok (go_zero ty)
  | JObj l => decode_object ty (go_zero ty) None l
  | _ => Err (unmarshal_type_error (kind_name v) ("value of type " +:+ go_type ty))
  end.

Definition zero_site : Site := mkSite 0 "" "" "" "" "" "" false zero_time zero_time.
Definition zero_rule : CustomRule := mkRule 0 "" "" "" false zero_time zero_time.

Definition site_struct `{TimeMessages} : struct_type Site := mkStruct "Site" "store.Site" zero_site [
  ("id", set_int64 site_with_id);
  ("domain", set_str "string" (fun v s => mkSite (site_ID s) v (site_UpstreamURL s) (site_WAFMode s) (site_TLSMode s)
     (site_CertFile s) (site_KeyFile s) (site_Enabled s) (site_CreatedAt s) (site_UpdatedAt s)));
  ("upstream_url", set_str "string" (fun v s => mkSite (site_ID s) (site_Domain s) v (site_WAFMode s) (site_TLSMode s)
     (site_CertFile s) (site_KeyFile s) (site_Enabled s) (site_CreatedAt s) (site_UpdatedAt s)));
  ("waf_mode", set_str "store.WAFMode" (fun v s => mkSite (site_ID s) (site_Domain s) (site_UpstreamURL s) v (site_TLSMode s)
     (site_CertFile s) (site_KeyFile s) (site_Enabled s) (site_CreatedAt s) (site_UpdatedAt s)));
  ("tls_mode", set_str "store.TLSMode" (fun v s => mkSite (site_ID s) (site_Domain s) (site_UpstreamURL s) (site_WAFMode s) v
     (site_CertFile s) (site_KeyFile s) (site_Enabled s) (site_CreatedAt s) (site_UpdatedAt s)));
  ("cert_file", set_str "string" (fun v s => mkSite (site_ID s) (site_Domain s) (site_UpstreamURL s) (site_WAFMode s) (site_TLSMode s)
     v (site_KeyFile s) (site_Enabled s) (site_CreatedAt s) (site_UpdatedAt s)));
  ("key_file", set_str "string" (fun v s => mkSite (site_ID s) (site_Domain s) (site_UpstreamURL s) (site_WAFMode s) (site_TLSMode s)
     (site_CertFile s) v (site_Enabled s) (site_CreatedAt s) (site_UpdatedAt s)));
  ("enabled", set_bool (fun v s => mkSite (site_ID s) (site_Domain s) (site_UpstreamURL s) (site_WAFMode s) (site_TLSMode s)
     (site_CertFile s) (site_KeyFile s) v (site_CreatedAt s) (site_UpdatedAt s)));
  ("created_at", set_time (fun v s => site_with_times v (site_UpdatedAt s) s));
  ("updated_at", set_time (fun v s => site_with_times (site_CreatedAt s) v s))].

Definition rule_struct `{TimeMessages} : struct_type CustomRule := mkStruct "CustomRule" "store.CustomRule" zero_rule [
  ("id", set_int64 rule_with_id);
  ("name", set_str "string" (fun v r => mkRule (rule_ID r) v (rule_Directive r) (rule_Description r) (rule_Enabled r)
     (rule_CreatedAt r) (rule_UpdatedAt r)));
  ("directive", set_str "string" (fun v r => mkRule (rule_ID r) (rule_Name r) v (rule_Description r) (rule_Enabled r)
     (rule_CreatedAt r) (rule_UpdatedAt r)));
  ("description", set_str "string" (fun v r => mkRule (rule_ID r) (rule_Name r) (rule_Directive r) v (rule_Enabled r)
     (rule_CreatedAt r) (rule_UpdatedAt r)));
  ("enabled", set_bool (fun v r => mkRule (rule_ID r) (rule_Name r) (rule_Directive r) (rule_Description r) v
     (rule_CreatedAt r) (rule_UpdatedAt r)));
  ("created_at", set_time (fun v r => rule_with_times v (rule_UpdatedAt r) r));
  ("updated_at", set_time (fun v r => rule_with_times (rule_CreatedAt r) v r))].

(** The anonymous structs of [login] and [changePassword]: a pair of strings
    with the names and keys of their fields. *)
Definition pair_struct (n1 k1 n2 k2 : string) : struct_type (string * string) :=
  let tag k := String dq "json:" +:+ String backslash (String dq k) +:+ String backslash (String dq (String dq "")) in
  mkStruct ""
    ("struct { " +:+ n1 +:+ " string " +:+ tag k1 +:+ "; " +:+ n2 +:+ " string " +:+ tag k2 +:+ " }")
    ("", "")
    [(k1, set_str "string" (fun v p => (v, p.2))); (k2, set_str "string" (fun v p => (p.1, v)))].

Definition login_struct : struct_type (string * string) := pair_struct "Username" "username" "Password" "password".
Definition password_struct : struct_type (string * string) := pair_struct "Current" "current" "New" "new".

(** ** Encoding *)

Definition omit_empty (k s : string) : list (string * json) :=
  if decide (s = "") then [] else [(k, JStr s)].

Definition site_json (s : Site) : json := JObj (
  [("id", JNum (site_ID s)); ("domain", JStr (site_Domain s)); ("upstream_url", JStr (site_UpstreamURL s));
   ("waf_mode", JStr (site_WAFMode s)); ("tls_mode", JStr (site_TLSMode s))]
  ++ omit_empty "cert_file" (site_CertFile s) ++ omit_empty "key_file" (site_KeyFile s)
  ++ [("enabled", JBool (site_Enabled s)); ("created_at", JTime (site_CreatedAt s));
      ("updated_at", JTime (site_UpdatedAt s))]).

Definition rule_json (r : CustomRule) : json := JObj (
  [("id", JNum (rule_ID r)); ("name", JStr (rule_Name r)); ("directive", JStr (rule_Directive r))]
  ++ omit_empty "description" (rule_Description r)
  ++ [("enabled", JBool (rule_Enabled r)); ("created_at", JTime (rule_CreatedAt r));
      ("updated_at", JTime (rule_UpdatedAt r))]).

(** A nil slice is [null]. *)
Definition slice_json {A} (f : A -> json) (l : option (list A)) : json :=
  match l with None => JNull | Some l => JArr (f <$> l) end.

Definition event_json (e : Event) : json := JObj
  [("id", JNum (ev_ID e)); ("timestamp", JTime (ev_Timestamp e)); ("tx_id", JStr (ev_TxID e));
   ("domain", JStr (ev_Domain e)); ("client_ip", JStr (ev_ClientIP e)); ("method", JStr (ev_Method e));
   ("uri", JStr (ev_URI e)); ("blocked", JBool (ev_Blocked e)); ("status_code", JNum (ev_StatusCode e));
   ("rule_id", JNum (ev_RuleID e)); ("message", JStr (ev_Message e)); ("severity", JNum (ev_Severity e));
   ("anomaly_score", JNum (ev_AnomalyScore e)); ("matched_rules", slice_json JNum (ev_MatchedRules e))].

(** A slice built by [append] from nil: nil when nothing was appended. *)
Definition appended {A} (l : list A) : option (list A) := match l with [] => None | _ => Some l end.

Definition stats_json (s : Stats) : json := JObj
  [("total_events", JNum (ss_TotalEvents s)); ("blocked_events", JNum (ss_BlockedEvents s));
   ("top_rules", slice_json (fun c => JObj [("rule_id", JNum (rc_RuleID c)); ("message", JStr (rc_Message c));
      ("count", JNum (rc_Count c))]) (appended (ss_TopRules s)));
   ("top_clients", slice_json (fun c => JObj [("client_ip", JStr (cc_ClientIP c)); ("count", JNum (cc_Count c))])
      (appended (ss_TopClients s)));
   ("timeline", slice_json (fun p => JObj [("bucket", JTime (tp_Bucket p)); ("total", JNum (tp_Total p));
      ("blocked", JNum (tp_Blocked p))]) (appended (ss_Timeline s)))].

(** [orEmpty] on a listing. *)
Definition orEmpty {A} (l : option (list A)) : option (list A) := Some (default [] l).

Definition writeJSON (status : Z) (v : json) : list wop :=
  [SetHeader "Content-Type" "application/json"; WriteHeader status; Write (Encoded v)].
Definition writeJSONErr (status : Z) (msg : string) : list wop := writeJSON status (JObj [("error", JStr msg)]).
Definition writeErr (status : Z) (err : error) : list wop := writeJSONErr status err.

(** ** The router

    github.com/go-chi/chi/v5: which of the registered routes a request reaches,
    with the text of its [id] parameter, and the Recoverer middleware, which
    turns a panic into status 500 if no status was sent. *)
Inductive chi_result :=
| Found (route : nat) (id : string)
| FoundSpa
| NotFound
| MethodNotAllowed.

Class Chi := {
  chi_route : list (string * string) -> string -> string -> chi_result;
  chi_recover : list wop * bool -> list wop;
  chi_recover_none : forall ops, chi_recover (ops, false) = ops;
  chi_recover_panic : forall ops, rs_sent (run_wops ops empty_response) = None ->
    status_of (chi_recover (ops, true)) = 500%Z
}.

(** ** Input checks *)

(** [validateSite]: the site with its modes filled in, or the message. *)
Definition validateSite (site : Site) : res Site :=
  if decide (site_Domain site = "") then Err "domain is required"
  else if decide (site_UpstreamURL site = "") then Err "upstream_url is required"
  else
    let waf := if decide (site_WAFMode site = "") then WAFModeOn else site_WAFMode site in
    if negb (bool_decide (waf ∈ [WAFModeOn; WAFModeDetection; WAFModeOff])) then Err "invalid waf_mode"
    else
      let tls := if decide (site_TLSMode site = "") then TLSModeAuto else site_TLSMode site in
      if negb (bool_decide (tls ∈ [TLSModeAuto; TLSModeManual; TLSModeOff])) then Err "invalid tls_mode"
      else if bool_decide (tls = TLSModeManual) && bool_decide (site_CertFile site = "" \/ site_KeyFile site = "")
      then Err "cert_file and key_file are required for manual TLS"
      else Ok (mkSite (site_ID site) (site_Domain site) (site_UpstreamURL site) waf tls
                 (site_CertFile site) (site_KeyFile site) (site_Enabled site)
                 (site_CreatedAt site) (site_UpdatedAt site)).

(** [idParam] on the text of the URL parameter: the error is dropped. *)
Definition idParam (param : string) : Z := (parse_int param).1.

Definition atoiDefault (s : string) (def : Z) : Z :=
  match atoi s with (n, None) => n | (_, Some _) => def end.

(** ** Handlers *)

Section handlers.
Context {W : Type} `{HasStore W} `{Bcrypt} `{SqlEngine} `{TimeMessages}.
Context (authn : Authenticator) (reload : option (M W (option error))).

(** A handler gets the text of the [id] parameter of its route. *)
Definition ApiHandler : Type := string -> Request -> M W (list wop).

Definition applyReloadErr : M W (option error) :=
  match reload with None => ret None | Some f => f end.

Definition applyReload : M W unit := (do! applyReloadErr ;; ret tt)%go.

(** [readJSON] and what the handler does with the decoded value. *)
Definition readJSON {A} (ty : struct_type A) (r : Request) (k : A -> M W (list wop)) : M W (list wop) :=
  match json_parse (default "" (rq_body r)) with
  | Err e => ret (writeJSONErr 400 ("invalid JSON: " +:+ e))
  | Ok v =>
      match decode_struct ty v with
      | Err e => ret (writeJSONErr 400 ("invalid JSON: " +:+ e))
      | Ok a => k a
      end
  end.

Definition health : ApiHandler := fun _ _ => ret (writeJSON 200 (JObj [("status", JStr "ok")])).

Definition login : ApiHandler := fun _ r =>
  readJSON login_struct r (fun body =>
    (let! ok := on_store (Check body.1 body.2) in
     if negb ok then ret (writeJSONErr 401 "invalid username or password")
     else
       let! cookie := on_store (IssueCookie authn r body.1) in
       ret (cookie ++ writeJSON 200 (JObj [("username", JStr body.1)])))%go).

Definition logout : ApiHandler := fun _ _ => ret (Clear ++ [WriteHeader 204]).

Definition me : ApiHandler := fun _ r =>
  (let! user := on_store (CurrentUser authn r) in
   ret (writeJSON 200 (JObj [("username", JStr (default "" user))])))%go.

Definition changePassword : ApiHandler := fun _ r =>
  readJSON password_struct r (fun body =>
    (let! err := on_store (ChangePassword body.1 body.2) in
     ret match err with
         | Some e => writeJSONErr 400 e
         | None => [WriteHeader 204]
         end)%go).

Definition listSites : ApiHandler := fun _ _ =>
  (let! l := on_store ListSites in
   ret match l with
       | Err e => writeErr 500 e
       | Ok l => writeJSON 200 (slice_json site_json (orEmpty (appended l)))
       end)%go.

Definition getSite : ApiHandler := fun id _ =>
  (let! s := on_store (GetSite (idParam id)) in
   ret match s with Err e => writeErr 404 e | Ok s => writeJSON 200 (site_json s) end)%go.

Definition createSite : ApiHandler := fun _ r =>
  readJSON site_struct r (fun site =>
    match validateSite site with
    | Err msg => ret (writeJSONErr 400 msg)
    | Ok site =>
        (let! res := on_store (CreateSite site) in
         match res with
         | Err e => ret (writeErr 400 e)
         | Ok site => do! applyReload ;; ret (writeJSON 201 (site_json site))
         end)%go
    end).

Definition updateSite : ApiHandler := fun id r =>
  readJSON site_struct r (fun site =>
    match validateSite (site_with_id (idParam id) site) with
    | Err msg => ret (writeJSONErr 400 msg)
    | Ok site =>
        (let! res := on_store (UpdateSite site) in
         match res with
         | Err e => ret (writeErr 400 e)
         | Ok site => do! applyReload ;; ret (writeJSON 200 (site_json site))
         end)%go
    end).

Definition deleteSite : ApiHandler := fun id _ =>
  (let! err := on_store (DeleteSite (idParam id)) in
   match err with
   | Some e => ret (writeErr 500 e)
   | None => do! applyReload ;; ret [WriteHeader 204]
   end)%go.

Definition listRules : ApiHandler := fun _ _ =>
  (let! l := on_store ListRules in
   ret match l with
       | Err e => writeErr 500 e
       | Ok l => writeJSON 200 (slice_json rule_json (orEmpty (appended l)))
       end)%go.

Definition getRule : ApiHandler := fun id _ =>
  (let! r := on_store (GetRule (idParam id)) in
   ret match r with Err e => writeErr 404 e | Ok r => writeJSON 200 (rule_json r) end)%go.

Definition rule_required : list wop := writeJSONErr 400 "name and directive are required".

Definition createRule : ApiHandler := fun _ r =>
  readJSON rule_struct r (fun rule =>
    if bool_decide (rule_Name rule = "" \/ rule_Directive rule = "") then ret rule_required
    else
      (let! res := on_store (CreateRule rule) in
       match res with
       | Err e => ret (writeErr 400 e)
       | Ok rule =>
           let! err := applyReloadErr in
           match err with
           | Some e =>
               do! on_store (DeleteRule (rule_ID rule)) ;;
               ret (writeJSONErr 400 ("rule rejected: " +:+ e))
           | None => ret (writeJSON 201 (rule_json rule))
           end
       end)%go).

Definition updateRule : ApiHandler := fun id r =>
  readJSON rule_struct r (fun rule =>
    let rule := rule_with_id (idParam id) rule in
    if bool_decide (rule_Name rule = "" \/ rule_Directive rule = "") then ret rule_required
    else
      (let! res := on_store (UpdateRule rule) in
       match res with
       | Err e => ret (writeErr 400 e)
       | Ok rule =>
           let! err := applyReloadErr in
           ret match err with
               | Some e => writeJSONErr 400 ("rule rejected: " +:+ e)
               | None => writeJSON 200 (rule_json rule)
               end
       end)%go).

Definition deleteRule : ApiHandler := fun id _ =>
  (let! err := on_store (DeleteRule (idParam id)) in
   match err with
   | Some e => ret (writeErr 500 e)
   | None => do! applyReload ;; ret [WriteHeader 204]
   end)%go.

Definition listEvents : ApiHandler := fun _ r =>
  (let f := mkFilter (query_get r "domain") (bool_decide (query_get r "blocked" = "true"))
              (atoiDefault (query_get r "limit") 100) (atoiDefault (query_get r "offset") 0) in
   let! l := on_store (ListEvents f) in
   ret match l with
       | Err e => writeErr 500 e
       | Ok l => writeJSON 200 (slice_json event_json (orEmpty (appended l)))
       end)%go.

Definition stats : ApiHandler := fun _ r =>
  (let window :=
     let v := query_get r "window" in
     if decide (v = "") then (24 * time_hour)%Z else default (24 * time_hour)%Z (parse_duration v) in
   let! st := on_store (StatsOf window) in
   ret match st with Err e => writeErr 500 e | Ok st => writeJSON 200 (stats_json st) end)%go.

(** ** Routes *)

Record Route := mkRoute {
  rt_method : string; rt_pattern : string; rt_protected : bool; rt_handler : ApiHandler }.

Definition routes : list Route := [
  mkRoute "GET" "/api/health" false health;
  mkRoute "POST" "/api/login" false login;
  mkRoute "POST" "/api/logout" false logout;
  mkRoute "GET" "/api/me" true me;
  mkRoute "POST" "/api/account/password" true changePassword;
  mkRoute "GET" "/api/sites" true listSites;
  mkRoute "POST" "/api/sites" true createSite;
  mkRoute "GET" "/api/sites/{id}" true getSite;
  mkRoute "PUT" "/api/sites/{id}" true updateSite;
  mkRoute "DELETE" "/api/sites/{id}" true deleteSite;
  mkRoute "GET" "/api/rules" true listRules;
  mkRoute "POST" "/api/rules" true createRule;
  mkRoute "GET" "/api/rules/{id}" true getRule;
  mkRoute "PUT" "/api/rules/{id}" true updateRule;
  mkRoute "DELETE" "/api/rules/{id}" true deleteRule;
  mkRoute "GET" "/api/events" true listEvents;
  mkRoute "GET" "/api/stats" true stats].

Definition serve_route (rt : Route) (id : string) (r : Request) : M W (list wop) :=
  if rt_protected rt then Middleware authn (rt_handler rt id) r else rt_handler rt id r.

(** [Handler()]: the router, with the single-page app when there is one. *)
Definition ApiServe `{Chi} (spa : option (Handler W)) (r : Request) : M W (list wop) :=
  (let! out :=
     (match chi_route ((fun rt => (rt_method rt, rt_pattern rt)) <$> routes) (rq_method r) (rq_path r) with
      | Found i id =>
          match routes !! i with
          | Some rt => let! ops := serve_route rt id r in ret (ops, false)
          | None => ret (http_error "404 page not found" 404, false)
          end
      | FoundSpa => match spa with Some h => h r | None => ret (http_error "404 page not found" 404, false) end
      | NotFound => ret (http_error "404 page not found" 404, false)
      | MethodNotAllowed => ret ([WriteHeader 405], false)
      end) in
   ret (chi_recover out))%go.

(** ** The single-page app

    Slicing an empty path panics. *)
Definition SPAHandler `{FileAnswers} (dist : FileSystem) : Handler W := fun r =>
  let path := rq_path r in
  if decide (path = "/") then ret (FileServer dist r, false)
  else match path with
       | EmptyString => ret ([], true)
       | String _ name =>
           match fs_stat dist name with
           | inl _ => ret (FileServer dist (with_path r "/"), false)
           | inr _ => ret (FileServer dist r, false)
           end
       end.
End handlers.

(** ** The server *)

Record Server (W : Type) := mkApiServer {
  srv_auth : Authenticator;
  srv_reload : option (M W (option error));
  srv_spa : option (Handler W) }.
Arguments mkApiServer {W} srv_auth srv_reload srv_spa.
Arguments srv_auth {W} s.
Arguments srv_reload {W} s.
Arguments srv_spa {W} s.

Definition NewServer {W} (authn : Authenticator) (reload : option (M W (option error))) (spa : option (Handler W))
    : Server W := mkApiServer authn reload spa.

(** [s.Handler()] serving a request. *)
Definition ServerHandler {W} `{HasStore W} `{Bcrypt} `{SqlEngine} `{TimeMessages} `{Chi} (s : Server W) (r : Request)
    : M W (list wop) := ApiServe (srv_auth s) (srv_reload s) (srv_spa s) r.
