(* ===== verification/ApiSpec.v ===== *)
(** * What the control plane promises

    Input checks; the handlers as compositions of store operations and
    [reload], so that whatever these preserve every request preserves; and the
    session requirement of the protected routes. *)

From S2P Require Export Api AuthSpec GoJsonSpec.
From Stdlib Require Import Ascii.

(** ** Input checks *)

Definition valid_site (s : Site) : Prop :=
  site_Domain s <> "" /\ site_UpstreamURL s <> "" /\
  site_WAFMode s ∈ [WAFModeOn; WAFModeDetection; WAFModeOff] /\
  site_TLSMode s ∈ [TLSModeAuto; TLSModeManual; TLSModeOff] /\
  (site_TLSMode s = TLSModeManual -> site_CertFile s <> "" /\ site_KeyFile s <> "").

#[export] Instance valid_site_dec s : Decision (valid_site s).
Proof. unfold valid_site. apply _. Defined.

(** The defaults [validateSite] fills in. *)
Definition with_default_modes (s : Site) : Site :=
  mkSite (site_ID s) (site_Domain s) (site_UpstreamURL s)
    (if decide (site_WAFMode s = "") then WAFModeOn else site_WAFMode s)
    (if decide (site_TLSMode s = "") then TLSModeAuto else site_TLSMode s)
    (site_CertFile s) (site_KeyFile s) (site_Enabled s) (site_CreatedAt s) (site_UpdatedAt s).

Lemma validate_site_run s :
  match validateSite s with
  | Ok s' => s' = with_default_modes s /\ valid_site s'
  | Err _ => ~ valid_site (with_default_modes s)
  end.
Proof.
  unfold validateSite, valid_site. cbv zeta. destruct (decide (site_Domain s = "")); [simpl; tauto|].
  destruct (decide (site_UpstreamURL s = "")); [simpl; tauto|]. simpl.
  set (waf := if decide (site_WAFMode s = "") then WAFModeOn else site_WAFMode s).
  set (tls := if decide (site_TLSMode s = "") then TLSModeAuto else site_TLSMode s).
  case_bool_decide as Hw; cbn [negb]; [|tauto]. case_bool_decide as Ht; cbn [negb]; [|tauto].
  case_bool_decide as Hm; case_bool_decide as Hc; cbn [andb]; [intros (_ & _ & _ & _ & Hf); tauto|..];
    (split; [done|]); simpl; tauto.
Qed.

(** A valid site is accepted as it is. *)
Lemma validate_site_valid s : valid_site s -> validateSite s = Ok s.
Proof.
  intros Hv. assert (with_default_modes s = s) as E.
  { destruct Hv as (_ & _ & Hw & Ht & _). unfold with_default_modes.
    rewrite !elem_of_cons, elem_of_nil in Hw, Ht.
    rewrite !decide_False; [by destruct s|..]; intros E; rewrite E in *; naive_solver. }
  pose proof (validate_site_run s) as H. rewrite E in H. destruct (validateSite s); [|done].
  by destruct H as [-> _].
Qed.

Lemma validate_site_ok s s' : validateSite s = Ok s' -> valid_site s'.
Proof. intros Hv. pose proof (validate_site_run s) as H. rewrite Hv in H. apply H. Qed.

(** What the rule handlers ask of a rule. *)
Definition named_rule (r : CustomRule) : Prop := rule_Name r <> "" /\ rule_Directive r <> "".

#[export] Instance named_rule_dec r : Decision (named_rule r).
Proof. unfold named_rule. apply _. Defined.

Lemma rule_checked r : bool_decide (rule_Name r = "" \/ rule_Directive r = "") = false -> named_rule r.
Proof. intros Hr%bool_decide_eq_false. unfold named_rule. tauto. Qed.

Create HintDb api.
#[export] Hint Resolve validate_site_ok rule_checked : api.

(** ValidateSite accepts exactly the sites that are valid after missing modes are set to on and
    auto, returns them with these modes, and accepts its own results unchanged. *)
Theorem validate_site_spec (s : Site) :
  match validateSite s with
  | Ok s' => s' = with_default_modes s /\ valid_site s' /\ validateSite s' = Ok s'
  | Err _ => ~ valid_site (with_default_modes s)
  end.
Proof.
  pose proof (validate_site_run s) as H. destruct (validateSite s) as [s'|]; [|done].
  destruct H as [? ?]. split; [done|]. split; [done|]. by apply validate_site_valid.
Qed.

(** ** Representations *)

(** The setter a key selects. *)
Definition field_setter {A} (ty : struct_type A) (k : string) : option (string * (json -> A -> decoded A)) :=
  head (filter (fun f => key_matches k f.1 = true) (go_fields ty)).

Section representation.
Context `{TimeMessages} {A : Type} (ty : struct_type A).

Lemma decode_str k fld tn (f : string -> A -> A) x a saved l :
  field_setter ty k = Some (fld, set_str tn f) ->
  decode_object ty a saved ((k, read_back (JStr x)) :: l) = decode_object ty (f x a) saved l.
Proof.
  intros Hf. cbn [decode_object]. unfold decode_key. unfold field_setter in Hf. cbn [fst snd]. rewrite Hf.
  cbn [read_back]. by destruct (char_in backslash (quote_text x)).
Qed.

Lemma decode_time k fld (f : time -> A -> A) t a saved l :
  field_setter ty k = Some (fld, set_time f) -> in_calendar t ->
  decode_object ty a saved ((k, read_back (JTime t)) :: l) = decode_object ty (f t a) saved l.
Proof.
  intros Hf Ht. cbn [decode_object]. unfold decode_key. unfold field_setter in Hf. cbn [fst snd]. rewrite Hf.
  cbn [read_back set_time snd]. by rewrite parse_rfc3339_nano.
Qed.

Lemma decode_bool k fld (f : bool -> A -> A) b a saved l :
  field_setter ty k = Some (fld, set_bool f) ->
  decode_object ty a saved ((k, read_back (JBool b)) :: l) = decode_object ty (f b a) saved l.
Proof.
  intros Hf. cbn [decode_object]. unfold decode_key. unfold field_setter in Hf. cbn [fst snd]. by rewrite Hf.
Qed.

Lemma decode_int64 k fld (f : Z -> A -> A) z a saved l :
  field_setter ty k = Some (fld, set_int64 f) -> in_int64 z ->
  decode_object ty a saved ((k, read_back (JNum z)) :: l) = decode_object ty (f z a) saved l.
Proof.
  intros Hf Hz. cbn [decode_object]. unfold decode_key. unfold field_setter in Hf. cbn [fst snd]. rewrite Hf.
  cbn [read_back set_int64 snd]. by rewrite decide_True.
Qed.

(** A field with [omitempty] that already has its zero value. *)
Lemma decode_omitted k fld tn (f : string -> A -> A) x a saved l :
  field_setter ty k = Some (fld, set_str tn f) -> f "" a = a ->
  decode_object ty a saved (map (fun kv => (kv.1, read_back kv.2)) (omit_empty k x) ++ l) = decode_object ty (f x a) saved l.
Proof.
  intros Hf Hz. unfold omit_empty. case_decide as Hx; cbn [map app fst snd]; [by subst; rewrite Hz|by eapply decode_str].
Qed.
End representation.

(** Texts of scalar values, keys that fit, times JSON can express. *)
Definition site_textual (s : Site) : Prop :=
  Forall utf8_text [site_Domain s; site_UpstreamURL s; site_WAFMode s; site_TLSMode s; site_CertFile s; site_KeyFile s] /\
  in_calendar (site_CreatedAt s) /\ in_calendar (site_UpdatedAt s) /\ in_int64 (site_ID s).

Definition rule_textual (r : CustomRule) : Prop :=
  Forall utf8_text [rule_Name r; rule_Directive r; rule_Description r] /\
  in_calendar (rule_CreatedAt r) /\ in_calendar (rule_UpdatedAt r) /\ in_int64 (rule_ID r).

Lemma utf8_ascii s : is_ascii s = true -> utf8_text s.
Proof.
  intros Hs. exists (bytes_of s).
  assert (Forall (fun b => 0 <= b < 128)%Z (bytes_of s)) as Hb.
  { induction s as [|c s IH]; [constructor|]. cbn [is_ascii] in Hs. zbool. apply Forall_cons_2; [|by apply IH].
    pose proof (byte_of_range c) as Hr. unfold is_byte in Hr. lia. }
  clear Hs. induction Hb as [|b l Hb _ [IH1 IH2]]; [done|]. split.
  - apply Forall_cons_2; [|done]. split; [lia|]. unfold is_surrogate, inside. by rewrite (proj2 (Z.leb_gt _ _)) by lia.
  - assert (utf8 (b :: l) = encode_scalar b ++ utf8 l) as -> by done. rewrite encode_scalar_ascii by done. by rewrite <- IH2.
Qed.

(** One field after the other, keeping the record built so far in normal form. *)
Tactic Notation "read_field" uconstr(lem) :=
  erewrite lem; [|first [reflexivity|assumption]..];
  cbn [site_with_id site_with_times site_ID site_Domain site_UpstreamURL site_WAFMode site_TLSMode site_CertFile
       site_KeyFile site_Enabled site_CreatedAt site_UpdatedAt
       rule_with_id rule_with_times rule_ID rule_Name rule_Directive rule_Description rule_Enabled rule_CreatedAt rule_UpdatedAt].

Lemma site_json_reads `{TimeMessages} s :
  site_textual s -> exists v, json_parse (json_encode (site_json s)) = Ok v /\ decode_struct site_struct v = Ok s.
Proof.
  intros (Ht & Hc & Hu & Hid). rewrite !Forall_cons in Ht. destruct Ht as (H1 & H2 & H3 & H4 & H5 & H6 & _).
  assert (encodable (site_json s)) as He.
  { apply enc_obj. unfold omit_empty. repeat case_decide; cbn [app];
      repeat (apply Forall_cons_2; [split; [by apply utf8_ascii|by constructor]|]); apply Forall_nil_2. }
  exists (read_back (site_json s)). split.
  { apply json_round_trip; [done|unfold site_json, omit_empty; by repeat case_decide|by apply encodable_text]. }
  unfold site_json. cbn [read_back decode_struct]. rewrite !map_app. cbn [map app fst snd].
  change (go_zero site_struct) with zero_site. unfold zero_site. read_field decode_int64.
  do 4 read_field decode_str. do 2 read_field decode_omitted. cbn [app].
  read_field decode_bool. do 2 read_field decode_time. by destruct s.
Qed.

Lemma rule_json_reads `{TimeMessages} r :
  rule_textual r -> exists v, json_parse (json_encode (rule_json r)) = Ok v /\ decode_struct rule_struct v = Ok r.
Proof.
  intros (Ht & Hc & Hu & Hid). rewrite !Forall_cons in Ht. destruct Ht as (H1 & H2 & H3 & _).
  assert (encodable (rule_json r)) as He.
  { apply enc_obj. unfold omit_empty. repeat case_decide; cbn [app];
      repeat (apply Forall_cons_2; [split; [by apply utf8_ascii|by constructor]|]); apply Forall_nil_2. }
  exists (read_back (rule_json r)). split.
  { apply json_round_trip; [done|unfold rule_json, omit_empty; by repeat case_decide|by apply encodable_text]. }
  unfold rule_json. cbn [read_back decode_struct]. rewrite !map_app. cbn [map app fst snd].
  change (go_zero rule_struct) with zero_rule. unfold zero_rule. read_field decode_int64.
  do 2 read_field decode_str. read_field decode_omitted. cbn [app].
  read_field decode_bool. do 2 read_field decode_time. by destruct r.
Qed.

(** ** Preservation *)

(** [m] leads from states with [I] to states with [I]. *)
Definition preserves {W A} (I : W -> Prop) (m : M W A) : Prop := forall w, I w -> I (m w).2.

Lemma preserves_ret {W A} (I : W -> Prop) (a : A) : preserves I (ret a).
Proof. by intros w. Qed.

Lemma preserves_bind {W A B} (I : W -> Prop) (m : M W A) (k : A -> M W B) :
  preserves I m -> (forall a, preserves I (k a)) -> preserves I (bind m k).
Proof. intros Hm Hk w Hw. apply Hk, Hm, Hw. Qed.

#[export] Hint Resolve preserves_ret preserves_bind : store.

Section api_spec.
Context {W : Type} `{HasStore W} `{Bcrypt} `{SqlEngine} `{TimeMessages}.
Context (authn : Authenticator) (reload : option (M W (option error))).

(** The store operations the API performs, with what it has checked of their
    arguments. *)
Inductive api_op : forall A : Type, M StoreState A -> Prop :=
| op_verify r : api_op _ (verify authn r)
| op_check u p : api_op _ (Check u p)
| op_issue r u : api_op _ (IssueCookie authn r u)
| op_change_password c n : api_op _ (ChangePassword c n)
| op_list_sites : api_op _ ListSites
| op_get_site id : api_op _ (GetSite id)
| op_create_site s : valid_site s -> api_op _ (CreateSite s)
| op_update_site s : valid_site s -> api_op _ (UpdateSite s)
| op_delete_site id : api_op _ (DeleteSite id)
| op_list_rules : api_op _ ListRules
| op_get_rule id : api_op _ (GetRule id)
| op_create_rule r : named_rule r -> api_op _ (CreateRule r)
| op_update_rule r : named_rule r -> api_op _ (UpdateRule r)
| op_delete_rule id : api_op _ (DeleteRule id)
| op_list_events f : api_op _ (ListEvents f)
| op_stats d : api_op _ (StatsOf d).

Section preservation.
Context (I : W -> Prop).
Context (Hop : forall A (m : M StoreState A), api_op A m -> preserves I (on_store m)).
Context (Hreload : forall f, reload = Some f -> preserves I f).

Lemma apply_reload_err_preserves : preserves I (applyReloadErr reload).
Proof. unfold applyReloadErr. destruct reload; [by apply Hreload|apply preserves_ret]. Qed.

Lemma apply_reload_preserves : preserves I (applyReload reload).
Proof. unfold applyReload. apply preserves_bind; [apply apply_reload_err_preserves|intros; apply preserves_ret]. Qed.

Lemma read_json_preserves {A} (ty : struct_type A) r k :
  (forall a, preserves I (k a)) -> preserves I (readJSON (W:=W) ty r k).
Proof. intros Hk. unfold readJSON. repeat case_match; auto using preserves_ret. Qed.

(** A handler made of such operations. *)
Local Ltac step :=
  first
    [ apply preserves_ret
    | apply apply_reload_err_preserves
    | apply apply_reload_preserves
    | apply read_json_preserves; intros
    | apply Hop; constructor; by eauto with api
    | apply preserves_bind; intros
    | case_match ].

Lemma routes_preserve rt id r :
  rt ∈ routes authn reload -> preserves I (rt_handler rt id r).
Proof.
  unfold routes. rewrite !elem_of_cons, elem_of_nil. intros Hrt.
  repeat (destruct Hrt as [->|Hrt]); [..|done]; cbn [rt_handler];
    unfold health, login, logout, me, CurrentUser, changePassword, listSites, createSite, getSite, updateSite,
      deleteSite, listRules, createRule, getRule, updateRule, deleteRule, listEvents, stats;
    cbv zeta; repeat step.
Qed.

Lemma serve_route_preserves rt id r :
  rt ∈ routes authn reload -> preserves I (serve_route authn rt id r).
Proof.
  intros Hrt. unfold serve_route, Middleware. case_match; [|by apply routes_preserve].
  apply preserves_bind; [apply Hop; by constructor|]. intros []; [by apply routes_preserve|apply preserves_ret].
Qed.

(** Whatever the store operations and [reload] preserve, a request does. *)
Lemma api_serve_preserves `{Chi} spa r :
  (forall h, spa = Some h -> preserves I (h r)) -> preserves I (ApiServe authn reload spa r).
Proof.
  intros Hspa. unfold ApiServe. apply preserves_bind; [|intros; apply preserves_ret].
  destruct (chi_route _ _ _) as [i id| | |]; [|destruct spa as [h|]|..]; auto using preserves_ret.
  destruct (routes authn reload !! i) as [rt|] eqn:E; [|apply preserves_ret].
  apply preserves_bind; [|intros; apply preserves_ret].
  apply serve_route_preserves. by eapply list_elem_of_lookup_2.
Qed.
End preservation.

(** ** Sessions are required *)

(** Only the store's clock and schedules differ, not the database. *)
Definition db_unchanged (w w' : W) : Prop :=
  exists s, w' = set_store s w /\ st_db s = st_db (get_store w).

Lemma db_unchanged_refl w : db_unchanged w w.
Proof. exists (get_store w). by rewrite set_get_store. Qed.

Lemma on_store_db_unchanged {A} (m : M StoreState A) w :
  (forall s, st_db (m s).2 = st_db s) -> preserves (db_unchanged w) (on_store m).
Proof.
  intros Hm w' (s & -> & Hs). unfold on_store. cbn [snd]. rewrite get_set_store, set_set_store.
  exists (m s).2. by rewrite Hm.
Qed.

Lemma middleware_rejects next r w :
  (verify authn r (get_store w)).1 = None ->
  Middleware authn next r w = (unauthorized, set_store (verify authn r (get_store w)).2 w).
Proof. intros Hv. unfold Middleware, bind, on_store, ret. cbn [fst snd]. by rewrite Hv. Qed.

(** Without a session no route changes the database, and a protected one
    answers 401. *)
Lemma serve_route_unauthenticated rt id r w :
  rt ∈ routes authn reload -> (verify authn r (get_store w)).1 = None ->
  db_unchanged w (serve_route authn rt id r w).2 /\
  (rt_protected rt = true -> (serve_route authn rt id r w).1 = unauthorized).
Proof.
  intros Hrt Hv. unfold serve_route. destruct (rt_protected rt) eqn:Hp.
  - rewrite middleware_rejects by done. split; [|done]. exists (verify authn r (get_store w)).2.
    split; [done|]. apply verify_db.
  - split; [|done]. revert Hrt Hp. unfold routes. rewrite !elem_of_cons, elem_of_nil. intros Hrt Hp.
    repeat (destruct Hrt as [->|Hrt]); try discriminate; [..|done]; cbn [rt_handler].
    + apply db_unchanged_refl.
    + unfold login. apply read_json_preserves; [|apply db_unchanged_refl]. intros body.
      apply preserves_bind; [apply on_store_db_unchanged; intros; apply check_inv|]. intros ok.
      case_match; [apply preserves_ret|]. apply preserves_bind; [by apply on_store_db_unchanged|].
      intros; apply preserves_ret.
    + apply db_unchanged_refl.
Qed.

(** C16: A request without a valid session leaves the database and everything outside the store
    unchanged whatever route it reaches, given a page handler that changes nothing, and every
    protected route answers it with 401. *)
Theorem unauthenticated_requests `{Chi} (spa : option (Handler W)) (r : Request) (w : W) :
  (verify authn r (get_store w)).1 = None ->
  (forall h, spa = Some h -> (h r w).2 = w) ->
  let q := ApiServe authn reload spa r w in
  db_unchanged w q.2 /\
  (forall i id rt,
    chi_route ((fun rt => (rt_method rt, rt_pattern rt)) <$> routes authn reload) (rq_method r) (rq_path r) = Found i id ->
    routes authn reload !! i = Some rt -> rt_protected rt = true -> status_of q.1 = 401%Z).
Proof.
  intros Hv Hspa. cbv zeta. unfold ApiServe, bind, ret. cbn [fst snd].
  destruct (chi_route _ _ _) as [i id| | |].
  - destruct (routes authn reload !! i) as [rt|] eqn:E; cbn [fst snd].
    + destruct (serve_route_unauthenticated rt id r w) as [Hdb H401]; [by eapply list_elem_of_lookup_2|done|].
      split; [done|]. intros j id' rt' [= <- <-] E' Hp. rewrite E in E'. injection E' as <-.
      rewrite H401, chi_recover_none by done. by vm_compute.
    + split; [apply db_unchanged_refl|]. intros j id' rt' [= <- <-]. by rewrite E.
  - split; [|done]. destruct spa as [h|]; cbn [snd]; [rewrite (Hspa h eq_refl)|]; apply db_unchanged_refl.
  - split; [apply db_unchanged_refl|done].
  - split; [apply db_unchanged_refl|done].
Qed.

(** ** Signing in *)

Definition credentials_body (r : Request) : option (string * string) :=
  match json_parse (default "" (rq_body r)) with
  | Ok v => match decode_struct login_struct v with Ok x => Some x | Err _ => None end
  | Err _ => None
  end.

Lemma login_run id r u p w :
  credentials_body r = Some (u, p) -> no_faults (get_store w) ->
  (login authn id r w).1 =
  if accepts (get_store w) u p
  then SetCookie (mkCookie cookieName (session_token authn u (now_of (get_store w) + sessionDuration)%Z) "/"
         (Some (now_of (get_store w) + sessionDuration)%Z) 0 true (rq_tls r) true)
       :: writeJSON 200 (JObj [("username", JStr u)])
  else writeJSONErr 401 "invalid username or password".
Proof.
  intros Hb Hn. unfold credentials_body in Hb. unfold login, readJSON. destruct (json_parse _) as [v|]; [|done].
  destruct (decode_struct _ _) as [b|]; [|done]. injection Hb as ->. unfold bind, on_store. cbn [fst snd].
  rewrite check_run by done. cbn [fst snd]. destruct (accepts (get_store w) u p); cbn [negb]; [|done].
  by rewrite get_set_store.
Qed.

Lemma middleware_accepts next r w u :
  (verify authn r (get_store w)).1 = Some u ->
  Middleware authn next r w = next r (set_store (verify authn r (get_store w)).2 w).
Proof. intros Hv. unfold Middleware, bind, on_store. cbn [fst snd]. by rewrite Hv. Qed.

Lemma middleware_refuses next r w :
  (verify authn r (get_store w)).1 = None ->
  Middleware authn next r w = (unauthorized, set_store (verify authn r (get_store w)).2 w).
Proof. intros Hv. unfold Middleware, bind, on_store. cbn [fst snd]. by rewrite Hv. Qed.

(** C27: On a working database POST /api/login with the right credentials answers 200 with a cookie.
    A request with that cookie passes the authentication middleware as that user exactly until the
    expiry seven days later, when the user name contains no vertical bar; after that, and for a name
    with a vertical bar at once, the middleware answers 401 and the request goes no further. *)
Theorem login_opens_session (id : string) (r1 r2 : Request) (u p : string) (w1 w2 : W) (next : Request -> M W (list wop)) :
  credentials_body r1 = Some (u, p) -> no_faults (get_store w1) -> accepts (get_store w1) u p = true ->
  in_int64 (unix (now_of (get_store w1) + sessionDuration)%Z) ->
  exists c rest, (login authn id r1 w1).1 = SetCookie c :: rest /\ status_of (SetCookie c :: rest) = 200%Z /\
    (cookie_get r2 cookieName = Some (ck_value c) ->
     let valid := negb (char_in "|"%char u) &&
       (unix (now_of (get_store w2)) <=? unix (now_of (get_store w1) + sessionDuration)%Z)%Z in
     let w2' := set_store (verify authn r2 (get_store w2)).2 w2 in
     (CurrentUser authn r2 (get_store w2)).1 = (if valid then Some u else None) /\
     (valid = true -> Middleware authn next r2 w2 = next r2 w2') /\
     (valid = false -> Middleware authn next r2 w2 = (unauthorized, w2') /\ status_of unauthorized = 401%Z)).
Proof.
  intros Hb Hn Hacc Hexp. rewrite (login_run _ _ _ _ _ Hb Hn), Hacc. eexists _, _.
  split; [done|]. split; [by vm_compute|]. cbn [ck_value]. intros Hc. cbv zeta. set (valid := _ && _).
  assert ((verify authn r2 (get_store w2)).1 = if valid then Some u else None) as Hv.
  { rewrite (verify_run _ _ _ _ Hc), check_session_token by done. unfold valid.
    destruct (char_in _ _); [done|]. cbn [negb andb]. rewrite Z.ltb_antisym. by destruct (_ <=? _)%Z. }
  split; [exact Hv|]. split; intros Hvalid; rewrite Hvalid in Hv; [by eapply middleware_accepts|].
  split; [by apply middleware_refuses|by vm_compute].
Qed.

(** ** The single-page app *)

(** An empty path makes the page handler panic. *)
Theorem spa_empty_path `{Chi} `{FileAnswers} (dist : FileSystem) (r : Request) (w : W) :
  rq_path r = "" ->
  chi_route ((fun rt => (rt_method rt, rt_pattern rt)) <$> routes authn reload) (rq_method r) (rq_path r) = FoundSpa ->
  let q := ApiServe authn reload (Some (SPAHandler dist)) r w in
  status_of q.1 = 500%Z /\ q.2 = w.
Proof.
  intros Hp Hr. cbv zeta. unfold ApiServe, bind, ret. rewrite Hr. unfold SPAHandler. cbv zeta. rewrite Hp.
  split; [|done]. by apply chi_recover_panic.
Qed.
End api_spec.

(** ** The database under the API *)

(** A store operation that keeps the database well-formed. *)
Definition keeps_wf {A} (m : M StoreState A) : Prop := forall s, db_wf (st_db s) -> db_wf (st_db (m s).2).

Lemma keeps_wf_same {A} (m : M StoreState A) : (forall s, st_db (m s).2 = st_db s) -> keeps_wf m.
Proof. intros Hm s Hs. by rewrite Hm. Qed.

Lemma sql_query_db {A} (f : DB -> list A) s : st_db (sql_query f s).2 = st_db s.
Proof. done. Qed.

Lemma stats_db `{SqlEngine} d s : st_db (StatsOf d s).2 = st_db s.
Proof.
  unfold StatsOf, bind_ok, bind, ret. cbn [fst snd]. repeat (case_match; cbn [fst snd]); done.
Qed.

Lemma api_op_keeps_wf `{Bcrypt} `{SqlEngine} authn A (m : M StoreState A) :
  api_op authn A m -> keeps_wf m.
Proof.
  intros Hm s Hs. destruct Hm.
  - by rewrite verify_db.
  - by destruct (check_inv u p s) as [-> _].
  - done.
  - pose proof (change_password_db c n s) as Hc. destruct Hc as [-> |(h & ->)]; [done|]. exact Hs.
  - destruct (ListSites s) as [r s'] eqn:E. by apply sql_list_inv in E as [-> _].
  - unfold GetSite, bind_ok, bind, ret. case_match; done.
  - exact (run_store_op_wf (OpCreateSite s0) s Hs).
  - exact (run_store_op_wf (OpUpdateSite s0) s Hs).
  - exact (run_store_op_wf (OpDeleteSite id) s Hs).
  - destruct (ListRules s) as [r s'] eqn:E. by apply sql_list_inv in E as [-> _].
  - unfold GetRule, bind_ok, bind, ret. case_match; done.
  - exact (run_store_op_wf (OpCreateRule r) s Hs).
  - exact (run_store_op_wf (OpUpdateRule r) s Hs).
  - exact (run_store_op_wf (OpDeleteRule id) s Hs).
  - destruct (ListEvents f s) as [r s'] eqn:E. by apply sql_list_inv in E as [-> _].
  - by rewrite stats_db.
Qed.

(** ** Types of the stored values *)

(** Every stored site is one [validateSite] accepts, every rule has a name and
    a directive. *)
Definition typed_db (d : DB) : Prop :=
  Forall valid_site (rows (db_sites d)) /\ Forall named_rule (rows (db_rules d)).

Lemma typed_insert {A} `{HasId A} (P : A -> Prop) x (t : Table A) x' t' :
  (forall i y, P y -> P (set_id i y)) -> P x -> Forall P (rows t) ->
  insert_row x t = Ok (x', t') -> Forall P (rows t').
Proof.
  intros Hset Hx Ht. unfold insert_row. case_decide; [done|]. intros [= <- <-]. cbn [rows].
  apply Forall_app_2; [done|]. apply Forall_singleton. by apply Hset.
Qed.

Lemma typed_update {A} `{HasId A} (P : A -> Prop) i f (t : Table A) :
  (forall y, P (f y)) -> Forall P (rows t) -> Forall P (rows (update_row i f t)).
Proof.
  intros Hf Ht. unfold update_row. cbn [rows]. apply Forall_fmap. eapply Forall_impl; [exact Ht|].
  intros y Hy. simpl. by case_decide.
Qed.

Lemma typed_delete {A} `{HasId A} (P : A -> Prop) i (t : Table A) :
  Forall P (rows t) -> Forall P (rows (delete_row i t)).
Proof. intros Ht. unfold delete_row. cbn [rows]. rewrite Forall_forall in *. intros x [_ Hx]%list_elem_of_filter. by apply Ht. Qed.

(** A write that leaves sites and rules alone, or changes one of them. *)
Lemma typed_on_sites d t : typed_db d -> Forall valid_site (rows t) -> typed_db (on_sites d t).
Proof. by intros [_ ?] ?. Qed.
Lemma typed_on_rules d t : typed_db d -> Forall named_rule (rows t) -> typed_db (on_rules d t).
Proof. by intros [? _] ?. Qed.

Lemma api_op_keeps_types `{Bcrypt} `{SqlEngine} authn A (m : M StoreState A) s :
  api_op authn A m -> typed_db (st_db s) -> typed_db (st_db (m s).2).
Proof.
  intros Hm Hs. pose proof Hs as [Hsites Hrules].
  destruct Hm as [r|u p|r u|c n| |id|site Hv|site Hv|id| |id|rule Hr|rule Hr|id|f|d].
  - by rewrite verify_db.
  - by destruct (check_inv u p s) as [-> _].
  - done.
  - destruct (change_password_db c n s) as [-> |(h & ->)]; [done|]. exact Hs.
  - unfold ListSites. destruct (sql_list _ s) as [r s'] eqn:E. by apply sql_list_inv in E as [-> _].
  - unfold GetSite, bind_ok, bind, ret. case_match; done.
  - unfold CreateSite, bind. cbn [fst snd]. apply sql_exec_preserves; [done|]. intros x db. unfold insert_site.
    case_decide; [done|]. destruct (insert_row _ _) as [[b t]|] eqn:Ei; [|done]. intros [= _ <-].
    apply typed_on_sites; [done|]. by eapply typed_insert in Ei; [..|exact Hsites].
  - unfold UpdateSite, bind_ok, bind. cbn [fst snd]. case_match; cbn [snd ret];
      (apply sql_exec_preserves; [done|]; intros x db; unfold update_site; case_decide; [done|]; intros [= _ <-];
       apply typed_on_sites; [done|]; by apply typed_update).
  - unfold DeleteSite, bind, ret. cbn [fst snd]. apply sql_exec_preserves; [done|]. intros ? ? [= _ <-].
    apply typed_on_sites; [done|]. by apply typed_delete.
  - unfold ListRules. destruct (sql_list _ s) as [r s'] eqn:E. by apply sql_list_inv in E as [-> _].
  - unfold GetRule, bind_ok, bind, ret. case_match; done.
  - unfold CreateRule, bind. cbn [fst snd]. apply sql_exec_preserves; [done|]. intros x db. unfold insert_rule.
    destruct (insert_row _ _) as [[b t]|] eqn:Ei; [|done]. intros [= _ <-].
    apply typed_on_rules; [done|]. by eapply typed_insert in Ei; [..|exact Hrules].
  - unfold UpdateRule, bind_ok, bind. cbn [fst snd]. case_match; cbn [snd ret];
      (apply sql_exec_preserves; [done|]; intros ? ? [= _ <-]; apply typed_on_rules; [done|]; by apply typed_update).
  - unfold DeleteRule, bind, ret. cbn [fst snd]. apply sql_exec_preserves; [done|]. intros ? ? [= _ <-].
    apply typed_on_rules; [done|]. by apply typed_delete.
  - unfold ListEvents. destruct (sql_list _ s) as [r s'] eqn:E. by apply sql_list_inv in E as [-> _].
  - by rewrite stats_db.
Qed.

(** No operation of the API touches the events. *)
Lemma api_op_keeps_events `{Bcrypt} `{SqlEngine} authn A (m : M StoreState A) s :
  api_op authn A m -> db_events (st_db (m s).2) = db_events (st_db s).
Proof.
  intros Hm.
  assert (forall B (f : DB -> res (B * DB)), (forall x d, f (st_db s) = Ok (x, d) -> db_events d = db_events (st_db s)) ->
    forall s0, st_db s0 = st_db s -> db_events (st_db (sql_exec f s0).2) = db_events (st_db s)) as Hexec.
  { intros B f Hf s0 E. apply (sql_exec_preserves (fun d => db_events d = db_events (st_db s))); rewrite E; [done|]. apply Hf. }
  destruct Hm as [r|u p|r u|c n| |id|site Hv|site Hv|id| |id|rule Hr|rule Hr|id|f|d].
  - by rewrite verify_db.
  - by destruct (check_inv u p s) as [-> _].
  - done.
  - by destruct (change_password_db c n s) as [-> |(h & ->)].
  - unfold ListSites. destruct (sql_list _ s) as [r s'] eqn:E. by apply sql_list_inv in E as [-> _].
  - unfold GetSite, bind_ok, bind, ret. case_match; done.
  - unfold CreateSite, bind. cbn [fst snd]. apply Hexec; [|done]. intros x db. unfold insert_site.
    case_decide; [done|]. destruct (insert_row _ _) as [[b t]|]; [|done]. by intros [= _ <-].
  - unfold UpdateSite, bind_ok, bind. cbn [fst snd]. case_match; cbn [snd ret];
      (apply Hexec; [|done]; intros x db; unfold update_site; case_decide; [done|]; by intros [= _ <-]).
  - unfold DeleteSite, bind, ret. cbn [fst snd]. apply Hexec; [|done]. by intros ? ? [= _ <-].
  - unfold ListRules. destruct (sql_list _ s) as [r s'] eqn:E. by apply sql_list_inv in E as [-> _].
  - unfold GetRule, bind_ok, bind, ret. case_match; done.
  - unfold CreateRule, bind. cbn [fst snd]. apply Hexec; [|done]. intros x db. unfold insert_rule.
    destruct (insert_row _ _) as [[b t]|]; [|done]. by intros [= _ <-].
  - unfold UpdateRule, bind_ok, bind. cbn [fst snd]. case_match; cbn [snd ret];
      (apply Hexec; [|done]; by intros ? ? [= _ <-]).
  - unfold DeleteRule, bind, ret. cbn [fst snd]. apply Hexec; [|done]. by intros ? ? [= _ <-].
  - unfold ListEvents. destruct (sql_list _ s) as [r s'] eqn:E. by apply sql_list_inv in E as [-> _].
  - by rewrite stats_db.
Qed.
