(* ===== verification/WebSpec.v ===== *)
(** * What the web application's handler serves

    Cleaning and joining leave valid names alone; the handler in closed form:
    embedded files by name, redirects for directories and index pages, and the
    index page for everything else. *)

From S2P Require Export Api.
From Stdlib Require Import Ascii.

(** ** Valid names *)

Definition plain_elem (e : string) : Prop := e ∉ [""; "."; ".."].

Lemma valid_elems name : ValidPath name = true -> name <> "." -> Forall plain_elem (split_on slash name).
Proof.
  unfold ValidPath. intros [_ Hv]%andb_true_iff Hn. rewrite bool_decide_false in Hv by done. cbn [orb] in Hv.
  rewrite forallb_forall in Hv. apply Forall_forall. intros e He.
  specialize (Hv e (proj1 (list_elem_of_In _ _) He)). apply negb_true_iff in Hv.
  by apply bool_decide_eq_false in Hv.
Qed.

Lemma valid_not_empty name : ValidPath name = true -> name <> "".
Proof. by intros H ->. Qed.

Lemma clean_plain rooted elems kept :
  Forall plain_elem elems -> foldl (clean_step rooted) kept elems = rev elems ++ kept.
Proof.
  revert kept. induction elems as [|e elems IH]; intros kept Hp; [done|]. apply Forall_cons in Hp as [He Hp].
  cbn [foldl rev]. rewrite IH by done. rewrite <- app_assoc. f_equal. unfold clean_step, plain_elem in *.
  rewrite !elem_of_cons, elem_of_nil in He. by rewrite !bool_decide_false by tauto.
Qed.

Lemma clean_rooted name :
  ValidPath name = true -> name <> "." -> path_clean ("/" +:+ name) = "/" +:+ name.
Proof.
  intros Hv Hn. unfold path_clean. cbv zeta.
  change (split_on slash ("/" +:+ name)) with ("" :: split_on slash name).
  change (has_prefix "/" ("/" +:+ name)) with (has_prefix "" name). replace (has_prefix "" name) with true by (by destruct name).
  cbn [foldl]. change (clean_step true [] "") with (@nil string).
  rewrite clean_plain by (by apply valid_elems). rewrite app_nil_r, rev_involutive. f_equal.
  exact (split_on_join slash name).
Qed.

Lemma clean_dist name :
  ValidPath name = true -> name <> "." -> path_join2 "dist" name = "dist/" +:+ name.
Proof.
  intros Hv Hn. unfold path_join2, path_clean. cbv zeta.
  change (split_on slash ("dist" +:+ "/" +:+ name)) with ("dist" :: split_on slash name).
  change (has_prefix "/" ("dist" +:+ "/" +:+ name)) with false.
  rewrite clean_plain by (constructor; [by apply (bool_decide_unpack _)|by apply valid_elems]).
  rewrite app_nil_r, rev_involutive, decide_False by done. pose proof (split_on_join slash name) as Hj.
  destruct (split_on_cons slash name) as (x & l & E). rewrite E in *.
  change (join "/" ("dist" :: x :: l)) with ("dist" +:+ "/" +:+ join "/" (x :: l)). by rewrite <- Hj.
Qed.

Lemma has_suffix_app p s : has_suffix p s = true -> exists q, s = q +:+ p.
Proof.
  unfold has_suffix. intros [_ Hs%bool_decide_eq_true]%andb_true_iff.
  exists (str_take (String.length s - String.length p) s). by rewrite <- (str_take_drop (String.length s - String.length p) s), Hs at 1.
Qed.

(** A valid name does not end in a slash. *)
Lemma valid_no_trailing name : ValidPath name = true -> has_suffix "/" ("/" +:+ name) = false.
Proof.
  intros Hv. destruct (has_suffix "/" ("/" +:+ name)) eqn:E; [|done]. apply has_suffix_app in E as [q E].
  change ("/" +:+ name) with (String slash name) in E.
  destruct q as [|c q]; [injection E as ->; by apply valid_not_empty in Hv|].
  rewrite string_app_cons in E. injection E as _ ->.
  assert (q +:+ "/" <> ".") as Hn by (by destruct q as [|? []]).
  pose proof (valid_elems _ Hv Hn) as Hp. change "/" with (String slash "") in Hp. rewrite split_on_app in Hp.
  apply Forall_app in Hp as [_ Hp]. cbn [split_on] in Hp.
  apply Forall_cons in Hp as [Hp _]. exfalso. apply Hp, list_elem_of_here.
Qed.

Lemma strip_rooted name : name <> "" -> fs_name ("/" +:+ name) = name.
Proof.
  intros Hn. unfold fs_name. change ("/" +:+ name) with (String slash name). rewrite decide_False; [done|]. by intros [= E].
Qed.

(** ** The handler *)

Section spa.
Context `{FileAnswers} {W : Type} (embedded : list (string * string)) (page : string).

(** dist is a directory with an index page. *)
Definition built : Prop := lookup_key "dist" embedded = None /\ lookup_key "dist/index.html" embedded = Some page.

(** The answer to a request for [/name]. *)
Definition spa_answer (r : Request) (name : string) : list wop :=
  match dist_tree embedded name with
  | inl _ => serveContent (with_path r "/") "index.html" page
  | inr node =>
      if has_suffix "/index.html" ("/" +:+ name) then localRedirect r "./"
      else match node with
           | FsFile content => serveContent r (path_base ("/" +:+ name)) content
           | FsDir _ => localRedirect r (path_base ("/" +:+ name) +:+ "/")
           end
  end.

Lemma dist_tree_valid name node : dist_tree embedded name = inr node -> ValidPath name = true.
Proof. unfold dist_tree. by destruct (ValidPath name). Qed.

Lemma dist_tree_root : built -> exists l, dist_tree embedded "." = inr (FsDir l).
Proof.
  intros [Hd Hi]. unfold dist_tree. change (ValidPath ".") with true. change (path_join2 "dist" ".") with "dist".
  unfold embed_open. change (ValidPath "dist") with true. cbn [negb]. rewrite Hd. rewrite bool_decide_true; [eauto|].
  right. intros E. apply assoc_elem in Hi as Hin.
  assert ("index.html" ∈ entries_of embedded "dist") as Hx; [|rewrite E in Hx; by apply elem_of_nil in Hx].
  unfold entries_of. apply elem_of_remove_dups, list_elem_of_omap. by exists ("dist/index.html", page).
Qed.

Lemma dist_tree_index : built -> dist_tree embedded "index.html" = inr (FsFile page).
Proof.
  intros [_ Hi]. unfold dist_tree. change (path_join2 "dist" "index.html") with "dist/index.html".
  unfold embed_open. change (ValidPath "index.html") with true. change (ValidPath "dist/index.html") with true.
  cbn [negb]. by rewrite Hi.
Qed.

(** Only embedded files below dist are ever opened. *)
Lemma dist_tree_file name content :
  built -> dist_tree embedded name = inr (FsFile content) -> lookup_key ("dist/" +:+ name) embedded = Some content.
Proof.
  intros Hb Hf. pose proof (dist_tree_valid _ _ Hf) as Hv.
  destruct (decide (name = ".")) as [->|Hn]; [destruct (dist_tree_root Hb) as [l Hl]; congruence|].
  revert Hf. unfold dist_tree. rewrite Hv, clean_dist by done.
  unfold embed_open. destruct (negb _); [done|]. destruct (lookup_key _ _) as [c|]; [by intros [= ->]|].
  by destruct (bool_decide _).
Qed.

Lemma root_answer r :
  built -> FileServer (dist_tree embedded) (with_path r "/") = serveContent (with_path r "/") "index.html" page.
Proof.
  intros Hb. destruct (dist_tree_root Hb) as [l Hl]. unfold FileServer, serveFile. cbn [rq_path with_path].
  change (has_prefix "/" "/") with true. cbv iota zeta. cbn [rq_path with_path]. change (path_clean "/") with "/".
  change (has_suffix "/index.html" "/") with false. change (has_suffix "/" "/") with true. cbn [negb].
  unfold dir_open at 1. change (fs_name "/") with ".". rewrite Hl. change (str_take (pred (String.length "/")) "/" +:+ "/index.html") with "/index.html".
  unfold dir_open. change (fs_name "/index.html") with "index.html". by rewrite dist_tree_index.
Qed.

Lemma file_server_found r name node :
  built -> rq_path r = "/" +:+ name -> dist_tree embedded name = inr node -> 
  FileServer (dist_tree embedded) r = spa_answer r name.
Proof.
  intros Hb Hr Hf. pose proof (dist_tree_valid _ _ Hf) as Hv. pose proof (valid_not_empty _ Hv) as Hne.
  assert (with_path r (rq_path r) = r) as Hid by (by destruct r).
  unfold FileServer, spa_answer. rewrite Hf. replace (has_prefix "/" (rq_path r)) with true
    by (rewrite Hr; by destruct name). rewrite Hid, Hr. unfold serveFile. rewrite Hr, valid_no_trailing by done.
  destruct (has_suffix "/index.html" _); [done|].
  assert (dir_open (dist_tree embedded) (path_clean ("/" +:+ name)) = inr node) as ->.
  { unfold dir_open. destruct (decide (name = ".")) as [->|Hn].
    - change (path_clean ("/" +:+ ".")) with "/". change (fs_name "/") with ".".
      by rewrite Hf.
    - rewrite clean_rooted, strip_rooted by done. by rewrite Hf. }
  destruct node as [content|l]; cbn [negb]; [|done]. destruct (decide (name = ".")) as [->|Hn].
  - destruct (dist_tree_root Hb) as [l Hl]. congruence.
  - by rewrite clean_rooted.
Qed.

(** C28: The web application's handler answers /name with the embedded file dist/name, with a
    redirect for a directory or an index page, and with the index page for every name that is not
    embedded, so that deep links work; nothing outside dist is opened, no directory is listed and an
    unconditional request is never answered with 404. *)
Theorem spa_serves (r : Request) (name : string) (w : W) :
  built -> rq_path r = "/" +:+ name ->
  exists dist, Dist embedded = Ok dist /\ SPAHandler dist r w = (spa_answer r name, false, w) /\
  (forall content, dist name = inr (FsFile content) -> lookup_key ("dist/" +:+ name) embedded = Some content) /\
  ((forall k, k ∈ ["If-Match"; "If-None-Match"; "Range"] -> lookup_key k (rq_header r) = None) ->
   status_of (spa_answer r name) = (match dist name with
     | inl _ => 200
     | inr (FsFile _) => if has_suffix "/index.html" ("/" +:+ name) then 301 else 200
     | inr (FsDir _) => 301
     end)%Z).
Proof.
  intros Hb Hr. exists (dist_tree embedded). split; [apply dist_ok|]. split; [|split].
  - unfold SPAHandler. rewrite Hr. cbv zeta. case_decide as Hs.
    + assert (name = "") as -> by (by destruct name). unfold spa_answer.
      assert (with_path r "/" = r) as Hid by (destruct r; simpl in Hr; by subst).
      change (dist_tree embedded "") with (@inl fs_error fs_node ErrInvalid). unfold ret. rewrite <- Hid at 1. by rewrite root_answer.
    + change ("/" +:+ name) with (String slash name). cbv iota. unfold fs_stat.
      destruct (dist_tree embedded name) as [e|node] eqn:Hf; unfold ret.
      * rewrite root_answer by done. unfold spa_answer. by rewrite Hf.
      * by erewrite file_server_found.
  - intros content. by apply dist_tree_file.
  - intros Hu. unfold spa_answer. destruct (dist_tree embedded name) as [e|[content|l]].
    + unfold serveContent. rewrite unconditional by done. by case_decide; vm_compute.
    + destruct (has_suffix _ _); [done|]. unfold serveContent. rewrite unconditional by done.
      case_decide; cbn [app]; unfold status_of, run_wops; cbn; done.
    + by destruct (has_suffix _ _).
Qed.
End spa.
