(* ===== verification/Wafportal.v ===== *)
(** * The program ([cmd/wafportal])

    [main]: the state the components share, the [reload] closure that re-syncs
    engines and routing from the store, start-up, and the admin server. *)

From S2P Require Export Api Proxy Config.

Section wafportal.
Context `{Coraza} `{TokenBucket} `{UnicodeTables} `{UrlRelease} `{Transport} `{Autocert}.
Context `{SqlEngine} `{Bcrypt} `{TimeMessages} `{Yaml}.

(** Operations of one component on the whole state. *)
Definition on_engines {A} (m : M Manager A) : M System A := fun w =>
  let p := m (sy_engines w) in
  (p.1, mkSystem (sy_store w) p.2 (sy_proxy w) (sy_limiter w) (sy_sink w)).

Definition set_proxy (p : Proxy) (w : System) : System :=
  mkSystem (sy_store w) (sy_engines w) p (sy_limiter w) (sy_sink w).

(** The [reload] closure of [main]. *)
Definition reload : M System (option error) :=
  (let! ds := on_store EnabledRuleDirectives in
   match ds with
   | Err e => ret (Some e)
   | Ok ds =>
       let! err := on_engines (ManagerReload ds) in
       match err with
       | Some e => ret (Some e)
       | None =>
           let! sites := on_store ListSites in
           match sites with
           | Err e => ret (Some e)
           | Ok sites =>
               do! modify (fun w => set_proxy (ProxyReload (sy_engines w) sites) w) ;; ret None
           end
       end
   end)%go.

(** The state before the first reload. *)
Definition initial_system (cfg : Config) (st : StoreState) : System :=
  mkSystem st NewManager NewProxy
    (if rl_Enabled (cfg_RateLimit cfg)
     then Some (NewLimiter (rl_RequestsPerSecond (cfg_RateLimit cfg)) (rl_Burst (cfg_RateLimit cfg))) else None)
    (newEventSink 4096).

(** The environment [main] runs in: the configuration file, the value of
    WAFPORTAL_ADMIN_PASSWORD (empty when unset), the embedded files, whether the database opens, its
    contents, what happens to the schema statement, the clock and the other sources. *)
Record Environment := mkEnvironment {
  env_path : string; env_config : file; env_password : string;
  env_embedded : list (string * string); env_open : option error; env_db : option DB; env_migrate : option fault; env_store : DB -> StoreState }.

(** What is running after [main] has started everything. *)
Record Running := mkRunning {
  run_system : System; run_auth : Authenticator; run_spa : FileSystem; run_servers : list HttpServer; run_config : Config }.

(** [main] up to the point where it waits for a signal; an error is the
    message of [log.Fatalf]. *)
Definition start_up (env : Environment) : res Running :=
  match Load (env_path env) (env_config env) with
  | (_, Some e) => Err ("config: " +:+ e)
  | (cfg, None) =>
      match Open (env_open env) (env_db env) (env_migrate env) with
      | Err e => Err ("store: " +:+ e)
      | Ok db =>
          match reload (initial_system cfg (env_store env db)) with
          | (Some e, _) => Err ("initial WAF load: " +:+ e)
          | (None, w) =>
              let password := if decide (env_password env = "") then ac_Password (cfg_Admin cfg)
                              else env_password env in
              match on_store (New (ac_Username (cfg_Admin cfg)) password) w with
              | (Err e, _) => Err ("auth: " +:+ e)
              | (Ok authn, w) =>
                  (* the user name is read again for the log line *)
                  let w := if decide (GeneratedPassword authn = "") then w else (on_store Username w).2 in
                  match Dist (env_embedded env) with
                  | Err e => Err ("embedded SPA: " +:+ e)
                  | Ok spa => Ok (mkRunning w authn spa (startServers cfg) cfg)
                  end
              end
          end
      end
  end.

(** The admin server's handler. *)
Definition admin_handler `{Chi} `{FileAnswers} (authn : Authenticator) (spa : FileSystem) (r : Request) : M System (list wop) :=
  ServerHandler (NewServer authn (Some reload) (Some (SPAHandler spa))) r.
End wafportal.
