(* ===== verification/WafportalSpec.v ===== *)
(** * What the program as a whole promises

    [reload] makes engines and routing match the store or leaves the old ones
    running; no sequence of API requests leaves the firewall without engines;
    a created site is served, a rejected rule is rolled back, a rejected update
    is not; start-up. *)

From S2P Require Export Wafportal ApiSpec ProxySpec.
From Stdlib Require Import Ascii.

Section wafportal_spec.
Context `{Coraza} `{TokenBucket} `{UnicodeTables} `{UrlRelease} `{Transport} `{Autocert}.
Context `{SqlEngine} `{Bcrypt} `{TimeMessages} `{Yaml}.

(** ** Reload *)

Definition enabled_directives (d : DB) : list string :=
  rule_Directive <$> order_by rule_id_le (filter (fun r => rule_Enabled r = true) (rows (db_rules d))).

Definition sorted_sites (d : DB) : list Site := order_by site_domain_le (rows (db_sites d)).

Definition db_of (w : System) : DB := st_db (sy_store w).

(** The engines a list of directives compiles to. *)
Definition compiled (ds : list string) (m : Manager) : Prop :=
  exists on detect, build (join nl ds) "On" = Ok on /\ build (join nl ds) "DetectionOnly" = Ok detect /\
    m = <[WAFModeOn := on]> (<[WAFModeDetection := detect]> ∅).

(** Engines and routing match the store. *)
Definition synced (w : System) : Prop :=
  compiled (enabled_directives (db_of w)) (sy_engines w) /\
  sy_proxy w = ProxyReload (sy_engines w) (sorted_sites (db_of w)).

Lemma manager_reload_cases ds m :
  (exists e, ManagerReload ds m = (Some e, m) /\ ~ compiles ds) \/
  (exists m', ManagerReload ds m = (None, m') /\ compiled ds m').
Proof.
  destruct (build (join nl ds) "On") as [on|e] eqn:E1; [destruct (build (join nl ds) "DetectionOnly") as [det|e] eqn:E2|].
  - right. eexists. split; [by apply reload_succeeds|]. by exists on, det.
  - left. assert (~ compiles ds) as Hn by (intros (? & ? & ? & ?); congruence).
    destruct (reload_fails ds m Hn) as [e' ?]. eauto.
  - left. assert (~ compiles ds) as Hn by (intros (? & ? & ? & ?); congruence).
    destruct (reload_fails ds m Hn) as [e' ?]. eauto.
Qed.

Lemma sql_list_db {A} (f : DB -> list A) s : st_db (sql_list f s).2 = st_db s.
Proof. destruct (sql_list f s) as [r s'] eqn:E. by apply sql_list_inv in E as [-> _]. Qed.

Lemma sql_list_exact {A} (f : DB -> list A) s l : (sql_list f s).1 = Ok l -> l = f (st_db s).
Proof. destruct (sql_list f s) as [r s'] eqn:E. apply sql_list_inv in E as [_ Hl]. intros Hr. by apply Hl. Qed.

(** Whatever fails, [reload] ends in one of three ways. *)
Lemma reload_cases w :
  let q := reload w in
  db_of q.2 = db_of w /\ sy_limiter q.2 = sy_limiter w /\ sy_sink q.2 = sy_sink w /\
  match q.1 with
  | None => synced q.2
  | Some _ => sy_proxy q.2 = sy_proxy w /\
      (sy_engines q.2 = sy_engines w \/ compiled (enabled_directives (db_of w)) (sy_engines q.2))
  end.
Proof.
  cbv zeta. unfold reload, bind, on_store. cbn [fst snd]. unfold EnabledRuleDirectives.
  pose proof (sql_list_db (fun d => rule_Directive <$> order_by rule_id_le (filter (fun r => rule_Enabled r = true) (rows (db_rules d)))) (get_store w)) as Hdb1.
  pose proof (sql_list_exact (fun d => rule_Directive <$> order_by rule_id_le (filter (fun r => rule_Enabled r = true) (rows (db_rules d)))) (get_store w)) as Hex1.
  destruct (sql_list _ (get_store w)) as [[ds|e] s1]; cbn [fst snd] in *;
    [|split; [exact Hdb1|]; do 2 (split; [done|]); split; [done|by left]].
  specialize (Hex1 ds eq_refl). fold (enabled_directives (st_db (get_store w))) in Hex1. subst ds.
  change (st_db (get_store w)) with (db_of w) in *. unfold on_engines. cbn [fst snd sy_engines set_store system_has_store].
  destruct (manager_reload_cases (enabled_directives (db_of w)) (sy_engines w)) as [(e & -> & _)|(m' & -> & Hm)];
    cbn [fst snd]; [split; [exact Hdb1|]; do 2 (split; [done|]); split; [done|by left]|]. unfold ListSites. cbn [get_store system_has_store sy_store].
  pose proof (sql_list_db (fun d => order_by site_domain_le (rows (db_sites d))) s1) as Hdb2.
  pose proof (sql_list_exact (fun d => order_by site_domain_le (rows (db_sites d))) s1) as Hex2.
  destruct (sql_list _ s1) as [[sites|e] s2]; cbn [fst snd] in *.
  - specialize (Hex2 sites eq_refl). subst sites. unfold modify, ret, db_of in *. cbn in *.
    split; [congruence|]. do 2 (split; [done|]). unfold synced, db_of, sorted_sites. cbn. rewrite Hdb2, Hdb1. done.
  - unfold ret, db_of in *. cbn in *. split; [congruence|]. do 2 (split; [done|]). split; [done|]. by right.
Qed.

(** Without faults, [reload] succeeds exactly when the rules compile, and
    otherwise changes nothing. *)
Lemma reload_exact w :
  no_faults (sy_store w) ->
  (compiles (enabled_directives (db_of w)) -> (reload w).1 = None) /\
  (~ compiles (enabled_directives (db_of w)) ->
     is_Some (reload w).1 /\ sy_engines (reload w).2 = sy_engines w /\ sy_proxy (reload w).2 = sy_proxy w) /\
  no_faults (sy_store (reload w).2).
Proof.
  intros Hn. unfold reload, bind, on_store. cbn [fst snd]. unfold EnabledRuleDirectives.
  rewrite sql_list_ok by (by apply no_faults_fault_of). cbn [fst snd].
  fold (enabled_directives (st_db (get_store w))). change (st_db (get_store w)) with (db_of w).
  unfold on_engines. cbn [fst snd sy_engines set_store system_has_store].
  destruct (manager_reload_cases (enabled_directives (db_of w)) (sy_engines w)) as [(e & -> & Hc)|(m' & -> & Hm)];
    cbn [fst snd].
  - split; [done|]. split; [intros _; split; [by eexists|done]|]. by apply no_faults_pop.
  - unfold ListSites. cbn [get_store system_has_store sy_store].
    rewrite sql_list_ok by (by apply no_faults_fault_of, no_faults_pop). cbn.
    split; [done|]. split; [|by apply no_faults_pop, no_faults_pop].
    intros Hc. destruct Hc. destruct Hm as (on & det & ? & ? & _). by exists on, det.
Qed.

(** C3: reload either makes engines and routing table exactly what the store prescribes (engines
    compiled from the enabled directives in id order, routes built from the sites in domain order
    with those engines), or returns an error and keeps the old routing table; it never changes the
    database, the event sink or the limiter, and without database failures it succeeds exactly when
    the enabled directives compile. *)
Theorem reload_spec (w : System) :
  let q := reload w in
  (match q.1 with
   | None => synced q.2
   | Some _ => sy_proxy q.2 = sy_proxy w /\
       (sy_engines q.2 = sy_engines w \/ compiled (enabled_directives (db_of w)) (sy_engines q.2))
   end) /\
  db_of q.2 = db_of w /\ sy_sink q.2 = sy_sink w /\ sy_limiter q.2 = sy_limiter w /\
  (no_faults (sy_store w) -> (q.1 = None <-> compiles (enabled_directives (db_of w)))).
Proof.
  cbv zeta. destruct (reload_cases w) as (Hdb & Hl & Hs & Hm). do 4 (split; [done|]).
  intros Hn. destruct (reload_exact w Hn) as (Hok & Hbad & _). split; [|done].
  intros Hq. destruct (decide (compiles (enabled_directives (db_of w)))) as [|Hc]; [done|].
  destruct (Hbad Hc) as [[e He] _]. congruence.
Qed.

(** ** Any sequence of requests *)

(** The proxy has engines to run: both modes, compiled from one ruleset. *)
Definition live (w : System) : Prop := exists ds, compiled ds (sy_engines w).

Lemma reload_live w : live w -> live (reload w).2.
Proof.
  intros Hl. destruct (reload_cases w) as (_ & _ & _ & Hm). destruct ((reload w).1).
  - destruct Hm as [_ [E|Hc]]; [|by eexists]. unfold live. by rewrite E.
  - destruct Hm as [Hc _]. by eexists.
Qed.

Section admin.
Context `{Chi} `{FileAnswers} (authn : Authenticator) (spa : FileSystem).

(** Requests to the admin server, one after the other. *)
Definition run_admin (rs : list Request) (w : System) : System :=
  foldl (fun w r => (admin_handler authn spa r w).2) w rs.

Lemma spa_pure r (w : System) : (SPAHandler spa r w).2 = w.
Proof. unfold SPAHandler. cbv zeta. repeat case_match; done. Qed.

Lemma admin_handler_preserves (I : System -> Prop) r :
  (forall A (m : M StoreState A), api_op authn A m -> preserves I (on_store m)) ->
  preserves I reload ->
  preserves I (admin_handler authn spa r).
Proof.
  intros Hop Hre. unfold admin_handler. apply api_serve_preserves; [done|by intros f [= <-]|].
  intros h [= <-] w Hw. by rewrite spa_pure.
Qed.

(** C1: Whatever requests the admin server handles, one after the other in any order, authenticated
    or not, and whatever database statement fails, the database stays well-formed and the proxy
    keeps a blocking and a detection engine that were compiled from one and the same ruleset: no
    rule change can leave it without engines. *)
Theorem admin_keeps_running (rs : list Request) (w : System) :
  db_wf (db_of w) -> live w -> db_wf (db_of (run_admin rs w)) /\ live (run_admin rs w).
Proof.
  intros Hwf Hl. assert (db_wf (db_of w) /\ live w) as Hw by done. clear Hwf Hl.
  revert w Hw. induction rs as [|r rs IH]; intros w Hw; [done|]. apply IH. clear IH.
  refine (admin_handler_preserves (fun w => db_wf (db_of w) /\ live w) r _ _ w Hw); clear w Hw.
  - intros A m Hm w [Hwf Hl]. split; [|done]. exact (api_op_keeps_wf authn A m Hm _ Hwf).
  - intros w [Hwf Hl]. split; [|by apply reload_live]. by destruct (reload_cases w) as (-> & _).
Qed.
(** A handler for [site]: bare only when the site says so, otherwise behind
    the engine its mode asks for. *)
Definition handler_for_site (d : DB) (site : Site) (h : SiteHandler) : Prop :=
  match h with
  | Plain target => routable site = Some target /\ site_WAFMode site = WAFModeOff
  | Guarded engine target domain => routable site = Some target /\ domain = site_Domain site /\
      site_WAFMode site <> WAFModeOff /\
      build (join nl (enabled_directives d))
        (if decide (site_WAFMode site = WAFModeOn) then "On" else "DetectionOnly") = Ok engine
  end.

Lemma synced_route w host h :
  typed_db (db_of w) -> synced w -> handlerFor host (sy_proxy w) = Some h ->
  exists site, site ∈ rows (db_sites (db_of w)) /\ to_lower (site_Domain site) = host_domain host /\
    handler_for_site (db_of w) site h.
Proof.
  intros [Hty _] [Hc Hpx] Hh. unfold handlerFor in Hh. rewrite Hpx, reload_handlers in Hh.
  apply last_Some_elem_of, list_elem_of_omap in Hh as (site & Hin & He). unfold sorted_sites in Hin.
  rewrite order_by_perm in Hin. pose proof (proj1 (Forall_forall _ _) Hty _ Hin) as (_ & _ & Hw & _).
  revert He. unfold handler_entry. destruct (routable site) as [target|] eqn:Hr; [|done]. cbn [mbind option_bind].
  case_decide as Hd; [|done]. intros [= <-]. exists site. do 2 (split; [done|]).
  destruct Hc as (on & det & Hon & Hdet & ->). unfold handler_of, Engine, handler_for_site.
  rewrite !elem_of_cons, elem_of_nil in Hw. destruct Hw as [E|[E|[E|[]]]]; rewrite E.
  - by rewrite lookup_insert_eq.
  - by rewrite lookup_insert_ne, lookup_insert_eq by done.
  - by rewrite !lookup_insert_ne, lookup_empty by done.
Qed.

Lemma run_admin_typed rs w : typed_db (db_of w) -> typed_db (db_of (run_admin rs w)).
Proof.
  revert w. induction rs as [|r rs IH]; intros w Hty; [done|]. apply IH. clear IH.
  refine (admin_handler_preserves (fun w => typed_db (db_of w)) r _ _ w Hty); clear w Hty.
  - intros A m Hm w Hw. exact (api_op_keeps_types authn A m _ Hm Hw).
  - intros w Hw. by destruct (reload_cases w) as (-> & _).
Qed.

(** C4: Whatever requests the admin server handles, every stored site keeps a domain, an upstream
    and modes among the constants, and every rule a name and a directive; so when routes match the
    store, a host is served without the firewall only for a stored site in off mode, and otherwise
    behind the engine its mode asks for. *)
Theorem admin_keeps_types (rs : list Request) (w : System) :
  typed_db (db_of w) ->
  let w' := run_admin rs w in
  typed_db (db_of w') /\
  (synced w' -> forall host h, handlerFor host (sy_proxy w') = Some h ->
   exists site, site ∈ rows (db_sites (db_of w')) /\ to_lower (site_Domain site) = host_domain host /\
     handler_for_site (db_of w') site h).
Proof.
  intros Hty. pose proof (run_admin_typed rs w Hty). split; [done|]. intros Hs host h. by apply synced_route.
Qed.
End admin.

(** ** Rules *)

(** The decoded body of a rule request. *)
Definition rule_body (r : Request) : option CustomRule :=
  match json_parse (default "" (rq_body r)) with
  | Ok v => match decode_struct rule_struct v with Ok x => Some x | Err _ => None end
  | Err _ => None
  end.

Lemma read_rule_body {W'} r rule (k : CustomRule -> M W' (list wop)) :
  rule_body r = Some rule -> readJSON rule_struct r k = k rule.
Proof.
  unfold rule_body, readJSON. destruct (json_parse _) as [v|e]; [|done].
  destruct (decode_struct _ _); [|done]. by intros [= ->].
Qed.

(** The row [CreateRule] inserts and the row [UpdateRule] leaves. *)
Definition new_rule (rule : CustomRule) (s : StoreState) : CustomRule :=
  rule_with_id (seq_no (db_rules (st_db s)) + 1) (rule_with_times (now_of s) (now_of s) rule).

Lemma create_rule_run rule s :
  no_faults s -> (seq_no (db_rules (st_db s)) < int64_max)%Z ->
  CreateRule rule s =
  (Ok (new_rule rule s),
   with_db (on_rules (st_db s) (mkTable (rows (db_rules (st_db s)) ++ [new_rule rule s]) (seq_no (db_rules (st_db s)) + 1)))
     (pop_fault (ticked s))).
Proof.
  intros Hn Hseq. unfold CreateRule, bind. cbn [fst snd]. change ((time_now s).2) with (ticked s).
  rewrite sql_exec_ok by (by apply no_faults_fault_of). unfold insert_rule, insert_row.
  rewrite decide_False by (simpl; lia). done.
Qed.

Lemma delete_rule_run id s :
  no_faults s ->
  DeleteRule id s = (None, with_db (on_rules (st_db s) (delete_row id (db_rules (st_db s)))) (pop_fault s)).
Proof. intros Hn. unfold DeleteRule, bind, ret. by rewrite sql_exec_ok by (by apply no_faults_fault_of). Qed.

(** Deleting the row just inserted gives back the rows. *)
Lemma delete_inserted rule s :
  table_wf (db_rules (st_db s)) ->
  filter (fun r => get_id r <> rule_ID (new_rule rule s)) (rows (db_rules (st_db s)) ++ [new_rule rule s]) =
  rows (db_rules (st_db s)).
Proof.
  intros (_ & Hr & _). rewrite filter_app, filter_cons, filter_nil. rewrite decide_False by (by intros []).
  rewrite app_nil_r. rewrite Forall_forall in Hr. induction (rows (db_rules (st_db s))) as [|x l IH]; [done|].
  rewrite filter_cons, decide_True; [f_equal; apply IH; intros y Hy; apply Hr; by right|].
  specialize (Hr x (list_elem_of_here _ _)). simpl in *. lia.
Qed.

(** C13: On a working, well-formed database with rule ids left, a POST of a named rule with a
    directive that does not compile with the others is answered with 400 and undone: rules, sites,
    events and settings, engines, routing table, limiter and sink are what they were before. *)
Theorem create_rule_rollback (id : string) (r : Request) (rule : CustomRule) (w : System) :
  rule_body r = Some rule -> rule_Name rule <> "" -> rule_Directive rule <> "" ->
  no_faults (sy_store w) -> db_wf (db_of w) -> (seq_no (db_rules (db_of w)) < int64_max)%Z ->
  ~ compiles (enabled_directives (db_of (on_store (CreateRule rule) w).2)) ->
  let q := createRule (Some reload) id r w in
  status_of q.1 = 400%Z /\
  rows (db_rules (db_of q.2)) = rows (db_rules (db_of w)) /\ db_sites (db_of q.2) = db_sites (db_of w) /\
  db_events (db_of q.2) = db_events (db_of w) /\ db_settings (db_of q.2) = db_settings (db_of w) /\
  sy_engines q.2 = sy_engines w /\ sy_proxy q.2 = sy_proxy w /\ sy_limiter q.2 = sy_limiter w /\ sy_sink q.2 = sy_sink w.
Proof.
  intros Hb Hname Hdir Hn Hwf Hseq. unfold createRule. rewrite (read_rule_body _ _ _ Hb).
  rewrite bool_decide_false by tauto. unfold bind, on_store. cbn [get_store set_store system_has_store].
  rewrite (create_rule_run rule (sy_store w)) by done. cbn [fst snd].
  set (s1 := with_db _ _). set (w1 := mkSystem s1 _ _ _ _). intros Hc. cbv zeta.
  assert (no_faults (sy_store w1)) as Hn1 by (by apply (no_faults_pop (ticked (sy_store w)))).
  cbn [applyReloadErr]. destruct (reload_exact w1 Hn1) as (_ & Hbad & Hn2).
  destruct (Hbad Hc) as ([e He] & Heng & Hpx). destruct (reload_cases w1) as (Hdb & Hlim & Hsk & _).
  rewrite He. cbn [fst snd]. unfold ret. cbn [fst snd sy_store].
  rewrite delete_rule_run by done. cbn [snd]. unfold db_of in *. cbn [sy_store with_db st_db].
  rewrite Hdb. split; [by vm_compute|]. split; [|done].
  cbn. apply delete_inserted. apply Hwf.
Qed.

Lemma update_rule_run rule s :
  no_faults s ->
  let rule' := rule_with_times (rule_CreatedAt rule) (now_of s) rule in
  UpdateRule rule s =
  (Ok rule', with_db (on_rules (st_db s) (update_row (rule_ID rule) (set_rule_columns rule') (db_rules (st_db s))))
               (pop_fault (ticked s))).
Proof.
  intros Hn. cbv zeta. unfold UpdateRule, bind_ok, bind. cbn [fst snd]. change ((time_now s).2) with (ticked s).
  by rewrite sql_exec_ok by (by apply no_faults_fault_of).
Qed.

(** *** Start-up *)

(** An environment whose database file holds [d] and in which nothing fails. *)
Definition healthy (env : Environment) (d : DB) : Prop :=
  schema (env_db env) = d /\ env_open env = None /\ env_migrate env = None /\
  forall d, st_db (env_store env d) = d /\ steady (env_store env d).

Lemma start_up_fails env d :
  healthy env d -> ~ compiles (enabled_directives d) -> is_ok (start_up env) = false.
Proof.
  intros (Hd & Ho & Hm & Hs) Hc. unfold start_up. destruct (Load _ _) as [cfg [e|]]; [done|].
  unfold Open, migrate. rewrite Ho, Hm, Hd. destruct (Hs d) as [Hdb [Hn _]].
  set (w := initial_system cfg (env_store env d)).
  destruct (reload_exact w Hn) as (_ & Hbad & _). destruct Hbad as [[e He] _].
  { unfold db_of, w. cbn. by rewrite Hdb. }
  destruct (reload w) as [o w']. cbn in He. by subst o.
Qed.

(** C14: On a working, well-formed database, a PUT to an existing rule after which the enabled
    directives do not compile is answered with 400 and leaves the live engines and routes alone, but
    the rejected directive stays in the store, and from then on the program cannot start with that
    database. *)
Theorem update_rule_sticks (id : string) (r : Request) (rule old : CustomRule) (w : System) :
  rule_body r = Some rule -> rule_Name rule <> "" -> rule_Directive rule <> "" ->
  no_faults (sy_store w) -> db_wf (db_of w) -> find_row (idParam id) (db_rules (db_of w)) = Some old ->
  ~ compiles (enabled_directives (db_of (on_store (UpdateRule (rule_with_id (idParam id) rule)) w).2)) ->
  let q := updateRule (Some reload) id r w in
  status_of q.1 = 400%Z /\ sy_engines q.2 = sy_engines w /\ sy_proxy q.2 = sy_proxy w /\
  (exists row, find_row (idParam id) (db_rules (db_of q.2)) = Some row /\
     rule_Directive row = rule_Directive rule /\ rule_Enabled row = rule_Enabled rule) /\
  (forall env, healthy env (db_of q.2) -> is_ok (start_up env) = false).
Proof.
  intros Hb Hname Hdir Hn Hwf Hold. unfold updateRule. rewrite (read_rule_body _ _ _ Hb). cbv zeta.
  rewrite bool_decide_false by (simpl; tauto). unfold bind, on_store. cbn [get_store set_store system_has_store].
  rewrite update_rule_run by done. cbv zeta. cbn [fst snd].
  set (s1 := with_db _ _). set (w1 := mkSystem s1 _ _ _ _). intros Hc.
  assert (no_faults (sy_store w1)) as Hn1 by (by apply (no_faults_pop (ticked (sy_store w)))).
  cbn [applyReloadErr]. destruct (reload_exact w1 Hn1) as (_ & Hbad & _).
  destruct (Hbad Hc) as ([e He] & Heng & Hpx). destruct (reload_cases w1) as (Hdb & _ & _ & _).
  rewrite He. unfold ret. cbn [fst snd]. split; [by vm_compute|]. do 2 (split; [done|]). rewrite Hdb. split.
  - unfold db_of, w1, s1. cbn [sy_store st_db with_db on_rules db_rules].
    set (upd := set_rule_columns _). destruct (update_row_spec (idParam id) upd (db_rules (db_of w))) as [Hwf' Hmap];
      [done|apply Hwf|].
    exists (upd old). split; [|done]. change (st_db (sy_store w)) with (db_of w). cbn [rule_ID rule_with_id].
    rewrite <- find_row_map, Hmap, lookup_alter_eq, find_row_map, Hold by (done || apply Hwf). done.
  - intros env Henv. by eapply start_up_fails.
Qed.

(** ** Sites *)

Definition site_body (r : Request) : option Site :=
  match json_parse (default "" (rq_body r)) with
  | Ok v => match decode_struct site_struct v with Ok x => Some x | Err _ => None end
  | Err _ => None
  end.

Lemma read_site_body {W'} r site (k : Site -> M W' (list wop)) :
  site_body r = Some site -> readJSON site_struct r k = k site.
Proof.
  unfold site_body, readJSON. destruct (json_parse _) as [v|e]; [|done].
  destruct (decode_struct _ _); [|done]. by intros [= ->].
Qed.

Definition new_site (site : Site) (s : StoreState) : Site :=
  site_with_id (seq_no (db_sites (st_db s)) + 1) (site_with_times (now_of s) (now_of s) site).

Lemma create_site_fresh site s :
  no_faults s -> (seq_no (db_sites (st_db s)) < int64_max)%Z ->
  (forall x, x ∈ rows (db_sites (st_db s)) -> site_Domain x <> site_Domain site) ->
  CreateSite site s =
  (Ok (new_site site s),
   with_db (on_sites (st_db s) (mkTable (rows (db_sites (st_db s)) ++ [new_site site s]) (seq_no (db_sites (st_db s)) + 1)))
     (pop_fault (ticked s))).
Proof.
  intros Hn Hseq Hfresh. rewrite create_site_run, sql_exec_ok by (by apply no_faults_fault_of).
  unfold insert_site. rewrite decide_False.
  - unfold insert_row. rewrite decide_False by (simpl; lia). done.
  - intros (x & Hx & E)%Exists_exists. by apply (Hfresh x).
Qed.

Lemma routable_new_site site s : routable (new_site site s) = routable site.
Proof. done. Qed.

(** The body [getSite] writes is read back as the site. *)
Lemma site_body_of_json r site :
  site_textual site -> rq_body r = Some (json_encode (site_json site)) -> site_body r = Some site.
Proof.
  intros Ht Hr. destruct (site_json_reads site Ht) as (v & Hv & Hd).
  unfold site_body. rewrite Hr. cbn [from_option]. unfold id. by rewrite Hv, Hd.
Qed.

(** An update that keeps the domain of the row it is for meets no conflict. *)
Lemma update_site_same site row s :
  no_faults s -> db_wf (st_db s) -> find_row (site_ID site) (db_sites (st_db s)) = Some row ->
  site_Domain site = site_Domain row ->
  let site' := site_with_times (site_CreatedAt site) (now_of s) site in
  UpdateSite site s =
  (Ok site', with_db (on_sites (st_db s) (update_row (site_ID site) (set_site_columns site') (db_sites (st_db s))))
               (pop_fault (ticked s))).
Proof.
  intros Hn Hwf Hrow Hdom. cbv zeta. rewrite update_site_run. cbv zeta.
  rewrite sql_exec_ok by (by apply no_faults_fault_of). change (st_db (ticked s)) with (st_db s).
  unfold update_site at 1. rewrite decide_False; [done|]. intros [_ (x & Hx & Hd & Hid)%Exists_exists].
  cbn [site_Domain site_ID site_with_times] in *. apply find_row_Some in Hrow as [Hrow Hi]; [|apply Hwf].
  apply Hid. rewrite <- Hi. f_equal. eapply (NoDup_fmap_inj_on site_Domain); [apply Hwf|done..|congruence].
Qed.

(** C22: On a working, well-formed database, a valid site whose texts are UTF-8 and whose times can
    be written, fetched through the API and put back as it came, as the JSON text of the answer, is
    answered with 200 and changes nothing in the sites table but the time of its last update: the
    text the server writes is read back as the same site. *)
Theorem get_put_site (id : string) (r r' : Request) (row : Site) (w : System) :
  no_faults (sy_store w) -> db_wf (db_of w) ->
  find_row (idParam id) (db_sites (db_of w)) = Some row -> valid_site row -> site_textual row ->
  rq_body r' = Some (json_encode (site_json row)) ->
  let g := getSite id r w in
  let now := now_of (sy_store w) in
  let touch x := site_with_times (site_CreatedAt x) now x in
  let q := updateSite (Some reload) id r' g.2 in
  g.1 = writeJSON 200 (site_json row) /\ q.1 = writeJSON 200 (site_json (touch row)) /\
  rows (db_sites (db_of q.2)) =
    (fun x => if decide (site_ID x = idParam id) then touch x else x) <$> rows (db_sites (db_of w)).
Proof.
  intros Hn Hwf Hrow Hv Ht Hb. cbv zeta.
  assert (getSite id r w = (writeJSON 200 (site_json row), mkSystem (pop_fault (sy_store w)) (sy_engines w) (sy_proxy w) (sy_limiter w) (sy_sink w))) as ->.
  { unfold getSite, GetSite, bind_ok, bind, on_store. cbn [get_store set_store system_has_store].
    rewrite sql_query_row_ok by (by apply no_faults_fault_of). cbn [fst snd]. unfold db_of in Hrow. by rewrite Hrow. }
  cbn [fst snd]. split; [done|].
  assert (site_with_id (idParam id) row = row) as Hid.
  { apply find_row_Some in Hrow as [_ <-]; [|apply Hwf]. by destruct row. }
  unfold updateSite. rewrite (read_site_body _ _ _ (site_body_of_json r' row Ht Hb)), Hid, validate_site_valid by done.
  unfold bind, on_store. cbn [get_store set_store system_has_store sy_store].
  assert (site_ID row = idParam id) as Hkey by (rewrite <- Hid; done).
  rewrite (update_site_same row row); [|by apply no_faults_pop|exact Hwf|by rewrite Hkey|done].
  cbn [fst snd]. set (w1 := mkSystem _ _ _ _ _). unfold applyReload, applyReloadErr, bind, ret. cbn [fst snd].
  split; [done|]. destruct (reload_cases w1) as [-> _]. unfold w1, db_of, update_row. cbn [sy_store st_db with_db db_sites on_sites rows pop_fault ticked time_now snd].
  apply list_fmap_ext. intros i x Hx. rewrite Hkey. change (get_id x) with (site_ID x). case_decide as Hxi; [|done].
  assert (x = row) as ->; [|done].
  apply find_row_Some in Hrow as [Hin Hi]; [|apply Hwf].
  eapply (NoDup_fmap_inj_on get_id); [apply Hwf|by eapply list_elem_of_lookup_2|done|]. by rewrite Hi.
Qed.

(** One more row is one more place in the listing; the others keep their order. *)
Lemma sorted_sites_added (d d' : DB) (s : Site) :
  rows (db_sites d') = rows (db_sites d) ++ [s] ->
  exists before after, sorted_sites d' = before ++ s :: after /\ before ++ after ≡ₚ rows (db_sites d) /\
    (db_wf d -> sorted_sites d = before ++ after).
Proof.
  intros Hrows. assert (sorted_sites d' ≡ₚ rows (db_sites d) ++ [s]) as Hperm
    by (unfold sorted_sites; by rewrite order_by_perm, Hrows).
  assert (s ∈ sorted_sites d') as (before & after & Hl)%list_elem_of_split
    by (rewrite Hperm; apply elem_of_app; right; apply list_elem_of_here).
  rewrite Hl in Hperm. assert (before ++ after ≡ₚ rows (db_sites d)) as Hrest.
  { apply (Permutation_cons_inv (a := s)). by rewrite Permutation_middle, Hperm, Permutation_app_comm. }
  exists before, after. split; [done|]. split; [done|]. intros (_ & _ & _ & Hnd).
  eapply StronglySorted_unique_strong with (R := fun a b => site_domain_le a b).
  - intros x y Hx Hy Hxy Hyx. unfold sorted_sites in Hx. rewrite order_by_perm in Hx. rewrite Hrest in Hy.
    eapply (NoDup_fmap_inj_on site_Domain); eauto using string_le_antisym.
  - apply order_by_sorted; eauto with store.
  - pose proof (order_by_sorted Site site_domain_le (rows (db_sites d')) site_domain_le_total site_domain_le_trans) as Hs.
    fold (sorted_sites d') in Hs. rewrite Hl in Hs.
    apply StronglySorted_app in Hs as (Hx & Hb & Ha). apply StronglySorted_cons in Ha as [_ Ha].
    apply StronglySorted_app. split; [|done]. intros x y Hxb Hya. apply Hx; [done|by apply list_elem_of_further].
  - unfold sorted_sites. by rewrite order_by_perm, Hrest.
Qed.

(** C12: A POST of a valid site whose domain, letter case aside, no stored site has is answered with
    201 when the database works, has ids left and the rules compile, whether or not the site is
    enabled. Afterwards every host whose lower-cased name without port is the lower-cased domain
    gets the site's upstream behind the engine of its WAF mode, or directly in off mode, and no site
    if the site is disabled or its upstream does not parse or has no host; these hosts include the
    domain itself, with or without an ASCII port, if it is in ASCII without a colon. On a well-
    formed database every other host - and every host at all, if the domain contains a colon - is
    routed as the sites stored before prescribe. *)
Theorem create_site_served (id : string) (r : Request) (body site : Site) (w : System) :
  site_body r = Some body -> validateSite body = Ok site ->
  no_faults (sy_store w) -> (seq_no (db_sites (db_of w)) < int64_max)%Z ->
  (forall x, x ∈ rows (db_sites (db_of w)) -> to_lower (site_Domain x) <> to_lower (site_Domain site)) ->
  compiles (enabled_directives (db_of w)) ->
  let q := createSite (Some reload) id r w in
  let m := sy_engines q.2 in
  let route host := handlerFor host (sy_proxy q.2) in
  status_of q.1 = 201%Z /\ compiled (enabled_directives (db_of w)) m /\
  (* the hosts of the domain *)
  (forall host, host_domain host = to_lower (site_Domain site) -> route host = handler_of m site <$> routable site) /\
  (forall port, is_ascii (site_Domain site) = true -> char_in ":"%char (site_Domain site) = false -> is_ascii port = true ->
     route (site_Domain site) = handler_of m site <$> routable site /\
     route (site_Domain site +:+ ":" +:+ port) = handler_of m site <$> routable site) /\
  (* all others; a domain with a colon has no hosts *)
  (forall host, db_wf (db_of w) ->
     host_domain host <> to_lower (site_Domain site) \/ char_in ":"%char (to_lower (site_Domain site)) = true ->
     route host = handlerFor host (ProxyReload m (sorted_sites (db_of w)))).
Proof.
  intros Hb Hv Hn Hseq Hfresh Hc. cbv zeta. unfold createSite.
  rewrite (read_site_body _ _ _ Hb), Hv. unfold bind, on_store. cbn [get_store set_store system_has_store].
  rewrite create_site_fresh; [|done|done|intros x Hx E; apply (Hfresh x Hx); congruence]. cbn [fst snd].
  set (s1 := with_db _ _). set (w1 := mkSystem s1 _ _ _ _). unfold applyReload, bind, ret. cbn [fst snd applyReloadErr].
  assert (no_faults (sy_store w1)) as Hn1 by (by apply (no_faults_pop (ticked (sy_store w)))).
  destruct (reload_exact w1 Hn1) as (Hok & _ & _). destruct (reload_cases w1) as (Hdb & _ & _ & Hm).
  rewrite (Hok Hc) in Hm. destruct Hm as [Heng Hpx]. rewrite Hdb in Heng, Hpx.
  split; [by vm_compute|]. split; [exact Heng|]. rewrite Hpx.
  destruct (sorted_sites_added (db_of w) (db_of w1) (new_site site (sy_store w)) eq_refl)
    as (before & after & -> & Hrest & Hsorted).
  assert (forall host, host_domain host = to_lower (site_Domain site) ->
    handlerFor host (ProxyReload (sy_engines (reload w1).2) (before ++ new_site site (sy_store w) :: after)) =
    handler_of (sy_engines (reload w1).2) site <$> routable site) as Hown.
  { intros host Hh. rewrite own_host; [done|done|]. intros x. rewrite Hrest. apply Hfresh. }
  split; [exact Hown|]. split.
  - intros port Ha Hcolon Hp. split; apply Hown; [by apply host_domain_plain|by apply host_domain_port].
  - intros host Hwf Hother. rewrite (Hsorted Hwf). destruct Hother as [Hne|Hcolon].
    + apply other_host. cbn. congruence.
    + by apply port_domain_unreachable.
Qed.

Lemma sql_list_steady {A} (f : DB -> list A) s : steady s -> steady (sql_list f s).2.
Proof. intros Hs. destruct (sql_list f s) as [r s'] eqn:E. apply sql_list_inv in E as [-> _]. by apply steady_pop. Qed.

Lemma reload_steady w : steady (sy_store w) -> steady (sy_store (reload w).2).
Proof.
  assert (preserves (fun w : System => steady (sy_store w)) reload) as Hp; [|apply Hp].
  unfold reload. apply preserves_bind; [intros w' Hw; by apply sql_list_steady|]. intros [ds|e]; [|apply preserves_ret].
  apply preserves_bind; [by intros w'|]. intros [e|]; [apply preserves_ret|].
  apply preserves_bind; [intros w' Hw; by apply sql_list_steady|]. intros [l|e]; [by intros w'|apply preserves_ret].
Qed.

(** Settings do not matter to engines and routing. *)
Lemma synced_settings w s ks :
  synced w -> same_but ks (sy_store w) s -> synced (set_store s w).
Proof.
  unfold synced, db_of, enabled_directives, sorted_sites. cbn. intros [Hc Hp] (Hs & Hr & _). by rewrite Hr, Hs.
Qed.

Lemma username_db s : st_db (Username s).2 = st_db s.
Proof. unfold Username, bind, ret. cbn [snd]. apply get_setting_inv. Qed.

Lemma account_ready_db p old a s s' : st_db s' = st_db s -> account_ready p old a s -> account_ready p old a s'.
Proof. intros E. unfold account_ready, setting. by rewrite E. Qed.

Lemma reload_limiter w : sy_limiter (reload w).2 = sy_limiter w.
Proof. by destruct (reload_cases w) as (_ & ? & _). Qed.

(** C29: With a readable configuration, a database that opens and works, rules that compile, a
    readable secret and a password within bcrypt's limit, start-up succeeds: engines and routing
    match the store, the administrator account is ready, the limiter is as configured and the
    configured listeners are opened. *)
Theorem start_up_ready (env : Environment) (d : DB) (cfg : Config) :
  healthy env d -> Load (env_path env) (env_config env) = (cfg, None) ->
  compiles (enabled_directives d) -> secret_readable (env_store env d) ->
  let password := if decide (env_password env = "") then ac_Password (cfg_Admin cfg) else env_password env in
  (String.length password <= 72)%nat ->
  exists run, start_up env = Ok run /\
    synced (run_system run) /\
    account_ready password (db_settings d !! keyHash) (run_auth run) (sy_store (run_system run)) /\
    sy_limiter (run_system run) = sy_limiter (initial_system cfg (env_store env d)) /\
    run_servers run = startServers cfg.
Proof.
  intros (Hd & Ho & Hm & Hs) Hload Hc Hsec password Hpw. unfold start_up. rewrite Hload. unfold Open, migrate.
  rewrite Ho, Hm, Hd. destruct (Hs d) as [Hdb Hst]. set (w := initial_system cfg (env_store env d)).
  destruct (reload_exact w (proj1 Hst)) as (Hok & _). specialize (Hok ltac:(unfold db_of, w; cbn; by rewrite Hdb)).
  pose proof (reload_cases w) as (Hdb1 & _ & _ & Hsync). pose proof (reload_steady w Hst) as Hst1.
  pose proof (reload_limiter w) as Hlim. rewrite Hok in Hsync.
  destruct (reload w) as [o w1]. cbn [fst snd] in *. subst o. cbv zeta. fold password.
  destruct (new_account (ac_Username (cfg_Admin cfg)) password (sy_store w1)) as (a & Ha & _ & Hready & _ & Hsame);
    [done| |done|].
  { unfold secret_readable, setting in *. unfold db_of, w in Hdb1. cbn in Hdb1. by rewrite Hdb1. }
  unfold on_store at 1. cbn [get_store set_store system_has_store].
  destruct (New _ password (sy_store w1)) as [ra s2]. cbn [fst snd] in *. subst ra.
  assert (setting keyHash (sy_store w1) = db_settings d !! keyHash) as Hh.
  { unfold setting. unfold db_of, w in Hdb1. cbn in Hdb1. by rewrite Hdb1, Hdb. }
  rewrite Hh in Hready. eexists. split; [done|]. cbn [run_system run_auth run_servers].
  pose proof (synced_settings w1 s2 _ Hsync Hsame) as Hsync2.
  destruct (decide (GeneratedPassword a = "")); [done|].
  split; [|split; [|done]].
  - refine (synced_settings (set_store s2 w1) (Username s2).2 [] Hsync2 _). apply same_but_refl, username_db.
  - eapply account_ready_db; [|exact Hready]. apply username_db.
Qed.
End wafportal_spec.

(** ** Client addresses *)

Lemma last_index_bracketed h port :
  char_in ":"%char port = false ->
  last_index_byte ":"%char ("[" +:+ h +:+ "]:" +:+ port) = Some (S (S (String.length h))).
Proof.
  intros Hp. replace ("[" +:+ h +:+ "]:" +:+ port) with (("[" +:+ h +:+ "]") +:+ String ":"%char port).
  - rewrite last_index_byte_app by done. f_equal. rewrite !string_length_app. simpl. lia.
  - by rewrite <- !string_app_assoc.
Qed.

Lemma split_bracketed h port :
  char_in "["%char h = false -> char_in "]"%char h = false ->
  char_in ":"%char port = false -> char_in "["%char port = false -> char_in "]"%char port = false ->
  split_host_port ("[" +:+ h +:+ "]:" +:+ port) = inl (h, port).
Proof.
  intros H1 H2 P1 P2 P3. unfold split_host_port. rewrite last_index_bracketed by done. cbv zeta.
  rewrite decide_True by done.
  assert (index_byte "]"%char ("[" +:+ h +:+ "]:" +:+ port) = Some (S (String.length h))) as ->.
  { rewrite string_app_cons, string_app_nil_l. simpl.
    change ("]:" +:+ port) with (String "]"%char (":" +:+ port)). by rewrite index_byte_app. }
  rewrite decide_False by (rewrite !string_length_app; simpl; lia). rewrite decide_True by done.
  set (tail := String "]"%char (String ":"%char port)).
  change ("[" +:+ h +:+ "]:" +:+ port) with (String "["%char (h +:+ tail)).
  change (str_drop 1 (String "["%char (h +:+ tail))) with (h +:+ tail).
  assert (forall k, str_drop (S (k + String.length h)) (String "["%char (h +:+ tail)) = str_drop k tail) as Hdrop.
  { intros k. rewrite Nat.add_comm. clear. generalize tail. intros s. simpl.
    induction h as [|c h IH]; [done|]. rewrite string_app_cons. simpl. exact IH. }
  pose proof (Hdrop 1%nat) as D1. pose proof (Hdrop 2%nat) as D2. cbn [Nat.add] in D1, D2.
  rewrite D1, D2. change (str_drop 1 (str_take (S (String.length h)) (String "["%char (h +:+ tail))))
    with (str_take (String.length h) (h +:+ tail)).
  rewrite str_take_app, char_in_app, H1. unfold tail. cbn [str_drop char_in orb].
  destruct (decide ("["%char = "]"%char)) as [E|_]; [done|].
  destruct (decide ("["%char = ":"%char)) as [E|_]; [done|]. rewrite P2.
  destruct (decide ("]"%char = ":"%char)) as [E|_]; [done|]. by rewrite P3.
Qed.

(** For an IPv6 peer the event and the rate limiter disagree on the address. *)
Theorem ipv6_addresses_differ (cfg : RateLimitConfig) (r : Request) (h port : string) :
  rl_TrustForwardedHeader cfg = false ->
  rq_remote_addr r = "[" +:+ h +:+ "]:" +:+ port ->
  char_in "["%char h = false -> char_in "]"%char h = false ->
  char_in ":"%char port = false -> char_in "["%char port = false -> char_in "]"%char port = false ->
  clientIPFunc cfg r = h /\ splitHost (rq_remote_addr r) = "[" +:+ h +:+ "]".
Proof.
  intros Ht Hr H1 H2 P1 P2 P3. split.
  - unfold clientIPFunc. rewrite Ht, Hr, split_bracketed by done. done.
  - unfold splitHost, splitHostPort. rewrite Hr, last_index_bracketed by done. cbn [fst].
    replace ("[" +:+ h +:+ "]:" +:+ port) with (("[" +:+ h +:+ "]") +:+ String ":"%char port)
      by (by rewrite <- !string_app_assoc).
    rewrite <- (str_take_app ("[" +:+ h +:+ "]") (String ":"%char port)) at 2. f_equal.
    rewrite !string_length_app. simpl. lia.
Qed.
