(* ===== verification/Concurrent.v ===== *)
(** * Overlapping reloads ([cmd/wafportal], [internal/proxy], [internal/waf])

    Every admin request runs in its own goroutine and nothing orders their
    calls of [reload]. The file splits [reload] at the points where another
    goroutine can come in between - the two queries, the compilation outside
    the manager's lock, the swap under it, the loop of [Proxy.Reload] that asks
    the manager for an engine per site, the swap of the tables - and gives the
    step relation of any number of calls, of other statements on the database
    and of traffic. What is proved: whatever the interleaving, requests are
    only served with engines of rulesets that were enabled when some call read
    them; a call that runs alone does what [Wafportal.reload] says; two that
    overlap can leave an outdated ruleset in force. *)

From S2P Require Export WafportalSpec.

Section concurrent.
Context `{Coraza} `{TokenBucket} `{UnicodeTables} `{UrlRelease} `{Transport} `{Autocert}.
Context `{SqlEngine}.

(** What a call of [reload] does next. *)
Inductive phase :=
| ReadRules
| BuildEngines (ds : list string)
| SwapEngines (m : Manager)
| ReadSites
| AddSites (todo : list Site) (p : Proxy).

(** The program, the calls under way by goroutine, and the rulesets that calls
    have read so far. *)
Record CState := mkCState {
  cs_system : System;
  cs_calls : gmap nat phase;
  cs_read : list (list string) }.

Definition set_engines (m : Manager) (w : System) : System := (on_engines (fun _ => (tt, m)) w).2.

Inductive cstep : CState -> CState -> Prop :=
(* other requests: statements on the database, traffic *)
| c_database w calls seen s :
    cstep (mkCState w calls seen) (mkCState (set_store s w) calls seen)
| c_traffic w calls seen lim snk :
    cstep (mkCState w calls seen)
      (mkCState (mkSystem (sy_store w) (sy_engines w) (sy_proxy w) lim snk) calls seen)
(* one call of reload *)
| c_start g w calls seen :
    calls !! g = None ->
    cstep (mkCState w calls seen) (mkCState w (<[g := ReadRules]> calls) seen)
| c_read_rules g w calls seen :
    calls !! g = Some ReadRules ->
    cstep (mkCState w calls seen)
      (mkCState w (<[g := BuildEngines (enabled_directives (db_of w))]> calls) (enabled_directives (db_of w) :: seen))
| c_query_fails g ph w calls seen :
    calls !! g = Some ph -> ph = ReadRules \/ ph = ReadSites ->
    cstep (mkCState w calls seen) (mkCState w (delete g calls) seen)
| c_build g ds m e w calls seen :
    calls !! g = Some (BuildEngines ds) -> ManagerReload ds NewManager = (e, m) ->
    cstep (mkCState w calls seen)
      (mkCState w (match e with None => <[g := SwapEngines m]> calls | Some _ => delete g calls end) seen)
| c_swap g m w calls seen :
    calls !! g = Some (SwapEngines m) ->
    cstep (mkCState w calls seen) (mkCState (set_engines m w) (<[g := ReadSites]> calls) seen)
| c_read_sites g w calls seen :
    calls !! g = Some ReadSites ->
    cstep (mkCState w calls seen) (mkCState w (<[g := AddSites (sorted_sites (db_of w)) NewProxy]> calls) seen)
| c_add_site g site todo p w calls seen :
    calls !! g = Some (AddSites (site :: todo) p) ->
    cstep (mkCState w calls seen) (mkCState w (<[g := AddSites todo (add_site (sy_engines w) p site)]> calls) seen)
| c_publish g p w calls seen :
    calls !! g = Some (AddSites [] p) ->
    cstep (mkCState w calls seen) (mkCState (set_proxy p w) (delete g calls) seen).

(** ** Only configured engines *)

(** [e] was compiled from one of the rulesets. *)
Definition configured (seen : list (list string)) (e : WAF) : Prop :=
  exists ds mode, ds ∈ seen /\ mode ∈ ["On"; "DetectionOnly"] /\ build (join nl ds) mode = Ok e.

Definition engines_configured (seen : list (list string)) (m : Manager) : Prop :=
  exists ds, ds ∈ seen /\ compiled ds m.

Definition proxy_configured (seen : list (list string)) (p : Proxy) : Prop :=
  forall d e t n, px_handlers p !! d = Some (Guarded e t n) -> configured seen e.

Definition phase_configured (seen : list (list string)) (ph : phase) : Prop :=
  match ph with
  | BuildEngines ds => ds ∈ seen
  | SwapEngines m => engines_configured seen m
  | AddSites _ p => proxy_configured seen p
  | _ => True
  end.

(** Engines, tables and the calls under way only use rulesets that were read. *)
Definition well_configured (c : CState) : Prop :=
  engines_configured (cs_read c) (sy_engines (cs_system c)) /\
  proxy_configured (cs_read c) (sy_proxy (cs_system c)) /\
  map_Forall (fun _ ph => phase_configured (cs_read c) ph) (cs_calls c).

Lemma compiled_engine ds m mode e :
  compiled ds m -> Engine mode m = Some e -> exists k, k ∈ ["On"; "DetectionOnly"] /\ build (join nl ds) k = Ok e.
Proof.
  unfold Engine. intros (on & det & Hon & Hdet & ->) He. apply lookup_insert_Some in He as [[_ <-]|[_ He]].
  { exists "On". split; [by left|done]. }
  apply lookup_insert_Some in He as [[_ <-]|[_ He]]; [|by rewrite lookup_empty in He].
  exists "DetectionOnly". split; [by right; left|done].
Qed.

(** Adding a site to a table keeps it configured. *)
Lemma add_site_configured seen m p site :
  engines_configured seen m -> proxy_configured seen p -> proxy_configured seen (add_site m p site).
Proof.
  intros (ds & Hds & Hm) Hp d e t n Hl. unfold add_site in Hl. destruct (site_Enabled site); simpl in Hl; [|by eapply Hp].
  destruct (url_parse _) as [target|]; [|by eapply Hp]. case_decide; [by eapply Hp|].
  revert Hl. set (h := match Engine _ m with Some _ => _ | None => _ end).
  assert (forall q, px_handlers q = <[to_lower (site_Domain site) := h]> (px_handlers p) ->
    px_handlers q !! d = Some (Guarded e t n) -> configured seen e) as Hq.
  { intros q -> [[_ Hh]|[_ Hh]]%lookup_insert_Some; [|by eapply Hp]. subst h.
    destruct (Engine (site_WAFMode site) m) as [e'|] eqn:He; [|done]. injection Hh as -> _ _.
    destruct (compiled_engine ds m _ _ Hm He) as (k & ? & Hk). by exists ds, k. }
  repeat case_match; by apply Hq.
Qed.

(** More rulesets read, more engines that may be in use. *)
Lemma configured_mono seen seen' e : seen ⊆ seen' -> configured seen e -> configured seen' e.
Proof. intros Hsub (ds & k & Hin & Hk). exists ds, k. split; [by apply Hsub|done]. Qed.

Lemma engines_configured_mono seen seen' m : seen ⊆ seen' -> engines_configured seen m -> engines_configured seen' m.
Proof. intros Hsub (ds & Hin & Hm). exists ds. split; [by apply Hsub|done]. Qed.

Lemma proxy_configured_mono seen seen' p : seen ⊆ seen' -> proxy_configured seen p -> proxy_configured seen' p.
Proof. intros Hsub Hp d e t n Hl. by eapply configured_mono, Hp. Qed.

Lemma phase_configured_mono seen seen' ph : seen ⊆ seen' -> phase_configured seen ph -> phase_configured seen' ph.
Proof.
  intros Hsub. destruct ph; simpl; [done|by apply Hsub|by apply engines_configured_mono|done|by apply proxy_configured_mono].
Qed.

(** Calls only add to the rulesets read. *)
Lemma cstep_reads c c' : cstep c c' -> cs_read c ⊆ cs_read c'.
Proof. destruct 1; cbn [cs_read]; set_solver. Qed.

(** What is known of a call under way. *)
Ltac of_call Hc := match goal with Hl : _ !! _ = Some _ |- _ => exact (Hc _ _ Hl) end.

Lemma cstep_configured c c' : cstep c c' -> well_configured c -> well_configured c'.
Proof.
  intros Hstep. destruct Hstep; intros (Hm & Hp & Hc); cbn [cs_read cs_system cs_calls] in *.
  - done.
  - done.
  - split; [done|]. split; [done|]. by apply map_Forall_insert_2.
  - assert (seen ⊆ enabled_directives (db_of w) :: seen) as Hsub by set_solver.
    split; [by eapply engines_configured_mono|]. split; [by eapply proxy_configured_mono|]. cbn [cs_read cs_calls].
    apply map_Forall_insert_2; [by left|].
    eapply map_Forall_impl; [exact Hc|]. intros. by eapply phase_configured_mono.
  - split; [done|]. split; [done|]. by apply map_Forall_delete.
  - split; [done|]. split; [done|]. cbn [cs_read cs_calls]. destruct e; [by apply map_Forall_delete|].
    apply map_Forall_insert_2; [|done]. exists ds. split; [of_call Hc|].
    destruct (manager_reload_cases ds NewManager) as [(e & E & _)|(m' & E & Hm')]; congruence.
  - split; [of_call Hc|]. split; [done|]. by apply map_Forall_insert_2.
  - split; [done|]. split; [done|]. apply map_Forall_insert_2; [|done]. intros d e t n Hl. cbn in Hl. by rewrite lookup_empty in Hl.
  - split; [done|]. split; [done|]. apply map_Forall_insert_2; [|done]. simpl. apply add_site_configured; [done|].
    of_call Hc.
  - split; [done|]. split; [of_call Hc|]. by apply map_Forall_delete.
Qed.

(** However calls of reload, statements on the database and traffic interleave, the proxy keeps
    engines for both modes, and every request is routed to an engine compiled from a ruleset that
    some call of reload read from the database. *)
Theorem only_configured_engines (c c' : CState) :
  well_configured c -> rtc cstep c c' ->
  live (cs_system c') /\
  (forall host e t n, handlerFor host (sy_proxy (cs_system c')) = Some (Guarded e t n) -> configured (cs_read c') e).
Proof.
  intros Hc Hrun. assert (well_configured c') as (Hm & Hp & _).
  { induction Hrun as [|c1 c2 c3 Hstep _ IH]; [done|]. by apply IH, (cstep_configured c1). }
  split; [|intros host e t n; apply Hp]. destruct Hm as (ds & _ & Hm). by exists ds.
Qed.

(** ** One call alone *)

(** A step of a call itself: store, limiter and sink are left alone. *)
Definition own_step (c c' : CState) : Prop :=
  cstep c c' /\ sy_store (cs_system c') = sy_store (cs_system c) /\
  sy_limiter (cs_system c') = sy_limiter (cs_system c) /\ sy_sink (cs_system c') = sy_sink (cs_system c).

Lemma own_steps c c' : rtc own_step c c' -> rtc cstep c c'.
Proof. induction 1 as [|c1 c2 c3 [Hstep _] _ IH]; [done|]. by eapply rtc_l. Qed.

Ltac own lem := split; [eapply lem; (done || by apply lookup_insert_eq)|done].

(** The steps of one call from the state [w], up to the loop over the sites. *)
Lemma call_reads g w calls seen :
  calls !! g = None -> rtc own_step (mkCState w calls seen)
    (mkCState w (<[g := BuildEngines (enabled_directives (db_of w))]> calls) (enabled_directives (db_of w) :: seen)).
Proof.
  intros Hg. eapply rtc_l; [own (c_start g)|]. eapply rtc_l; [own (c_read_rules g)|].
  rewrite insert_insert_eq. apply rtc_refl.
Qed.

Lemma call_loop g todo p w calls seen :
  rtc own_step (mkCState w (<[g := AddSites todo p]> calls) seen)
    (mkCState (set_proxy (foldl (add_site (sy_engines w)) p todo) w) (delete g calls) seen).
Proof.
  revert p. induction todo as [|site todo IH]; intros p.
  - eapply rtc_l; [own (c_publish g)|]. rewrite delete_insert_eq. apply rtc_refl.
  - eapply rtc_l; [own (c_add_site g)|]. rewrite insert_insert_eq. apply IH.
Qed.

(** The compilation and the swap, with the ruleset [ds] in hand. *)
Lemma call_swaps g ds m w calls seen :
  compiled ds m ->
  rtc own_step (mkCState w (<[g := BuildEngines ds]> calls) seen)
    (mkCState (set_engines m w) (<[g := ReadSites]> calls) seen).
Proof.
  intros (on & det & Hon & Hdet & ->).
  eapply rtc_l; [split; [eapply (c_build g); [apply lookup_insert_eq|by apply reload_succeeds]|done]|]. rewrite insert_insert_eq.
  eapply rtc_l; [own (c_swap g)|]. rewrite insert_insert_eq. apply rtc_refl.
Qed.

(** From the compilation on. *)
Lemma call_finishes g ds m w calls seen :
  compiled ds m ->
  rtc own_step (mkCState w (<[g := BuildEngines ds]> calls) seen)
    (mkCState (set_proxy (ProxyReload m (sorted_sites (db_of w))) (set_engines m w)) (delete g calls) seen).
Proof.
  intros Hm. etrans; [by apply call_swaps|].
  eapply rtc_l; [own (c_read_sites g)|]. rewrite insert_insert_eq.
  exact (call_loop g (sorted_sites (db_of w)) NewProxy (set_engines m w) calls seen).
Qed.

(** A call of reload that meets no interference is one run of the interleaving semantics, with
    the engines and the routing table the sequential reload gives, in step with the database. *)
Theorem lone_reload (g : nat) (w : System) (calls : gmap nat phase) (seen : list (list string)) :
  calls !! g = None -> (reload w).1 = None ->
  exists w' seen', rtc cstep (mkCState w calls seen) (mkCState w' calls seen') /\
    sy_engines w' = sy_engines (reload w).2 /\ sy_proxy w' = sy_proxy (reload w).2 /\ synced w'.
Proof.
  intros Hg Hr. destruct (reload_cases w) as (Hdb & _ & _ & Hm). rewrite Hr in Hm. destruct Hm as [Heng Hpx].
  rewrite Hdb in Heng, Hpx. eexists _, _. split.
  - apply own_steps. etrans; [by apply (call_reads g)|]. pose proof (call_finishes g _ _ w calls (enabled_directives (db_of w) :: seen) Heng) as Hf.
    rewrite (delete_id calls g Hg) in Hf. exact Hf.
  - split; [done|]. split; [by rewrite Hpx|]. split; [exact Heng|done].
Qed.

(** ** Two that overlap *)

(** C15: Nothing orders two calls of reload: one that has read the rules before a change can finish
    after the call for that change, and then the outdated ruleset is in force with no call under way
    and the database unchanged, although the program had been in step with it. *)
Theorem overlapping_reloads_stale (w : System) (s : StoreState) (m1 m2 : Manager) (seen : list (list string)) :
  let ds1 := enabled_directives (db_of w) in
  let ds2 := enabled_directives (st_db s) in
  compiled ds1 m1 -> compiled ds2 m2 ->
  exists c1 c2, rtc cstep (mkCState w ∅ seen) c1 /\ rtc cstep c1 c2 /\
    (* the second call has finished and the program is in step with the database *)
    synced (cs_system c1) /\ db_of (cs_system c1) = st_db s /\ sy_engines (cs_system c1) = m2 /\
    (* then the first one finishes as well, without a further change of the database *)
    cs_calls c2 = ∅ /\ db_of (cs_system c2) = st_db s /\ sy_engines (cs_system c2) = m1.
Proof.
  intros ds1 ds2 Hc1 Hc2. set (w2 := set_store s w).
  exists (mkCState (set_proxy (ProxyReload m2 (sorted_sites (st_db s))) (set_engines m2 w2))
            {[0%nat := BuildEngines ds1]} (ds2 :: ds1 :: seen)).
  eexists. split; [|split].
  - etrans; [by apply own_steps, (call_reads 0 w ∅ seen)|]. eapply rtc_l; [apply (c_database _ _ _ s)|].
    apply own_steps. etrans; [by apply (call_reads 1 w2)|]. etrans; [by apply (call_finishes 1 ds2 m2 w2)|].
    rewrite delete_id by done. apply rtc_refl.
  - by apply own_steps, (call_finishes 0 ds1 m1 _ ∅).
  - cbn [cs_system cs_calls]. rewrite delete_empty. by repeat split.
Qed.
End concurrent.
