(* ===== verification/Runtime.v ===== *)
(** * The running program

    After start-up ([Wafportal.start_up]) admin requests, proxied requests, the
    sink's worker and the limiter's clean-up all run at once. The file gives the
    step relation of the whole: an admin request is any number of steps, one for
    each store or session operation and the steps [Concurrent] splits [reload]
    into; a proxied request is three, admission, routing and serving; and
    anything can come in between. What is proved: every sequential handler is a
    run of these steps, and what every run keeps - the invariants of all
    components together, and an audit trail that is only ever appended to.
    Serving is one step because it reads nothing that others write; redirects
    of the plaintext listener change no state and are no steps. *)

From S2P Require Export Concurrent RateLimitSpec.

Section runtime.
Context `{Coraza} `{TokenBucket} `{UnicodeTables} `{UrlRelease} `{Transport} `{Autocert}.
Context `{SqlEngine} `{Bcrypt} `{TimeMessages} `{Yaml} `{Chi} `{FileAnswers}.
Context (authn : Authenticator) (spa : FileSystem) (clientIP : Request -> string).

(** The program with the calls of reload under way, and the proxied requests
    under way by goroutine: admitted, and once routed with the handler found
    for them, which a reload does not change any more. *)
Record Runtime := mkRuntime {
  rt_calls : CState;
  rt_flying : gmap nat (option SiteHandler * Request) }.

Definition rt_system (c : Runtime) : System := cs_system (rt_calls c).

Definition at_system (w : System) (c : CState) : CState := mkCState w (cs_calls c) (cs_read c).

Definition set_worker (p : Sink * StoreState) (w : System) : System :=
  mkSystem p.2 (sy_engines w) (sy_proxy w) (sy_limiter w) p.1.

(** One round of the limiter's clean-up goroutine. *)
Definition limiter_cleanup (w : System) : System :=
  match sy_limiter w with
  | None => w
  | Some l =>
      let '(now, st) := time_now (sy_store w) in
      mkSystem st (sy_engines w) (sy_proxy w) (Some (cleanup now l)) (sy_sink w)
  end.

(** A step, with the event it hands to the sink. *)
Inductive rstep : option Event -> Runtime -> Runtime -> Prop :=
(* admin requests *)
| r_op A (m : M StoreState A) c fl :
    api_op authn A m ->
    rstep None (mkRuntime c fl) (mkRuntime (at_system (on_store m (cs_system c)).2 c) fl)
| r_reload c c' fl :
    own_step c c' -> rstep None (mkRuntime c fl) (mkRuntime c' fl)
(* proxied requests *)
| r_refused r c fl :
    (limiter_allow (clientIP r) (cs_system c)).1 = false ->
    rstep None (mkRuntime c fl) (mkRuntime (at_system (limiter_allow (clientIP r) (cs_system c)).2 c) fl)
| r_admitted g r c fl :
    fl !! g = None -> (limiter_allow (clientIP r) (cs_system c)).1 = true ->
    rstep None (mkRuntime c fl)
      (mkRuntime (at_system (limiter_allow (clientIP r) (cs_system c)).2 c) (<[g := (None, r)]> fl))
| r_routed g r h c fl :
    fl !! g = Some (None, r) -> handlerFor (rq_host r) (sy_proxy (cs_system c)) = Some h ->
    rstep None (mkRuntime c fl) (mkRuntime c (<[g := (Some h, r)]> fl))
| r_unknown g r c fl :
    fl !! g = Some (None, r) -> handlerFor (rq_host r) (sy_proxy (cs_system c)) = None ->
    rstep None (mkRuntime c fl) (mkRuntime c (delete g fl))
| r_served g h r oe c fl :
    fl !! g = Some (Some h, r) ->
    sy_sink (serve_site h r (cs_system c)).2 = submit_opt oe (sy_sink (cs_system c)) ->
    match oe with Some e => exists d, reports_for h = Some d /\ event_about d r e | None => True end ->
    rstep oe (mkRuntime c fl) (mkRuntime (at_system (serve_site h r (cs_system c)).2 c) (delete g fl))
(* the background goroutines *)
| r_worker p c fl :
    worker_step (sy_sink (cs_system c), sy_store (cs_system c)) p ->
    rstep None (mkRuntime c fl) (mkRuntime (at_system (set_worker p (cs_system c)) c) fl)
| r_cleanup c fl :
    rstep None (mkRuntime c fl) (mkRuntime (at_system (limiter_cleanup (cs_system c)) c) fl)
(* the clock, the random source and the statements that will fail *)
| r_outside s c fl :
    st_db s = st_db (sy_store (cs_system c)) ->
    rstep None (mkRuntime c fl) (mkRuntime (at_system (set_store s (cs_system c)) c) fl).

Inductive runs : list Event -> Runtime -> Runtime -> Prop :=
| runs_nil c : runs [] c c
| runs_cons oe es c1 c2 c3 : rstep oe c1 c2 -> runs es c2 c3 -> runs (option_list oe ++ es) c1 c3.

Lemma runs_step oe c c' : rstep oe c c' -> runs (option_list oe) c c'.
Proof. intros Hs. rewrite <- (app_nil_r (option_list oe)). eapply runs_cons; [exact Hs|apply runs_nil]. Qed.

Lemma runs_app es es' c1 c2 c3 : runs es c1 c2 -> runs es' c2 c3 -> runs (es ++ es') c1 c3.
Proof.
  induction 1 as [|oe es c1 c2' c2 Hs _ IH]; [done|]. intros Hr. rewrite <- app_assoc. eapply runs_cons; [exact Hs|by apply IH].
Qed.

(** Steps that submit nothing. *)
Lemma runs_quiet c1 c2 c3 : runs [] c1 c2 -> runs [] c2 c3 -> runs [] c1 c3.
Proof. exact (runs_app [] [] c1 c2 c3). Qed.

Lemma runs_own c c' fl : rtc own_step c c' -> runs [] (mkRuntime c fl) (mkRuntime c' fl).
Proof.
  induction 1 as [|c1 c2 c3 Hs _ IH]; [apply runs_nil|]. eapply runs_quiet; [exact (runs_step None _ _ (r_reload _ _ _ Hs))|exact IH].
Qed.

(** ** The handlers are runs *)

Lemma refused_run r w :
  (limiter_allow (clientIP r) w).1 = false -> (ProxyServeHTTP clientIP r w).2 = (limiter_allow (clientIP r) w).2.
Proof. intros Hr. unfold ProxyServeHTTP, bind, gets, ret. by rewrite Hr. Qed.

(** Something happens to the program, and rulesets may be read. *)
Definition becomes (c : CState) (fl : gmap nat (option SiteHandler * Request)) (w : System) : Prop :=
  exists seen, runs [] (mkRuntime c fl) (mkRuntime (mkCState w (cs_calls c) (seen ++ cs_read c)) fl).

Lemma becomes_refl c fl : becomes c fl (cs_system c).
Proof. exists []. destruct c. apply runs_nil. Qed.

Lemma becomes_after c fl w w' :
  becomes c fl w -> (forall seen, becomes (mkCState w (cs_calls c) seen) fl w') -> becomes c fl w'.
Proof.
  intros [seen Hr] Hn. destruct (Hn (seen ++ cs_read c)) as [seen' Hr']. exists (seen' ++ seen).
  rewrite <- app_assoc. by eapply runs_quiet.
Qed.

Lemma becomes_step c fl w : rstep None (mkRuntime c fl) (mkRuntime (at_system w c) fl) -> becomes c fl w.
Proof. intros Hs. exists []. exact (runs_step None _ _ Hs). Qed.

(** What the statements of [reload] do to the clock and the schedule of
    failures happens outside its own steps. *)
Lemma becomes_outside c fl w s :
  becomes c fl w -> st_db s = st_db (sy_store w) -> becomes c fl (set_store s w).
Proof. intros Hb Hs. eapply becomes_after; [exact Hb|]. intros seen. by apply becomes_step, (r_outside s (mkCState w _ _)). Qed.

Lemma reload_becomes c fl : becomes c fl (reload (cs_system c)).2.
Proof.
  destruct c as [w calls seen]. cbn [cs_system].
  set (g := fresh (dom calls)). assert (calls !! g = None) as Hg by (apply not_elem_of_dom, is_fresh).
  destruct (reload_cases w) as (Hdb & Hlim & Hsink & Hm).
  destruct (reload w) as [r [st eng px lim snk]]. unfold synced, db_of in *. cbn [fst snd sy_store sy_engines sy_proxy sy_limiter sy_sink] in *.
  subst lim snk. destruct r as [e|].
  - destruct Hm as [-> [->|Hc]].
    + exact (becomes_outside (mkCState w calls seen) fl w st (becomes_refl _ _) Hdb).
    + apply (becomes_outside _ fl (set_engines eng w) st); [|exact Hdb]. exists [enabled_directives (db_of w)]. apply runs_own.
      etrans; [by apply (call_reads g)|]. etrans; [by eapply call_swaps|]. apply rtc_once. split; [|done].
      replace (cs_calls (mkCState w calls seen)) with (delete g (<[g := ReadSites]> calls)) by (by rewrite delete_insert_id).
      apply (c_query_fails g ReadSites); [apply lookup_insert_eq|by right].
  - destruct Hm as [Hc ->]. cbn [sy_engines] in Hc. rewrite Hdb in Hc |- *.
    apply (becomes_outside _ fl (set_proxy (ProxyReload eng (sorted_sites (db_of w))) (set_engines eng w)) st); [|exact Hdb].
    exists [enabled_directives (db_of w)]. apply runs_own. etrans; [by apply (call_reads g)|].
    pose proof (call_finishes g _ eng w calls (enabled_directives (db_of w) :: seen) Hc) as Hf.
    rewrite delete_id in Hf by done. exact Hf.
Qed.

(** C11: The sequential handlers are runs of the steps: an admin request - with the reload it may
    cause, succeeding or failing at any point - and a proxied request each take the running program,
    whatever else is under way, where admin_handler and ProxyServeHTTP say, and leave the other
    calls and requests as they were. *)
Theorem requests_are_runs (r : Request) (c : CState) (fl : gmap nat (option SiteHandler * Request)) :
  (exists seen, runs [] (mkRuntime c fl)
     (mkRuntime (mkCState (admin_handler authn spa r (cs_system c)).2 (cs_calls c) (seen ++ cs_read c)) fl)) /\
  (exists oe, runs (option_list oe) (mkRuntime c fl)
     (mkRuntime (at_system (ProxyServeHTTP clientIP r (cs_system c)).2 c) fl)).
Proof.
  split.
  - refine (admin_handler_preserves authn spa (becomes c fl) r _ _ (cs_system c) (becomes_refl c fl)).
    + intros A m Hm w Hw. eapply becomes_after; [exact Hw|]. intros seen. by apply becomes_step, (r_op A m (mkCState w _ _)).
    + intros w Hw. eapply becomes_after; [exact Hw|]. intros seen. exact (reload_becomes (mkCState w (cs_calls c) seen) fl).
  - set (g := fresh (dom fl)). assert (fl !! g = None) as Hg by (apply not_elem_of_dom, is_fresh).
    destruct (limiter_allow (clientIP r) (cs_system c)).1 eqn:Ha.
    2:{ exists None. rewrite refused_run by done. apply runs_step. by apply r_refused. }
    set (w1 := (limiter_allow (clientIP r) (cs_system c)).2).
    assert (rstep None (mkRuntime c fl) (mkRuntime (at_system w1 c) (<[g := (None, r)]> fl))) as Hadm by (by apply r_admitted).
    assert (handlerFor (rq_host r) (sy_proxy w1) = handlerFor (rq_host r) (sy_proxy (cs_system c))) as Hpx
      by (unfold w1; by destruct (limiter_allow_frame (clientIP r) (cs_system c)) as (_ & -> & _)).
    destruct (handlerFor (rq_host r) (sy_proxy (cs_system c))) as [h|] eqn:Hh.
    + rewrite (serve_http_run clientIP r _ h Ha Hh). fold w1. destruct (serve_site_effect h r w1) as (oe & Hs & He & _).
      exists oe. rewrite <- (app_nil_l (option_list oe)). eapply runs_app; [exact (runs_step None _ _ Hadm)|].
      rewrite <- (app_nil_l (option_list oe)).
      eapply runs_app; [apply (runs_step None), (r_routed g r h); [apply lookup_insert_eq|exact Hpx]|].
      apply runs_step. rewrite insert_insert_eq.
      pose proof (r_served g h r oe (at_system w1 c) (<[g := (Some h, r)]> fl) (lookup_insert_eq _ _ _) Hs He) as Hsrv.
      rewrite delete_insert_id in Hsrv by done. exact Hsrv.
    + exists None. destruct (unknown_host clientIP r _ Ha Hh) as [_ ->]. fold w1.
      eapply runs_quiet; [exact (runs_step None _ _ Hadm)|].
      pose proof (r_unknown g r (at_system w1 c) (<[g := (None, r)]> fl) (lookup_insert_eq _ _ _) Hpx) as Hun.
      rewrite delete_insert_id in Hun by done. exact (runs_step None _ _ Hun).
Qed.

(** ** The invariant *)

Definition handler_configured (seen : list (list string)) (h : option SiteHandler) : Prop :=
  forall engine target domain, h = Some (Guarded engine target domain) -> configured seen engine.

Definition limiter_sound (w : System) : Prop := match sy_limiter w with Some l => limiter_wf l | None => True end.

Record sound (cap : nat) (c : Runtime) : Prop := mkSound {
  sound_db : db_wf (db_of (rt_system c));
  sound_types : typed_db (db_of (rt_system c));
  sound_engines : well_configured (rt_calls c);
  sound_flying : map_Forall (fun _ hr => handler_configured (cs_read (rt_calls c)) hr.1) (rt_flying c);
  sound_sink : sk_cap (sy_sink (rt_system c)) = cap /\ (length (sk_queue (sy_sink (rt_system c))) <= cap)%nat;
  sound_limiter : limiter_sound (rt_system c) }.

Lemma limiter_allow_wf key w : limiter_sound w -> limiter_sound (limiter_allow key w).2.
Proof.
  unfold limiter_sound, limiter_allow. destruct (sy_limiter w) as [l|] eqn:E; [|by cbn; rewrite E].
  intros Hl. cbn. match goal with |- context [Allow key ?a ?b l] => pose proof (allow_wf key a b l Hl); by destruct (Allow key a b l) end.
Qed.

Lemma limiter_cleanup_effect w :
  limiter_sound w ->
  limiter_sound (limiter_cleanup w) /\ db_of (limiter_cleanup w) = db_of w /\
  sy_engines (limiter_cleanup w) = sy_engines w /\ sy_proxy (limiter_cleanup w) = sy_proxy w /\
  sy_sink (limiter_cleanup w) = sy_sink w.
Proof.
  unfold limiter_sound, limiter_cleanup, db_of. destruct (sy_limiter w) as [l|] eqn:E; [|by rewrite E].
  intros Hl. cbn. split; [by apply sweep_wf|done].
Qed.

Lemma submit_bounded oe s cap :
  sk_cap s = cap -> (length (sk_queue s) <= cap)%nat ->
  sk_cap (submit_opt oe s) = cap /\ (length (sk_queue (submit_opt oe s)) <= cap)%nat.
Proof.
  intros Hc Hq. destruct oe as [e|]; [|done]. unfold submit_opt, Submit.
  destruct (length (sk_queue s) <? sk_cap s)%nat eqn:E; [|done]. apply Nat.ltb_lt in E. cbn.
  rewrite length_app. cbn. split; [done|lia].
Qed.

(** The database after a step of the worker. *)
Lemma worker_step_effect p p' :
  worker_step p p' ->
  sk_cap p'.1 = sk_cap p.1 /\ (length (sk_queue p'.1) <= length (sk_queue p.1))%nat /\
  (st_db p'.2 = st_db p.2 \/ exists e, p'.2 = (InsertEvent e p.2).2).
Proof.
  destruct 1 as [s e q st Hh Hq|s e st Hh]; unfold receive, insert_received; cbn [fst snd]; rewrite Hh, ?Hq; cbn.
  - split; [done|]. split; [lia|by left].
  - split; [done|]. split; [lia|]. right. by exists e.
Qed.

Lemma insert_event_frame e s :
  let d := st_db s in let d' := st_db (InsertEvent e s).2 in
  (db_wf d -> db_wf d') /\ db_sites d' = db_sites d /\ db_rules d' = db_rules d /\
  rows (db_events d) `prefix_of` rows (db_events d').
Proof.
  cbv zeta. split; [intros Hwf; exact (run_store_op_wf (OpInsertEvent e) s Hwf)|].
  unfold InsertEvent. destruct (sql_exec _ s) as [x s'] eqn:E.
  apply sql_exec_db in E as [(y & _ & Hdb)|(a & d & _ & Hf & Hdb)]; cbn [snd]; rewrite Hdb; [done|].
  unfold insert_row in Hf. case_decide; [done|]. injection Hf as _ <-. cbn.
  split; [done|]. split; [done|]. by apply prefix_app_r.
Qed.

(** A state with the same engines and routes is as well configured. *)
Lemma at_system_configured w c :
  well_configured c -> sy_engines w = sy_engines (cs_system c) -> sy_proxy w = sy_proxy (cs_system c) ->
  well_configured (at_system w c).
Proof. intros (Hm & Hp & Hc) He Hx. unfold well_configured, at_system. cbn. by rewrite He, Hx. Qed.

Lemma handler_found_configured c host h :
  well_configured c -> handlerFor host (sy_proxy (cs_system c)) = Some h -> handler_configured (cs_read c) (Some h).
Proof. intros (_ & Hp & _) Hh e t n [= ->]. exact (Hp _ e t n Hh). Qed.

(** What a step of a proxied request, the worker, the clean-up or the
    surroundings keeps of the invariant once its effects are known. *)
Lemma sound_at cap c fl fl' w :
  sound cap (mkRuntime c fl) ->
  db_wf (db_of w) -> typed_db (db_of w) ->
  sy_engines w = sy_engines (cs_system c) -> sy_proxy w = sy_proxy (cs_system c) ->
  map_Forall (fun _ hr => handler_configured (cs_read c) hr.1) fl' ->
  sk_cap (sy_sink w) = cap -> (length (sk_queue (sy_sink w)) <= cap)%nat -> limiter_sound w ->
  sound cap (mkRuntime (at_system w c) fl').
Proof. intros [_ _ Hc _ _ _] ? ? ? ? ? ? ? ?. constructor; try done. by apply at_system_configured. Qed.

Lemma rstep_sound cap oe c c' : rstep oe c c' -> sound cap c -> sound cap c'.
Proof.
  intros Hstep Hs. pose proof Hs as [Hdb Hty Hc Hf [Hcap Hq] Hlim]. destruct Hstep as
    [A m c fl Hm|c c' fl [Hown (Es & El & Ek)]|r c fl Ha|g r c fl Hg Ha|g r h c fl Hg Hh|g r c fl Hg Hh
    |g h r oe c fl Hg Hk He|p c fl Hw|c fl|s c fl E]; unfold rt_system in *; cbn [rt_calls rt_flying] in *.
  - apply (sound_at cap c fl); try done;
      [exact (api_op_keeps_wf authn A m Hm _ Hdb)|exact (api_op_keeps_types authn A m _ Hm Hty)].
  - constructor; unfold rt_system, db_of, limiter_sound in *; cbn [rt_calls rt_flying]; rewrite ?Es, ?El, ?Ek; try done.
    + by apply (cstep_configured c).
    + eapply map_Forall_impl; [exact Hf|]. intros i hr Hh engine t d Hg. eapply configured_mono; [by apply cstep_reads|by eapply Hh].
  - destruct (limiter_allow_frame (clientIP r) (cs_system c)) as (Ee & Ep & Es & Ed).
    apply (sound_at cap c fl); unfold db_of in *; rewrite ?Ed, ?Es; try done. by apply limiter_allow_wf.
  - destruct (limiter_allow_frame (clientIP r) (cs_system c)) as (Ee & Ep & Es & Ed).
    apply (sound_at cap c fl); unfold db_of in *; rewrite ?Ed, ?Es; try done; [|by apply limiter_allow_wf].
    by apply map_Forall_insert_2.
  - constructor; try done. apply map_Forall_insert_2; [by eapply handler_found_configured|done].
  - constructor; try done. by apply map_Forall_delete.
  - destruct (serve_site_effect h r (cs_system c)) as (_ & _ & _ & Ed & Ee & Ep & El).
    apply (sound_at cap c fl); unfold db_of, limiter_sound in *; rewrite ?Ed, ?El, ?Hk; try done.
    + by apply map_Forall_delete.
    + by apply submit_bounded.
    + by apply submit_bounded.
  - destruct (worker_step_effect _ _ Hw) as (Ec & Hlen & Ed). cbn [fst snd] in *.
    assert (db_wf (st_db p.2) /\ typed_db (st_db p.2)) as [? ?].
    { destruct Ed as [->|[e ->]]; [done|]. destruct (insert_event_frame e (sy_store (cs_system c))) as (Hwf & Esi & Eru & _).
      split; [by apply Hwf|]. unfold typed_db. by rewrite Esi, Eru. }
    apply (sound_at cap c fl); try done; cbn; [by rewrite Ec|lia].
  - destruct (limiter_cleanup_effect (cs_system c) Hlim) as (? & Ed & Ee & Ep & Es).
    apply (sound_at cap c fl); rewrite ?Ed, ?Es; done.
  - apply (sound_at cap c fl); unfold db_of in *; cbn [sy_store set_store system_has_store]; rewrite ?E; done.
Qed.

Lemma runs_sound cap es c c' : runs es c c' -> sound cap c -> sound cap c'.
Proof. induction 1 as [|oe es c1 c2 c3 Hstep _ IH]; [done|]. intros Hs. by eapply IH, rstep_sound. Qed.

(** ** From start-up *)

(** The database file, if there is one, is well-formed and typed, and the
    store is opened on it. *)
Definition fit_environment (env : Environment) : Prop :=
  (forall d, env_db env = Some d -> db_wf d /\ typed_db d) /\ (forall d, st_db (env_store env d) = d).

(** The program as [main] leaves it: one ruleset was read. *)
Definition started (run : Running) : Runtime :=
  mkRuntime (mkCState (run_system run) ∅ [enabled_directives (db_of (run_system run))]) ∅.

Lemma empty_db_typed : typed_db empty_db.
Proof. by split. Qed.

Lemma proxy_reload_configured seen m sites :
  engines_configured seen m -> proxy_configured seen (ProxyReload m sites).
Proof.
  intros Hm. unfold ProxyReload. assert (proxy_configured seen NewProxy) as Hp
    by (intros d e t n Hl; cbn in Hl; by rewrite lookup_empty in Hl).
  revert Hp. generalize NewProxy. induction sites as [|site sites IH]; intros p Hp; cbn [foldl]; [done|].
  by apply IH, add_site_configured.
Qed.

Lemma sound_start env run :
  fit_environment env -> start_up env = Ok run -> sound 4096 (started run).
Proof.
  intros [Hd Hst] Hrun. unfold start_up in Hrun. destruct (Load _ _) as [cfg [e|]]; [done|].
  destruct (Open _ _ _) as [d|e] eqn:Ho; [|done].
  assert (db_wf d /\ typed_db d) as [Hwf Hty].
  { unfold Open, migrate, schema in Ho. destruct (env_open env); [done|]. destruct (env_migrate env) as [[]|]; [done..|].
    injection Ho as <-. destruct (env_db env) as [d|] eqn:E; cbn; [by apply Hd|]. split; [apply empty_db_wf|apply empty_db_typed]. }
  set (w0 := initial_system cfg (env_store env d)) in *. destruct (reload_cases w0) as (Edb & El & Es & Hm).
  destruct (reload w0) as [[e|] w1]; cbn [fst snd] in *; [done|]. destruct Hm as [Hc Hpx].
  unfold on_store at 1 in Hrun. cbn [fst snd get_store set_store system_has_store] in Hrun.
  pose proof (fun a => new_frame (ac_Username (cfg_Admin cfg))
    (if decide (env_password env = "") then ac_Password (cfg_Admin cfg) else env_password env) (sy_store w1) a) as Hnew.
  destruct (New _ _ (sy_store w1)) as [[a|e] s2]; cbn [fst snd] in *; [|done].
  destruct (Hnew a eq_refl) as (Esi & Eru & Eev & _). rewrite dist_ok in Hrun. injection Hrun as <-. cbn [run_system].
  set (w2 := if decide (GeneratedPassword a = "") then _ else _).
  assert (st_db (sy_store w2) = st_db s2 /\ sy_engines w2 = sy_engines w1 /\ sy_proxy w2 = sy_proxy w1 /\
          sy_limiter w2 = sy_limiter w1 /\ sy_sink w2 = sy_sink w1) as (Ed2 & Ee2 & Ep2 & El2 & Es2).
  { unfold w2. case_decide; [done|]. split; [apply username_db|done]. }
  assert (db_wf (db_of w1) /\ typed_db (db_of w1)) as [(A1 & A2 & A3 & A4) [T1 T2]]
    by (rewrite Edb; unfold db_of, w0; cbn; by rewrite Hst).
  assert (engines_configured [enabled_directives (db_of w2)] (sy_engines w2)) as He.
  { exists (enabled_directives (db_of w2)). split; [by left|]. unfold db_of, enabled_directives. by rewrite Ee2, Ed2, Eru. }
  constructor; unfold rt_system, started; cbn [rt_calls rt_flying cs_system cs_read run_system];
    unfold db_of, limiter_sound in *; rewrite ?Ed2, ?El2, ?Es2.
  - unfold db_wf. by rewrite Esi, Eru, Eev.
  - unfold typed_db. by rewrite Esi, Eru.
  - rewrite <- Ed2. split; [exact He|]. split; [|apply map_Forall_empty]. cbn [cs_system cs_read]. rewrite Ep2, Hpx, <- Ee2.
    by apply proxy_reload_configured.
  - apply map_Forall_empty.
  - rewrite Es. cbn. split; [done|lia].
  - rewrite El. unfold w0, initial_system. cbn. destruct (rl_Enabled _); [apply new_limiter_wf|done].
Qed.

(** C2: Whatever the program does after a successful start on a fit database - store operations of
    admin requests and the steps of any number of reloads, requests admitted, routed and served,
    worker steps, limiter clean-ups, failing statements, a changing clock, in any interleaving - the
    database is well-formed and typed, both engines are there, the engines in force and those that
    routes and requests under way use were compiled from a ruleset some reload read, the sink holds
    at most 4096 events and the limiter's buckets are consistent. *)
Theorem every_state_sound (env : Environment) (run : Running) (es : list Event) (c : Runtime) :
  fit_environment env -> start_up env = Ok run -> runs es (started run) c -> sound 4096 c.
Proof. intros Henv Hrun Hruns. eapply runs_sound; [exact Hruns|]. by eapply sound_start. Qed.

(** ** The audit trail *)

(** What has been stored or is on its way, in order. *)
Definition trail (c : Runtime) : list Event := kept (sy_sink (rt_system c), sy_store (rt_system c)).

Definition event_rows (c : Runtime) : list Event := rows (db_events (db_of (rt_system c))).

Lemma trail_ext c c' :
  sy_sink (rt_system c') = sy_sink (rt_system c) -> db_events (db_of (rt_system c')) = db_events (db_of (rt_system c)) ->
  trail c' = trail c /\ event_rows c' = event_rows c.
Proof. intros Es Ed. unfold trail, event_rows, kept, stored. cbn [fst snd]. unfold db_of in *. by rewrite Es, Ed. Qed.

(** A step that submits nothing and adds no row. *)
Lemma trail_same c c' :
  sy_sink (rt_system c') = sy_sink (rt_system c) -> db_events (db_of (rt_system c')) = db_events (db_of (rt_system c)) ->
  event_rows c `prefix_of` event_rows c' /\
  forall before, trail c `sublist_of` before -> trail c' `sublist_of` before ++ (no_id <$> option_list None).
Proof.
  intros Es Ed. destruct (trail_ext c c' Es Ed) as [-> ->]. split; [done|]. intros before Hb. cbn. by rewrite app_nil_r.
Qed.

Lemma worker_trail p c fl :
  worker_step (sy_sink (cs_system c), sy_store (cs_system c)) p ->
  let c0 := mkRuntime c fl in let c1 := mkRuntime (at_system (set_worker p (cs_system c)) c) fl in
  event_rows c0 `prefix_of` event_rows c1 /\
  forall before, trail c0 `sublist_of` before -> trail c1 `sublist_of` before ++ (no_id <$> option_list None).
Proof.
  intros Hw. cbv zeta. destruct (worker_step_effect _ _ Hw) as (_ & _ & Ed). cbn [snd] in Ed. split.
  - unfold event_rows, db_of. cbn. destruct Ed as [->|[e ->]]; [done|]. apply insert_event_frame.
  - intros before Hb. unfold trail, rt_system in *. cbn [rt_calls at_system cs_system set_worker sy_sink sy_store] in *.
    revert Hb Hw. generalize (sy_sink (cs_system c)), (sy_store (cs_system c)). intros k st Hb Hw. inversion Hw; subst.
    + exact (sink_act_kept (k, st) AReceive before Hb).
    + replace ((insert_received (k, st)).1, (insert_received (k, st)).2) with (insert_received (k, st)) by (by destruct (insert_received _)).
      exact (sink_act_kept (k, st) AInsert before Hb).
Qed.

(** A step only appends to the stored events, and to the trail at most the
    event it submits. *)
Lemma rstep_trail oe c c' :
  rstep oe c c' ->
  event_rows c `prefix_of` event_rows c' /\
  forall before, trail c `sublist_of` before -> trail c' `sublist_of` before ++ (no_id <$> option_list oe).
Proof.
  destruct 1 as [A m c fl Hm|c c' fl [_ (Es & _ & Ek)]|r c fl Ha|g r c fl Hg Ha|g r h c fl Hg Hh|g r c fl Hg Hh
    |g h r oe c fl Hg Hk He|p c fl Hw|c fl|s c fl E].
  - apply trail_same; [done|]. exact (api_op_keeps_events authn A m _ Hm).
  - apply trail_same; [done|]. unfold db_of, rt_system. cbn [rt_calls]. by rewrite Es.
  - destruct (limiter_allow_frame (clientIP r) (cs_system c)) as (_ & _ & Es & Ed). apply trail_same; [done|].
    unfold db_of, rt_system. cbn [rt_calls at_system cs_system]. by rewrite Ed.
  - destruct (limiter_allow_frame (clientIP r) (cs_system c)) as (_ & _ & Es & Ed). apply trail_same; [done|].
    unfold db_of, rt_system. cbn [rt_calls at_system cs_system]. by rewrite Ed.
  - by apply trail_same.
  - by apply trail_same.
  - destruct (serve_site_effect h r (cs_system c)) as (_ & _ & _ & Ed & _). unfold event_rows, trail, rt_system, db_of.
    cbn [rt_calls at_system cs_system]. rewrite Ed, Hk. split; [done|]. intros before Hb.
    assert (forall k, kept (k, sy_store (serve_site h r (cs_system c)).2) = kept (k, sy_store (cs_system c))) as Ek
      by (intros k; unfold kept, stored; cbn [fst snd]; by rewrite Ed). rewrite Ek.
    destruct oe as [e|]; [|cbn; by rewrite app_nil_r].
    exact (sink_act_kept (sy_sink (cs_system c), sy_store (cs_system c)) (ASubmit e) before Hb).
  - by apply worker_trail.
  - unfold limiter_cleanup. destruct (sy_limiter (cs_system c)); by apply trail_same.
  - apply trail_same; [done|]. unfold db_of, rt_system. cbn. by rewrite E.
Qed.

Lemma runs_trail es c c' :
  runs es c c' ->
  event_rows c `prefix_of` event_rows c' /\
  forall before, trail c `sublist_of` before -> trail c' `sublist_of` before ++ (no_id <$> es).
Proof.
  induction 1 as [c|oe es c1 c2 c3 Hstep _ [IHp IHt]].
  - split; [done|]. intros before Hb. cbn. by rewrite app_nil_r.
  - destruct (rstep_trail _ _ _ Hstep) as [Hp Ht]. split; [by etrans|]. intros before Hb.
    rewrite fmap_app, app_assoc. by apply IHt, Ht.
Qed.

(** C6: In every run of the program the events table is only ever appended to - no request,
    authenticated or not, changes or removes an event - and what is stored, in the worker's hand or
    queued afterwards is, in order, a subsequence of what there was followed by the events of the
    requests served: nothing is reordered, duplicated or invented. *)
Theorem audit_trail (es : list Event) (c c' : Runtime) :
  runs es c c' ->
  event_rows c `prefix_of` event_rows c' /\ trail c' `sublist_of` trail c ++ (no_id <$> es).
Proof. intros Hr. destruct (runs_trail _ _ _ Hr) as [Hp Ht]. split; [done|]. by apply Ht. Qed.
End runtime.
