(* ===== verification/Instances.v ===== *)
(** * Concrete instances of the parameters

    Small implementations of the code outside the repository, with the laws
    the development assumes proved for them: they show that the assumptions are
    satisfiable and let the examples of [Examples] run. *)

From S2P Require Export Runtime WebSpec Shutdown.
From Stdlib Require Import Ascii.

Local Obligation Tactic := idtac.

(** bcrypt: a tag in front of the password. *)
Definition sample_hash (salt : res string) (pw : string) : res string :=
  match salt with
  | Err e => Err e
  | Ok _ => if (String.length pw <=? 72)%nat then Ok ("$" +:+ pw) else Err "bcrypt: too long"
  end.

#[export] Program Instance sample_bcrypt : Bcrypt := {|
  bcrypt_generate := sample_hash;
  bcrypt_compare h pw := bool_decide (h = "$" +:+ pw)
|}.
Next Obligation.
  intros [salt|e] pw h; unfold sample_hash; repeat case_match; intros [= <-]. by apply bool_decide_eq_true.
Qed.
Next Obligation.
  intros [salt|e] pw; unfold sample_hash; [|naive_solver]. destruct (_ <=? _)%nat eqn:E; simpl.
  - apply Nat.leb_le in E. naive_solver.
  - apply Nat.leb_gt in E. split; [done|]. intros [_ Hp]. lia.
Qed.

#[export] Instance sample_unicode : UnicodeTables := {| map_to_lower := ascii_lower |}.
#[export] Instance sample_release : UrlRelease := {| bracket_ok _ := true |}.
(** An upstream that hints early, switches protocols when asked, and otherwise
    says hello. *)
Definition sample_round_trip (n : N) (out : OutRequest) : list (Z * Header) * res UpstreamResponse :=
  if decide (out_path out = "/down") then ([], Err "connection refused")
  else if decide (upgradeType (out_header out) = "") then
    ([(103%Z, [("Link", ["</style.css>"])])],
     Ok (mkUpstream 200 [("Server", ["upstream"]); ("Connection", ["keep-alive"])] 5 [] ["hel"; "lo"] true []))
  else ([], Ok (mkUpstream 101 [("Connection", ["Upgrade"]); ("Upgrade", [upgradeType (out_header out)])] 0 [] [] true [])).

#[export] Program Instance sample_transport : Transport := {| round_trip := sample_round_trip |}.
Next Obligation.
  intros n out c h. unfold sample_round_trip. simpl. repeat case_decide; simpl;
    [by intros ?%elem_of_nil|intros [= -> ->]%list_elem_of_singleton; lia|by intros ?%elem_of_nil].
Qed.
#[export] Instance sample_keys : KeyPairs := {| Certificate := string; LoadX509KeyPair c k := Ok c |}.

Definition sample_issue (refused : option error) : res string :=
  match refused with None => Ok "acme" | Some e => Err e end.

Definition sample_challenge {W} (fallback : Handler W) : Handler W := fun r =>
  if has_prefix "/.well-known/acme-challenge/" (rq_path r) then ret ([WriteHeader 200], false) else fallback r.

#[export] Program Instance sample_autocert : Autocert := {|
  acme_protos := ["h2"; "http/1.1"; "acme-tls/1"];
  acme_name := ascii_lower;
  acme_cached _ := None;
  acme_get_certificate policy name := sample_issue (policy (ascii_lower name));
  acme_http_handler W policy fallback := sample_challenge fallback
|}.
Next Obligation. intros policy name e _ Hp. simpl in *. by rewrite Hp. Qed.
Next Obligation. intros W policy fallback r Hp. unfold sample_challenge. by rewrite Hp. Qed.

(** An engine that blocks URIs containing "attack", refuses directives
    containing "syntax error", and buffers four bytes of a body. *)
Record sample_tx := mkSampleTx { t_uri : string; t_buffer : string; t_int : option Interruption }.

Definition contains (needle s : string) : bool := bool_decide (is_Some (index_str needle s)).

Definition sample_apply (t : sample_tx) (c : tx_call) : sample_tx :=
  match c with ProcessURI u _ _ => mkSampleTx u (t_buffer t) (t_int t) | _ => t end.

Definition sample_headers (t : sample_tx) : option Interruption * sample_tx :=
  if contains "attack" (t_uri t)
  then (Some (mkInterruption 949110 403), mkSampleTx (t_uri t) (t_buffer t) (Some (mkInterruption 949110 403)))
  else (None, t).

Definition sample_matched (t : sample_tx) : list MatchedRule :=
  match t_int t with
  | None => []
  | Some _ => [mkMatched "SQL Injection" 942100 2;
               mkMatched "Inbound Anomaly Score Exceeded (Total Score: 5)" 949110 (-1)]
  end.

#[export] Program Instance sample_coraza : Coraza := {|
  WAF := string;
  Tx := sample_tx;
  new_waf d := if contains "syntax error" d then Err "parse failure" else Ok d;
  new_transaction _ _ := mkSampleTx "" "" None;
  tx_apply := sample_apply;
  process_request_headers := sample_headers;
  is_request_body_accessible _ := true;
  read_request_body_from body t :=
    (Ok None, str_drop 4 body, mkSampleTx (t_uri t) (t_buffer t +:+ str_take 4 body) (t_int t));
  request_body_reader t := Ok (t_buffer t);
  process_request_body t := (None, None, t);
  process_response_headers _ _ t := t;
  process_logging t := t;
  matched_rules := sample_matched;
  tx_interruption := t_int;
  tx_ID _ := "tx";
  tx_buffer := t_buffer
|}.
Next Obligation. done. Qed.
Next Obligation. intros t []; done. Qed.
Next Obligation. intros t. unfold sample_headers. by case_match. Qed.
Next Obligation.
  intros body t it rest t'. simpl. intros [= <- <- <-]. exists (str_take 4 body). simpl.
  by rewrite <- (str_take_drop 4 body) at 1.
Qed.
Next Obligation. intros t b. simpl. by intros [= <-]. Qed.

(** One request per second. *)
#[export] Instance sample_bucket : TokenBucket := {|
  Bucket := option time;
  new_bucket _ _ := None;
  bucket_allow t b :=
    match b with
    | None => (true, Some t)
    | Some t0 => if (t0 + time_second <=? t)%Z then (true, Some t) else (false, Some t0)
    end
|}.

Lemma sample_bucket_last rps burst ts t0 : bucket_after (new_bucket rps burst) ts = Some t0 -> t0 ∈ ts.
Proof.
  assert (forall b t1, bucket_after b ts = Some t1 -> b = Some t1 \/ t1 ∈ ts) as Hgen; [|by intros [|?]%Hgen].
  induction ts as [|t ts IH]; intros b t1; [by left|]. unfold bucket_after in *. simpl. intros E.
  apply IH in E as [E|E]; [|right; by apply elem_of_cons; right].
  destruct b as [t2|]; simpl in E; [destruct (_ <=? _)%Z|]; simpl in E; simplify_eq; auto;
    right; apply elem_of_cons; by left.
Qed.

Lemma sample_bucket_refills rps burst : refills_within (10 * time_minute) rps burst.
Proof.
  intros ts [|y ts'] _ Hgap; [done|]. destruct (bucket_after (new_bucket rps burst) ts) as [t0|] eqn:E; [|done].
  apply sample_bucket_last in E. specialize (Hgap t0 y E (list_elem_of_here _ _)).
  simpl. rewrite (proj2 (Z.leb_le _ _)); [done|].
  unfold time_minute, time_second, ns_per_sec in *. lia.
Qed.

#[export] Instance sample_messages : TimeMessages := {| time_parse_error _ := "parsing time" |}.

(** JSON texts written with single quotes. *)
Fixpoint js (s : string) : string :=
  match s with
  | EmptyString => ""
  | String c s => String (if decide (c = "'"%char) then dq else c) (js s)
  end.

Definition login_body : string := js "{'username': 'admin', 'password': 'correct horse'}".
Definition site_body_text : string :=
  js "{'domain': 'Shop.Example', 'upstream_url': 'http://10.0.0.2:8080', 'enabled': true}".
Definition rule_body_text : string := js "{'name': 'typo', 'directive': 'syntax error', 'enabled': true}".

(** Only the burst can be configured. *)
Definition sample_unmarshal (data : string) (c : Config) : Config * option error :=
  if decide (data = "burst: 5") then
    (mkConfig (cfg_Proxy c) (cfg_Admin c) (cfg_TLS c) (cfg_Database c)
      (mkRateLimitConfig (rl_Enabled (cfg_RateLimit c)) (rl_RequestsPerSecond (cfg_RateLimit c)) 5
        (rl_TrustForwardedHeader (cfg_RateLimit c)) (rl_ForwardedHeader (cfg_RateLimit c))), None)
  else (c, None).

Definition sample_has (data : string) (f : field) : bool :=
  match f with FBurst => bool_decide (data = "burst: 5") | _ => false end.

#[export] Program Instance sample_yaml : Yaml := {|
  yaml_unmarshal := sample_unmarshal;
  yaml_has := sample_has
|}.
Next Obligation.
  intros data c f. unfold sample_unmarshal, sample_has.
  destruct (decide (data = "burst: 5")); destruct f; simpl; try done. by rewrite bool_decide_true.
Qed.

(** Exact paths. *)
Fixpoint position {A} `{EqDecision A} (x : A) (l : list A) : option nat :=
  match l with [] => None | y :: l => if decide (x = y) then Some 0 else S <$> position x l end.

Definition sample_route (table : list (string * string)) (method path : string) : chi_result :=
  match position (method, path) table with
  | Some i => Found i ""
  | None => if has_prefix "/api" path then NotFound else FoundSpa
  end.

#[export] Program Instance sample_chi : Chi := {|
  chi_route := sample_route;
  chi_recover out := if out.2 then [WriteHeader 500] else out.1
|}.
Next Obligation. done. Qed.
Next Obligation. done. Qed.

(** Everything is text; no conditional or range request is understood. *)
#[export] Program Instance sample_files : FileAnswers := {|
  media_type _ _ := "text/plain";
  conditional_answer _ _ _ := None;
  list_page l := join nl l
|}.
Next Obligation. done. Qed.
