(* ===== verification/Examples.v ===== *)
(** * Worked examples

    The theorems of the development at concrete states and requests, with the
    sample instances of the parameters: every hypothesis can be met. *)

From S2P Require Import Instances.
From Stdlib Require Import Ascii.

(** ** Concrete states *)

Definition now0 : time := 1700000000000000000%Z.

(** A store with one site and the account of "admin". *)
Definition site0 : Site :=
  mkSite 1 "example.com" "http://10.0.0.1:80" WAFModeOn TLSModeOff "" "" true now0 now0.
Definition rule0 : CustomRule := mkRule 1 "block" "SecRule ARGS foo" "" true now0 now0.
Definition event0 : Event :=
  mkEvent 1 now0 "tx" "example.com" "10.9.9.9" "GET" "/x" true 403 942100 "SQL Injection" 2 5 (Some [942100%Z]).
Definition db0 : DB :=
  mkDB (mkTable [site0] 1) (mkTable [rule0] 1) (mkTable [event0] 1)
    {[ keyUsername := "admin"; keyHash := "$correct horse" ]}.
Definition st0 : StoreState := mkStoreState db0 now0 [] [] [].

Definition authn0 : Authenticator := mkAuth "secret" "".

Definition request (method host path uri : string) (cookies : list (string * string)) (body : option string) : Request :=
  mkRequest method host "192.0.2.7:4711" path "" "" uri uri [] "HTTP/1.1" [] [] cookies true 7
    (Z.of_nat (String.length (default "" body))) body.

(** The same with headers. *)
Definition with_headers (r : Request) (h : Header) : Request :=
  mkRequest (rq_method r) (rq_host r) (rq_remote_addr r) (rq_path r) (rq_raw_path r) (rq_raw_query r) (rq_uri r)
    (rq_url r) (rq_query r) (rq_proto r) h (rq_transfer_encoding r) (rq_cookies r) (rq_tls r) (rq_seed r)
    (rq_content_length r) (rq_body r).

Definition embedded0 : list (string * string) := [("dist/index.html", "<html>"); ("dist/assets/app.js", "main()")].

Definition engines0 : Manager := (ManagerReload [] NewManager).2.
Definition w0 : System := mkSystem st0 engines0 (ProxyReload engines0 [site0]) None (newEventSink 4096).

Lemma db0_wf : db_wf db0.
Proof.
  repeat split; simpl; try apply NoDup_singleton; try (by repeat constructor); unfold int64_max; try lia;
    (constructor; [simpl; lia|constructor]).
Qed.

Lemma st0_no_faults : no_faults st0.
Proof. constructor. Qed.

(** ** The program *)

Lemma admin_keeps_running_witness :
  let rs := [request "POST" "localhost" "/api/rules" "/api/rules" [] (Some rule_body_text)] in
  db_wf (db_of (run_admin authn0 (dist_tree embedded0) rs w0)) /\
  live (run_admin authn0 (dist_tree embedded0) rs w0).
Proof.
  intros rs. apply (admin_keeps_running authn0 (dist_tree embedded0) rs w0).
  - exact db0_wf.
  - exists []. by eexists _, _.
Defined.

Lemma admin_keeps_types_witness :
  let rs := [request "POST" "localhost" "/api/rules" "/api/rules" [] (Some rule_body_text)] in
  typed_db (db_of (run_admin authn0 (dist_tree embedded0) rs w0)).
Proof.
  intros rs. apply (admin_keeps_types authn0 (dist_tree embedded0) rs w0).
  split; apply Forall_singleton; by apply (bool_decide_unpack _); vm_compute.
Defined.

(** A route of the front end, reloaded in the browser. *)
Definition deep_link : Request := request "GET" "localhost" "/sites/5" "/sites/5" [] None.

Lemma spa_serves_witness :
  exists dist, Dist embedded0 = Ok dist /\ (SPAHandler dist deep_link w0).1.2 = false /\
    (SPAHandler dist deep_link w0).1.1 = serveContent (with_path deep_link "/") "index.html" "<html>".
Proof.
  destruct (spa_serves embedded0 "<html>" deep_link "sites/5" w0) as (dist & Hd & Hs & _); [by split|done|].
  exists dist. split; [exact Hd|]. rewrite Hs. split; [reflexivity|by vm_compute].
Defined.

Lemma reload_spec_witness : (reload w0).1 = None <-> compiles (enabled_directives (db_of w0)).
Proof.
  destruct (reload_spec w0) as (_ & _ & _ & _ & H). exact (H st0_no_faults).
Defined.

Definition site_request : Request := request "POST" "localhost" "/api/sites" "/api/sites" [] (Some site_body_text).
Definition new_site0 : Site :=
  mkSite 0 "Shop.Example" "http://10.0.0.2:8080" WAFModeOn TLSModeAuto "" "" true zero_time zero_time.
Definition target0 : URL := mkURL "http" "" "10.0.0.2:8080" "" "" "".

Lemma site_request_body :
  site_body site_request = Some (mkSite 0 "Shop.Example" "http://10.0.0.2:8080" "" "" "" "" true zero_time zero_time).
Proof. by vm_compute. Qed.

Lemma create_site_served_witness :
  let q := createSite (Some reload) "" site_request w0 in
  status_of q.1 = 201%Z /\
  handlerFor "Shop.Example:443" (sy_proxy q.2) = Some (handler_of (sy_engines q.2) new_site0 target0).
Proof.
  destruct (create_site_served "" site_request
    (mkSite 0 "Shop.Example" "http://10.0.0.2:8080" "" "" "" "" true zero_time zero_time) new_site0 w0)
    as (H1 & _ & _ & H2 & _);
    [exact site_request_body|by vm_compute|exact st0_no_faults|by vm_compute| |by eexists _, _|].
  - intros x Hx. apply list_elem_of_singleton in Hx. subst x. by vm_compute.
  - split; [exact H1|]. destruct (H2 "443") as [_ E]; [by vm_compute..|]. etransitivity; [exact E|by vm_compute].
Defined.

Definition untouched_site : Request := request "GET" "localhost" "/api/sites/1" "/api/sites/1" [] None.
Definition put_back : Request :=
  request "PUT" "localhost" "/api/sites/1" "/api/sites/1" [] (Some (json_encode (site_json site0))).

Lemma site0_valid : valid_site site0.
Proof. repeat split; try done; by apply (bool_decide_unpack _). Qed.

Lemma site0_textual : site_textual site0.
Proof.
  split; [repeat (apply Forall_cons_2; [by apply utf8_ascii|]); apply Forall_nil_2|].
  split; [|split]; apply (bool_decide_unpack _); by vm_compute.
Qed.

Lemma get_put_site_witness :
  (updateSite (Some reload) "1" put_back (getSite "1" untouched_site w0).2).1 =
  writeJSON 200 (site_json (site_with_times now0 now0 site0)).
Proof.
  destruct (get_put_site "1" untouched_site put_back site0 w0) as (_ & Hput & _);
    [exact st0_no_faults|exact db0_wf|by vm_compute|exact site0_valid|exact site0_textual|reflexivity|].
  exact Hput.
Defined.

(** ** Overlapping reloads *)

(** The program with engines and no routes yet. *)
Definition unrouted : System := mkSystem st0 engines0 NewProxy None (newEventSink 4096).

Lemma engines0_compiled : compiled [] engines0.
Proof. by eexists _, _. Qed.

Lemma unrouted_configured ph : ph ∈ [[]] -> well_configured (mkCState unrouted {[0%nat := BuildEngines ph]} [[]]).
Proof.
  intros Hph. split; [exists []; split; [by left|exact engines0_compiled]|]. split.
  - intros d e t n Hl. cbn in Hl. by rewrite lookup_empty in Hl.
  - by apply map_Forall_singleton.
Qed.

Lemma only_configured_engines_witness :
  live (set_proxy (ProxyReload engines0 [site0]) (set_engines engines0 unrouted)).
Proof.
  apply (only_configured_engines (mkCState unrouted {[0%nat := BuildEngines []]} [[]])
    (mkCState (set_proxy (ProxyReload engines0 [site0]) (set_engines engines0 unrouted)) (delete 0%nat ∅) [[]])).
  - apply unrouted_configured. by left.
  - exact (own_steps _ _ (call_finishes 0 [] engines0 unrouted ∅ [[]] engines0_compiled)).
Defined.

Lemma lone_reload_witness :
  exists w' seen', rtc cstep (mkCState unrouted ∅ []) (mkCState w' ∅ seen') /\ synced w'.
Proof.
  destruct (lone_reload 7 unrouted ∅ []) as (w' & seen' & Hrun & _ & _ & Hs); [done|by vm_compute|].
  by exists w', seen'.
Defined.

(** A second rule arrives while the first call compiles. *)
Definition rule1 : CustomRule := mkRule 2 "more" "SecRule ARGS bar" "" true now0 now0.
Definition st_two_rules : StoreState :=
  mkStoreState (on_rules db0 (mkTable [rule0; rule1] 2)) now0 [] [] [].

Lemma overlapping_reloads_stale_witness :
  exists c, rtc cstep (mkCState w0 ∅ []) c /\ cs_calls c = ∅ /\
    db_of (cs_system c) = st_db st_two_rules /\
    Engine WAFModeOn (sy_engines (cs_system c)) = Some (directives_of "SecRule ARGS foo" "On").
Proof.
  destruct (overlapping_reloads_stale w0 st_two_rules
    (ManagerReload (enabled_directives (db_of w0)) NewManager).2
    (ManagerReload (enabled_directives (st_db st_two_rules)) NewManager).2 [])
    as (c1 & c2 & H1 & H2 & _ & _ & _ & Hnone & Hdb & Heng); [by eexists _, _|by eexists _, _|].
  exists c2. split; [by etrans|]. split; [exact Hnone|]. split; [exact Hdb|]. by rewrite Heng.
Defined.

Definition rule_request : Request := request "POST" "localhost" "/api/rules" "/api/rules" [] (Some rule_body_text).
Definition bad_rule : CustomRule := mkRule 0 "typo" "syntax error" "" true zero_time zero_time.

Lemma rule_request_body : rule_body rule_request = Some bad_rule.
Proof. by vm_compute. Qed.

Lemma create_rule_rollback_witness :
  let q := createRule (Some reload) "" rule_request w0 in
  status_of q.1 = 400%Z /\ rows (db_rules (db_of q.2)) = [rule0] /\ sy_engines q.2 = engines0.
Proof.
  destruct (create_rule_rollback "" rule_request bad_rule w0) as (H1 & H2 & _ & _ & _ & H3 & _);
    [exact rule_request_body|done|done|exact st0_no_faults|exact db0_wf|done|apply (bool_decide_unpack _); by vm_compute|].
  split; [exact H1|]. split; [exact H2|exact H3].
Defined.

Lemma update_rule_sticks_witness :
  let q := updateRule (Some reload) "1" rule_request w0 in
  status_of q.1 = 400%Z /\
  exists row, find_row 1 (db_rules (db_of q.2)) = Some row /\ rule_Directive row = "syntax error".
Proof.
  destruct (update_rule_sticks "1" rule_request bad_rule rule0 w0) as (H1 & _ & _ & (row & H2 & H3 & _) & _);
    [exact rule_request_body|done|done|exact st0_no_faults|exact db0_wf|by vm_compute|apply (bool_decide_unpack _); by vm_compute|].
  split; [exact H1|]. exists row. split; [exact H2|exact H3].
Defined.

(** ** Sessions *)

Definition anonymous : Request := request "DELETE" "localhost" "/api/sites" "/api/sites" [] None.
Definition anonymous_get : Request := request "GET" "localhost" "/api/sites" "/api/sites" [] None.

Lemma unauthenticated_requests_witness :
  status_of (ApiServe authn0 (Some reload) None anonymous_get w0).1 = 401%Z.
Proof.
  destruct (unauthenticated_requests authn0 (Some reload) None anonymous_get w0) as [_ H]; [done|done|].
  apply (H 5 "" (mkRoute "GET" "/api/sites" true listSites)); done.
Defined.

Definition login_request : Request := request "POST" "localhost" "/api/login" "/api/login" [] (Some login_body).

(** The cookie issued to "admin" at [now0], and a request one day later. *)
Definition cookie0 : Cookie :=
  match (IssueCookie authn0 login_request "admin" st0).1 with
  | SetCookie c :: _ => c
  | _ => mkCookie "" "" "" None 0 false false false
  end.
Definition later : Request :=
  request "GET" "localhost" "/api/me" "/api/me" [(cookieName, ck_value cookie0)] None.
Definition st_later : StoreState := mkStoreState db0 (now0 + 24 * time_hour)%Z [] [] [].

Lemma session_lifetime_witness : (verify authn0 later st_later).1 = Some "admin".
Proof.
  destruct (session_lifetime authn0 login_request later "admin" st0 st_later cookie0) as [H _];
    [reflexivity|reflexivity|by apply (bool_decide_unpack _)|].
  rewrite H. clear H. vm_compute. reflexivity.
Defined.

Lemma verify_sound_witness :
  exists encoded expStr exp,
    cookie_get later cookieName = Some (encoded +:+ "." +:+ sign authn0 ("admin" +:+ "|" +:+ expStr)) /\
    b64_decode encoded = Some ("admin" +:+ "|" +:+ expStr) /\
    parse_int expStr = (exp, None) /\ (unix (now_of st_later) <= exp)%Z /\ char_in "|"%char "admin" = false.
Proof. apply (verify_sound authn0 later st_later "admin"). by vm_compute. Defined.

Definition st_empty : StoreState := mkStoreState empty_db now0 [] [] [].

Lemma sessions_survive_restart_witness :
  let s2 := (New "" "" st_empty).2 in
  exists a a', (New "" "" st_empty).1 = Ok a /\ (New "" "" s2).1 = Ok a' /\ secret a' = secret a.
Proof.
  intros s2.
  set (a := mkAuth (fill 32 "") (b64_encode (fill 12 ""))). set (a' := mkAuth (fill 32 "") "").
  assert ((New "" "" st_empty).1 = Ok a) as Ha by (by vm_compute).
  assert ((New "" "" s2).1 = Ok a') as Ha' by (by vm_compute).
  exists a, a'. split; [exact Ha|]. split; [exact Ha'|].
  exact (proj1 (sessions_survive_restart "" "" "" "" st_empty s2 st0 a a' later Ha eq_refl Ha')).
Defined.

Lemma new_establishes_witness :
  exists a, (New "" "" st_empty).1 = Ok a /\ setting keyUsername (New "" "" st_empty).2 = Some "admin" /\
    account_ready "" None a (New "" "" st_empty).2.
Proof.
  destruct (new_establishes "" "" st_empty) as (a & H1 & H2 & H3 & _);
    [by split; constructor|done|simpl; lia|].
  by exists a.
Defined.

Lemma change_password_safe_witness :
  (ChangePassword "wrong" "another password" st0).1 = Some ErrInvalidCredentials /\
  st_db (ChangePassword "wrong" "another password" st0).2 = db0.
Proof. split; [by vm_compute|]. exact (change_password_safe "wrong" "another password" st0). Defined.

Lemma change_password_exact_witness :
  let p := ChangePassword "correct horse" "battery staple" st0 in
  p.1 = None /\ accepts p.2 "admin" "battery staple" = true /\ setting keyUsername p.2 = setting keyUsername st0.
Proof. exact (change_password_exact "correct horse" "battery staple" st0 st0_no_faults eq_refl). Defined.

Lemma login_opens_session_witness :
  exists c rest, (login authn0 "" login_request w0).1 = SetCookie c :: rest /\ status_of (SetCookie c :: rest) = 200%Z.
Proof.
  destruct (login_opens_session authn0 "" login_request later "admin" "correct horse" w0 w0 (fun _ => ret []))
    as (c & rest & H1 & H2 & _); [by vm_compute|exact st0_no_faults|by vm_compute|by apply (bool_decide_unpack _)|].
  by exists c, rest.
Defined.

(** ** Start-up *)

Definition env0 : Environment :=
  mkEnvironment "config.yaml" (FileMissing "no such file") "" embedded0 None (Some db0) None
    (fun d => mkStoreState d now0 [] [] []).

Lemma start_up_ready_witness :
  exists run, start_up env0 = Ok run /\ synced (run_system run).
Proof.
  destruct (start_up_ready env0 db0 Default) as (run & H1 & H2 & _).
  - do 3 (split; [done|]). intros d. split; [done|]. by split; constructor.
  - done.
  - by eexists _, _.
  - done.
  - simpl. lia.
  - by exists run.
Defined.

(** ** The data plane *)

Definition attack : Request := request "GET" "example.com" "/" "/?q=attack" [] None.
Definition upload : Request := request "POST" "Example.com:80" "/up" "/up" [] (Some "0123456789").
Definition key_ip (r : Request) : string := clientIPFunc (cfg_RateLimit Default) r.
Definition target1 : URL := mkURL "http" "" "10.0.0.1:80" "" "" "".
Definition engine_on : WAF := directives_of "" "On".
Definition attack_tx : Tx := mkSampleTx "/?q=attack" "" (Some (mkInterruption 949110 403)).

Lemma attack_blocked_witness :
  let q := ProxyServeHTTP key_ip attack w0 in
  q.1 = ([WriteHeader 403], false) /\
  exists e, sk_queue (sy_sink q.2) = [e] /\ ev_Blocked e = true /\ ev_ClientIP e = "192.0.2.7".
Proof.
  destruct (attack_blocked key_ip attack attack w0 engine_on target1 "example.com" (mkInterruption 949110 403) attack_tx)
    as (H1 & e & H2 & H3 & _ & _ & _ & H4 & _); [reflexivity|by vm_compute|by vm_compute|].
  split; [exact H1|]. exists e. split; [exact (proj1 H2)|]. split; [exact H3|exact H4].
Defined.

(** A request with headers of every kind, and what reaches the upstream. *)
Definition page_request : Request :=
  with_headers (request "GET" "example.com" "/x" "/x?a=1" [] None)
    [("Accept", ["*/*"]); ("Connection", ["close, X-Secret"]); ("X-Secret", ["1"]); ("Te", ["trailers"]);
     ("X-Forwarded-For", ["10.1.1.1"])].
Definition out0 : OutRequest :=
  mkOut "GET" "http" "10.0.0.1:80" "example.com" "/x" "" ""
    [("Accept", ["*/*"]); ("Te", ["trailers"]); ("X-Forwarded-For", ["10.1.1.1, 192.0.2.7"]); ("User-Agent", [""])] [] 0 None.

Lemma out0_outgoing : outgoing target1 page_request = Some out0.
Proof. by vm_compute. Qed.

Lemma request_forwarded_witness :
  exists out, (ProxyServeHTTP key_ip page_request w0).1 = relay_answer false out (round_trip (rq_seed page_request) out) /\
    lookup_key "X-Secret" (out_header out) = None /\ lookup_key "Te" (out_header out) = Some ["trailers"] /\
    lookup_key "X-Forwarded-For" (out_header out) = Some ["10.1.1.1, 192.0.2.7"] /\ out_path out = "/x".
Proof.
  destruct (request_forwarded key_ip page_request w0 (Guarded engine_on target1 "example.com")) as (out & Hf & Hq);
    [reflexivity|by vm_compute|eexists _, _; by vm_compute|].
  exists out. split; [exact Hq|].
  split; [rewrite (fw_headers _ _ _ Hf) by (by apply (bool_decide_unpack _)); by vm_compute|].
  split; [rewrite (fw_te _ _ _ Hf); by vm_compute|].
  split; [rewrite (fw_client _ _ _ Hf); by vm_compute|]. by rewrite (fw_path _ _ _ Hf "x").
Defined.

Definition answer0 : UpstreamResponse :=
  mkUpstream 200 [("Server", ["upstream"]); ("Connection", ["keep-alive"])] 5 [] ["hel"; "lo"] true [].

Lemma exchange_relayed_witness :
  let client := run_wops (ProxyServeHTTP key_ip page_request w0).1.1 empty_response in
  rs_informational client = [103%Z] /\ rs_body client = [Raw "hel"; Raw "lo"].
Proof.
  destruct (exchange_relayed key_ip page_request w0 (Guarded engine_on target1 "example.com") out0
    [(103%Z, [("Link", ["</style.css>"])])] (Ok answer0)) as (_ & header & _ & _ & Hi & Hb);
    [reflexivity|by vm_compute|eexists _, _; by vm_compute|exact out0_outgoing|by vm_compute|vm_compute; by split| |reflexivity|].
  - split; [by apply (bool_decide_unpack _)|]. by repeat constructor.
  - split; [exact Hi|exact Hb].
Defined.

(** A WebSocket handshake. *)
Definition chat : Request :=
  with_headers (request "GET" "example.com" "/chat" "/chat" [] None)
    [("Connection", ["Upgrade"]); ("Upgrade", ["websocket"])].

Lemma firewall_breaks_upgrades_witness :
  status_of (serve_site (Plain target1) chat w0).1.1 = 101%Z /\
  status_of (serve_site (Guarded engine_on target1 "example.com") chat w0).1.1 = 502%Z.
Proof.
  eapply (firewall_breaks_upgrades engine_on target1 "example.com" chat _ _ w0); [done|by vm_compute..].
Defined.

Lemma waf_transparent_witness :
  (WafMiddleware engine_on (fun r w => (([Write (Raw (default "" (rq_body r)))], false), w)) submit_event "example.com" upload w0).1
  = ([Write (Raw "0123456789")], false).
Proof.
  rewrite (waf_transparent engine_on (fun r w => (([Write (Raw (default "" (rq_body r)))], false), w)) submit_event
    "example.com" upload upload (mkSampleTx "/up" "0123" None) w0) by (by vm_compute).
  reflexivity.
Defined.

Lemma build_event_spec_witness :
  match (buildEvent attack_tx attack "example.com" true 403 w0).1 with
  | Some e => ev_Severity e = 2%Z /\ ev_RuleID e = 942100%Z
  | None => False
  end.
Proof.
  pose proof (build_event_spec attack_tx attack "example.com" true 403 w0) as H.
  assert (exists e, (buildEvent attack_tx attack "example.com" true 403 w0).1 = Some e) as [e He]
    by (by eexists; vm_compute).
  rewrite He in *. destruct H as (_ & _ & _ & _ & _ & _ & [(mr & (l1 & l2 & Hl & Hs & _) & Hsev & _ & Hid)|(Hall & _)]).
  - vm_compute in Hl. destruct l1 as [|x [|y [|z l1]]]; simplify_eq/=; done.
  - apply Forall_cons in Hall as [Hx _]. unfold is_detection, unset in Hx. simpl in Hx. lia.
Defined.

Lemma reload_tables_witness :
  px_handlers (ProxyReload engines0 [site0]) !! "example.com" = Some (Guarded engine_on target1 "example.com").
Proof. rewrite (proj1 (reload_tables engines0 [site0] "example.com")). by vm_compute. Defined.

Lemma site_reachable_witness :
  handlerFor ("EXAMPLE.com" +:+ ":" +:+ "8080") (ProxyReload engines0 [site0]) =
  Some (handler_of engines0 site0 target1).
Proof.
  apply (site_reachable engines0 [site0] site0 target1 "EXAMPLE.com" "8080"); try (by vm_compute).
  - apply list_elem_of_here.
  - intros s' Hs' _. by apply list_elem_of_singleton in Hs'.
Defined.

Definition site_auto : Site := mkSite 2 "tls.example" "http://10.0.0.3:80" WAFModeOff TLSModeAuto "" "" true now0 now0.

Definition acme_cert : @Certificate sample_keys := "acme".

Lemma certificate_policy_witness :
  (exists s, s ∈ [site_auto] /\ cert_entry (to_lower "tls.example") s = Some acme_cert) \/
  Exists (serves_auto (to_lower (acme_name "tls.example"))) [site_auto].
Proof. apply (certificate_policy engines0 [site_auto] "tls.example" acme_cert); by vm_compute. Defined.

(** A second request within the second is over the limit. *)
Definition busy : Limiter := (Allow "192.0.2.7" now0 now0 (NewLimiter twenty 40)).2.
Definition w_busy : System := mkSystem st0 engines0 (ProxyReload engines0 [site0]) (Some busy) (newEventSink 4096).

Lemma over_limit_refused_witness :
  status_of (ProxyServeHTTP key_ip attack w_busy).1.1 = 429%Z.
Proof. apply (over_limit_refused key_ip attack w_busy). by vm_compute. Defined.

Definition w_tls : System := mkSystem st0 engines0 (ProxyReload engines0 [site_auto]) None (newEventSink 4096).
Definition plain_request : Request := request "GET" "tls.example" "/a" "/a" [] None.

Lemma plaintext_listener_witness :
  status_of (HTTPHandler key_ip plain_request w_tls).1.1 = 301%Z.
Proof. rewrite (plaintext_listener key_ip plain_request w_tls) by reflexivity. by vm_compute. Defined.

Lemma anomaly_score_reported_witness :
  ev_AnomalyScore (event_of attack_tx attack "example.com" true 403 (summarize (matched_rules attack_tx)) now0) = 5%Z.
Proof.
  apply (anomaly_score_reported attack_tx attack "example.com" true 403 w0
    (event_of attack_tx attack "example.com" true 403 (summarize (matched_rules attack_tx)) now0)
    [mkMatched "SQL Injection" 942100 2] [] (mkMatched "Inbound Anomaly Score Exceeded (Total Score: 5)" 949110 (-1))
    "Inbound Anomaly Score Exceeded (" "" ")"%char 5); try (by vm_compute).
  by repeat constructor.
Defined.

Lemma recorder_informational_witness :
  recorded_status [WriteHeader 103; WriteHeader 200] = 103%Z /\
  status_of [WriteHeader 103; WriteHeader 200] = status_of [WriteHeader 200].
Proof. apply (recorder_informational 103 [WriteHeader 200]); lia. Defined.

(** ** Rate limiting *)

Definition second (n : Z) : time := (now0 + n * time_second)%Z.
Definition traffic : list lop :=
  [OpAllow "a" (second 0); OpAllow "a" (second 0); OpAllow "b" (second 0); OpCleanup (second 700); OpAllow "a" (second 701)].

Lemma eviction_invisible_witness :
  run_limiter traffic (NewLimiter twenty 40) = run_reference twenty 40 [] traffic.
Proof.
  apply (eviction_invisible twenty 40 traffic); [apply sample_bucket_refills|].
  repeat (constructor; [|by repeat (constructor; [by vm_compute|])]). constructor.
Defined.

Definition ls1 : LState :=
  mkLState (allow_locked "a" now0 (NewLimiter twenty 40)).2 {[ 1 := ("a", 0) ]} None.

Lemma buckets_never_shared_witness : unshared ls1.
Proof.
  apply (buckets_never_shared twenty 40). apply rtc_once.
  exact (step_lock 1 "a" now0 (NewLimiter twenty 40) ∅ None (lookup_empty _)).
Defined.

(** ** Storage *)

Definition taken : Site := mkSite 0 "example.com" "http://other" WAFModeOn TLSModeOff "" "" true now0 now0.

Lemma db_wf_preserved_witness :
  db_wf (st_db (run_store_ops [OpCreateSite site_auto; OpCreateSite taken; OpDeleteRule 1; OpInsertEvent event0] st0)).
Proof. apply (db_wf_preserved _ st0). exact db0_wf. Defined.

Lemma site_ops_refine_witness :
  site_spec now0 false false (sites_of st0) (SCreate taken) (Some unique_domain_error) (sites_of st0).
Proof. exact (site_ops_refine (SCreate taken) st0 db0_wf). Defined.

Lemma listings_engine_independent_witness :
  @ListSites reference_engine st0 = @ListSites reversing_engine st0 /\
  @ListRules reference_engine st0 = @ListRules reversing_engine st0 /\
  @EnabledRuleDirectives reference_engine st0 = @EnabledRuleDirectives reversing_engine st0.
Proof. apply (listings_engine_independent reference_engine reversing_engine st0). exact db0_wf. Defined.

Lemma event0_times : event_times_ok db0.
Proof. constructor; [|constructor]. apply (bool_decide_unpack _). by vm_compute. Qed.

Lemma list_events_page_witness :
  exists before after,
    before ++ [event0] ++ after ≡ₚ filter (fun e => event_matches (mkFilter "" true 10 0) e = true) [event0] /\
    length before = 0.
Proof.
  destruct (list_events_page (mkFilter "" true 10 0) st0 [event0] (ListEvents (mkFilter "" true 10 0) st0).2)
    as (before & after & H1 & _ & H3 & _); [exact event0_times|by vm_compute|].
  exists before, after. split; [exact H1|]. rewrite H3. simpl. lia.
Defined.

Lemma stats_timeline_witness :
  exists st, (StatsOf time_hour st0).1 = Ok st /\ ss_TotalEvents st = 1%Z /\ ss_BlockedEvents st = 1%Z.
Proof.
  destruct (stats_timeline time_hour st0) as (st & H1 & H2 & H3 & _);
    [exact st0_no_faults|exact event0_times|by apply (bool_decide_unpack _); vm_compute|].
  exists st. split; [exact H1|]. rewrite H2, H3. split; by vm_compute.
Defined.

Definition stats0 : Stats :=
  mkStats 1 1 [mkRuleCount 942100 "SQL Injection" 1] [mkClientCount "10.9.9.9" 1]
    [mkPoint (hour_floor now0) 1 1].

Lemma stats_top_rules_witness : (length (ss_TopRules stats0) <= 10)%nat.
Proof.
  apply (stats_top_rules time_hour st0 stats0);
    [exact st0_no_faults|exact event0_times|by apply (bool_decide_unpack _); vm_compute|by vm_compute].
Defined.

Lemma sink_accounting_witness :
  let p := run_sink [ASubmit event0; AReceive; ASubmit event0; AInsert] (newEventSink 1, st0) in
  kept p = stored st0 ++ (no_id <$> [event0; event0]).
Proof.
  destruct (sink_accounting 1 [ASubmit event0; AReceive; ASubmit event0; AInsert] st0) as [_ H];
    [exact st0_no_faults|by vm_compute|].
  apply H. by vm_compute.
Defined.

(** ** The running program *)

Lemma worker_drains_witness :
  exists n p', nsteps worker_step n (mkSink 8 [event0; event0] (Some event0) [], st0) p' /\ sk_queue p'.1 = [] /\ n = 5%nat.
Proof.
  destruct (worker_drains (mkSink 8 [event0; event0] (Some event0) [], st0)) as (_ & (n & p' & Hrun & Hnf) & Hall).
  destruct (Hall n p' Hrun Hnf) as (Hn & _ & Hq & _). exists n, p'. split; [exact Hrun|]. split; [exact Hq|exact Hn].
Defined.

Lemma attack_recorded_witness :
  exists n p e, nsteps worker_step n (sy_sink (ProxyServeHTTP key_ip attack w0).2, sy_store (ProxyServeHTTP key_ip attack w0).2) p /\
    last (rows (db_events (st_db p.2))) = Some e /\ ev_Blocked e = true.
Proof.
  destruct (attack_recorded key_ip attack attack w0 engine_on target1 "example.com" (mkInterruption 949110 403) attack_tx)
    as (n & p & e & Hrun & _ & _ & Hlast & Hb & _);
    [reflexivity|by vm_compute|by vm_compute|exact st0_no_faults|by apply (Nat.ltb_lt _ _); vm_compute|by vm_compute|].
  exists n, p, e. split; [exact Hrun|]. split; [exact Hlast|exact Hb].
Defined.

(** Admission, a whole rule request with its reload in between, then routing
    and serving. *)
Definition rt0 : Runtime := mkRuntime (mkCState w0 ∅ [[]]) ∅.
Definition rule_post : Request := request "POST" "localhost" "/api/rules" "/api/rules" [] (Some rule_body_text).
Definition admitted0 : CState := mkCState (limiter_allow (key_ip attack) w0).2 ∅ [[]].
Definition flying0 (h : option SiteHandler) : gmap nat (option SiteHandler * Request) := {[ 0%nat := (h, attack) ]}.

Lemma mixed_run : exists es c, runs authn0 key_ip es rt0 c.
Proof.
  destruct (requests_are_runs authn0 (dist_tree embedded0) key_ip rule_post admitted0 (flying0 None)) as [[seen Hrule] _].
  set (w1 := (admin_handler authn0 (dist_tree embedded0) rule_post (cs_system admitted0)).2) in *.
  set (h1 := Guarded engine_on target1 "example.com").
  set (c1 := mkCState w1 ∅ (seen ++ [[]])).
  assert (handlerFor (rq_host attack) (sy_proxy w1) = Some h1) as Hh by (by vm_compute).
  destruct (serve_site_effect h1 attack w1) as (oe & Hs & He & _).
  exists ([] ++ [] ++ [] ++ option_list oe). eexists.
  eapply runs_app; [apply (runs_step _ _ None), (r_admitted _ _ 0 attack (mkCState w0 ∅ [[]]) ∅); [done|by vm_compute]|].
  eapply runs_app; [exact Hrule|].
  eapply runs_app; [apply (runs_step _ _ None), (r_routed _ _ 0 attack h1 c1); [done|exact Hh]|].
  apply runs_step, (r_served _ _ 0 h1 attack oe c1); [done|exact Hs|exact He].
Qed.

Lemma audit_trail_witness :
  exists es c, runs authn0 key_ip es rt0 c /\ event_rows rt0 `prefix_of` event_rows c.
Proof.
  destruct mixed_run as (es & c & Hrun). exists es, c. split; [exact Hrun|].
  exact (proj1 (audit_trail authn0 key_ip es rt0 c Hrun)).
Defined.

Lemma env0_fit : fit_environment env0.
Proof.
  split; [|done]. intros d [= <-]. split; [exact db0_wf|].
  split; apply Forall_singleton; by apply (bool_decide_unpack _); vm_compute.
Qed.

Lemma every_state_sound_witness :
  exists run, start_up env0 = Ok run /\ sound 4096 (started run).
Proof.
  assert (is_ok (start_up env0) = true) as Hok by (by vm_compute).
  destruct (start_up env0) as [run|e] eqn:E; [|discriminate Hok].
  exists run. split; [done|].
  exact (every_state_sound authn0 key_ip env0 run [] _ env0_fit E (runs_nil _ _ _)).
Defined.

(** Two servers, the first with a connection that stays busy. *)
Lemma wait_for_shutdown_terminates_witness :
  let conns (srv : HttpServer) (t : time) : list Conn := [fun _ => Some (StateActive, t)] in
  exists finish closed, waitForShutdown (fun _ _ => 0%Z) conns (startServers Default) now0 = Some (finish, closed) /\
    (finish <= now0 + 10 * ns_per_sec)%Z /\ length closed = length (startServers Default).
Proof.
  intros conns. destruct (wait_for_shutdown_terminates (fun _ _ => 0%Z) conns (startServers Default) now0)
    as (finish & closed & Hrun & [_ Hf] & Hl & _); [intros srv k; lia|].
  exists finish, closed. split; [exact Hrun|]. split; [exact Hf|exact Hl].
Defined.
